(* ===== verification/_CoqProject ===== *)
-Q . S2P
Prelude.v
X86.v
Locks.v
FrameAlloc.v
Bootboot.v
Phys.v
BootInfo.v
WindowCache.v
VCache.v
Mapper.v
Mem.v
Heap.v
EarlyHeap.v
Boot.v
Handover.v
MemDemo.v
Elf.v
Tar.v
Task.v
Exec.v
Sched.v
Init.v
Framebuffer.v
Apic.v
Acpi.v
AcpiDemo.v
Cores.v
Startup.v
Interrupts.v
Debug.v
Calib.v
Start.v
CoresDemo.v
Syscall.v
Trace.v
Owner.v
History.v
Install.v
Isolation.v
User.v
Stale.v
Power.v
Secure.v
TaskDemo.v
InstallDemo.v
UserDemo.v
StaleDemo.v
PowerDemo.v
