(* ===== verification/Prelude.v ===== *)
(** * HeliumOS: a verification development

    HeliumOS is a kernel for x86-64 written in Rust ([src/kernel]), with a
    small user library ([src/userspace]).  A boot loader hands it a memory map;
    the kernel builds an allocator of physical frames in that memory, takes
    over the page tables, grows a heap on page faults, indexes a tar archive
    of programs, loads ELF files into tasks and schedules them on the cores
    from the timer interrupt; tasks enter it through four system calls.  The
    primary core does this alone until it has read the firmware's tables and
    allocated a stack and descriptor table for every core; then it wakes the
    others.  The first timer interrupt loads [/bin/init], which starts the
    other program.

    ** The files

    - [Prelude] (this file): panics and the state monad, machine integers,
      bytes and fields, lists, tactics.  A function of the kernel is a
      [M S A], from a state [S] to a result and a state, or a panic with its
      reason.  The kernel is built with the debug profile, so an arithmetic
      overflow is a panic; [add64] and the like say where it can happen.
    - [X86]: what the code uses of the [x86_64] crate, as the class [X86] with
      the laws [X86Ok] its documentation gives, and a reference instance.
      The end of the loader's identity map is a parameter of the same class;
      memory reached by its physical address must be below it and not null.
    - [Locks]: the locks.  Which locks every entry of the kernel takes, with the
      scopes of their guards, as programs; the cores run them in any
      interleaving.  The [spin] crate is the class [Spin] with its laws.
    - [FrameAlloc]: the interface of the frame allocator (the traits
      [FrameAllocator], [FrameDeallocator] behind [palloc] and [pfree]) and
      what it promises, a set of free frames.
    - [Bootboot], [Phys]: the boot information ([bootboot.rs]) and the
      allocator ([mem/phys.rs]) with its bitmaps; [Phys] implements
      [FrameAlloc].  [BootInfo]: the boot information as the loader writes it
      into memory, byte by byte.
    - [WindowCache], [VCache]: the interface of the virtual cache, a relation
      between windows and frames, and the cache ([mem/virt/vcache.rs]) with
      its counters and lazily released entries, which implements it.
    - [Mapper]: page tables ([mem/virt/mapper.rs], [mem/virt/mod.rs]) as
      frames of 512 words in memory, reached through the cache; [translate] is
      the walk of the hardware.  Proved against the two interfaces.
    - [Mem], [Heap], [EarlyHeap]: the services of [mem/mod.rs], the growth of
      the heap ([mem/heap.rs]) and the allocator over a static array
      ([mem/early_heap.rs]); the crate behind both heaps is the class
      [HeapCrate] with the laws of its documentation.
    - [Boot]: taking the memory over from the loader, [virt::init] with the
      initialisation of the cache and of the mapper and the move of the
      allocator's headers ([mem/virt], [mem/phys.rs]).  [Handover]: that the
      allocator [phys::init] builds meets the assumptions of [Boot].
    - [MemDemo]: the theorems on memory applied to a concrete memory built
      from the kernel's own allocator and cache.
    - [Elf]: [elf.rs], from bytes.  [Tar]: [fs/tar.rs] and [fs/initrd.rs].
    - [Task]: memory maps, the loader and the registers of a task, the first
      half of [proc/task.rs]; frames have contents here.  [Exec]: the loading
      of a whole program, segment after segment through one window.
    - [Sched]: the scheduler, the second half of [proc/task.rs], with the part
      of [ProcInfo] ([proc/mod.rs]) it uses.  The task list and the cores hold
      references into a store of tasks.  [Init]: the first tick, from the
      ramdisk to a running task.
    - [Trace]: a relation that the changes of the state respect holds between
      the states of any run of the kernel; an interface, the class [Trace].
      [Owner], [History], [Isolation] are its instances: which frames belong to
      which task, what happens to tasks through time, and how user space stays
      apart from the kernel.
    - [Install]: the memory map of a task put into the page tables, up to the
      jump to the task.  [Stale]: the same for the next task, after an exit.
    - [Framebuffer]: [dev/framebuffer.rs].  [Apic]: [proc/apic/regmap.rs], the
      set-up of a core in [proc/apic/mod.rs] and the calibration loop of
      [interrupts/pic.rs].
    - [Acpi]: the firmware's tables ([acpi/mod.rs], [acpi/tables.rs]), the
      handlers registered for them ([cfgtb.rs]) and what is read from the
      interrupt controller table ([proc/apic/mod.rs]); a byte is read through
      the page tables.  [AcpiDemo]: a concrete set of tables.
    - [Cores]: what one core does to start, [proc/mod.rs] and [mem/gdt.rs] with
      [syscall::enable]; the per-core tables are maps from the number of a
      core, reached through mapped pages only.  [Startup]: the interleaving of
      all cores as the step relation [startup_step].  [Interrupts]: the old
      controller ([interrupts/pic.rs]), the vector table
      ([interrupts/mod.rs]) and page faults ([interrupts/exceptions]).
      [CoresDemo]: a concrete machine with two cores.
    - [Debug]: the output to the debug port ([debug.rs]), the panic handler
      ([sys.rs]) and the exceptions that are only reported.  [Calib]: the
      set-up of a core's controller and the calibration with everything they
      write ([proc/apic/mod.rs], [interrupts/pic.rs]).
    - [Start]: [_start] ([main.rs]), [mem::init] and [console::init], all
      components on one state.  [Power]: from the loader to the first program.
      [Secure]: the same for the separation of user space and kernel.
      [PowerDemo]: a concrete machine.
    - [Syscall]: the entries of the kernel, [proc/syscall.rs] with its stub and
      [interrupts/lapic/timer.rs], and the user's side of a system call; the
      step relation [kernel_step] is one entry on one core.
    - [User]: the runtime of user programs ([userspace/runtime]) and [init]
      ([userspace/init]) on top of the kernel's entries.
    - [TaskDemo], [InstallDemo], [UserDemo], [StaleDemo]: the theorems on tasks,
      scheduling, system calls and programs applied to concrete states.

    ** What the theorems show

    Frames: construction, allocation and release keep the bitmaps well formed
    and refine a set of free frames; allocation is first fit; the headers
    written at start-up do not overlap.  Windows: every operation of the cache
    refines a partial map from windows to frames.  Page tables: [map] installs
    exactly the requested translations, keeps the tables a tree of frames that
    are not free, and never makes a kernel page accessible to users; removing
    the identity map empties the lower half.  Taking over: from the loader's
    tables the kernel reaches a tree of tables it can change through the
    cache, without the lower half and with the allocator's headers in place.
    Boot information: the kernel reads what the loader wrote.  Services and
    heap: each page gets a fresh frame of its own and no other translation
    changes.  Files:
    parsing reads back what the format's encoder wrote; indexing any archive
    terminates.  Loading: an accepted segment ends up in fresh frames with its
    bytes and zeros, and the refusals before the allocation change nothing,
    the one for want of frames only the map; a whole program is
    loaded so that later segments leave earlier ones alone, and the first tick
    loads and runs [/bin/init].  Scheduling: the
    invariant of [Sched] (no task on two cores, running tasks are the current
    ones, unique identifiers) holds in every state reached by interrupts and
    system calls; a tick never panics and does what is described; exit frees
    the task's frames.  Entries: calls and results survive the register
    protocol.  Firmware: walking tables in the standard's layout registers
    what they list.  Ownership: in every reachable state a frame of a task is
    in one place and not free.  History: a task keeps what identifies it, and
    identifiers are not used again.  Isolation: in every state reached after
    power-on the tables are in order, no page of kernel space is open to user
    code or moves, and the frames of tasks are no tables.  Locks: the entries
    of any number of cores, interleaved in any way, exclude each other as the
    locks promise and never block each other.  Programs: the first interrupt enters [init],
    which sees exactly its file in memory; its calls are answered 1, 2, 1 and
    leave [dummy] as the second task.  Start-up: whatever the interleaving, the cores all reach
    the event loop in a bounded number of steps, each with its own tables and
    the selectors the assembly expects, and the scheduler starts from the
    state its theorems assume.  Faults: a fault of the kernel in the heap at
    or above its head maps the page, one below it returns unchanged, and every
    other one stops the kernel unchanged.  The whole boot:
    [Power.boot_reaches_init] composes the components, from the loader's state
    through [_start] and every interleaving of the cores to [init] running.
    Output: numbers are printed so that they can be read back, and the reports
    of exceptions determine what they report, when the screen is usable and
    the core does not hold the debug writer.  Early heap: with the laws of the
    crate, every answer has the type the allocator interface asks for.  Calibration: the set-up of a core
    with all it draws, prints and writes is the one the start-up uses.

    Some theorems show behaviour the code should not have: a lost word of the
    bitmap, pages mapped twice by the heap, memory maps that are never
    switched so that a task runs in the freed memory of another, a first task
    that is never preempted in favour of another, an unacknowledged interrupt,
    pixels stored outside the screen, firmware tables that make the kernel loop
    or fault, task state segments inside a stack, two cores on one stack, a page
    that faults for ever, a panic handler that calls itself, an exception that
    spins for a lock of its own core, memory reached by its physical address
    without a check that it is mapped.  Their comments say so.

    ** Bounds and fuel

    [Tar.init_map] has one turn per 512 bytes of the image plus one, and
    [Task.exec_headers] one per program header; [init_map_terminates] and
    [exec_headers_terminates] show that this is enough.  [Acpi.madt_for] has
    one turn per entry and one more, and [Acpi.walk_recursive] one level per
    nesting of tables; the panic [OutOfFuel] marks a run that needs more, and
    [acpi_handler_diverges] is about a table for which no fuel is enough.
    [Debug.panic] has one unit per nested activation, for which the stack must
    have room: one is enough on a good screen, and [panic_recurses] is about
    screens for which none is.  There [OutOfFuel] also marks a message that
    spins for a lock that cannot be released.  A number
    has at most 64 digits, its width in the smallest base.  [User.exit] has one
    unit per panic of the program; the first call does not return
    ([exit_ends]).  [Calib.pit_loop] has one turn per count the PIT answers.
    Every other loop runs over a list.  The theorems on the mapper ask for four
    free frames per page, the worst case of a walk that allocates every level;
    those on reachable states ask for none, a run without frames panics.  The clock of the
    scheduler is assumed not to wrap (2^64 ticks).  There are at most 256 cores,
    the number of identifiers; what concerns places in the table of processors
    is for at most eleven of them, which one node of a [BTreeMap] holds.

    ** What is not modelled

    In all files but [Locks] an operation of a core is one step, and what other
    cores do to it is visible only through locks it fails to take, which are
    parameters; [Locks] has the interleavings of the lock operations, without
    the data they protect, after the start-up and without panics.
    In [Startup] the registration of a core and its enabling of system calls are
    single steps: what another core inserts into the table of processors
    between the lookup of an entry, whose lock is released at once, and the use
    of the reference is not seen there.  The ramdisk is a list of bytes;
    [Power.boot_reaches_init] asks that its frames are neither free nor tables,
    and shows that they still are not after the start-up.  The stack of a core
    has no bound, so that what follows its overflow is not covered.
    The translation buffer is a log of flushes; caches and memory ordering are
    left out.  [println!] and the progress pixels are modelled in [_start], in
    the exceptions, in the panic handler and in the set-up of the controllers
    ([Start], [Debug], [Calib]) and left out of the other files.
    Assembly is modelled where it moves registers (the system call stub, the
    jump to a task).  Third-party crates are parameters: [x86_64] is the
    classes [X86] and [GdtCrate], [linked_list_allocator] the class
    [HeapCrate], [spin] the class [Spin], [ordinalizer] a function with its documented values.  What
    the kernel's own data structures take from the heap before [late_start] is
    not counted: the heap is taken not to fault during start-up, as the
    comment in [mem/heap.rs] asks.  User code is modelled by the calls it makes;
    what other cores do between two calls of one program is in [Owner],
    [History], [Isolation] and [Syscall], not in [User]; what it writes to
    memory is not modelled.  A step of the kernel in these files is a timer
    interrupt or a system call on a core below 256; page faults of the heap are
    in [Interrupts], so that the growth of the heap by the vectors of the
    scheduler inside such a step is not part of it.  The build scripts are not modelled; the font header
    [PSF2] of [bootboot.rs] is used by no code. *)

From stdpp Require Export prelude gmap strings.
From Stdlib Require Export ZArith Lia.

#[global] Open Scope Z_scope.

(** ** Panics and effects *)

(** Why a computation of the kernel stops.  The kernel is built with the
    debug profile ([scripts/build.sh] runs plain [cargo build]), so an
    arithmetic overflow is a panic and not a wrap-around. *)
Inductive panic_reason :=
  | Overflow     (** checked arithmetic of the debug profile *)
  | Bounds       (** slice or array index out of range *)
  | Unwrap       (** [unwrap] or [expect] of [None] or [Err] *)
  | Assert       (** [assert!], [assert_eq!], [debug_assert!] *)
  | Unreachable  (** [unreachable!()], [todo!()] *)
  | Explicit     (** [panic!] *)
  | Crate        (** a documented panic of the [x86_64] crate *)
  | Undefined    (** an unsafe access the source makes with no defined value *)
  | OutOfFuel.   (** no panic of the code: it is still running when the fuel ends *)

#[global] Instance panic_reason_eq_dec : EqDecision panic_reason.
Proof. solve_decision. Defined.

Inductive res (A : Type) : Type :=
  | Ok (a : A)
  | Panic (r : panic_reason).
Arguments Ok {A} a.
Arguments Panic {A} r.

#[global] Instance res_ret : MRet res := λ A a, Ok a.
#[global] Instance res_bind : MBind res := λ A B f m,
  match m with Ok a => f a | Panic r => Panic r end.

(** Kernel code runs in a state monad over [res]: the state is the part of
    the kernel the function can reach, and a panic ends the computation. *)
Definition M (S A : Type) : Type := S → res (A * S).

#[global] Instance M_ret {S} : MRet (M S) := λ A a s, Ok (a, s).
#[global] Instance M_bind {S} : MBind (M S) := λ A B f m s,
  match m s with Ok (a, s') => f a s' | Panic r => Panic r end.

Definition get {S} : M S S := λ s, Ok (s, s).
Definition put {S} (s : S) : M S unit := λ _, Ok (tt, s).
Definition gets {S A} (f : S → A) : M S A := λ s, Ok (f s, s).
Definition modify {S} (f : S → S) : M S unit := λ s, Ok (tt, f s).
Definition fail {S A} (r : panic_reason) : M S A := λ _, Panic r.

(** Running a pure fallible computation inside the state monad. *)
Definition lift {S A} (m : res A) : M S A := λ s,
  match m with Ok a => Ok (a, s) | Panic r => Panic r end.

(** [Option::unwrap], [Result::unwrap], [expect]. *)
Definition of_option {A} (r : panic_reason) (o : option A) : res A :=
  match o with Some a => Ok a | None => Panic r end.
Definition unwrap {A} (o : option A) : res A := of_option Unwrap o.

(** Running an operation of a component on the part of the state it owns. *)
Definition zoom {S T A} (g : S → T) (p : T → S → S) (m : M T A) : M S A := λ s,
  match m (g s) with Ok (a, t) => Ok (a, p t s) | Panic r => Panic r end.

Definition assert {S} (b : bool) : M S unit :=
  if b then mret tt else fail Assert.

(** [for x in l { f(x) }]. *)
Fixpoint for_ {S A} (l : list A) (f : A → M S unit) : M S unit :=
  match l with
  | [] => mret tt
  | x :: l' => f x ≫= λ _, for_ l' f
  end.

(** [Result<A, E>]. *)
Inductive result (A E : Type) : Type :=
  | ROk (a : A)
  | RErr (e : E).
Arguments ROk {A E} a.
Arguments RErr {A E} e.

(** [Result::unwrap], [Result::expect]. *)
Definition unwrap_result {A E} (r : result A E) : res A :=
  match r with ROk a => Ok a | RErr _ => Panic Unwrap end.

Definition is_ok {A} (m : res A) : Prop := ∃ a, m = Ok a.

(** ** Machine integers *)

(** A [w]-bit unsigned integer is a [Z] in [0, 2^w); every operation of the
    source that can leave that range goes through [chk]. *)
Definition in_width (w x : Z) : Prop := 0 ≤ x < 2 ^ w.
Definition chk (w x : Z) : res Z :=
  if (0 <=? x) && (x <? 2 ^ w) then Ok x else Panic Overflow.

Definition add64 (a b : Z) : res Z := chk 64 (a + b).
Definition sub64 (a b : Z) : res Z := chk 64 (a - b).
Definition mul64 (a b : Z) : res Z := chk 64 (a * b).
Definition wrap (w x : Z) : Z := x mod 2 ^ w.
Definition u64_max : Z := 2 ^ 64 - 1.

(** [start, start+1, ..., start+n-1]. *)
Definition range (n : Z) : list Z := Z.of_nat <$> seq 0 (Z.to_nat n).

(** Indexing a Rust slice: out of range panics. *)
Definition index {A} (l : list A) (i : Z) : res A :=
  if 0 <=? i then of_option Bounds (l !! Z.to_nat i) else Panic Bounds.

(** ** Bytes *)

(** A byte string is a list of numbers below 256; a [w]-byte integer of a
    [repr(C, packed)] structure is stored with its low byte first. *)
Definition bytes_ok (l : list Z) : Prop := Forall (in_width 8) l.
Fixpoint le_decode (l : list Z) : Z :=
  match l with [] => 0 | b :: l' => b + 256 * le_decode l' end.
Fixpoint le_encode (w : nat) (x : Z) : list Z :=
  match w with O => [] | S w' => x mod 256 :: le_encode w' (x / 256) end.

(** [len] bytes at [off]. *)
Definition sub_bytes (l : list Z) (off len : nat) : list Z := take len (drop off l).
(** Reading a field of a structure; bytes outside [l] are not ours to read. *)
Definition read_field (l : list Z) (off w : nat) : res Z :=
  if (off + w <=? length l)%nat then Ok (le_decode (sub_bytes l off w)) else Panic Undefined.

(** A sequence of integer fields, each with its width in bytes. *)
Definition encode_fields (fs : list (nat * Z)) : list Z := fs ≫= λ '(w, x), le_encode w x.
Definition field_offset (fs : list (nat * Z)) (k : nat) : nat := sum_list (fst <$> take k fs).
Definition field_ok (f : nat * Z) : Prop := 0 ≤ snd f < 256 ^ Z.of_nat (fst f).

(** Bytes of a string literal. *)
Definition bytes_of_string (s : string) : list Z :=
  (λ c, Z.of_nat (Ascii.nat_of_ascii c)) <$> String.list_ascii_of_string s.

(** [R] holds between any two different positions of a list. *)
Fixpoint pairwise {A} (R : A → A → Prop) (l : list A) : Prop :=
  match l with
  | [] => True
  | x :: l' => Forall (R x) l' ∧ pairwise R l'
  end.

(** Number of elements a boolean test accepts. *)
Fixpoint countb {A} (p : A → bool) (l : list A) : Z :=
  match l with
  | [] => 0
  | x :: l' => (if p x then 1 else 0) + countb p l'
  end.

(** ** Lemmas on effects *)

Section monad_lemmas.
Context {S : Type}.

Lemma M_bind_Ok {A B} (m : M S A) (f : A → M S B) s b s'' :
  (m ≫= f) s = Ok (b, s'') ↔ ∃ a s', m s = Ok (a, s') ∧ f a s' = Ok (b, s'').
Proof.
  unfold mbind, M_bind. destruct (m s) as [[a s']|r]; naive_solver.
Qed.

Lemma M_bind_run {A B} (m : M S A) (f : A → M S B) s a s' :
  m s = Ok (a, s') → (m ≫= f) s = f a s'.
Proof. unfold mbind, M_bind. by intros ->. Qed.

Lemma M_bind_ext {A B} (m : M S A) (f g : A → M S B) s :
  (∀ a s', f a s' = g a s') → (m ≫= f) s = (m ≫= g) s.
Proof. unfold mbind, M_bind. intros H. destruct (m s) as [[a s']|]; [apply H|done]. Qed.

Lemma M_bind_panic {A B} (m : M S A) (f : A → M S B) s r :
  m s = Panic r → (m ≫= f) s = Panic r.
Proof. unfold mbind, M_bind. by intros ->. Qed.

Lemma M_bind_assoc {A B C} (m : M S A) (f : A → M S B) (g : B → M S C) s :
  ((m ≫= f) ≫= g) s = (m ≫= (λ x, f x ≫= g)) s.
Proof. unfold mbind, M_bind. by destruct (m s) as [[]|]. Qed.

Lemma lift_Ok {A} (m : res A) (s : S) a s' :
  lift m s = Ok (a, s') ↔ m = Ok a ∧ s' = s.
Proof. unfold lift. destruct m; naive_solver. Qed.

Lemma lift_run {A} (m : res A) (s : S) a : m = Ok a → lift m s = Ok (a, s).
Proof. by intros ->. Qed.

Lemma zoom_Ok {T A} (g : S → T) p (m : M T A) s a s' :
  zoom g p m s = Ok (a, s') ↔ ∃ t, m (g s) = Ok (a, t) ∧ s' = p t s.
Proof. unfold zoom. destruct (m (g s)) as [[]|]; naive_solver. Qed.

Lemma zoom_run {T A} (g : S → T) p (m : M T A) s a t :
  m (g s) = Ok (a, t) → zoom g p m s = Ok (a, p t s).
Proof. unfold zoom. by intros ->. Qed.

Lemma for_nil {A} (f : A → M S unit) s : for_ [] f s = Ok (tt, s).
Proof. done. Qed.

Lemma for_cons {A} x (l : list A) (f : A → M S unit) s :
  for_ (x :: l) f s = (f x ≫= λ _, for_ l f) s.
Proof. done. Qed.

Lemma for_app {A} (l k : list A) (f : A → M S unit) s :
  for_ (l ++ k) f s = (for_ l f ≫= λ _, for_ k f) s.
Proof.
  revert s. induction l as [|x l IH]; intros s; [done|].
  rewrite <-app_comm_cons, for_cons. simpl. rewrite M_bind_assoc.
  unfold mbind, M_bind. destruct (f x s) as [[? s']|]; [|done]. apply IH.
Qed.

(** A loop whose body keeps an invariant terminates with the invariant. *)
Lemma for_inv {A} (P : S → Prop) (l : list A) (f : A → M S unit) s :
  P s → (∀ x s, x ∈ l → P s → ∃ s', f x s = Ok (tt, s') ∧ P s') →
  ∃ s', for_ l f s = Ok (tt, s') ∧ P s'.
Proof.
  intros HP Hf. revert s HP. induction l as [|x l IH]; intros s HP; [by eexists|].
  destruct (Hf x s) as (s1 & H1 & HP1); [set_solver|done|].
  rewrite for_cons. rewrite (M_bind_run _ _ _ _ _ H1).
  apply IH; [|done]. intros y s2 Hy. apply Hf. set_solver.
Qed.

(** Partial-correctness version, indexed by the elements already handled. *)
Lemma for_Ok_ind {A} (P : list A → S → Prop) (l : list A) (f : A → M S unit) s s' :
  for_ l f s = Ok (tt, s') → P [] s →
  (∀ k x s1 s2, k ++ [x] `prefix_of` l → P k s1 → f x s1 = Ok (tt, s2) → P (k ++ [x]) s2) →
  P l s'.
Proof.
  intros Hrun H0 Hstep.
  assert (∀ k l1 s1, k ++ l1 = l → P k s1 → for_ l1 f s1 = Ok (tt, s') → P l s')
    as Hgen; [|by eapply (Hgen [] l s)].
  intros k l1. revert k. induction l1 as [|x l1 IH]; intros k s1 Hk HP Hr.
  - rewrite app_nil_r in Hk. subst. simpl in Hr. unfold mret, M_ret in Hr.
    by simplify_eq.
  - rewrite for_cons in Hr. apply M_bind_Ok in Hr as ([] & s2 & Hx & Hr).
    apply (IH (k ++ [x]) s2).
    + by rewrite <-app_assoc.
    + eapply Hstep; [|done|done]. exists l1. by rewrite <-app_assoc.
    + done.
Qed.
End monad_lemmas.

(** Inverts every successful monadic step among the hypotheses. *)
Ltac inv_step :=
  match goal with
  | H : (_ ≫= _) _ = Ok (_, _) |- _ => apply M_bind_Ok in H as (? & ? & ? & ?)
  | H : lift _ _ = Ok (_, _) |- _ => apply lift_Ok in H as [? ->]
  | H : zoom _ _ _ _ = Ok (_, _) |- _ => apply zoom_Ok in H as (? & ? & ->)
  | H : mret _ _ = Ok (_, _) |- _ => unfold mret, M_ret in H; simplify_eq
  | H : get _ = Ok (_, _) |- _ => unfold get in H; simplify_eq
  | H : gets _ _ = Ok (_, _) |- _ => unfold gets in H; simplify_eq
  | H : put _ _ = Ok (_, _) |- _ => unfold put in H; simplify_eq
  | H : modify _ _ = Ok (_, _) |- _ => unfold modify in H; simplify_eq
  | H : fail _ _ = Ok _ |- _ => unfold fail in H; discriminate H
  end.
Ltac inv_ok := repeat (inv_step; simplify_eq).

(** Evaluates the first step of a bind when its result is known. *)
Ltac run_step H := rewrite (M_bind_run _ _ _ _ _ H).

(** ** Runs that reach a given end *)

(** [m] runs from [s] to an end that satisfies [Q]. *)
Definition yields {S A} (m : M S A) (s : S) (Q : A → S → Prop) : Prop := ∃ a s', m s = Ok (a, s') ∧ Q a s'.

Lemma yields_bind {S A B} (m : M S A) (f : A → M S B) s Q :
  yields m s (λ a s', yields (f a) s' Q) → yields (m ≫= f) s Q.
Proof. intros (a & s1 & Hr & b & s2 & Hr2 & HQ). exists b, s2. split; [by run_step Hr|done]. Qed.
Lemma yields_modify {S} (f : S → S) s (Q : unit → S → Prop) : Q tt (f s) → yields (modify f) s Q.
Proof. intros HQ. by exists tt, (f s). Qed.
Lemma yields_zoom {S T A} (g : S → T) (p : T → S → S) (m : M T A) s (Q : A → S → Prop) :
  yields m (g s) (λ a t, Q a (p t s)) → yields (zoom g p m) s Q.
Proof. intros (a & t & Hr & HQ). exists a, (p t s). split; [by apply zoom_run|done]. Qed.
Lemma yields_run {S A} (m : M S A) s a s' (Q : A → S → Prop) : m s = Ok (a, s') → Q a s' → yields m s Q.
Proof. intros. by exists a, s'. Qed.

(** [m] returns from [s], without a panic. *)
Definition returns {S A} (m : M S A) (s : S) : Prop := ∃ a s', m s = Ok (a, s').
Lemma returns_fst {S A B} (m : M S A) (f : A → M S B) s : returns (m ≫= f) s → returns m s.
Proof. intros (b & s2 & (a & s1 & H & _)%M_bind_Ok). by exists a, s1. Qed.
Lemma returns_snd {S A B} (m : M S A) (f : A → M S B) s a s1 :
  m s = Ok (a, s1) → returns (m ≫= f) s → returns (f a) s1.
Proof. intros Hm (b & s2 & Hr). rewrite (M_bind_run _ _ _ _ _ Hm) in Hr. by exists b, s2. Qed.
(** The same, when there is another reason [N] for the run to succeed. *)
Lemma or_returns_fst {S A B} (N N' : Prop) (m : M S A) (f : A → M S B) s :
  (N → N') → N ∨ returns (m ≫= f) s → N' ∨ returns m s.
Proof. intros HN [?|H]; [left; auto|right; by eapply returns_fst]. Qed.
Lemma or_returns_snd {S A B} (N N' : Prop) (m : M S A) (f : A → M S B) s a s1 :
  m s = Ok (a, s1) → (N → N') → N ∨ returns (m ≫= f) s → N' ∨ returns (f a) s1.
Proof. intros Hm HN [?|H]; [left; auto|right; by eapply returns_snd]. Qed.

(** ** What every run of a computation keeps *)

(** Whenever [m] returns, the state before and the state after are related. *)
Definition runs {S A} (R : S → S → Prop) (m : M S A) : Prop :=
  ∀ s a s', m s = Ok (a, s') → R s s'.

Section runs.
Context {S : Type} (R : S → S → Prop) {HR : PreOrder R}.

Lemma runs_ret {A} (a : A) : runs R (mret a).
Proof. intros s b s' H. inv_ok. reflexivity. Qed.
Lemma runs_fail {A} r : runs (A:=A) R (fail r).
Proof. intros s b s' H. inv_ok. Qed.
Lemma runs_lift {A} (m : res A) : runs R (lift m).
Proof. intros s b s' H. inv_ok. reflexivity. Qed.
Lemma runs_get : runs R get.
Proof. intros s b s' H. inv_ok. reflexivity. Qed.
Lemma runs_gets {A} (f : S → A) : runs R (gets f).
Proof. intros s b s' H. inv_ok. reflexivity. Qed.
Lemma runs_assert b : runs R (assert b).
Proof. destruct b; [apply runs_ret|apply runs_fail]. Qed.
Lemma runs_bind {A B} (m : M S A) (f : A → M S B) : runs R m → (∀ a, runs R (f a)) → runs R (m ≫= f).
Proof. intros Hm Hf s b s' H. inv_ok. transitivity x0; [by eapply Hm|by eapply Hf]. Qed.
Lemma runs_modify f : (∀ s, R s (f s)) → runs R (modify f).
Proof. intros Hf s b s' H. inv_ok. done. Qed.
Lemma runs_zoom {T A} (g : S → T) p (m : M T A) :
  (∀ s a t, m (g s) = Ok (a, t) → R s (p t s)) → runs R (zoom g p m).
Proof. intros Hm s b s' H. inv_ok. eauto. Qed.
Lemma runs_for {A} (l : list A) (f : A → M S unit) :
  (∀ x, x ∈ l → runs R (f x)) → runs R (for_ l f).
Proof.
  intros Hf. induction l as [|x l IH]; [apply runs_ret|]. cbn [for_]. apply runs_bind.
  - apply Hf, elem_of_cons. by left.
  - intros _. apply IH. intros y Hy. apply Hf, elem_of_cons. by right.
Qed.
End runs.

(** Takes a computation apart, down to the parts that change the state. *)
Ltac runs_step :=
  match goal with
  | |- runs ?R (_ ≫= _) => apply (runs_bind R); [|intros]
  | |- runs ?R (mret _) => apply (runs_ret R)
  | |- runs ?R (fail _) => apply (runs_fail R)
  | |- runs ?R (lift _) => apply (runs_lift R)
  | |- runs ?R get => apply (runs_get R)
  | |- runs ?R (gets _) => apply (runs_gets R)
  | |- runs ?R (assert _) => apply (runs_assert R)
  | |- runs ?R (for_ _ _) => apply (runs_for R); intros
  | |- runs _ (let '(_, _) := ?p in _) => destruct p
  | |- runs _ (match ?x with _ => _ end) => destruct x
  | |- ∀ _, runs _ _ => intros
  end.
Ltac runs_auto := repeat (runs_step || (solve [eauto with runs])).

(** Linear arithmetic with division and remainder by constants. *)
Ltac zlia := Z.to_euclidean_division_equations; lia.

(** ** Lemmas on machine integers *)

Lemma chk_Ok w x y : chk w x = Ok y ↔ y = x ∧ in_width w x.
Proof.
  unfold chk, in_width. destruct (Z.leb_spec 0 x), (Z.ltb_spec x (2 ^ w)); simpl;
    naive_solver lia.
Qed.

Lemma chk_in w x : in_width w x → chk w x = Ok x.
Proof. intros. by apply chk_Ok. Qed.

Lemma chk_out w x : ¬ in_width w x → chk w x = Panic Overflow.
Proof.
  unfold chk, in_width. intros.
  destruct (Z.leb_spec 0 x), (Z.ltb_spec x (2 ^ w)); simpl; try done; lia.
Qed.

Lemma wrap_in w x : 0 ≤ w → in_width w (wrap w x).
Proof. intros. apply Z.mod_pos_bound. lia. Qed.

Lemma wrap_id w x : in_width w x → wrap w x = x.
Proof. intros. by apply Z.mod_small. Qed.

Lemma length_range n : length (range n) = Z.to_nat n.
Proof. unfold range. by rewrite length_fmap, length_seq. Qed.

Lemma elem_of_range n i : i ∈ range n ↔ 0 ≤ i < n.
Proof.
  unfold range. rewrite list_elem_of_fmap. setoid_rewrite elem_of_seq. split.
  - intros (k & -> & ?). lia.
  - intros. exists (Z.to_nat i). lia.
Qed.

Lemma lookup_range n k : (k < Z.to_nat n)%nat → range n !! k = Some (Z.of_nat k).
Proof.
  intros. unfold range. rewrite list_lookup_fmap, lookup_seq_lt by done. done.
Qed.

Lemma index_Ok {A} (l : list A) i a :
  index l i = Ok a ↔ 0 ≤ i ∧ l !! Z.to_nat i = Some a.
Proof.
  unfold index, of_option. destruct (Z.leb_spec 0 i).
  - destruct (l !! Z.to_nat i); naive_solver.
  - naive_solver lia.
Qed.

Lemma of_option_Ok {A} r (o : option A) a : of_option r o = Ok a ↔ o = Some a.
Proof. destruct o; simpl; naive_solver. Qed.

Lemma unwrap_Ok {A} (o : option A) a : unwrap o = Ok a ↔ o = Some a.
Proof. apply of_option_Ok. Qed.

(** ** Bits of machine words *)

Lemma testbit_high w x i : in_width w x → 0 ≤ w ≤ i → Z.testbit x i = false.
Proof.
  intros [Hx0 Hx] Hi. destruct (Z.eq_dec x 0) as [->|]; [apply Z.bits_0|].
  apply Z.bits_above_log2; [done|]. assert (Z.log2 x < w) by (apply Z.log2_lt_pow2; lia).
  lia.
Qed.

Lemma in_width_bits w x :
  0 ≤ w → 0 ≤ x → (∀ i, w ≤ i → Z.testbit x i = false) → in_width w x.
Proof.
  intros Hw Hx Hb. split; [done|].
  destruct (Z.eq_dec x 0) as [->|]; [lia|].
  destruct (Z.lt_ge_cases x (2 ^ w)) as [|Hge]; [done|exfalso].
  assert (w ≤ Z.log2 x) by (apply Z.log2_le_pow2; lia).
  assert (Z.testbit x (Z.log2 x) = true) by (apply Z.bit_log2; lia).
  rewrite Hb in *; [discriminate|lia].
Qed.

Lemma testbit_ones_lt w i : 0 ≤ i < w → Z.testbit (2 ^ w - 1) i = true.
Proof.
  intros. rewrite Z.sub_1_r, <-Z.ones_equiv. apply Z.ones_spec_low. lia.
Qed.

(** A word with every bit below [w] set is the all-ones word. *)
Lemma all_ones_eq w x :
  0 ≤ w → in_width w x → (∀ i, 0 ≤ i < w → Z.testbit x i = true) → x = 2 ^ w - 1.
Proof.
  intros Hw Hx Hb. apply Z.bits_inj'. intros i Hi.
  destruct (Z.lt_ge_cases i w).
  - rewrite Hb by lia. by rewrite testbit_ones_lt by lia.
  - rewrite (testbit_high w x) by (done || lia).
    symmetry. apply (testbit_high w); [|lia]. split; lia.
Qed.

(** ** Lists *)

Lemma pairwise_Permutation {A} (R : A → A → Prop) l k :
  (∀ x y, R x y → R y x) → l ≡ₚ k → pairwise R l → pairwise R k.
Proof.
  intros Hsym. induction 1 as [|x l k Hp IH|x y l|l1 l2 l3 _ IH1 _ IH2]; simpl; [done|..].
  - intros [Hx Hl]. split; [by rewrite <-Hp|auto].
  - rewrite !Forall_cons. naive_solver.
  - auto.
Qed.

Lemma pairwise_lookup {A} (R : A → A → Prop) l i j x y :
  pairwise R l → l !! i = Some x → l !! j = Some y → (i < j)%nat → R x y.
Proof.
  revert i j. induction l as [|z l IH]; intros i j; [done|]. intros [Hz Hl].
  destruct i as [|i], j as [|j]; simpl; [lia|..|lia|].
  - intros [= <-] Hj _. by eapply Forall_lookup_1.
  - intros. eapply IH; [done..|lia].
Qed.

Lemma pairwise_filter_fmap {A B} (P : A → Prop) `{!∀ x, Decision (P x)} (f : A → B)
    (R : A → A → Prop) (R' : B → B → Prop) l :
  (∀ x y, P x → P y → R x y → R' (f x) (f y)) → pairwise R l → pairwise R' (f <$> filter P l).
Proof.
  intros HR. induction l as [|x l IH]; [done|]. intros [Hx Hl]. rewrite filter_cons.
  case_decide; [|auto]. rewrite fmap_cons. split; [|auto].
  apply Forall_fmap, Forall_forall. intros y [Hy Hin]%list_elem_of_filter. simpl.
  rewrite Forall_forall in Hx. auto.
Qed.

Lemma pairwise_Forall2 {A} (S R : A → A → Prop) l k :
  (∀ x y x' y', S x x' → S y y' → R x y → R x' y') →
  Forall2 S l k → pairwise R l → pairwise R k.
Proof.
  intros HR. induction 1 as [|x x' l k Hx Hl IH]; [done|]. intros [Hall Hp].
  split; [|auto]. clear IH Hp. induction Hl as [|y y' l k Hy Hl IH]; [done|].
  apply Forall_cons in Hall as [Hxy Hall]. constructor; [|auto]. by eapply HR.
Qed.

Lemma mapM_Ok {A B} (f : A → res B) l k :
  Forall2 (λ x y, f x = Ok y) l k → mapM f l = Ok k.
Proof. induction 1 as [|x y l k Hx _ IH]; simpl; [done|]. rewrite Hx. simpl. by rewrite IH. Qed.

Lemma countb_bounds {A} (p : A → bool) l : 0 ≤ countb p l ≤ Z.of_nat (length l).
Proof. induction l as [|x l IH]; simpl; [lia|]. destruct (p x); lia. Qed.

Lemma countb_app {A} (p : A → bool) l k : countb p (l ++ k) = countb p l + countb p k.
Proof. induction l as [|x l IH]; simpl; lia. Qed.

Lemma countb_insert {A} (p : A → bool) l i x y :
  l !! i = Some x →
  countb p (<[i := y]> l) =
    countb p l - (if p x then 1 else 0) + (if p y then 1 else 0).
Proof.
  revert i. induction l as [|z l IH]; intros [|i]; simpl; try done.
  - intros [= ->]. lia.
  - intros H. rewrite (IH _ H). lia.
Qed.

Lemma countb_zero {A} (p : A → bool) l :
  countb p l = 0 ↔ ∀ i x, l !! i = Some x → p x = false.
Proof.
  induction l as [|z l IH]; simpl; [split; [done|done]|].
  pose proof (countb_bounds p l). split.
  - intros H1 [|i] x; simpl; [intros [= <-]|intros Hx].
    + destruct (p z); [lia|done].
    + eapply IH; [destruct (p z); lia|done].
  - intros H1. rewrite (H1 0%nat z) by done. rewrite (proj2 IH); [done|].
    intros i x Hx. by apply (H1 (S i)).
Qed.

Lemma countb_pos {A} (p : A → bool) l :
  countb p l ≠ 0 ↔ ∃ i x, l !! i = Some x ∧ p x = true.
Proof.
  induction l as [|z l IH]; simpl; [split; [done|by intros (?&?&?&?)]|].
  pose proof (countb_bounds p l). split.
  - intros H1. destruct (p z) eqn:E; [by exists 0%nat, z|].
    destruct (proj1 IH ltac:(lia)) as (i & x & ? & ?). by exists (S i), x.
  - intros ([|i] & x & Hx & Hp); simpl in Hx; [simplify_eq; rewrite Hp; lia|].
    assert (countb p l ≠ 0) by (apply IH; eauto). destruct (p z); lia.
Qed.

(** ** Lemmas on bytes *)

Lemma length_le_encode w x : length (le_encode w x) = w.
Proof. revert x. induction w; intros x; simpl; auto. Qed.

Lemma le_encode_ok w x : bytes_ok (le_encode w x).
Proof.
  revert x. induction w as [|w IH]; intros x; simpl; constructor; [|apply IH].
  unfold in_width. apply Z.mod_pos_bound. lia.
Qed.

Lemma le_decode_encode w x : 0 ≤ x < 256 ^ Z.of_nat w → le_decode (le_encode w x) = x.
Proof.
  revert x. induction w as [|w IH]; intros x Hx; simpl; [change (256 ^ Z.of_nat 0) with 1 in Hx; lia|].
  rewrite Nat2Z.inj_succ, Z.pow_succ_r in Hx by lia.
  rewrite IH; [pose proof (Z.div_mod x 256 ltac:(lia)); lia|].
  split; [apply Z.div_pos; lia|]. apply Z.div_lt_upper_bound; lia.
Qed.

Lemma le_decode_bound l : bytes_ok l → 0 ≤ le_decode l < 256 ^ Z.of_nat (length l).
Proof.
  induction 1 as [|b l [Hb1 Hb2] _ IH]; simpl; [done|].
  rewrite Nat2Z.inj_succ, Z.pow_succ_r by lia. change (2 ^ 8) with 256 in Hb2. lia.
Qed.

Lemma le_encode_decode l : bytes_ok l → le_encode (length l) (le_decode l) = l.
Proof.
  induction 1 as [|b l [Hb1 Hb2] _ IH]; simpl; [done|]. change (2 ^ 8) with 256 in Hb2.
  replace ((b + 256 * le_decode l) mod 256) with b by zlia.
  replace ((b + 256 * le_decode l) / 256) with (le_decode l) by zlia. by rewrite IH.
Qed.

Lemma read_field_app l k off w :
  (off + w ≤ length l)%nat → read_field (l ++ k) off w = read_field l off w.
Proof.
  intros H. unfold read_field, sub_bytes. rewrite length_app, drop_app_le, take_app_le
    by (rewrite ?length_drop; lia).
  destruct (Nat.leb_spec (off + w) (length l)), (Nat.leb_spec (off + w) (length l + length k));
    done || lia.
Qed.

(** A field encoded at its offset is read back. *)
Lemma read_field_at pre w x post :
  0 ≤ x < 256 ^ Z.of_nat w →
  read_field (pre ++ le_encode w x ++ post) (length pre) w = Ok x.
Proof.
  intros Hx. unfold read_field, sub_bytes. rewrite drop_app_length.
  rewrite take_app_length' by (by rewrite length_le_encode).
  rewrite !length_app, length_le_encode, le_decode_encode by done.
  destruct (Nat.leb_spec (length pre + w) (length pre + (w + length post))); done || lia.
Qed.

Lemma length_encode_fields fs : length (encode_fields fs) = sum_list (fst <$> fs).
Proof.
  induction fs as [|[w x] fs IH]; [done|].
  change (encode_fields ((w, x) :: fs)) with (le_encode w x ++ encode_fields fs).
  rewrite length_app, length_le_encode, IH. done.
Qed.

(** Field [k] of a sequence of fields is read back at its offset. *)
Lemma read_encoded_field pre fs post k w x off :
  fs !! k = Some (w, x) → field_ok (w, x) → off = (length pre + field_offset fs k)%nat →
  read_field (pre ++ encode_fields fs ++ post) off w = Ok x.
Proof.
  intros Hk Hok ->. rewrite <-(take_drop_middle _ _ _ Hk) at 1.
  unfold encode_fields. rewrite bind_app, bind_cons, <-!app_assoc, app_assoc.
  replace (length pre + field_offset fs k)%nat
    with (length (pre ++ (take k fs ≫= λ '(w, x), le_encode w x))).
  - by apply read_field_at.
  - rewrite length_app. f_equal. apply (length_encode_fields (take k fs)).
Qed.

Create HintDb runs.
Create HintDb helium.
#[export] Hint Resolve chk_in wrap_in lift_run zoom_run M_bind_run : helium.
#[export] Hint Rewrite @length_insert @length_fmap @length_replicate length_range : helium.
