(* ===== verification/X86.v ===== *)
(** * The interface of the [x86_64] crate

    The kernel reaches addresses, page tables and flags through the [x86_64]
    crate (version 0.15), which is not part of the repository.  [X86] lists
    the functions of the crate the kernel calls, as parameters of the model;
    [X86Ok] lists the documented behaviour the theorems rely on.  The crate's
    newtypes [PhysAddr], [VirtAddr], [PhysFrame<Size4KiB>], [Page<Size4KiB>],
    [PageTableEntry] and [PageTableFlags] wrap one [u64], and are modelled by
    that [u64] (a page or a frame by its start address).  A function that is
    documented to panic returns [None] where it panics.

    [ident_end] is the one parameter of another origin: the boot loader enters
    the kernel with the physical memory below that address mapped to itself,
    and the first stages of the kernel reach memory by its physical address.
    [ident_ref] and [ident_slice] are the two ways in which they do.

    [x86_ref] is one implementation of the interface that satisfies the laws;
    it is used to evaluate the model on concrete inputs. *)

From S2P Require Import Prelude.

Definition PAGE_SIZE : Z := 4096.

(** Bits 47 to 63 of a canonical address agree. *)
Definition canonical (a : Z) : bool :=
  ((0 <=? a) && (a <? 2 ^ 47)) || ((2 ^ 64 - 2 ^ 47 <=? a) && (a <? 2 ^ 64)).
(** The start of the page or frame an address lies in. *)
Definition page_base (adr : Z) : Z := adr / PAGE_SIZE * PAGE_SIZE.
Definition page_aligned (a : Z) : bool := a mod PAGE_SIZE =? 0.

Class X86 := {
  (** [x86_64::align_up], [x86_64::align_down] *)
  align_up : Z → Z → option Z;
  align_down : Z → Z → option Z;
  (** [VirtAddr] *)
  virt_new : Z → option Z;
  virt_new_truncate : Z → Z;
  virt_add : Z → Z → option Z;
  virt_sub : Z → Z → option Z;
  (** [PhysAddr] *)
  phys_new : Z → option Z;
  phys_add : Z → Z → option Z;
  phys_sub : Z → Z → option Z;
  (** [Page<Size4KiB>] and [PhysFrame<Size4KiB>] *)
  page_containing : Z → Z;
  page_from_start : Z → option Z;
  page_add : Z → Z → option Z;
  frame_containing : Z → Z;
  frame_from_start : Z → option Z;
  frame_add : Z → Z → option Z;
  (** [VirtAddr::p4_index] and the like *)
  p4_index : Z → nat;
  p3_index : Z → nat;
  p2_index : Z → nat;
  p1_index : Z → nat;
  (** [PageTableFlags] *)
  PRESENT : Z;
  WRITABLE : Z;
  USER_ACCESSIBLE : Z;
  HUGE_PAGE : Z;
  GLOBAL : Z;
  fl_contains : Z → Z → bool;
  fl_union : Z → Z → Z;
  fl_remove : Z → Z → Z;
  (** [PageTableEntry] *)
  pte_new : Z;
  pte_is_unused : Z → bool;
  pte_flags : Z → Z;
  pte_frame : Z → option Z;
  pte_set_frame : Z → Z → option Z;
  pte_set_flags : Z → Z → Z;
  (** The end of the identity map the boot loader leaves. *)
  ident_end : Z;
}.

(** [(p as *mut T).as_mut().unwrap()] of [n] bytes at the physical address [p]:
    null is unwrapped, and memory above the identity map is not there. *)
Definition ident_ref `{X86} (p n : Z) : res unit :=
  if p =? 0 then Panic Unwrap
  else if p + n <=? ident_end then Ok tt else Panic Undefined.
(** [slice::from_raw_parts_mut(p as *mut u8, n)], whose pointer must not be null. *)
Definition ident_slice `{X86} (p n : Z) : res unit :=
  if (p =? 0) || (ident_end <? p + n) then Panic Undefined else Ok tt.
(** Memory that can be reached by its physical address. *)
Definition ident_ok `{X86} (p n : Z) : Prop := p ≠ 0 ∧ p + n ≤ ident_end.

(** On a concrete machine it is decided by evaluation. *)
Lemma ident_ok_ref `{X86} p n : ident_ref p n = Ok tt → ident_ok p n.
Proof.
  unfold ident_ref. destruct (Z.eqb_spec p 0); [done|]. destruct (Z.leb_spec (p + n) ident_end); [|done]. by split.
Qed.
Lemma ident_ref_ok `{X86} p n : ident_ok p n → ident_ref p n = Ok tt.
Proof.
  intros [Hp Hn]. unfold ident_ref. destruct (Z.eqb_spec p 0); [done|].
  by destruct (Z.leb_spec (p + n) ident_end); [|lia].
Qed.
Lemma ident_slice_ok `{X86} p n : ident_ok p n → ident_slice p n = Ok tt.
Proof.
  intros [Hp Hn]. unfold ident_slice. destruct (Z.eqb_spec p 0); [done|].
  by destruct (Z.ltb_spec ident_end (p + n)); [lia|].
Qed.

(** The flags a page table entry of the kernel carries. *)
Definition kernel_flags `{X86} (fl : Z) : Prop :=
  in_width 9 fl ∧ fl_contains fl HUGE_PAGE = false.

Class X86Ok (X : X86) : Prop := {
  align_up_spec k x : 0 ≤ k < 64 → in_width 64 x →
    align_up x (2 ^ k) =
      (let r := (x + 2 ^ k - 1) / 2 ^ k * 2 ^ k in
       if r <? 2 ^ 64 then Some r else None);
  align_down_spec k x : 0 ≤ k < 64 → in_width 64 x →
    align_down x (2 ^ k) = Some (x / 2 ^ k * 2 ^ k);
  virt_new_spec a : in_width 64 a → virt_new a = if canonical a then Some a else None;
  virt_new_truncate_spec a : in_width 64 a →
    canonical (virt_new_truncate a) = true ∧ virt_new_truncate a mod 2 ^ 48 = a mod 2 ^ 48;
  virt_add_spec a b : canonical a = true → in_width 64 b →
    virt_add a b = if canonical (a + b) then Some (a + b) else None;
  virt_sub_spec a b : canonical a = true → canonical b = true →
    virt_sub a b = if b <=? a then Some (a - b) else None;
  phys_new_spec a : in_width 64 a → phys_new a = if a <? 2 ^ 52 then Some a else None;
  phys_add_spec a b : in_width 52 a → in_width 64 b →
    phys_add a b = if a + b <? 2 ^ 52 then Some (a + b) else None;
  phys_sub_spec a b : in_width 52 a → in_width 52 b →
    phys_sub a b = if b <=? a then Some (a - b) else None;
  page_containing_spec a : canonical a = true →
    page_containing a = a / PAGE_SIZE * PAGE_SIZE;
  page_from_start_spec a : canonical a = true →
    page_from_start a = if page_aligned a then Some a else None;
  page_add_spec p n : canonical p = true → page_aligned p = true → 0 ≤ n →
    n * PAGE_SIZE < 2 ^ 64 →
    page_add p n = if canonical (p + n * PAGE_SIZE) then Some (p + n * PAGE_SIZE) else None;
  frame_containing_spec a : in_width 52 a →
    frame_containing a = a / PAGE_SIZE * PAGE_SIZE;
  frame_from_start_spec a : in_width 52 a →
    frame_from_start a = if page_aligned a then Some a else None;
  frame_add_spec f n : in_width 52 f → page_aligned f = true → 0 ≤ n →
    n * PAGE_SIZE < 2 ^ 64 →
    frame_add f n = if f + n * PAGE_SIZE <? 2 ^ 52 then Some (f + n * PAGE_SIZE) else None;
  p4_index_spec a : p4_index a = Z.to_nat (a / 2 ^ 39 mod 512);
  p3_index_spec a : p3_index a = Z.to_nat (a / 2 ^ 30 mod 512);
  p2_index_spec a : p2_index a = Z.to_nat (a / 2 ^ 21 mod 512);
  p1_index_spec a : p1_index a = Z.to_nat (a / 2 ^ 12 mod 512);
  flags_values : PRESENT = 1 ∧ WRITABLE = 2 ∧ USER_ACCESSIBLE = 4 ∧
    HUGE_PAGE = 128 ∧ GLOBAL = 256;
  fl_contains_spec a b : fl_contains a b = (Z.land a b =? b);
  fl_union_spec a b : fl_union a b = Z.lor a b;
  fl_remove_spec a b : fl_remove a b = Z.ldiff a b;
  pte_new_spec : pte_new = 0;
  pte_is_unused_spec e : pte_is_unused e = (e =? 0);
  pte_flags_unused : pte_flags 0 = 0;
  (** [set_frame] stores the frame and the flags, and panics on a huge flag. *)
  pte_set_frame_spec f fl : in_width 52 f → page_aligned f = true → kernel_flags fl →
    ∃ e, pte_set_frame f fl = Some e ∧ pte_flags e = fl ∧
      (fl_contains fl PRESENT = true → pte_frame e = Some f);
  (** [set_flags] replaces the flags and keeps the address. *)
  pte_set_flags_spec e fl : kernel_flags fl → pte_flags (pte_set_flags e fl) = fl;
  pte_frame_not_present e : fl_contains (pte_flags e) PRESENT = false → pte_frame e = None;
}.

(** ** A reference implementation *)

Definition ref_frame_mask : Z := 2 ^ 52 - 2 ^ 12.
Definition ref_flag_mask : Z := u64_max - ref_frame_mask.
Definition is_pow2 (a : Z) : bool := (0 <? a) && (a =? 2 ^ Z.log2 a).

#[global] Instance x86_ref : X86 := {|
  align_up x a := let r := (x + a - 1) / a * a in
    if is_pow2 a && (r <? 2 ^ 64) then Some r else None;
  align_down x a := if is_pow2 a then Some (x / a * a) else None;
  virt_new a := if canonical a then Some a else None;
  virt_new_truncate a :=
    let b := a mod 2 ^ 48 in if b <? 2 ^ 47 then b else b + (2 ^ 64 - 2 ^ 48);
  virt_add a b := if canonical (a + b) then Some (a + b) else None;
  virt_sub a b := if b <=? a then Some (a - b) else None;
  phys_new a := if a <? 2 ^ 52 then Some a else None;
  phys_add a b := if a + b <? 2 ^ 52 then Some (a + b) else None;
  phys_sub a b := if b <=? a then Some (a - b) else None;
  page_containing a := a / PAGE_SIZE * PAGE_SIZE;
  page_from_start a := if page_aligned a then Some a else None;
  page_add p n :=
    if canonical (p + n * PAGE_SIZE) then Some (p + n * PAGE_SIZE) else None;
  frame_containing a := a / PAGE_SIZE * PAGE_SIZE;
  frame_from_start a := if page_aligned a then Some a else None;
  frame_add f n := if f + n * PAGE_SIZE <? 2 ^ 52 then Some (f + n * PAGE_SIZE) else None;
  p4_index a := Z.to_nat (a / 2 ^ 39 mod 512);
  p3_index a := Z.to_nat (a / 2 ^ 30 mod 512);
  p2_index a := Z.to_nat (a / 2 ^ 21 mod 512);
  p1_index a := Z.to_nat (a / 2 ^ 12 mod 512);
  PRESENT := 1; WRITABLE := 2; USER_ACCESSIBLE := 4; HUGE_PAGE := 128; GLOBAL := 256;
  fl_contains a b := Z.land a b =? b;
  fl_union a b := Z.lor a b;
  fl_remove a b := Z.ldiff a b;
  pte_new := 0;
  pte_is_unused e := e =? 0;
  pte_flags e := Z.land e ref_flag_mask;
  pte_frame e :=
    if negb (Z.land e 1 =? 1) then None
    else if Z.land e 128 =? 128 then None else Some (Z.land e ref_frame_mask);
  pte_set_frame f fl := if Z.land fl 128 =? 128 then None else Some (Z.lor f fl);
  pte_set_flags e fl := Z.lor (Z.land e ref_frame_mask) fl;
  ident_end := 2 ^ 34;
|}.

(** ** The reference implementation satisfies the laws *)

Lemma is_pow2_pow k : 0 ≤ k → is_pow2 (2 ^ k) = true.
Proof.
  intros. unfold is_pow2. rewrite Z.log2_pow2 by done.
  destruct (Z.ltb_spec 0 (2 ^ k)); [|lia]. by rewrite Z.eqb_refl.
Qed.

Lemma land_one_bit x k : 0 ≤ k → (Z.land x (2 ^ k) =? 2 ^ k) = Z.testbit x k.
Proof.
  intros. destruct (Z.testbit x k) eqn:E.
  - apply Z.eqb_eq, Z.bits_inj'. intros i Hi. rewrite Z.land_spec, Z.pow2_bits_eqb by lia.
    destruct (Z.eqb_spec k i); [subst; by rewrite E|by rewrite andb_false_r].
  - apply Z.eqb_neq. intros Heq. apply (f_equal (λ z, Z.testbit z k)) in Heq.
    rewrite Z.land_spec, Z.pow2_bits_true, E in Heq by lia. done.
Qed.

Lemma aligned_low_bits f i : page_aligned f = true → 0 ≤ i < 12 → Z.testbit f i = false.
Proof.
  unfold page_aligned, PAGE_SIZE. rewrite Z.eqb_eq. intros Hf Hi.
  assert (f = Z.shiftl (f / 4096) 12) as ->.
  { rewrite Z.shiftl_mul_pow2 by lia. change (2 ^ 12) with 4096. zlia. }
  apply Z.shiftl_spec_low. lia.
Qed.

Lemma ref_flag_mask_bits i : 0 ≤ i →
  Z.testbit ref_flag_mask i = (i <? 12) || ((52 <=? i) && (i <? 64)).
Proof.
  intros. replace ref_flag_mask with (Z.lor (Z.ones 12) (Z.shiftl (Z.ones 12) 52)) by done.
  rewrite Z.lor_spec, Z.shiftl_spec by lia. rewrite !Z.testbit_ones by lia.
  destruct (Z.leb_spec 0 i), (Z.ltb_spec i 12), (Z.leb_spec 52 i), (Z.ltb_spec i 64),
    (Z.leb_spec 0 (i - 52)), (Z.ltb_spec (i - 52) 12); simpl; try done; lia.
Qed.

Lemma ref_frame_mask_bits i : 0 ≤ i →
  Z.testbit ref_frame_mask i = (12 <=? i) && (i <? 52).
Proof.
  intros. replace ref_frame_mask with (Z.shiftl (Z.ones 40) 12) by done.
  rewrite Z.shiftl_spec by lia. rewrite Z.testbit_ones by lia.
  destruct (Z.leb_spec 12 i), (Z.ltb_spec i 52),
    (Z.leb_spec 0 (i - 12)), (Z.ltb_spec (i - 12) 40); simpl; try done; lia.
Qed.

Lemma ref_flags_of_entry f fl :
  in_width 52 f → page_aligned f = true → in_width 9 fl →
  Z.land (Z.lor f fl) ref_flag_mask = fl.
Proof.
  intros Hf Ha Hfl. apply Z.bits_inj'. intros i Hi.
  rewrite Z.land_spec, Z.lor_spec, ref_flag_mask_bits by lia.
  destruct (Z.ltb_spec i 12); simpl.
  - rewrite (aligned_low_bits f) by (done || lia). by rewrite andb_true_r.
  - destruct (Z.leb_spec 52 i); simpl.
    + rewrite (testbit_high 52 f), (testbit_high 9 fl) by (done || lia). done.
    + rewrite andb_false_r. symmetry. apply (testbit_high 9); [done|lia].
Qed.

Lemma ref_frame_of_entry f fl :
  in_width 52 f → page_aligned f = true → in_width 9 fl →
  Z.land (Z.lor f fl) ref_frame_mask = f.
Proof.
  intros Hf Ha Hfl. apply Z.bits_inj'. intros i Hi.
  rewrite Z.land_spec, Z.lor_spec, ref_frame_mask_bits by lia.
  destruct (Z.leb_spec 12 i); simpl.
  - rewrite (testbit_high 9 fl) by (done || lia). rewrite orb_false_r.
    destruct (Z.ltb_spec i 52); simpl; [by rewrite andb_true_r|].
    by rewrite (testbit_high 52 f) by (done || lia).
  - rewrite andb_false_r. symmetry. apply aligned_low_bits; [done|lia].
Qed.

Lemma ref_set_flags e fl :
  in_width 9 fl → Z.land (Z.lor (Z.land e ref_frame_mask) fl) ref_flag_mask = fl.
Proof.
  intros Hfl. apply Z.bits_inj'. intros i Hi.
  rewrite Z.land_spec, Z.lor_spec, Z.land_spec, ref_flag_mask_bits, ref_frame_mask_bits by lia.
  destruct (Z.ltb_spec i 12), (Z.leb_spec 12 i), (Z.leb_spec 52 i), (Z.ltb_spec i 52); try lia;
    simpl; rewrite ?andb_false_r, ?andb_true_r; simpl; try done;
    rewrite ?(testbit_high 9 fl) by (done || lia); done.
Qed.

Lemma ref_virt_new_truncate a :
  canonical (virt_new_truncate a) = true ∧ virt_new_truncate a mod 2 ^ 48 = a mod 2 ^ 48.
Proof.
  simpl. assert (0 ≤ a mod 2 ^ 48 < 2 ^ 48) by (apply Z.mod_pos_bound; lia).
  unfold canonical. destruct (Z.ltb_spec (a mod 2 ^ 48) (2 ^ 47)); split.
  - apply orb_true_iff. left. apply andb_true_iff. split; lia.
  - apply Z.mod_mod. lia.
  - apply orb_true_iff. right. apply andb_true_iff. split; lia.
  - rewrite Z.add_mod by lia. change ((2 ^ 64 - 2 ^ 48) mod 2 ^ 48) with 0.
    rewrite Z.add_0_r, !Z.mod_mod by lia. done.
Qed.

#[global] Instance x86_ref_ok : X86Ok x86_ref.
Proof.
  split; try (intros; simpl; done).
  - intros k x ??. simpl. by rewrite is_pow2_pow by lia.
  - intros k x ??. simpl. by rewrite is_pow2_pow by lia.
  - intros a ?. apply ref_virt_new_truncate.
  - intros f fl Hf Ha [Hfl Hh]. simpl in *. exists (Z.lor f fl). rewrite Hh.
    split_and!; [done|by apply ref_flags_of_entry|].
    intros Hp. change 1 with (2 ^ 0) in *. change 128 with (2 ^ 7) in *.
    rewrite !land_one_bit in * by lia. rewrite !Z.lor_spec, Hp, Hh.
    rewrite (aligned_low_bits f 7) by (done || lia). rewrite orb_true_r. simpl.
    f_equal. by apply ref_frame_of_entry.
  - intros e fl [Hfl _]. by apply ref_set_flags.
  - intros e He. simpl in *.
    change 1 with (2 ^ 0) in *. rewrite !land_one_bit in * by lia.
    rewrite Z.land_spec, ref_flag_mask_bits in He by lia.
    change (Z.testbit e 0 && true = false) in He.
    rewrite andb_true_r in He. by rewrite He.
Qed.

(** ** Addresses *)

Lemma canonical_iff a :
  canonical a = true ↔ 0 ≤ a < 2 ^ 47 ∨ 2 ^ 64 - 2 ^ 47 ≤ a < 2 ^ 64.
Proof. unfold canonical. rewrite orb_true_iff, !andb_true_iff. lia. Qed.

Lemma page_aligned_iff a : page_aligned a = true ↔ a mod 4096 = 0.
Proof. apply Z.eqb_eq. Qed.

(** ** Consequences of the laws *)

Section x86_facts.
Context {X : X86} {XO : X86Ok X}.

Lemma align_up_page_spec x : in_width 64 x →
  align_up x PAGE_SIZE =
    (let r := (x + 4095) / 4096 * 4096 in if r <? 2 ^ 64 then Some r else None).
Proof.
  intros. change PAGE_SIZE with (2 ^ 12). rewrite align_up_spec by (done || lia).
  change (2 ^ 12) with 4096. by replace (x + 4096 - 1) with (x + 4095) by lia.
Qed.

Lemma virt_new_truncate_id a :
  in_width 64 a → canonical a = true → virt_new_truncate a = a.
Proof.
  intros Hw Hc. destruct (virt_new_truncate_spec a Hw) as [Hc' Hm].
  unfold canonical in *. destruct Hw.
  apply orb_true_iff in Hc as [Hc|Hc], Hc' as [Hc'|Hc'];
    apply andb_true_iff in Hc as [H1 H2], Hc' as [H3 H4]; zlia.
Qed.

Lemma contains_present fl : fl_contains fl PRESENT = Z.testbit fl 0.
Proof.
  rewrite fl_contains_spec. destruct flags_values as (-> & _). apply (land_one_bit fl 0). lia.
Qed.

Lemma contains_user fl : fl_contains fl USER_ACCESSIBLE = Z.testbit fl 2.
Proof.
  rewrite fl_contains_spec. destruct flags_values as (_ & _ & -> & _).
  apply (land_one_bit fl 2). lia.
Qed.

Lemma contains_writable fl : fl_contains fl WRITABLE = Z.testbit fl 1.
Proof.
  rewrite fl_contains_spec. destruct flags_values as (_ & -> & _). apply (land_one_bit fl 1). lia.
Qed.

Lemma contains_huge fl : fl_contains fl HUGE_PAGE = Z.testbit fl 7.
Proof.
  rewrite fl_contains_spec. destruct flags_values as (_ & _ & _ & -> & _).
  apply (land_one_bit fl 7). lia.
Qed.

Lemma contains_global fl : fl_contains fl GLOBAL = Z.testbit fl 8.
Proof.
  rewrite fl_contains_spec. destruct flags_values as (_ & _ & _ & _ & ->).
  apply (land_one_bit fl 8). lia.
Qed.

Lemma kernel_flags_bits fl : kernel_flags fl ↔ in_width 9 fl ∧ Z.testbit fl 7 = false.
Proof. unfold kernel_flags. by rewrite contains_huge. Qed.

(** The flag sets the kernel builds from kernel flags are kernel flags. *)
Lemma kernel_flags_union a b : kernel_flags a → kernel_flags b → kernel_flags (fl_union a b).
Proof.
  rewrite !kernel_flags_bits, fl_union_spec. intros [Ha Ha7] [Hb Hb7]. split.
  - apply in_width_bits; [lia|apply Z.lor_nonneg; split; [apply Ha|apply Hb]|].
    intros i Hi. by rewrite Z.lor_spec, !(testbit_high 9) by (done || lia).
  - by rewrite Z.lor_spec, Ha7, Hb7.
Qed.

Lemma kernel_flags_remove a b : kernel_flags a → kernel_flags (fl_remove a b).
Proof.
  rewrite !kernel_flags_bits, fl_remove_spec. intros [Ha Ha7]. split.
  - apply in_width_bits; [lia|apply Z.ldiff_nonneg; left; apply Ha|].
    intros i Hi. by rewrite Z.ldiff_spec, (testbit_high 9 a) by (done || lia).
  - by rewrite Z.ldiff_spec, Ha7.
Qed.

Lemma kernel_flags_const :
  kernel_flags 0 ∧ kernel_flags PRESENT ∧ kernel_flags WRITABLE ∧
  kernel_flags USER_ACCESSIBLE ∧ kernel_flags GLOBAL.
Proof.
  destruct flags_values as (-> & -> & -> & _ & ->). rewrite !kernel_flags_bits.
  unfold in_width. split_and!; done || lia.
Qed.

Lemma union_present a : fl_contains (fl_union a PRESENT) PRESENT = true.
Proof.
  rewrite contains_present, fl_union_spec, Z.lor_spec.
  destruct flags_values as (-> & _). apply orb_true_r.
Qed.

Lemma remove_present a : fl_contains (fl_remove a PRESENT) PRESENT = false.
Proof.
  rewrite contains_present, fl_remove_spec, Z.ldiff_spec.
  destruct flags_values as (-> & _). apply andb_false_r.
Qed.
End x86_facts.

#[export] Hint Resolve kernel_flags_union kernel_flags_remove union_present remove_present
  : helium.
