(* ===== verification/Locks.v ===== *)
(** * Locks

    The kernel protects its statics with spin locks.  In the other files an
    operation of a core is one step; this file looks inside: it models which
    locks every entry of the kernel takes, in which order and around what, and
    lets the cores take them in any interleaving.

    The locks of an operation are a program [prog]: its scopes are the scopes
    of the guards in the source, its choices the branches and loops.  A
    checker [ordered] follows a program and refuses it unless every lock that is
    waited for has a higher rank than all locks held.  Programs that pass
    cannot block each other, and the entries of the kernel pass.

    The programs begin where the start-up is over ([proc/mod.rs:189], [LATE_IGNITION]
    is set): before that the cores wait for one another through [Once] cells
    (file Start).  Both stubs of the kernel, [syscall.asm] and [timer.asm],
    begin with [cli], so an entry is not interrupted; the only exception an
    entry returns from is the page fault of the heap.

    A core that panics stops with the locks it holds; the programs are those
    of the runs without a panic.  Priorities are all zero, so the search for a
    task keeps the first guard it takes.  The locks are those of the [spin]
    crate, a parameter: [grants] and [upgrades] say when a lock is given. *)

From S2P Require Import Prelude.

Module Lock.

(** The statics with a lock, and the lock of every task. *)
Inductive class :=
  | TASKS | TASK | PROC_TABLE | IDCOUNT | GLOB_ALLOCATOR | HEAP_HEAD | MAPPER | VCACHE | P4TABLE
  | PHYS_FRAME_ALLOCATOR | NUMCORES | FRAMEBUFFER | DEBUG_WRITER.
#[global] Instance class_eq_dec : EqDecision class.
Proof. solve_decision. Defined.
(** The locks of a class are numbered; only tasks have more than one. *)
Definition lock : Type := class * nat.
Definition is_lock (c : class) (n : nat) : Prop := c ≠ TASK → n = 0%nat.

(** The modes of [RwLock]; a [Mutex] is taken in mode [Write]. *)
Inductive mode := Read | Upgradeable | Write.
#[global] Instance mode_eq_dec : EqDecision mode.
Proof. solve_decision. Defined.
Definition exclusive (m : mode) : Prop := m ≠ Read.
(** Two modes in which a lock is not held at once. *)
Definition conflict (m m' : mode) : Prop := m = Write ∨ m' = Write ∨ (exclusive m ∧ exclusive m').

(** [spin]: is a lock that is held in the modes [ms] given in mode [m], and is
    an upgradeable guard upgraded while others hold [ms]?  A free lock is
    given and the only holder is upgraded; what is given is compatible with
    what is held, and an upgrade leaves no other holder. *)
Class Spin := {
  grants : list mode → mode → bool;
  upgrades : list mode → bool;
}.
Class SpinOk (S : Spin) : Prop := {
  grants_free m : grants [] m = true;
  grants_compatible ms m m' : grants ms m = true → m' ∈ ms → ¬ conflict m m';
  upgrades_alone : upgrades [] = true;
  upgrades_only ms : upgrades ms = true → ms = [];
}.

(** ** Programs *)

Inductive prog :=
  | Skip
  | Seq (p q : prog)
  | Alt (p q : prog)
  | Rep (p : prog)
  | Lock (c : class) (m : mode) (p : prog)
  | Try (c : class) (m : mode) (p : prog)
  | Change (c : class) (m : mode).

(** What a core still has to do: a program, a lock it waits for with the scope
    of its guard, or the end of the scope of the last guard. *)
Inductive instr :=
  | Do (p : prog)
  | Wait (l : lock) (m : mode) (p : prog)
  | Release.
Record core := mkCore { held : list (lock * mode); todo : list instr }.
Definition finished (c : core) : Prop := todo c = [].
Definition begin (p : prog) : core := mkCore [] [Do p].

(** The modes in which a lock is held. *)
Definition modes_of (l : lock) (h : list (lock * mode)) : list mode := snd <$> filter (λ x, x.1 = l) h.
Definition modes (l : lock) (s : list core) : list mode := s ≫= λ c, modes_of l (held c).

Section semantics.
Context {SP : Spin}.

(** A step of a core; [all] are the modes in which everybody holds a lock,
    [others] those of the other cores. *)
Inductive core_step (all others : lock → list mode) : core → core → Prop :=
  | st_skip h k : core_step all others (mkCore h (Do Skip :: k)) (mkCore h k)
  | st_seq h p q k : core_step all others (mkCore h (Do (Seq p q) :: k)) (mkCore h (Do p :: Do q :: k))
  | st_left h p q k : core_step all others (mkCore h (Do (Alt p q) :: k)) (mkCore h (Do p :: k))
  | st_right h p q k : core_step all others (mkCore h (Do (Alt p q) :: k)) (mkCore h (Do q :: k))
  | st_stop h p k : core_step all others (mkCore h (Do (Rep p) :: k)) (mkCore h k)
  | st_again h p k : core_step all others (mkCore h (Do (Rep p) :: k)) (mkCore h (Do p :: Do (Rep p) :: k))
  | st_request h c n m p k :
      is_lock c n →
      core_step all others (mkCore h (Do (Lock c m p) :: k)) (mkCore h (Wait (c, n) m p :: k))
  | st_take h l m p k :
      grants (all l) m = true →
      core_step all others (mkCore h (Wait l m p :: k)) (mkCore ((l, m) :: h) (Do p :: Release :: k))
  | st_miss h c m p k : core_step all others (mkCore h (Do (Try c m p) :: k)) (mkCore h k)
  | st_try h c n m p k :
      is_lock c n → grants (all (c, n)) m = true →
      core_step all others (mkCore h (Do (Try c m p) :: k)) (mkCore (((c, n), m) :: h) (Do p :: Release :: k))
  | st_upgrade h l k :
      upgrades (others l ++ modes_of l h) = true →
      core_step all others (mkCore ((l, Upgradeable) :: h) (Do (Change l.1 Write) :: k)) (mkCore ((l, Write) :: h) k)
  | st_downgrade h l m k :
      exclusive m →
      core_step all others (mkCore ((l, m) :: h) (Do (Change l.1 Read) :: k)) (mkCore ((l, Read) :: h) k)
  | st_release h x k : core_step all others (mkCore (x :: h) (Release :: k)) (mkCore h k).

Inductive step : list core → list core → Prop :=
  | step_core s i c c' :
      s !! i = Some c → core_step (λ l, modes l s) (λ l, modes l (delete i s)) c c' → step s (<[i := c']> s).
End semantics.

(** ** The checker *)

Definition rank (c : class) : nat :=
  match c with
  | TASKS => 0 | TASK => 1 | PROC_TABLE => 2 | IDCOUNT => 3 | GLOB_ALLOCATOR => 4 | HEAP_HEAD => 5
  | MAPPER => 6 | VCACHE => 7 | P4TABLE => 8 | PHYS_FRAME_ALLOCATOR => 9
  | NUMCORES | FRAMEBUFFER | DEBUG_WRITER => 10
  end%nat.
Definition above (h : list (class * mode)) (c : class) : bool := forallb (λ x, bool_decide (rank x.1 < rank c)%nat) h.

(** At the end of the scope of a guard of class [c] the others are as before. *)
Definition scope (h : list (class * mode)) (c : class) (r : option (list (class * mode))) : option (list (class * mode)) :=
  match r with
  | Some ((c', _) :: h') => if bool_decide (c' = c) && bool_decide (h' = h) then Some h else None
  | _ => None
  end.
(** The guards held after a program, if it keeps the order. *)
Fixpoint ordered (h : list (class * mode)) (p : prog) : option (list (class * mode)) :=
  match p with
  | Skip => Some h
  | Seq p q => h1 ← ordered h p; ordered h1 q
  | Alt p q => h1 ← ordered h p; h2 ← ordered h q; if bool_decide (h1 = h2) then Some h1 else None
  | Rep p => h1 ← ordered h p; if bool_decide (h1 = h) then Some h else None
  | Lock c m p => if above h c then scope h c (ordered ((c, m) :: h) p) else None
  | Try c m p => scope h c (ordered ((c, m) :: h) p)
  | Change c Write =>
    match h with
    | (c', Upgradeable) :: h' => if bool_decide (c' = c) && above h' c then Some ((c, Write) :: h') else None
    | _ => None
    end
  | Change c Read =>
    match h with
    | (c', m) :: h' => if bool_decide (c' = c) && bool_decide (m ≠ Read) then Some ((c, Read) :: h') else None
    | _ => None
    end
  | Change c Upgradeable => None
  end.

(** What a core has to do, checked against the guards it holds. *)
Fixpoint check_todo (h : list (class * mode)) (k : list instr) : bool :=
  match k with
  | [] => bool_decide (h = [])
  | Do p :: k => match ordered h p with Some h' => check_todo h' k | None => false end
  | Wait l m p :: k =>
    above h l.1 && bool_decide (scope h l.1 (ordered ((l.1, m) :: h) p) = Some h) && check_todo h k
  | Release :: k => match h with [] => false | _ :: h' => check_todo h' k end
  end.
Definition classes (h : list (lock * mode)) : list (class * mode) := (λ x, (x.1.1, x.2)) <$> h.
Definition good (c : core) : bool := check_todo (classes (held c)) (todo c).

Lemma scope_Some h c r h' : scope h c r = Some h' → h' = h ∧ ∃ m, r = Some ((c, m) :: h).
Proof.
  unfold scope. destruct r as [[|[c' m] h1]|]; [done| |done].
  destruct (decide (c' = c)) as [->|]; [|by rewrite bool_decide_eq_false_2].
  rewrite bool_decide_eq_true_2 by done. destruct (decide (h1 = h)) as [->|]; [|by rewrite bool_decide_eq_false_2].
  rewrite bool_decide_eq_true_2 by done. intros [= <-]. eauto.
Qed.

Lemma above_spec h c x : above h c = true → x ∈ h → (rank x.1 < rank c)%nat.
Proof.
  unfold above. rewrite forallb_forall. intros H Hx. apply list_elem_of_In in Hx. by apply H, bool_decide_eq_true in Hx.
Qed.

(** A guard in scope, seen from the end of the scope. *)
Lemma good_scope h c m p k h' :
  scope h c (ordered ((c, m) :: h) p) = Some h' → check_todo h' k = true →
  check_todo ((c, m) :: h) (Do p :: Release :: k) = true.
Proof. intros (-> & m' & E)%scope_Some Hk. cbn [check_todo]. by rewrite E. Qed.

Section proofs.
Context {SP : Spin} {SO : SpinOk SP}.
Implicit Types (c : core) (s : list core).

Lemma core_step_good all others c c' : core_step all others c c' → good c = true → good c' = true.
Proof.
  unfold good. intros [h k|h p q k|h p q k|h p q k|h p k|h p k|h cl n m p k Hl|h l m p k Hg|h cl m p k|h cl n m p k Hl Hg|h l k Hu|h l m k Hx|h x k];
    cbn [held todo check_todo ordered]; intros H.
  - done.
  - destruct (ordered (classes h) p) as [h1|]; [|done]. exact H.
  - destruct (ordered (classes h) p) as [h1|]; [|done]. cbn [mbind option_bind] in H.
    destruct (ordered (classes h) q) as [h2|]; [|done]. cbn [mbind option_bind] in H.
    destruct (decide (h1 = h2)); [by rewrite bool_decide_eq_true_2 in H|by rewrite bool_decide_eq_false_2 in H].
  - destruct (ordered (classes h) p) as [h1|]; [|done]. cbn [mbind option_bind] in H.
    destruct (ordered (classes h) q) as [h2|]; [|done]. cbn [mbind option_bind] in H.
    destruct (decide (h1 = h2)) as [->|]; [by rewrite bool_decide_eq_true_2 in H|by rewrite bool_decide_eq_false_2 in H].
  - destruct (ordered (classes h) p) as [h1|]; [|done]. cbn [mbind option_bind] in H.
    destruct (decide (h1 = classes h)); [by rewrite bool_decide_eq_true_2 in H|by rewrite bool_decide_eq_false_2 in H].
  - destruct (ordered (classes h) p) as [h1|] eqn:E; [|done]. cbn [mbind option_bind] in H |- *.
    destruct (decide (h1 = classes h)) as [->|]; [|by rewrite bool_decide_eq_false_2 in H].
    rewrite E. cbn [mbind option_bind]. exact H.
  - destruct (above (classes h) cl) eqn:Ea; [|done]. cbn [fst andb].
    destruct (scope _ _ _) as [h'|] eqn:E; [|done]. pose proof (scope_Some _ _ _ _ E) as [-> _].
    by rewrite Ea, bool_decide_eq_true_2.
  - apply andb_true_iff in H as [[Ha Hs]%andb_true_iff Hk]. apply bool_decide_eq_true in Hs.
    by eapply (good_scope (classes h)).
  - destruct (scope _ _ _) as [h'|] eqn:E; [|done]. by pose proof (scope_Some _ _ _ _ E) as [-> _].
  - destruct (scope _ _ _) as [h'|] eqn:E; [|done]. by eapply (good_scope (classes h)).
  - cbn in H. destruct (_ && _); [|done]. exact H.
  - cbn in H. destruct (_ && _); [|done]. exact H.
  - exact H.
Qed.

(** ** Exclusion *)

Lemma elem_of_modes_of l m h : m ∈ modes_of l h ↔ (l, m) ∈ h.
Proof.
  unfold modes_of. rewrite list_elem_of_fmap. split.
  - intros ([l' m'] & -> & [E Hin]%list_elem_of_filter). simpl in *. by subst.
  - intros Hin. exists (l, m). split; [done|]. by apply list_elem_of_filter.
Qed.
Lemma elem_of_modes l m s : m ∈ modes l s ↔ ∃ i c, s !! i = Some c ∧ (l, m) ∈ held c.
Proof.
  unfold modes. rewrite list_elem_of_bind. split.
  - intros (c & Hm & [i Hi]%list_elem_of_lookup). exists i, c. by rewrite elem_of_modes_of in Hm.
  - intros (i & c & Hi & Hm). exists c. rewrite elem_of_modes_of. split; [done|]. by eapply list_elem_of_lookup_2.
Qed.

(** No two cores hold a lock in modes that conflict. *)
Definition exclusion s : Prop :=
  ∀ i j ci cj l mi mj, i ≠ j → s !! i = Some ci → s !! j = Some cj →
    (l, mi) ∈ held ci → (l, mj) ∈ held cj → ¬ conflict mi mj.

(** Where a guard comes from. *)
Lemma core_step_held all others c c' x :
  core_step all others c c' → x ∈ held c' →
  x ∈ held c ∨ grants (all x.1) x.2 = true ∨ others x.1 = [] ∨
  x.2 = Read ∧ ∃ m, exclusive m ∧ (x.1, m) ∈ held c.
Proof.
  intros [| | | | | | | | | |h l k Hu|h l m k Hm|]; cbn [held]; rewrite ?elem_of_cons; try tauto.
  - intros [->|]; auto.
  - intros [->|]; auto.
  - apply upgrades_only, app_eq_nil in Hu as [Hu _]. intros [->|]; auto.
  - intros [->|]; [|tauto]. right. right. right. split; [done|]. exists m. split; [done|by left].
Qed.

Lemma conflict_sym m m' : conflict m m' → conflict m' m.
Proof. unfold conflict. tauto. Qed.

Lemma elem_of_others s i j c l m :
  i ≠ j → s !! j = Some c → (l, m) ∈ held c → m ∈ modes l (delete i s).
Proof.
  intros Hne Hj Hin. apply elem_of_modes. destruct (decide (j < i)%nat).
  - exists j, c. by rewrite list_lookup_delete_lt.
  - exists (j - 1)%nat, c. rewrite list_lookup_delete_ge by lia. by replace (S (j - 1)) with j by lia.
Qed.

Lemma step_exclusion s s' : step s s' → exclusion s → exclusion s'.
Proof.
  intros [s0 i c c' Hi Hst] Hex.
  assert (∀ j cj l mi mj, i ≠ j → s0 !! j = Some cj → (l, mi) ∈ held c' → (l, mj) ∈ held cj → ¬ conflict mi mj) as Hone.
  { intros j cj l mi mj Hne Hj Hmi Hmj.
    destruct (core_step_held _ _ _ _ _ Hst Hmi) as [Ho|[Hg|[Ho|(Hr & m & Hm & Ho)]]]; cbn [fst snd] in *.
    - by eapply Hex.
    - eapply grants_compatible; [exact Hg|]. apply elem_of_modes. eauto.
    - pose proof (elem_of_others s0 i j cj l mj Hne Hj Hmj) as Hin. rewrite Ho in Hin. by apply elem_of_nil in Hin.
    - subst mi. intros [?|[->|[He _]]]; [done| |done].
      eapply (Hex i j c cj l m Write); try done. right. by left. }
  intros a b ca cb l ma mb Hne Ha Hb.
  apply list_lookup_insert_Some in Ha as [(-> & <- & _)|[Hia Ha]]; apply list_lookup_insert_Some in Hb as [(-> & <- & _)|[Hib Hb]].
  - done.
  - intros H1 H2. by eapply (Hone b cb).
  - intros H1 H2 H3%conflict_sym. by eapply (Hone a ca l mb ma).
  - intros H1 H2. by eapply (Hex a b ca cb).
Qed.

(** ** Progress *)

Fixpoint psize (p : prog) : nat :=
  match p with
  | Skip | Change _ _ => 1
  | Seq p q | Alt p q => S (psize p + psize q)
  | Rep p => S (psize p)
  | Lock _ _ p | Try _ _ p => 3 + psize p
  end%nat.
Definition isize (i : instr) : nat :=
  match i with Do p => psize p | Wait _ _ p => 2 + psize p | Release => 1 end%nat.
Definition csize (c : core) : nat := sum_list_with isize (todo c).
Definition size s : nat := sum_list_with csize s.

Ltac smaller := cbn [todo sum_list_with isize psize]; lia.

(** A core waits for a lock that is not given, or for an upgrade. *)
Definition blocked s (i : nat) (c : core) (l : lock) : Prop :=
  (∃ m p k, todo c = Wait l m p :: k ∧ grants (modes l s) m = false) ∨
  (∃ h k, held c = (l, Upgradeable) :: h ∧ todo c = Do (Change l.1 Write) :: k ∧
    upgrades (modes l (delete i s) ++ modes_of l h) = false).

Lemma core_progress s i c :
  good c = true → finished c ∨ (∃ l, blocked s i c l) ∨
    ∃ c', core_step (λ l, modes l s) (λ l, modes l (delete i s)) c c' ∧ (csize c' < csize c)%nat.
Proof.
  destruct c as [h [|[p|l m p|] k]]; unfold good, finished, blocked, csize; cbn [held todo]; intros Hg; [by left|right..].
  - destruct p as [|p q|p q|p|cl m p|cl m p|cl []]; cbn [check_todo ordered] in Hg.
    + right. eexists. split; [apply st_skip|smaller].
    + right. eexists. split; [apply st_seq|smaller].
    + right. eexists. split; [apply st_left|smaller].
    + right. eexists. split; [apply st_stop|smaller].
    + right. eexists. split; [by apply (st_request _ _ _ _ 0)|smaller].
    + right. eexists. split; [apply st_miss|smaller].
    + destruct h as [|[l m] h]; [done|]. cbn [classes fmap list_fmap fst snd] in Hg.
      destruct (decide (l.1 = cl)) as [<-|]; [|by rewrite bool_decide_eq_false_2 in Hg].
      destruct (decide (m = Read)); [rewrite (bool_decide_eq_false_2 (m ≠ Read)), andb_false_r in Hg by tauto; done|].
      right. eexists. split; [by apply st_downgrade|smaller].
    + done.
    + destruct h as [|[l []] h]; [done..| |done]. cbn [classes fmap list_fmap fst snd] in Hg.
      destruct (decide (l.1 = cl)) as [<-|]; [|by rewrite bool_decide_eq_false_2 in Hg].
      destruct (upgrades (modes l (delete i s) ++ modes_of l h)) eqn:Eu.
      * right. eexists. split; [by apply st_upgrade|smaller].
      * left. exists l. right. by exists h, k.
  - destruct (grants (modes l s) m) eqn:Eg.
    + right. eexists. split; [by apply st_take|smaller].
    + left. exists l. left. by exists m, p, k.
  - destruct h as [|x h]; [done|]. right. eexists. split; [apply st_release|smaller].
Qed.

(** The holder of a lock is not finished, and what it waits for is higher, or
    it waits for an upgrade of the same lock. *)
Lemma finished_holds_nothing c : good c = true → finished c → held c = [].
Proof.
  unfold good, finished. intros Hg E. rewrite E in Hg. cbn [check_todo] in Hg. apply bool_decide_eq_true in Hg.
  unfold classes in Hg. by apply fmap_nil_inv in Hg.
Qed.

Lemma elem_of_classes h l m : (l, m) ∈ h → (l.1, m) ∈ classes h.
Proof. intros Hin. unfold classes. apply list_elem_of_fmap. by exists (l, m). Qed.

Lemma blocked_above s i c l l' m :
  good c = true → blocked s i c l → (l', m) ∈ held c →
  (rank l'.1 < rank l.1)%nat ∨ l' = l ∧ m = Upgradeable ∧ ∃ h, held c = (l, Upgradeable) :: h ∧ above (classes h) l.1 = true ∧
    upgrades (modes l (delete i s) ++ modes_of l h) = false.
Proof.
  unfold good. intros Hg [(m' & p & k & Ht & _)|(h & k & Hh & Ht & Hu)] Hin; rewrite Ht in Hg; cbn [check_todo ordered] in Hg.
  - left. apply andb_true_iff in Hg as [[Ha _]%andb_true_iff _]. apply elem_of_classes in Hin.
    by apply (above_spec _ _ _ Ha) in Hin.
  - rewrite Hh in Hg, Hin. cbn [classes fmap list_fmap fst snd] in Hg. rewrite bool_decide_eq_true_2 in Hg by done.
    cbn [andb] in Hg. change ((λ x : class * nat * mode, (x.1.1, x.2)) <$> h) with (classes h) in Hg.
    destruct (above (classes h) l.1) eqn:Ha; [|done].
    apply elem_of_cons in Hin as [[= -> ->]|Hin]; [right; eauto 10|left].
    apply elem_of_classes in Hin. by apply (above_spec _ _ _ Ha) in Hin.
Qed.

Section stuck.
Context s (Hgood : ∀ i c, s !! i = Some c → good c = true) (Hex : exclusion s).
Context (Hall : ∀ i c, s !! i = Some c → finished c ∨ ∃ l, blocked s i c l).

Lemma holder_blocked i c l m : s !! i = Some c → (l, m) ∈ held c → ∃ l', blocked s i c l'.
Proof.
  intros Hi Hin. destruct (Hall i c Hi) as [Hf|]; [|done].
  rewrite (finished_holds_nothing c (Hgood i c Hi) Hf) in Hin. by apply elem_of_nil in Hin.
Qed.

(** When an upgrade of [l] waits, somebody waits for a higher lock. *)
Lemma upgrade_climbs i c l h :
  s !! i = Some c → held c = (l, Upgradeable) :: h → above (classes h) l.1 = true →
  upgrades (modes l (delete i s) ++ modes_of l h) = false →
  ∃ j d l', s !! j = Some d ∧ blocked s j d l' ∧ (rank l.1 < rank l'.1)%nat.
Proof.
  intros Hi Hh Ha Hu.
  destruct (modes l (delete i s) ++ modes_of l h) as [|m ms] eqn:E; [by rewrite upgrades_alone in Hu|].
  assert (m ∈ modes l (delete i s) ++ modes_of l h) as Hm by (rewrite E; by left).
  apply elem_of_app in Hm as [(j & d & Hj & Hin)%elem_of_modes|Hin%elem_of_modes_of].
  - assert (∃ j', j' ≠ i ∧ s !! j' = Some d) as (j' & Hne & Hj').
    { destruct (decide (j < i)%nat).
      - exists j. split; [lia|]. by rewrite list_lookup_delete_lt in Hj.
      - exists (S j). split; [lia|]. by rewrite list_lookup_delete_ge in Hj by lia. }
    destruct (holder_blocked j' d l m Hj' Hin) as [l' Hb].
    destruct (blocked_above s j' d l' l m (Hgood _ _ Hj') Hb Hin) as [Hlt|(-> & -> & h' & Hh' & _)]; [by exists j', d, l'|].
    destruct (Hex i j' c d l' Upgradeable Upgradeable); try done; [rewrite Hh; by left|]. right. right. by split.
  - apply elem_of_classes in Hin. apply (above_spec _ _ _ Ha) in Hin. simpl in Hin. lia.
Qed.

Lemma blocked_climbs i c l :
  s !! i = Some c → blocked s i c l → ∃ j d l', s !! j = Some d ∧ blocked s j d l' ∧ (rank l.1 < rank l'.1)%nat.
Proof.
  intros Hi Hb. pose proof Hb as [(m & p & k & Ht & Hg)|(h & k & Hh & Ht & Hu)].
  - destruct (modes l s) as [|m' ms] eqn:E; [by rewrite grants_free in Hg|].
    assert (m' ∈ modes l s) as (j & d & Hj & Hin)%elem_of_modes by (rewrite E; by left).
    destruct (holder_blocked j d l m' Hj Hin) as [l' Hbd].
    destruct (blocked_above s j d l' l m' (Hgood _ _ Hj) Hbd Hin) as [Hlt|(-> & -> & h' & Hh' & Ha & Hu)]; [by exists j, d, l'|].
    by eapply (upgrade_climbs j d).
  - destruct (blocked_above s i c l l Upgradeable (Hgood _ _ Hi) Hb) as [Hlt|(_ & _ & h' & Hh' & Ha & Hu')]; [rewrite Hh; by left|lia|].
    by eapply (upgrade_climbs i c).
Qed.

Lemma rank_bound (c : class) : (rank c < 11)%nat.
Proof. destruct c; simpl; lia. Qed.

Lemma nobody_blocked i c l : s !! i = Some c → ¬ blocked s i c l.
Proof.
  assert (∀ n i c l, s !! i = Some c → blocked s i c l → (11 ≤ rank l.1 + n)%nat → False) as Hn.
  { induction n as [|n IH]; intros j d l' Hj Hb Hle; [pose proof (rank_bound l'.1); lia|].
    destruct (blocked_climbs j d l' Hj Hb) as (j2 & d2 & l2 & Hj2 & Hb2 & Hlt). eapply IH; [exact Hj2|exact Hb2|lia]. }
  intros Hi Hb. eapply (Hn 11%nat); [exact Hi|exact Hb|lia].
Qed.
End stuck.

Lemma size_insert s i c c' :
  s !! i = Some c → (csize c' < csize c)%nat → (size (<[i := c']> s) < size s)%nat.
Proof.
  unfold size. revert i. induction s as [|d s IH]; intros [|i] Hi Hlt; try done; cbn [insert list_insert sum_list_with].
  - injection Hi as ->. lia.
  - apply Nat.add_lt_mono_l. exact (IH i Hi Hlt).
Qed.

(** Somebody can go on, towards the end. *)
Lemma progress s :
  Forall (λ c, good c = true) s → exclusion s →
  Forall finished s ∨ ∃ s', step s s' ∧ (size s' < size s)%nat.
Proof.
  intros Hg Hex. rewrite Forall_lookup in Hg.
  assert ((∃ i c c', s !! i = Some c ∧ core_step (λ l, modes l s) (λ l, modes l (delete i s)) c c' ∧ (csize c' < csize c)%nat) ∨
    ∀ i c, s !! i = Some c → finished c ∨ ∃ l, blocked s i c l) as [(i & c & c' & Hi & Hst & Hlt)|Hall].
  { assert (∀ n, (n ≤ length s)%nat → (∃ i c c', s !! i = Some c ∧ core_step (λ l, modes l s) (λ l, modes l (delete i s)) c c' ∧ (csize c' < csize c)%nat) ∨
      ∀ i c, (i < n)%nat → s !! i = Some c → finished c ∨ ∃ l, blocked s i c l) as Hn.
    { induction n as [|n IH]; intros Hle; [right; intros; lia|]. destruct IH as [?|IH]; [lia|by left|].
      destruct (lookup_lt_is_Some_2 s n ltac:(lia)) as [c Hc].
      destruct (core_progress s n c (Hg _ _ Hc)) as [Hf|[Hb|(c' & Hst & Hlt)]]; [| |left; eauto 10].
      all: right; intros i d Hi Hd; destruct (decide (i = n)) as [->|]; [|apply IH; [lia|done]];
        assert (d = c) as -> by congruence; tauto. }
    destruct (Hn (length s)) as [?|H]; [lia|by left|right]. intros i c Hi. eapply H; [|exact Hi]. by eapply lookup_lt_Some. }
  - right. exists (<[i := c']> s). split; [by econstructor|]. by eapply size_insert.
  - left. apply Forall_lookup. intros i c Hi. destruct (Hall i c Hi) as [|[l Hb]]; [done|].
    by destruct (nobody_blocked s Hg Hex Hall i c l Hi).
Qed.

Lemma step_good s s' : step s s' → Forall (λ c, good c = true) s → Forall (λ c, good c = true) s'.
Proof.
  intros [s0 i c c' Hi Hst] Hg. apply Forall_insert; [done|]. eapply core_step_good; [exact Hst|].
  by eapply (Forall_lookup_1 _ _ _ _ Hg).
Qed.

(** Programs that pass the checker, started together: locks are held in
    compatible modes, and at every moment the cores can go on until all are
    finished. *)
Lemma checked_inv ps s :
  Forall (λ p, ordered [] p = Some []) ps → rtc step (begin <$> ps) s →
  Forall (λ c, good c = true) s ∧ exclusion s.
Proof.
  intros Hps Hsteps.
  assert (Forall (λ c, good c = true) (begin <$> ps) ∧ exclusion (begin <$> ps)) as H0.
  { split.
    - apply Forall_fmap. eapply Forall_impl; [exact Hps|]. intros p Hp. unfold good, begin. cbn. by rewrite Hp.
    - intros i j ci cj l mi mj _ Hi _ Hin. rewrite list_lookup_fmap in Hi.
      destruct (ps !! i) as [p|]; [|done]. injection Hi as <-. by apply elem_of_nil in Hin. }
  induction Hsteps as [|s1 s2 s3 H12 _ IH]; [done|]. apply IH. destruct H0 as [? ?].
  split; [by eapply step_good|by eapply step_exclusion].
Qed.

Lemma good_completes s :
  Forall (λ c, good c = true) s → exclusion s → ∃ s', rtc step s s' ∧ Forall finished s'.
Proof.
  remember (size s) as n eqn:En. revert s En. induction (lt_wf n) as [n _ IH]. intros s -> Hg Hex.
  destruct (progress s Hg Hex) as [Hf|(s' & Hst & Hlt)]; [by exists s|].
  destruct (IH (size s') Hlt s') as (s2 & Hs2 & Hf); [done|by eapply step_good|by eapply step_exclusion|].
  exists s2. split; [|done]. by eapply rtc_l.
Qed.
End proofs.

(** ** The locks of the kernel *)

Declare Scope prog_scope.
Delimit Scope prog_scope with prog.
Notation "p ;;; q" := (Seq p q) (at level 64, right associativity) : prog_scope.
Notation "p <||> q" := (Alt p q) (at level 66, right associativity) : prog_scope.
Open Scope prog_scope.
Definition opt (p : prog) : prog := Alt Skip p.

Definition println_locks : prog := opt (Lock DEBUG_WRITER Write Skip).
Definition pixel_locks : prog := Lock FRAMEBUFFER Write Skip.
Definition instance_locks : prog := Lock PROC_TABLE Write Skip.
Definition numcores_locks : prog := Lock NUMCORES Read Skip.

(** *** Memory *)

Definition palloc_locks : prog := Lock PHYS_FRAME_ALLOCATOR Write Skip.
Definition pfree_locks : prog := Lock PHYS_FRAME_ALLOCATOR Write Skip.
(** [alloc_substruct] takes a frame when the entry is unused. *)
Definition ensure_allocated_locks : prog := opt palloc_locks.
(** The cache is locked after the two refusals; without space in it [map]
    returns before it locks the table. *)
Definition map_locks : prog :=
  opt (Lock VCACHE Write (opt (Lock P4TABLE Write (Rep (ensure_allocated_locks ;;; ensure_allocated_locks ;;; ensure_allocated_locks))))).
Definition vmap_locks : prog := Lock MAPPER Write map_locks.
Definition vmap_many_locks : prog := Rep vmap_locks.
Definition valloc_locks : prog := Rep (palloc_locks ;;; vmap_locks).
Definition expand_locks : prog := Lock HEAP_HEAD Write (opt (println_locks ;;; valloc_locks)).
(** The page fault the kernel returns from. *)
Definition page_fault_locks : prog := expand_locks.
(** An allocation or a release: the allocator works on its free list, in
    memory that may fault, under its lock; the block is written after it. *)
Definition heap_locks : prog := Lock GLOB_ALLOCATOR Write (Rep page_fault_locks) ;;; Rep page_fault_locks.

(** *** Tasks *)

Definition allocate_locks : prog :=
  Rep (palloc_locks ;;; opt heap_locks ;;; opt heap_locks) ;;; opt (palloc_locks ;;; Rep pfree_locks ;;; opt heap_locks).
Definition drop_map_locks : prog := Rep pfree_locks ;;; opt heap_locks.
Definition drop_task_locks : prog := println_locks ;;; drop_map_locks ;;; heap_locks.
Definition new_locked_locks : prog := Lock IDCOUNT Write Skip ;;; heap_locks ;;; opt heap_locks.
(** A segment that is loaded; then it is over, or the frames are released. *)
Definition load_locks : prog :=
  println_locks ;;; allocate_locks ;;; vmap_many_locks ;;; opt heap_locks.
Definition exec_locks : prog :=
  Rep (load_locks <||> println_locks) ;;;
  ((opt println_locks ;;; opt allocate_locks ;;; drop_map_locks) <||>
   (allocate_locks ;;; println_locks ;;; vmap_many_locks ;;; opt heap_locks ;;; new_locked_locks)).
Definition exec_initrd_locks : prog := opt (opt exec_locks ;;; opt println_locks).

(** *** The scheduler *)

Definition run_init_locks : prog := Change TASKS Write ;;; exec_initrd_locks ;;; println_locks ;;; Change TASKS Read.
Definition expire_locks : prog := Lock TASK Read numcores_locks ;;; opt (Lock TASK Write println_locks).
(** The first pending task found stays locked while the others are tried. *)
Definition search_locks : prog := Rep (Try TASK Write Skip) ;;; Try TASK Write (Rep (Try TASK Write Skip) ;;; println_locks).
Definition tick_body_locks : prog :=
  opt (Lock TASK Write Skip) ;;;
  (run_init_locks <||> Change TASKS Read) ;;;
  opt expire_locks ;;;
  (Lock TASK Read println_locks <||> search_locks).
Definition tick_locks : prog :=
  instance_locks ;;; (Lock TASKS Upgradeable tick_body_locks <||> Try TASKS Upgradeable tick_body_locks).
Definition apply_locks : prog := instance_locks ;;; opt (Rep vmap_locks).
Definition continue_locks : prog := instance_locks ;;; opt (Lock TASK Read apply_locks).
(** The task is looked up, and removed if it is found.  The list is released
    before the task, whose last reference is [exit_current]'s. *)
Definition exit_locks : prog :=
  instance_locks ;;;
  opt (Lock TASK Read Skip ;;; println_locks ;;;
       (Lock TASKS Upgradeable (Rep (Lock TASK Read Skip)) <||>
        Lock TASKS Upgradeable (Rep (Lock TASK Read Skip) ;;; Change TASKS Write)) ;;;
       drop_task_locks).

(** *** Entries *)

Definition handle_locks : prog :=
  exit_locks <||>
  (println_locks ;;; instance_locks ;;; Lock TASK Read Skip) <||>
  (println_locks ;;; pixel_locks) <||>
  (println_locks ;;; Lock TASKS Write exec_initrd_locks).
Definition syscall_locks : prog :=
  instance_locks ;;; Lock TASK Write Skip ;;; opt handle_locks ;;; instance_locks ;;;
  opt (Lock TASK Write Skip ;;; continue_locks).
Definition timer_locks : prog := println_locks ;;; tick_locks ;;; opt pixel_locks ;;; continue_locks.
(** The end of [wakeup], and then what a core serves for ever. *)
Definition core_locks : prog := (pixel_locks ;;; pixel_locks ;;; println_locks) ;;; Rep (timer_locks <||> syscall_locks).

Lemma core_locks_checked : ordered [] core_locks = Some [].
Proof. vm_compute. reflexivity. Qed.

Section kernel.
Context {SP : Spin} {SO : SpinOk SP}.

(** C7. The locks of the kernel.  Any number of cores serve timer interrupts
    and system calls at the same time, with their lock operations interleaved
    in any way.  Then two cores never hold a lock in modes that conflict: a
    lock held for writing has one holder.  And the cores never block each
    other: unless all are done some core can go on, and from every state that
    is reached all entries can be completed, with every lock released. *)
Theorem kernel_never_deadlocks n s :
  rtc step (replicate n (begin core_locks)) s →
  exclusion s ∧ (Forall finished s ∨ ∃ s', step s s') ∧
  ∃ s', rtc step s s' ∧ Forall finished s' ∧ Forall (λ c, held c = []) s'.
Proof.
  rewrite <- fmap_replicate. intros Hs.
  destruct (checked_inv (replicate n core_locks) s) as [Hg Hex]; [|done|].
  { apply Forall_replicate, core_locks_checked. }
  split; [done|]. split.
  - destruct (progress s Hg Hex) as [|(s' & ? & _)]; eauto.
  - destruct (good_completes s Hg Hex) as (s' & Hs' & Hf). exists s'. split; [done|]. split; [done|].
    destruct (checked_inv (replicate n core_locks) s') as [Hg' _].
    { apply Forall_replicate, core_locks_checked. }
    { by etrans. }
    rewrite Forall_lookup in Hg', Hf |- *. intros i c Hi. eapply finished_holds_nothing; eauto.
Qed.
End kernel.

(** ** An instance: the rules of [spin]'s [RwLock] *)

Definition spin_grants (ms : list mode) (m : mode) : bool :=
  match m with
  | Read | Upgradeable => forallb (λ m', bool_decide (m' = Read)) ms
  | Write => bool_decide (ms = [])
  end.
#[local] Instance spin_rwlock : Spin := { grants := spin_grants; upgrades ms := bool_decide (ms = []) }.
#[local] Instance spin_rwlock_ok : SpinOk spin_rwlock.
Proof.
  split.
  - by intros [].
  - intros ms m m' Hg Hin. assert (m' = Read ∧ m ≠ Write) as [-> Hm].
    { destruct m; cbn in Hg.
      1,2: rewrite forallb_forall in Hg; apply list_elem_of_In in Hin; apply Hg, bool_decide_eq_true in Hin; by rewrite Hin.
      apply bool_decide_eq_true in Hg as ->. by apply elem_of_nil in Hin. }
    by intros [?|[?|[_ []]]].
  - done.
  - intros ms. apply bool_decide_eq_true.
Qed.

(** Two cores at the first pixel of [wakeup]'s end: one holds the screen, the
    other waits for it. *)
Definition contended : list core :=
  let k := [Do (pixel_locks ;;; println_locks); Do (Rep (timer_locks <||> syscall_locks))] in
  [mkCore [((FRAMEBUFFER, 0%nat), Write)] (Do Skip :: Release :: k); mkCore [] (Wait (FRAMEBUFFER, 0%nat) Write Skip :: k)].
Ltac core_steps i := eapply rtc_l; [eapply (step_core _ i); [reflexivity|constructor; try done; vm_compute; reflexivity]|cbn [insert list_insert]].

Lemma kernel_never_deadlocks_witness :
  rtc step (replicate 2 (begin core_locks)) contended ∧
  exclusion contended ∧ (Forall finished contended ∨ ∃ s', step contended s') ∧
  ∃ s', rtc step contended s' ∧ Forall finished s' ∧ Forall (λ c, held c = []) s'.
Proof.
  assert (rtc step (replicate 2 (begin core_locks)) contended) as H.
  { cbn [replicate]. unfold begin, core_locks.
    do 2 core_steps 0%nat. do 2 core_steps 1%nat. core_steps 0%nat. core_steps 1%nat. core_steps 0%nat. reflexivity. }
  split; [exact H|]. exact (kernel_never_deadlocks 2 contended H).
Defined.
End Lock.
