(* ===== verification/FrameAlloc.v ===== *)
(** * The frame allocator interface

    The kernel's physical allocator implements the traits
    [FrameAllocator<Size4KiB>] and [FrameDeallocator<Size4KiB>]; every other
    memory component reaches it only through [palloc] and [pfree]
    ([kernel/src/mem/mod.rs]).  [FrameAllocator] is that pair of operations
    and [FrameAllocatorOk] what they promise: a set of free frames that
    [alloc] takes from and [dealloc] gives back to. *)

From S2P Require Import Prelude X86.

Class FrameAllocator (P : Type) := {
  fa_alloc : M P (option Z);
  fa_dealloc : Z → M P unit;
}.

Definition good_frame (f : Z) : Prop := page_aligned f = true ∧ in_width 52 f.

Class FrameAllocatorOk (P : Type) `{FrameAllocator P} := {
  fa_inv : P → Prop;
  fa_free : P → gset Z;
  fa_managed : P → Z → Prop;
  fa_free_managed p f : fa_inv p → f ∈ fa_free p → fa_managed p f ∧ good_frame f;
  fa_alloc_ok p : fa_inv p →
    (fa_alloc p = Ok (None, p) ∧ fa_free p = ∅) ∨
    (∃ f p', fa_alloc p = Ok (Some f, p') ∧ fa_inv p' ∧ f ∈ fa_free p ∧
      fa_free p' = fa_free p ∖ {[f]} ∧ ∀ g, fa_managed p' g ↔ fa_managed p g);
  fa_dealloc_ok p f : fa_inv p → good_frame f →
    ∃ p', fa_dealloc f p = Ok (tt, p') ∧ fa_inv p' ∧
      (∀ g, fa_managed p' g ↔ fa_managed p g) ∧
      (fa_managed p f → fa_free p' = {[f]} ∪ fa_free p) ∧
      (¬ fa_managed p f → p' = p);
}.
