(* ===== verification/Bootboot.v ===== *)
(** * The BOOTBOOT information block

    Models [kernel/src/bootboot.rs]: the structure the boot loader leaves in
    memory and the accessors of its memory map entries. *)

From S2P Require Import Prelude X86.

Record MMapEnt := mkMMapEnt { me_ptr : Z; me_size : Z }.

Inductive MMapType := Used | Free | Acpi | MemoryMappedIO.

#[global] Instance MMapType_eq_dec : EqDecision MMapType.
Proof. solve_decision. Defined.

(** The [x86_64] member of the union [ArchInfo]. *)
Record Archx86 := mkArchx86 {
  acpi_ptr : Z;
  smbi_ptr : Z;
  efi_ptr : Z;
  mp_ptr : Z;
  unused0 : Z;
  unused1 : Z;
  unused2 : Z;
  unused3 : Z;
}.

(** [bb_mmap] is the memory from the field [mmap] on, as entries. *)
Record BootBoot := mkBootBoot {
  bb_magic : list Z;
  bb_size : Z;
  bb_protocol : Z;
  bb_fb_type : Z;
  bb_numcores : Z;
  bb_bspid : Z;
  bb_timezone : Z;
  bb_datetime : list Z;
  bb_initrd_ptr : Z;
  bb_initrd_size : Z;
  bb_fb_ptr : Z;
  bb_fb_size : Z;
  bb_fb_width : Z;
  bb_fb_height : Z;
  bb_fb_scanline : Z;
  bb_arch : Archx86;
  bb_mmap : list MMapEnt;
}.

(** [mem::size_of::<BootBoot>()] and [mem::size_of::<MMapEnt>()], both packed. *)
Definition sizeof_MMapEnt : Z := 8 + 8.
Definition sizeof_BootBoot : Z :=
  4 + 4 + 1 + 1 + 2 + 2 + 2 + 8 + 8 + 8 + 8 + 4 * 4 + 8 * 8 + sizeof_MMapEnt.

Section bootboot.
Context {X : X86}.

Definition get_type (e : MMapEnt) : res MMapType :=
  match Z.land (me_size e) 0xF with
  | 0 => Ok Used
  | 1 => Ok Free
  | 2 => Ok Acpi
  | 3 => Ok MemoryMappedIO
  | _ => Panic Explicit
  end.

Definition raw_size (e : MMapEnt) : Z := Z.land (me_size e) 0xFFFFFFFFFFFFFFF0.

Definition phyadr (e : MMapEnt) : res Z :=
  a ← of_option Crate (align_up (me_ptr e) PAGE_SIZE);
  of_option Crate (phys_new a).

Definition mmap_size (e : MMapEnt) : res Z :=
  of_option Crate (align_down (raw_size e) PAGE_SIZE).
End bootboot.

(** ** Facts about memory map entries *)

Lemma raw_size_eq e : in_width 64 (me_size e) → raw_size e = me_size e / 16 * 16.
Proof.
  intros He. unfold raw_size.
  replace (me_size e / 16 * 16) with (Z.shiftl (Z.shiftr (me_size e) 4) 4).
  2: { rewrite Z.shiftl_mul_pow2, Z.shiftr_div_pow2 by lia. done. }
  replace 0xFFFFFFFFFFFFFFF0 with (Z.shiftl (Z.ones 60) 4) by done.
  apply Z.bits_inj'. intros i Hi. rewrite Z.land_spec.
  destruct (Z.lt_ge_cases i 4).
  - rewrite !Z.shiftl_spec_low by lia. apply andb_false_r.
  - rewrite !Z.shiftl_spec, Z.shiftr_spec by lia.
    rewrite Z.sub_add, Z.testbit_ones by lia.
    destruct (Z.leb_spec 0 (i - 4)), (Z.ltb_spec (i - 4) 60); simpl; try lia.
    + apply andb_true_r.
    + rewrite andb_false_r. symmetry. apply (testbit_high 64); [done|lia].
Qed.

Lemma raw_size_bounds e : in_width 64 (me_size e) → 0 ≤ raw_size e ≤ me_size e.
Proof. intros He. rewrite raw_size_eq by done. destruct He. zlia. Qed.

Section bootboot_facts.
Context {X : X86} {XO : X86Ok X}.

Lemma phyadr_Ok e a :
  in_width 64 (me_ptr e) → phyadr e = Ok a →
  a = (me_ptr e + 4095) / 4096 * 4096 ∧ in_width 52 a.
Proof.
  intros He. unfold phyadr, mbind, res_bind. rewrite align_up_page_spec by done. simpl.
  destruct He as [He0 He].
  destruct (Z.ltb_spec ((me_ptr e + 4095) / 4096 * 4096) (2 ^ 64)); simpl; [|done].
  rewrite phys_new_spec by (split; [zlia|done]).
  destruct (Z.ltb_spec ((me_ptr e + 4095) / 4096 * 4096) (2 ^ 52)); simpl; [|done].
  intros [= <-]. split; [done|]. split; [zlia|done].
Qed.

Lemma phyadr_aligned e :
  in_width 52 (me_ptr e) → page_aligned (me_ptr e) = true → phyadr e = Ok (me_ptr e).
Proof.
  intros [H1 H2] Ha. unfold page_aligned, PAGE_SIZE in Ha. apply Z.eqb_eq in Ha.
  unfold phyadr, mbind, res_bind. rewrite align_up_page_spec by (split; lia). simpl.
  replace ((me_ptr e + 4095) / 4096 * 4096) with (me_ptr e) by zlia.
  destruct (Z.ltb_spec (me_ptr e) (2 ^ 64)); [|lia]. simpl.
  rewrite phys_new_spec by (split; lia).
  destruct (Z.ltb_spec (me_ptr e) (2 ^ 52)); [done|lia].
Qed.

Lemma mmap_size_Ok e :
  in_width 64 (me_size e) → mmap_size e = Ok (raw_size e / 4096 * 4096).
Proof.
  intros He. pose proof (raw_size_bounds e He). destruct He. unfold mmap_size.
  change PAGE_SIZE with (2 ^ 12). by rewrite align_down_spec by (unfold in_width; lia).
Qed.
End bootboot_facts.
