(* ===== verification/Phys.v ===== *)
(** * The physical frame allocator

    Models [kernel/src/mem/phys.rs]: the segment headers with their bitmaps,
    the construction of the allocator from the memory map of the boot loader,
    and the allocation and release of 4 KiB frames. *)

From S2P Require Import Prelude X86 FrameAlloc Bootboot.

(** ** Segment headers *)

Record SegmentHeader := mkSegmentHeader { magic : Z; address : Z; size : Z }.

Definition MAGIC : Z := 0xA55AA55AA55AA55A.

(** [core::mem::size_of::<SegmentHeader>()]. *)
Definition sizeof_SegmentHeader : Z := 8 + 8 + 8.

(** [u64::trailing_ones]. *)
Fixpoint trailing_ones_aux (fuel : nat) (w : Z) : Z :=
  match fuel with
  | O => 0
  | S fuel => if Z.odd w then 1 + trailing_ones_aux fuel (Z.div2 w) else 0
  end.
Definition trailing_ones (w : Z) : Z := trailing_ones_aux 64 w.

(** [!x] on [u64]. *)
Definition not64 (x : Z) : Z := Z.lxor x u64_max.

(** A header in memory: the address it was written at, its fields, and the
    words that follow it, which hold its bitmap. *)
Record Segment := mkSegment {
  seg_ptr : Z;
  seg_header : SegmentHeader;
  seg_words : list Z;
}.

Record PhysicalFrameAllocator := mkPFA {
  segments : list Segment;
  pfa_size : Z;
  phyframe : Z;
}.

Definition set_word (s : Segment) (i : nat) (w : Z) : Segment :=
  mkSegment (seg_ptr s) (seg_header s) (<[i := w]> (seg_words s)).

Definition set_segments (l : list Segment) (p : PhysicalFrameAllocator) :=
  mkPFA l (pfa_size p) (phyframe p).

Section phys.
Context {X : X86}.

Definition SegmentHeader_new (adr sz : Z) : SegmentHeader := mkSegmentHeader MAGIC adr sz.

Definition check (h : SegmentHeader) : res unit :=
  if magic h =? MAGIC then Ok tt else Panic Assert.

Definition bitmap_size (h : SegmentHeader) : res Z :=
  a ← of_option Crate (align_up (size h / PAGE_SIZE) 64);
  mret (a / 8).

Definition bitmap_u64len (h : SegmentHeader) : res Z :=
  b ← bitmap_size h; mret (b / 8).

(** The slice of [bitmap_u64len] words that follows the header. *)
Definition bitmap (s : Segment) : res (list Z) :=
  n ← bitmap_u64len (seg_header s);
  if (Z.to_nat n <=? length (seg_words s))%nat
  then mret (take (Z.to_nat n) (seg_words s))
  else Panic Undefined.

Definition in_range (h : SegmentHeader) (addr : Z) : res bool :=
  if address h <=? addr
  then e ← of_option Crate (phys_add (address h) (size h)); mret (addr <? e)
  else mret false.

(** ** Allocation and release *)

(** The loop of [allocate_frame] over the segments. *)
Fixpoint alloc_loop (segs : list Segment) : res (option Z * list Segment) :=
  match segs with
  | [] => Ok (None, [])
  | s :: rest =>
    _ ← check (seg_header s);
    bm ← bitmap s;
    match list_find (λ w, w ≠ u64_max) bm with
    | None => r ← alloc_loop rest; mret (r.1, s :: r.2)
    | Some (page_windex, control_word) =>
      let page_bitindex := trailing_ones control_word in
      if page_bitindex =? 64 then Panic Assert else
      t ← mul64 64 (Z.of_nat page_windex);
      page_index ← add64 t page_bitindex;
      let control_word' := Z.lor control_word (wrap 64 (Z.shiftl 1 page_bitindex)) in
      off ← mul64 page_index PAGE_SIZE;
      frame_start ← of_option Crate (phys_add (address (seg_header s)) off);
      mret (Some (frame_containing frame_start), set_word s page_windex control_word' :: rest)
    end
  end.

Definition allocate_frame : M PhysicalFrameAllocator (option Z) := λ p,
  r ← alloc_loop (segments p);
  mret (r.1, set_segments r.2 p).

(** [self.segments.iter().find(|seg| seg.in_range(adr))], with its position. *)
Fixpoint find_segment (segs : list Segment) (adr : Z) : res (option (nat * Segment)) :=
  match segs with
  | [] => Ok None
  | s :: rest =>
    b ← in_range (seg_header s) adr;
    if (b : bool) then mret (Some (0%nat, s))
    else r ← find_segment rest adr; mret ((λ '(i, s), (S i, s)) <$> r)
  end.

Definition deallocate_frame (frame : Z) : M PhysicalFrameAllocator unit := λ p,
  f ← find_segment (segments p) frame;
  match f with
  | None => mret (tt, p)
  | Some (si, s) =>
    bm ← bitmap s;
    frame_offset ← of_option Crate (phys_sub frame (address (seg_header s)));
    let page_index := frame_offset / PAGE_SIZE in
    let page_windex := page_index / 64 in
    let page_bitindex := page_index mod 64 in
    control_word ← index bm page_windex;
    let control_word' := Z.land control_word (not64 (wrap 64 (Z.shiftl 1 page_bitindex))) in
    mret (tt, set_segments
      (<[si := set_word s (Z.to_nat page_windex) control_word']> (segments p)) p)
  end.

(** The allocator before [phys::init]: without segments.  Until then nothing is
    allocated, and a release is ignored. *)
Definition PhysicalFrameAllocator_new : PhysicalFrameAllocator := mkPFA [] 0 0.
Lemma allocator_new_empty f :
  allocate_frame PhysicalFrameAllocator_new = Ok (None, PhysicalFrameAllocator_new) ∧
  deallocate_frame f PhysicalFrameAllocator_new = Ok (tt, PhysicalFrameAllocator_new).
Proof. done. Qed.

(** ** Construction from the memory map *)

(** The entries [mmap_start.add(i)] for [i] from [mmap_len - 1] down to 0. *)
Definition mmap_entries (bb : BootBoot) : res (list MMapEnt) :=
  d ← sub64 (bb_size bb) sizeof_BootBoot;
  let mmap_len := d / sizeof_MMapEnt + 1 in
  mapM (λ i : Z, of_option Undefined (bb_mmap bb !! Z.to_nat i)) (reverse (range mmap_len)).

(** First loop of [init]: the usable segments and [header_total_size]. *)
Fixpoint collect_usable (ents : list MMapEnt) (total : Z) : res (list SegmentHeader * Z) :=
  match ents with
  | [] => Ok ([], total)
  | e :: rest =>
    ty ← get_type e;
    if bool_decide (ty = Free) && (PAGE_SIZE <=? raw_size e) then
      adr ← phyadr e;
      sz ← mmap_size e;
      let segment_header := SegmentHeader_new adr sz in
      b ← bitmap_size segment_header;
      t ← add64 b sizeof_SegmentHeader;
      total' ← add64 total t;
      r ← collect_usable rest total';
      mret (segment_header :: r.1, r.2)
    else collect_usable rest total
  end.

(** Second loop: the first segment large enough gives its start to the header. *)
Fixpoint place_header (segs : list SegmentHeader) (total : Z) :
    res (option Z * list SegmentHeader) :=
  match segs with
  | [] => Ok (None, [])
  | s :: rest =>
    need ← of_option Crate (align_up total PAGE_SIZE);
    if need <=? size s then
      adr ← of_option Crate (phys_add (address s) need);
      sz ← sub64 (size s) need;
      mret (Some (address s), mkSegmentHeader (magic s) adr sz :: rest)
    else r ← place_header rest total; mret (r.1, s :: r.2)
  end.

(** [bitmap.fill(0)], then the last word masks the pages past the end. *)
Definition init_bitmap (h : SegmentHeader) : res (list Z) :=
  n ← bitmap_u64len h;
  let words := replicate (Z.to_nat n) 0 in
  match Z.to_nat n with
  | O => Panic Unreachable
  | S l => mret (<[l := wrap 64 (Z.shiftl u64_max (size h / PAGE_SIZE mod 64))]> words)
  end.

(** Third loop: the headers are written one after the other at [pmm_header],
    through the identity map, each with its bitmap behind it. *)
Fixpoint write_headers (pmm_header cursor : Z) (segs : list SegmentHeader) :
    res (list Segment * Z) :=
  match segs with
  | [] => Ok ([], cursor)
  | h :: rest =>
    segment_ptr ← of_option Crate (phys_add pmm_header cursor);
    _ ← ident_ref segment_ptr sizeof_SegmentHeader;
    words ← init_bitmap h;
    _ ← ident_ref segment_ptr (sizeof_SegmentHeader + 8 * Z.of_nat (length words));
    b ← bitmap_size h;
    t ← add64 b sizeof_SegmentHeader;
    cursor' ← add64 cursor t;
    r ← write_headers pmm_header cursor' rest;
    mret (mkSegment segment_ptr h words :: r.1, r.2)
  end.

Definition phys_init (bb : BootBoot) : res PhysicalFrameAllocator :=
  ents ← mmap_entries bb;
  u ← collect_usable ents 0;
  let '(mmap_usable, header_total_size) := u in
  p ← place_header mmap_usable header_total_size;
  let '(pmm_header, mmap_usable) := p in
  match pmm_header with
  | None => Panic Explicit
  | Some pmm_header =>
    w ← write_headers pmm_header 0 mmap_usable;
    frame ← unwrap (frame_from_start pmm_header);
    mret (mkPFA w.1 header_total_size frame)
  end.
End phys.

(** ** Abstract view: the set of free frames *)

Definition npages (h : SegmentHeader) : Z := size h / PAGE_SIZE.
Definition frame_of (h : SegmentHeader) (i : Z) : Z := address h + i * PAGE_SIZE.
Definition covers (h : SegmentHeader) (f : Z) : Prop := address h ≤ f < address h + size h.

(** Bit [i] of a bitmap; bits past the bitmap count as used. *)
Definition bit_at (ws : list Z) (i : Z) : bool :=
  match ws !! Z.to_nat (i / 64) with
  | Some w => Z.testbit w (i mod 64)
  | None => true
  end.

Definition free_in (s : Segment) : gset Z :=
  list_to_set (frame_of (seg_header s) <$>
    filter (λ i, bit_at (seg_words s) i = false) (range (npages (seg_header s)))).

Definition free_frames (p : PhysicalFrameAllocator) : gset Z := ⋃ (free_in <$> segments p).

(** A frame the allocator is in charge of, free or not. *)
Definition managed (p : PhysicalFrameAllocator) (f : Z) : Prop :=
  page_aligned f = true ∧ Exists (λ s, covers (seg_header s) f) (segments p).

(** ** Invariant *)

Record header_wf (h : SegmentHeader) : Prop := {
  hwf_magic : magic h = MAGIC;
  hwf_addr : 0 ≤ address h ∧ page_aligned (address h) = true;
  hwf_size : 0 ≤ size h ∧ page_aligned (size h) = true;
  hwf_end : address h + size h < 2 ^ 52;
}.

Record seg_wf (s : Segment) : Prop := {
  wf_header : header_wf (seg_header s);
  wf_len : length (seg_words s) = Z.to_nat ((npages (seg_header s) + 63) / 64);
  wf_words : Forall (in_width 64) (seg_words s);
  wf_tail : ∀ i, npages (seg_header s) ≤ i → bit_at (seg_words s) i = true;
}.

(** No two segments share an address. *)
Definition disjoint_headers (l : list SegmentHeader) : Prop :=
  ∀ i j h k f, l !! i = Some h → l !! j = Some k → covers h f → covers k f → i = j.

Definition pfa_inv (p : PhysicalFrameAllocator) : Prop :=
  Forall seg_wf (segments p) ∧ disjoint_headers (seg_header <$> segments p).

(** ** What the boot loader promises about its memory map *)

Definition usable (e : MMapEnt) : bool :=
  (Z.land (me_size e) 0xF =? 1) && (PAGE_SIZE <=? raw_size e).

(** Sizes and types are valid, and a usable region starts on a page. *)
Definition ent_ok (e : MMapEnt) : Prop :=
  in_width 64 (me_ptr e) ∧ in_width 64 (me_size e) ∧ Z.land (me_size e) 0xF ≤ 3 ∧
  (usable e = true → page_aligned (me_ptr e) = true ∧ me_ptr e + raw_size e < 2 ^ 52).

Definition regions_disjoint (e e' : MMapEnt) : Prop :=
  usable e = true → usable e' = true →
  me_ptr e + raw_size e ≤ me_ptr e' ∨ me_ptr e' + raw_size e' ≤ me_ptr e.

Definition bb_wf (bb : BootBoot) : Prop :=
  bb_size bb = sizeof_BootBoot + sizeof_MMapEnt * (Z.of_nat (length (bb_mmap bb)) - 1) ∧
  bb_mmap bb ≠ [] ∧ in_width 32 (bb_size bb) ∧
  Forall ent_ok (bb_mmap bb) ∧ pairwise regions_disjoint (bb_mmap bb).

Definition to_header (e : MMapEnt) : SegmentHeader :=
  mkSegmentHeader MAGIC (me_ptr e) (raw_size e / 4096 * 4096).

(** The segments made from the usable regions, last region first, and the
    bytes their headers and bitmaps need. *)
Definition usable_headers (bb : BootBoot) : list SegmentHeader :=
  to_header <$> filter (λ e, usable e = true) (reverse (bb_mmap bb)).
Definition header_bytes (h : SegmentHeader) : Z := (npages h + 63) / 64 * 8 + 24.
Definition headers_bytes (l : list SegmentHeader) : Z :=
  foldr (λ h a, header_bytes h + a) 0 l.
Definition round_page (x : Z) : Z := (x + 4095) / 4096 * 4096.

(** The segment that gives its first [need] bytes to the headers. *)
Definition shrink (need : Z) (h : SegmentHeader) : SegmentHeader :=
  mkSegmentHeader (magic h) (address h + need) (size h - need).

(** Pages of a fresh segment that can be handed out. *)
Definition fresh_pages (h : SegmentHeader) : Z :=
  if npages h mod 64 =? 0 then npages h - 64 else npages h.

(** A fresh segment at its place in memory. *)
Definition fresh_segment (ptr : Z) (h : SegmentHeader) (s : Segment) : Prop :=
  seg_ptr s = ptr ∧ seg_header s = h ∧ seg_wf s ∧
  ∀ i, 0 ≤ i → bit_at (seg_words s) i = (fresh_pages h <=? i).

(** Memory taken by a header and its bitmap. *)
Definition seg_bytes (s : Segment) : Z := 24 + 8 * Z.of_nat (length (seg_words s)).

(** ** A small machine, to evaluate the model on *)

(** 2 MiB in use below a free region of 511 pages and one of 64 pages. *)
Definition demo_bb : BootBoot := {|
  bb_magic := [0x42; 0x4F; 0x4F; 0x54];
  bb_size := sizeof_BootBoot + 2 * sizeof_MMapEnt;
  bb_protocol := 2; bb_fb_type := 0; bb_numcores := 2; bb_bspid := 0; bb_timezone := 0;
  bb_datetime := [0x20; 0x24; 0x06; 0x01; 0; 0; 0; 0];
  bb_initrd_ptr := 0x8000; bb_initrd_size := 0x1000;
  bb_fb_ptr := 0xE0000000; bb_fb_size := 1228800;
  bb_fb_width := 640; bb_fb_height := 480; bb_fb_scanline := 2560;
  bb_arch := mkArchx86 0xE0000 0 0 0 0 0 0 0;
  bb_mmap := [mkMMapEnt 0 0x200000; mkMMapEnt 0x200000 0x1FF001; mkMMapEnt 0x400000 0x40001];
|}.
Definition demo_pfa : PhysicalFrameAllocator :=
  match phys_init demo_bb with Ok p => p | Panic _ => mkPFA [] 0 0 end.

(** The segment with page [i] marked used, respectively free. *)
Definition mark_used (s : Segment) (i : Z) : Segment :=
  match seg_words s !! Z.to_nat (i / 64) with
  | Some w => set_word s (Z.to_nat (i / 64)) (Z.lor w (wrap 64 (Z.shiftl 1 (i mod 64))))
  | None => s
  end.
Definition mark_free (s : Segment) (i : Z) : Segment :=
  match seg_words s !! Z.to_nat (i / 64) with
  | Some w =>
    set_word s (Z.to_nat (i / 64)) (Z.land w (not64 (wrap 64 (Z.shiftl 1 (i mod 64)))))
  | None => s
  end.

(** ** Words and bits *)

Lemma trailing_ones_aux_spec fuel w :
  let t := trailing_ones_aux fuel w in
  0 ≤ t ≤ Z.of_nat fuel ∧ (∀ i, 0 ≤ i < t → Z.testbit w i = true) ∧
  (t < Z.of_nat fuel → Z.testbit w t = false).
Proof.
  revert w. induction fuel as [|fuel IH]; intros w; simpl; [split_and!; intros; lia|].
  rewrite <-Z.bit0_odd. destruct (Z.testbit w 0) eqn:E.
  - specialize (IH (Z.div2 w)) as (H1 & H2 & H3). simpl in *.
    rewrite Z.div2_spec in H2, H3. split_and!; [lia..| |].
    + intros i Hi. destruct (Z.eq_dec i 0) as [->|]; [done|].
      specialize (H2 (i - 1)). rewrite Z.shiftr_spec in H2 by lia.
      rewrite Z.sub_add in H2. apply H2. rewrite <-Z.div2_spec. lia.
    + intros. rewrite Z.shiftr_spec in H3 by (rewrite <-?Z.div2_spec; lia).
      rewrite Z.add_comm, Z.div2_spec. apply H3. rewrite <-Z.div2_spec. lia.
  - split_and!; [lia..|lia|done].
Qed.

(** On a word that is not all ones, [trailing_ones] is the lowest clear bit. *)
Lemma trailing_ones_spec w :
  in_width 64 w → w ≠ u64_max →
  0 ≤ trailing_ones w < 64 ∧ Z.testbit w (trailing_ones w) = false ∧
  ∀ i, 0 ≤ i < trailing_ones w → Z.testbit w i = true.
Proof.
  intros Hw Hne. destruct (trailing_ones_aux_spec 64 w) as (H1 & H2 & H3).
  fold (trailing_ones w) in *. change (Z.of_nat 64) with 64 in *.
  destruct (Z.eq_dec (trailing_ones w) 64) as [E|]; [|split_and!; [lia..|apply H3; lia|done]].
  exfalso. apply Hne, (all_ones_eq 64); [lia|done|]. intros i Hi. apply H2. lia.
Qed.

Lemma shl1_bit b i : 0 ≤ b < 64 → 0 ≤ i →
  Z.testbit (wrap 64 (Z.shiftl 1 b)) i = (i =? b).
Proof.
  intros. rewrite Z.shiftl_1_l, wrap_id.
  - rewrite Z.pow2_bits_eqb by lia. apply Z.eqb_sym.
  - split; [lia|]. apply Z.pow_lt_mono_r; lia.
Qed.

Lemma not64_bit x i : 0 ≤ i < 64 → Z.testbit (not64 x) i = negb (Z.testbit x i).
Proof.
  intros. unfold not64. rewrite Z.lxor_spec. unfold u64_max.
  rewrite testbit_ones_lt by lia. apply xorb_true_r.
Qed.

Lemma set_bit_width w b : in_width 64 w → 0 ≤ b < 64 →
  in_width 64 (Z.lor w (wrap 64 (Z.shiftl 1 b))).
Proof.
  intros Hw Hb. apply in_width_bits; [lia| |].
  - apply Z.lor_nonneg. split; [by destruct Hw|]. apply wrap_in. lia.
  - intros i Hi. rewrite Z.lor_spec, (testbit_high 64 w), shl1_bit by (done || lia).
    simpl. apply Z.eqb_neq. lia.
Qed.

Lemma clear_bit_width w x : in_width 64 w → in_width 64 (Z.land w x).
Proof.
  intros Hw. apply in_width_bits; [lia| |].
  - apply Z.land_nonneg. left. by destruct Hw.
  - intros i Hi. by rewrite Z.land_spec, (testbit_high 64 w) by (done || lia).
Qed.

(** Clearing a bit that was just set gives the word back. *)
Lemma clear_set_bit w b :
  in_width 64 w → 0 ≤ b < 64 → Z.testbit w b = false →
  Z.land (Z.lor w (wrap 64 (Z.shiftl 1 b))) (not64 (wrap 64 (Z.shiftl 1 b))) = w.
Proof.
  intros Hw Hb Hf. apply Z.bits_inj'. intros i Hi. rewrite Z.land_spec, Z.lor_spec.
  destruct (Z.lt_ge_cases i 64).
  - rewrite not64_bit, shl1_bit by lia. destruct (Z.eqb_spec i b); simpl.
    + subst. by rewrite Hf.
    + by rewrite orb_false_r, andb_true_r.
  - rewrite (testbit_high 64 w), shl1_bit by (done || lia).
    by replace (i =? b) with false by lia.
Qed.

Lemma bit_at_insert ws (k : nat) (w' : Z) j :
  (k < length ws)%nat →
  bit_at (<[k := w']> ws) j =
    if decide (Z.to_nat (j / 64) = k) then Z.testbit w' (j mod 64) else bit_at ws j.
Proof.
  intros Hk. unfold bit_at. case_decide as E.
  - rewrite E. by rewrite list_lookup_insert_eq.
  - by rewrite list_lookup_insert_ne by lia.
Qed.

Lemma bit_at_clear ws i : bit_at ws i = false → ∃ w,
  ws !! Z.to_nat (i / 64) = Some w ∧ Z.testbit w (i mod 64) = false.
Proof. unfold bit_at. intros. case_match; [eauto|done]. Qed.

(** Bits of the bitmap after one page is marked. *)
Lemma bit_at_mark_used s i j :
  0 ≤ i → 0 ≤ j → Forall (in_width 64) (seg_words s) →
  (Z.to_nat (i / 64) < length (seg_words s))%nat →
  bit_at (seg_words (mark_used s i)) j = (j =? i) || bit_at (seg_words s) j.
Proof.
  intros Hi Hj Hw Hl. apply lookup_lt_is_Some in Hl as [w Ew].
  unfold mark_used. rewrite Ew. simpl.
  rewrite bit_at_insert by (by eapply lookup_lt_Some). case_decide as E.
  - rewrite Z.lor_spec, shl1_bit by zlia. unfold bit_at. rewrite E, Ew, orb_comm.
    f_equal. destruct (Z.eqb_spec j i); zlia.
  - destruct (Z.eqb_spec j i); [subst; done|done].
Qed.

Lemma bit_at_mark_free s i j :
  0 ≤ i → 0 ≤ j → Forall (in_width 64) (seg_words s) →
  (Z.to_nat (i / 64) < length (seg_words s))%nat →
  bit_at (seg_words (mark_free s i)) j = negb (j =? i) && bit_at (seg_words s) j.
Proof.
  intros Hi Hj Hw Hl. apply lookup_lt_is_Some in Hl as [w Ew].
  unfold mark_free. rewrite Ew. simpl.
  rewrite bit_at_insert by (by eapply lookup_lt_Some). case_decide as E.
  - rewrite Z.land_spec, not64_bit, shl1_bit by zlia. unfold bit_at. rewrite E, Ew, andb_comm.
    f_equal. f_equal. destruct (Z.eqb_spec j i); zlia.
  - destruct (Z.eqb_spec j i); [subst; done|done].
Qed.

Lemma seg_header_mark_used s i : seg_header (mark_used s i) = seg_header s.
Proof. unfold mark_used. by case_match. Qed.
Lemma seg_header_mark_free s i : seg_header (mark_free s i) = seg_header s.
Proof. unfold mark_free. by case_match. Qed.
Lemma length_mark_used s i : length (seg_words (mark_used s i)) = length (seg_words s).
Proof. unfold mark_used. case_match; [simpl; apply length_insert|done]. Qed.
Lemma length_mark_free s i : length (seg_words (mark_free s i)) = length (seg_words s).
Proof. unfold mark_free. case_match; [simpl; apply length_insert|done]. Qed.

Lemma mark_free_used s i :
  Forall (in_width 64) (seg_words s) → bit_at (seg_words s) i = false →
  mark_free (mark_used s i) i = s.
Proof.
  intros Hw Hb. apply bit_at_clear in Hb as (w & Ew & Hb).
  assert (in_width 64 w) by (by eapply Forall_lookup_1).
  unfold mark_free, mark_used. rewrite Ew. simpl.
  rewrite list_lookup_insert_eq by (by eapply lookup_lt_Some).
  rewrite clear_set_bit by (done || zlia). unfold set_word. simpl.
  rewrite list_insert_insert_eq, list_insert_id by done. by destruct s.
Qed.

(** ** One segment *)

Lemma elem_of_free_in s f :
  f ∈ free_in s ↔ ∃ i, 0 ≤ i < npages (seg_header s) ∧
    bit_at (seg_words s) i = false ∧ f = frame_of (seg_header s) i.
Proof.
  unfold free_in. rewrite elem_of_list_to_set, list_elem_of_fmap.
  setoid_rewrite list_elem_of_filter. setoid_rewrite elem_of_range. naive_solver.
Qed.

Lemma elem_of_free_frames p f :
  f ∈ free_frames p ↔ ∃ s, s ∈ segments p ∧ f ∈ free_in s.
Proof.
  unfold free_frames. rewrite elem_of_union_list. setoid_rewrite list_elem_of_fmap. naive_solver.
Qed.

Lemma frame_of_inj h i j : frame_of h i = frame_of h j → i = j.
Proof. unfold frame_of, PAGE_SIZE. lia. Qed.

Lemma seg_wf_index s i :
  seg_wf s → 0 ≤ i < npages (seg_header s) →
  (Z.to_nat (i / 64) < length (seg_words s))%nat.
Proof. intros Hs Hi. rewrite (wf_len s Hs). zlia. Qed.

(** A clear bit is always a page of the segment. *)
Lemma seg_wf_clear s i : seg_wf s → bit_at (seg_words s) i = false → i < npages (seg_header s).
Proof.
  intros Hs Hb. destruct (Z.lt_ge_cases i (npages (seg_header s))); [done|].
  rewrite (wf_tail s Hs) in Hb by done. done.
Qed.

Lemma frame_of_covered h i :
  header_wf h → 0 ≤ i < npages h →
  covers h (frame_of h i) ∧ page_aligned (frame_of h i) = true ∧ in_width 52 (frame_of h i).
Proof.
  intros [_ [Ha1 Ha2] [Hs1 Hs2] He] Hi.
  unfold npages, frame_of, covers, page_aligned, in_width, PAGE_SIZE in *.
  apply Z.eqb_eq in Ha2, Hs2. split_and!; [zlia..|apply Z.eqb_eq; zlia|zlia|zlia].
Qed.

Lemma covers_index h f :
  header_wf h → covers h f → page_aligned f = true →
  0 ≤ (f - address h) / PAGE_SIZE < npages h ∧
  frame_of h ((f - address h) / PAGE_SIZE) = f.
Proof.
  intros [_ [Ha1 Ha2] [Hs1 Hs2] He] Hc Hf.
  unfold npages, frame_of, covers, page_aligned, PAGE_SIZE in *.
  apply Z.eqb_eq in Ha2, Hs2, Hf. zlia.
Qed.

Lemma seg_wf_mark_used s i :
  seg_wf s → 0 ≤ i < npages (seg_header s) → seg_wf (mark_used s i).
Proof.
  intros Hs Hi. pose proof (seg_wf_index s i Hs Hi) as Hl. destruct Hs as [Hh Hlen Hw Ht].
  split; rewrite ?seg_header_mark_used, ?length_mark_used; try done.
  - unfold mark_used. case_match eqn:E; simpl; [|done].
    apply Forall_insert; [done|]. apply set_bit_width; [|zlia]. by eapply Forall_lookup_1.
  - intros j Hj. destruct (Z.lt_ge_cases j 0); [lia|].
    rewrite bit_at_mark_used by (done || lia). rewrite Ht by done. apply orb_true_r.
Qed.

Lemma seg_wf_mark_free s i :
  seg_wf s → 0 ≤ i < npages (seg_header s) → seg_wf (mark_free s i).
Proof.
  intros Hs Hi. pose proof (seg_wf_index s i Hs Hi) as Hl. destruct Hs as [Hh Hlen Hw Ht].
  split; rewrite ?seg_header_mark_free, ?length_mark_free; try done.
  - unfold mark_free. case_match eqn:E; simpl; [|done].
    apply Forall_insert; [done|]. apply clear_bit_width. by eapply Forall_lookup_1.
  - intros j Hj. destruct (Z.lt_ge_cases j 0); [lia|].
    rewrite bit_at_mark_free by (done || lia). rewrite Ht by done.
    by replace (j =? i) with false by lia.
Qed.

Lemma free_in_mark_used s i :
  seg_wf s → 0 ≤ i < npages (seg_header s) →
  free_in (mark_used s i) = free_in s ∖ {[frame_of (seg_header s) i]}.
Proof.
  intros Hs Hi. pose proof (seg_wf_index s i Hs Hi) as Hl.
  apply set_eq. intros f. rewrite elem_of_difference, elem_of_singleton, !elem_of_free_in.
  rewrite seg_header_mark_used. split.
  - intros (j & Hj & Hb & ->). rewrite bit_at_mark_used in Hb by (apply Hs || lia).
    apply orb_false_iff in Hb as [Hne Hb]. apply Z.eqb_neq in Hne.
    split; [by exists j|]. intros ?%frame_of_inj. lia.
  - intros [(j & Hj & Hb & ->) Hne]. exists j. split_and!; [lia..| |done].
    rewrite bit_at_mark_used by (apply Hs || lia). rewrite Hb, orb_false_r.
    apply Z.eqb_neq. congruence.
Qed.

Lemma free_in_mark_free s i :
  seg_wf s → 0 ≤ i < npages (seg_header s) →
  free_in (mark_free s i) = {[frame_of (seg_header s) i]} ∪ free_in s.
Proof.
  intros Hs Hi. pose proof (seg_wf_index s i Hs Hi) as Hl.
  apply set_eq. intros f. rewrite elem_of_union, elem_of_singleton, !elem_of_free_in.
  rewrite seg_header_mark_free. split.
  - intros (j & Hj & Hb & ->). rewrite bit_at_mark_free in Hb by (apply Hs || lia).
    apply andb_false_iff in Hb as [Hb|Hb].
    + left. apply negb_false_iff, Z.eqb_eq in Hb. congruence.
    + right. by exists j.
  - intros [->|(j & Hj & Hb & ->)].
    + exists i. rewrite bit_at_mark_free by (apply Hs || lia). by rewrite Z.eqb_refl.
    + exists j. rewrite bit_at_mark_free by (apply Hs || lia). by rewrite Hb, andb_false_r.
Qed.

Section phys_proofs.
Context {X : X86} {XO : X86Ok X}.

Lemma bitmap_size_Ok h :
  0 ≤ size h < 2 ^ 52 → bitmap_size h = Ok ((npages h + 63) / 64 * 8).
Proof.
  intros Hs. unfold bitmap_size, npages, PAGE_SIZE in *. change 64 with (2 ^ 6) at 1.
  rewrite align_up_spec by (unfold in_width; zlia). change (2 ^ 6) with 64. simpl.
  replace (size h / 4096 + 64 - 1) with (size h / 4096 + 63) by lia.
  destruct (Z.ltb_spec ((size h / 4096 + 63) / 64 * 64) (2 ^ 64)); [|zlia].
  simpl. unfold mret, res_ret. f_equal. zlia.
Qed.

Lemma bitmap_u64len_Ok h :
  0 ≤ size h < 2 ^ 52 → bitmap_u64len h = Ok ((npages h + 63) / 64).
Proof.
  intros. unfold bitmap_u64len. rewrite bitmap_size_Ok by done. simpl.
  unfold mret, res_ret. f_equal. zlia.
Qed.

Lemma header_wf_size h : header_wf h → 0 ≤ size h < 2 ^ 52.
Proof. intros [_ ? ? ?]. lia. Qed.

Lemma bitmap_Ok s : seg_wf s → bitmap s = Ok (seg_words s).
Proof.
  intros Hs. unfold bitmap. rewrite bitmap_u64len_Ok by (apply header_wf_size, Hs). simpl.
  rewrite <-(wf_len s Hs). rewrite Nat.leb_refl. by rewrite take_ge.
Qed.

Lemma check_Ok s : seg_wf s → check (seg_header s) = Ok tt.
Proof. intros Hs. unfold check. rewrite (hwf_magic _ (wf_header _ Hs)). by rewrite Z.eqb_refl. Qed.

Lemma in_range_Ok h f :
  header_wf h → in_range h f = Ok (bool_decide (covers h f)).
Proof.
  intros [_ [Ha1 Ha2] [Hs1 Hs2] He]. unfold in_range, covers.
  destruct (Z.leb_spec (address h) f).
  - rewrite phys_add_spec by (unfold in_width; lia).
    destruct (Z.ltb_spec (address h + size h) (2 ^ 52)); [|lia]. simpl.
    unfold mret, res_ret. f_equal.
    destruct (Z.ltb_spec f (address h + size h)); symmetry;
      [apply bool_decide_eq_true_2|apply bool_decide_eq_false_2]; lia.
  - unfold mret, res_ret. f_equal. symmetry. apply bool_decide_eq_false_2. lia.
Qed.

(** A full bitmap has no free page. *)
Lemma list_find_full s :
  seg_wf s → list_find (λ w, w ≠ u64_max) (seg_words s) = None → free_in s = ∅.
Proof.
  intros Hs Hf. apply list_find_None in Hf. apply set_eq. intros f.
  split; [|set_solver]. rewrite elem_of_free_in. intros (i & Hi & Hb & _).
  apply bit_at_clear in Hb as (w & Ew & Hb). rewrite Forall_lookup in Hf.
  specialize (Hf _ _ Ew). apply dec_stable in Hf. subst w. unfold u64_max in Hb.
  rewrite testbit_ones_lt in Hb by zlia. done.
Qed.

(** The word found by the search holds the first free page of the segment. *)
Lemma list_find_first s k w :
  seg_wf s → list_find (λ w, w ≠ u64_max) (seg_words s) = Some (k, w) →
  let i := 64 * Z.of_nat k + trailing_ones w in
  0 ≤ trailing_ones w < 64 ∧ 0 ≤ i < npages (seg_header s) ∧
  bit_at (seg_words s) i = false ∧ (∀ j, 0 ≤ j < i → bit_at (seg_words s) j = true) ∧
  mark_used s i = set_word s k (Z.lor w (wrap 64 (Z.shiftl 1 (trailing_ones w)))).
Proof.
  intros Hs Hf i. apply list_find_Some in Hf as (Ek & Hne & Hbefore).
  assert (in_width 64 w) as Hw by (eapply Forall_lookup_1; [apply Hs|done]).
  destruct (trailing_ones_spec w Hw Hne) as (Ht & Hclr & Hset).
  assert (Z.to_nat (i / 64) = k) as Ei by (unfold i; zlia).
  assert (i mod 64 = trailing_ones w) as Em by (unfold i; zlia).
  assert (bit_at (seg_words s) i = false) as Hb by (unfold bit_at; by rewrite Ei, Ek, Em).
  split_and!; try done; [lia..|by apply seg_wf_clear| |].
  - intros j Hj. unfold bit_at. destruct (decide (Z.to_nat (j / 64) = k)) as [E|E].
    + rewrite E, Ek. apply Hset. unfold i in Hj. zlia.
    + destruct (seg_words s !! Z.to_nat (j / 64)) as [v|] eqn:Ev; [|done].
      assert (¬ (v ≠ u64_max)) as ->%dec_stable by (eapply Hbefore; [done|unfold i in Hj; zlia]).
      unfold u64_max. apply testbit_ones_lt. zlia.
  - unfold mark_used. by rewrite Ei, Ek, Em.
Qed.

(** ** The loop over the segments *)

Lemma alloc_loop_spec segs :
  Forall seg_wf segs →
  (alloc_loop segs = Ok (None, segs) ∧ ∀ s, s ∈ segs → free_in s = ∅) ∨
  (∃ pre s post i, segs = pre ++ s :: post ∧ (∀ s', s' ∈ pre → free_in s' = ∅) ∧
    0 ≤ i < npages (seg_header s) ∧ bit_at (seg_words s) i = false ∧
    (∀ j, 0 ≤ j < i → bit_at (seg_words s) j = true) ∧
    alloc_loop segs = Ok (Some (frame_of (seg_header s) i), pre ++ mark_used s i :: post)).
Proof.
  induction segs as [|s segs IH]; intros Hall; [left; split; [done|set_solver]|].
  apply Forall_cons in Hall as [Hs Hall]. simpl.
  rewrite check_Ok, bitmap_Ok by done. simpl.
  destruct (list_find _ (seg_words s)) as [[k w]|] eqn:E.
  - right. destruct (list_find_first s k w Hs E) as (Ht & Hi & Hb & Hj & Hm).
    set (i := 64 * Z.of_nat k + trailing_ones w) in *.
    exists [], s, segs, i. split_and!; [done|set_solver|lia..|done|done|]. simpl.
    destruct (frame_of_covered _ i (wf_header s Hs) Hi) as (_ & Hpa & Hw).
    pose proof (hwf_addr _ (wf_header s Hs)) as [? _].
    unfold frame_of, PAGE_SIZE in Hw. destruct Hw.
    destruct (Z.eqb_spec (trailing_ones w) 64); [lia|].
    unfold mul64, add64. rewrite (chk_in 64 (64 * Z.of_nat k)) by (unfold in_width, i in *; lia).
    simpl. rewrite (chk_in 64 (64 * Z.of_nat k + _)) by (unfold in_width, i in *; lia). simpl.
    fold i. rewrite chk_in by (unfold in_width, PAGE_SIZE; lia). simpl.
    rewrite phys_add_spec by (unfold in_width, PAGE_SIZE; lia).
    fold (frame_of (seg_header s) i).
    destruct (Z.ltb_spec (frame_of (seg_header s) i) (2 ^ 52)); [|unfold frame_of, PAGE_SIZE in *; lia].
    simpl. rewrite frame_containing_spec by (unfold frame_of, PAGE_SIZE, in_width; lia).
    rewrite <-Hm. unfold mret, res_ret. do 3 f_equal.
    unfold page_aligned, PAGE_SIZE in *. apply Z.eqb_eq in Hpa. zlia.
  - destruct (IH Hall) as [[Hr He]|(pre & s' & post & i & -> & Hpre & Hi & Hb & Hj & Hr)].
    + left. rewrite Hr. split; [done|]. intros s'. rewrite elem_of_cons.
      intros [->|?]; [by apply list_find_full|by apply He].
    + right. exists (s :: pre), s', post, i. rewrite Hr. split_and!; try done; [|lia..].
      intros s''. rewrite elem_of_cons. intros [->|?]; [by apply list_find_full|by apply Hpre].
Qed.

Lemma find_segment_spec segs f :
  Forall seg_wf segs →
  (find_segment segs f = Ok None ∧ Forall (λ s, ¬ covers (seg_header s) f) segs) ∨
  (∃ k s, find_segment segs f = Ok (Some (k, s)) ∧ segs !! k = Some s ∧
    covers (seg_header s) f).
Proof.
  induction segs as [|s segs IH]; intros Hall; [left; split; [done|constructor]|].
  apply Forall_cons in Hall as [Hs Hall]. simpl.
  rewrite in_range_Ok by apply Hs. simpl. case_bool_decide as Hc.
  - right. by exists 0%nat, s.
  - destruct (IH Hall) as [[-> Hn]|(k & s' & -> & Hk & Hc')].
    + left. split; [done|]. by constructor.
    + right. by exists (S k), s'.
Qed.

(** Replacing a segment by one with the same header keeps the segments apart. *)
Lemma pfa_inv_replace p k s s' :
  pfa_inv p → segments p !! k = Some s → seg_wf s' → seg_header s' = seg_header s →
  pfa_inv (set_segments (<[k := s']> (segments p)) p).
Proof.
  intros [Hall Hd] Hk Hs' Hh. split; simpl; [by apply Forall_insert|].
  rewrite list_fmap_insert, list_insert_id; [done|].
  rewrite list_lookup_fmap, Hk. simpl. by rewrite Hh.
Qed.

Lemma free_frames_replace p k s s' f :
  pfa_inv p → segments p !! k = Some s → seg_wf s' → seg_header s' = seg_header s →
  f ∈ free_frames (set_segments (<[k := s']> (segments p)) p) ↔
  f ∈ free_in s' ∨ (f ∈ free_frames p ∧ ¬ covers (seg_header s) f).
Proof.
  intros [Hall Hd] Hk Hs' Hh. rewrite !elem_of_free_frames. simpl.
  assert (k < length (segments p))%nat by (by eapply lookup_lt_Some).
  assert (∀ t g, seg_wf t → g ∈ free_in t → covers (seg_header t) g) as Hcov.
  { intros t g Ht. rewrite elem_of_free_in. intros (i & Hi & _ & ->).
    apply frame_of_covered; [apply Ht|done]. }
  split.
  - intros (t & Ht & Hf). apply list_elem_of_lookup in Ht as [j Hj].
    destruct (decide (j = k)) as [->|].
    + rewrite list_lookup_insert_eq in Hj by done. simplify_eq. by left.
    + rewrite list_lookup_insert_ne in Hj by done. right.
      split; [exists t; split; [by eapply list_elem_of_lookup_2|done]|].
      intros Hc. assert (j = k); [|done]. eapply (Hd j k _ _ f);
        rewrite ?list_lookup_fmap, ?Hj, ?Hk; try done.
      apply Hcov; [|done]. by eapply Forall_lookup_1.
  - intros [Hf|[(t & Ht & Hf) Hn]].
    + exists s'. split; [|done]. eapply list_elem_of_lookup_2. by apply list_lookup_insert_eq.
    + apply list_elem_of_lookup in Ht as [j Hj]. exists t. split; [|done].
      destruct (decide (j = k)) as [->|].
      { simplify_eq. destruct Hn. apply Hcov; [|done]. by eapply Forall_lookup_1. }
      apply (list_elem_of_lookup_2 _ j). by rewrite list_lookup_insert_ne.
Qed.

(** What [allocate_frame] computes, in terms of the segment it picks. *)
Lemma allocate_frame_run p :
  pfa_inv p →
  (allocate_frame p = Ok (None, p) ∧ free_frames p = ∅) ∨
  (∃ k s i, segments p !! k = Some s ∧ 0 ≤ i < npages (seg_header s) ∧
    bit_at (seg_words s) i = false ∧
    (∀ j, 0 ≤ j < i → bit_at (seg_words s) j = true) ∧
    (∀ j t, segments p !! j = Some t → (j < k)%nat → free_in t = ∅) ∧
    allocate_frame p = Ok (Some (frame_of (seg_header s) i),
      set_segments (<[k := mark_used s i]> (segments p)) p)).
Proof.
  intros [Hall Hd]. unfold allocate_frame.
  destruct (alloc_loop_spec _ Hall) as [[-> He]|(pre & s & post & i & E & Hpre & Hi & Hb & Hj & ->)].
  - left. simpl. split; [by destruct p|]. apply set_eq. intros f.
    rewrite elem_of_free_frames. split; [|set_solver]. intros (s & Hs & Hf).
    rewrite He in Hf by done. set_solver.
  - right. exists (length pre), s, i. rewrite E. simpl. split_and!; try done.
    + by rewrite lookup_app_r, Nat.sub_diag.
    + lia.
    + lia.
    + intros j t Hl Hlt. rewrite lookup_app_l in Hl by done. apply Hpre.
      by eapply list_elem_of_lookup_2.
    + by rewrite insert_app_r_alt, Nat.sub_diag.
Qed.

Lemma free_mark_used p k s i :
  pfa_inv p → segments p !! k = Some s → 0 ≤ i < npages (seg_header s) →
  free_frames (set_segments (<[k := mark_used s i]> (segments p)) p) =
  free_frames p ∖ {[frame_of (seg_header s) i]}.
Proof.
  intros Hp Hk Hi. assert (seg_wf s) as Hs by (eapply Forall_lookup_1; [apply Hp|done]).
  apply set_eq. intros f.
  rewrite (free_frames_replace p k s) by eauto using seg_wf_mark_used, seg_header_mark_used.
  rewrite free_in_mark_used, !elem_of_difference, elem_of_singleton, !elem_of_free_frames by done.
  split.
  - intros [[Hf Hne]|[Hf Hn]]; [by eauto using list_elem_of_lookup_2|].
    split; [done|]. intros ->. apply Hn. apply frame_of_covered; [apply Hs|done].
  - intros [(t & Ht & Hf) Hne]. destruct (decide (f ∈ free_in s)) as [|Hns]; [by left|right].
    split; [by exists t|]. intros Hc. apply list_elem_of_lookup in Ht as [j Hj].
    assert (seg_wf t) as Htw by (eapply Forall_lookup_1; [apply Hp|done]).
    assert (j = k) as ->; [|by simplify_eq].
    eapply (proj2 Hp j k _ _ f); rewrite ?list_lookup_fmap, ?Hj, ?Hk; try done.
    apply elem_of_free_in in Hf as (q & Hq & _ & ->). apply frame_of_covered; [apply Htw|done].
Qed.
End phys_proofs.

(** ** Construction of the allocator *)

Section phys_init_proofs.
Context {X : X86} {XO : X86Ok X}.

Lemma last_word_bit r i :
  0 ≤ r < 64 → 0 ≤ i < 64 → Z.testbit (wrap 64 (Z.shiftl u64_max r)) i = (r <=? i).
Proof.
  intros. unfold wrap. rewrite Z.mod_pow2_bits_low, Z.shiftl_spec by lia.
  destruct (Z.leb_spec r i).
  - unfold u64_max. apply testbit_ones_lt. lia.
  - apply Z.testbit_neg_r. lia.
Qed.

(** The bitmap of a fresh segment: the pages below [fresh_pages] are free. *)
Lemma init_bitmap_spec h :
  header_wf h → 0 < npages h →
  ∃ ws, init_bitmap h = Ok ws ∧ length ws = Z.to_nat ((npages h + 63) / 64) ∧
    Forall (in_width 64) ws ∧ ∀ i, 0 ≤ i → bit_at ws i = (fresh_pages h <=? i).
Proof.
  intros Hh Hn. unfold init_bitmap. rewrite bitmap_u64len_Ok by (by apply header_wf_size).
  simpl. destruct (Z.to_nat ((npages h + 63) / 64)) as [|l] eqn:El; [zlia|].
  eexists. split; [done|]. fold (npages h). split_and!.
  - by rewrite length_insert, length_replicate.
  - apply Forall_insert; [|apply wrap_in; lia]. apply Forall_replicate. unfold in_width. lia.
  - intros i Hi. rewrite bit_at_insert by (rewrite length_replicate; lia).
    unfold fresh_pages. case_decide as E.
    + rewrite last_word_bit by zlia.
      destruct (Z.eqb_spec (npages h mod 64) 0) as [E0|E0].
      * destruct (Z.leb_spec (npages h mod 64) (i mod 64)),
          (Z.leb_spec (npages h - 64) i); try done; zlia.
      * destruct (Z.leb_spec (npages h mod 64) (i mod 64)),
          (Z.leb_spec (npages h) i); try done; zlia.
    + unfold bit_at. destruct (decide (Z.to_nat (i / 64) < S l)%nat).
      * rewrite lookup_replicate_2 by done. rewrite Z.bits_0. symmetry. apply Z.leb_gt.
        destruct (Z.eqb_spec (npages h mod 64) 0); zlia.
      * rewrite (lookup_ge_None_2 (replicate _ _)) by (rewrite length_replicate; lia).
        symmetry. apply Z.leb_le. destruct (Z.eqb_spec (npages h mod 64) 0); zlia.
Qed.

Lemma fresh_pages_le h : fresh_pages h ≤ npages h.
Proof. unfold fresh_pages. case_match; lia. Qed.

Lemma header_bytes_run h :
  header_wf h → (b ← bitmap_size h; add64 b sizeof_SegmentHeader) = Ok (header_bytes h).
Proof.
  intros Hh. pose proof (header_wf_size h Hh). rewrite bitmap_size_Ok by done. simpl.
  unfold add64. apply chk_in. unfold in_width, header_bytes, npages, PAGE_SIZE, sizeof_SegmentHeader.
  zlia.
Qed.

Lemma header_bytes_pos h : header_wf h → 0 < header_bytes h.
Proof.
  intros Hh. pose proof (header_wf_size h Hh). unfold header_bytes, npages, PAGE_SIZE. zlia.
Qed.

Lemma headers_bytes_nonneg l : Forall header_wf l → 0 ≤ headers_bytes l.
Proof.
  induction 1 as [|h l Hh _ IH]; simpl; [lia|]. pose proof (header_bytes_pos h Hh). lia.
Qed.

Lemma to_header_wf e :
  ent_ok e → usable e = true → header_wf (to_header e) ∧ 0 < npages (to_header e).
Proof.
  intros (Hp & Hs & _ & Hu) He. destruct (Hu He) as [Ha Hb].
  pose proof (raw_size_bounds e Hs). unfold usable, PAGE_SIZE in He.
  apply andb_true_iff in He as [_ He]. apply Z.leb_le in He. destruct Hp.
  split; [split; simpl|]; [done|done| | |].
  - split; [zlia|]. unfold page_aligned, PAGE_SIZE. apply Z.eqb_eq. zlia.
  - zlia.
  - unfold npages, PAGE_SIZE. simpl. zlia.
Qed.

Lemma get_type_usable e :
  ent_ok e → ∃ ty, get_type e = Ok ty ∧
    bool_decide (ty = Free) && (PAGE_SIZE <=? raw_size e) = usable e.
Proof.
  intros (_ & Hs & H3 & _). unfold get_type, usable.
  assert (0 ≤ Z.land (me_size e) 0xF) by (apply Z.land_nonneg; right; lia).
  set (x := Z.land (me_size e) 0xF) in *.
  assert (x = 0 ∨ x = 1 ∨ x = 2 ∨ x = 3) as [->|[->|[->| ->]]] by lia; by eexists.
Qed.

Lemma collect_usable_run ents total :
  Forall ent_ok ents → 0 ≤ total →
  total + headers_bytes (to_header <$> filter (λ e, usable e = true) ents) < 2 ^ 64 →
  collect_usable ents total =
    Ok (to_header <$> filter (λ e, usable e = true) ents,
        total + headers_bytes (to_header <$> filter (λ e, usable e = true) ents)).
Proof.
  intros Hall. revert total. induction Hall as [|e ents He Hall IH]; intros total Ht Hlt.
  { simpl. by rewrite Z.add_0_r. }
  simpl. destruct (get_type_usable e He) as (ty & Hty & Hus). rewrite Hty. simpl. rewrite Hus.
  rewrite filter_cons in *. destruct (usable e) eqn:Eu; case_decide; try done; [|by apply IH].
  rewrite fmap_cons in *.
  assert (0 ≤ headers_bytes (to_header <$> filter (λ e, usable e = true) ents)).
  { apply headers_bytes_nonneg, Forall_fmap, Forall_forall. intros e' [Hu' Hin]%list_elem_of_filter.
    rewrite Forall_forall in Hall. apply to_header_wf; auto. }
  set (hs := to_header <$> filter (λ e, usable e = true) ents) in *.
  destruct (to_header_wf e He Eu) as [Hwf Hn].
  pose proof He as (Hp & Hs & _ & Hu). destruct (Hu Eu) as [Ha Hb].
  pose proof (raw_size_bounds e Hs).
  rewrite phyadr_aligned by (unfold in_width in *; done || lia).
  simpl. rewrite mmap_size_Ok by done. simpl. fold (to_header e).
  unfold SegmentHeader_new. fold (to_header e).
  pose proof (header_bytes_run _ Hwf) as Hrun. simpl in Hrun.
  destruct (bitmap_size (to_header e)) as [b|]; [|done]. simpl in *. rewrite Hrun. simpl.
  pose proof (header_bytes_pos _ Hwf).
  simpl in Hlt. unfold add64. rewrite chk_in by (unfold in_width; lia). simpl.
  rewrite IH by lia. simpl. unfold mret, res_ret. do 2 f_equal. lia.
Qed.

Lemma place_header_run pre h post total :
  in_width 64 total → round_page total < 2 ^ 64 →
  Forall (λ s, size s < round_page total) pre → header_wf h → round_page total ≤ size h →
  place_header (pre ++ h :: post) total =
    Ok (Some (address h), pre ++ shrink (round_page total) h :: post).
Proof.
  intros Htot Hr Hpre Hh Hle.
  assert (of_option Crate (align_up total PAGE_SIZE) = Ok (round_page total)) as Hneed.
  { rewrite align_up_page_spec by done. simpl. fold (round_page total).
    by destruct (Z.ltb_spec (round_page total) (2 ^ 64)); [|lia]. }
  assert (0 ≤ round_page total) by (destruct Htot; unfold round_page; zlia).
  induction Hpre as [|s pre Hs _ IH]; simpl; rewrite Hneed; simpl.
  - destruct (Z.leb_spec (round_page total) (size h)); [|lia].
    destruct Hh as [_ [Ha1 _] [Hs1 _] He].
    rewrite phys_add_spec by (unfold in_width; lia).
    destruct (Z.ltb_spec (address h + round_page total) (2 ^ 52)); [|lia]. simpl.
    unfold sub64. by rewrite chk_in by (unfold in_width; lia).
  - destruct (Z.leb_spec (round_page total) (size s)); [lia|]. by rewrite IH.
Qed.

Lemma shrink_wf need h :
  header_wf h → page_aligned need = true → 0 ≤ need < size h →
  header_wf (shrink need h) ∧ 0 < npages (shrink need h).
Proof.
  intros [Hm [Ha1 Ha2] [Hs1 Hs2] He] Hn Hlt.
  unfold page_aligned, npages, PAGE_SIZE in *. apply Z.eqb_eq in Ha2, Hs2, Hn.
  split; [split; simpl; unfold page_aligned, PAGE_SIZE; rewrite ?Z.eqb_eq|simpl].
  - done.
  - split; [lia|zlia].
  - split; [lia|zlia].
  - lia.
  - zlia.
Qed.

Lemma write_headers_run base cursor l :
  Forall (λ h, header_wf h ∧ 0 < npages h) l → 0 ≤ base → 0 ≤ cursor →
  base + cursor + headers_bytes l < 2 ^ 52 → ident_ok base (cursor + headers_bytes l) →
  ∃ segs, write_headers base cursor l = Ok (segs, cursor + headers_bytes l) ∧
    seg_header <$> segs = l ∧
    ∀ k s, segs !! k = Some s →
      fresh_segment (base + cursor + headers_bytes (take k l)) (seg_header s) s.
Proof.
  intros Hall Hb. revert cursor. induction Hall as [|h l [Hh Hn] Hall IH]; intros cursor Hc Hlt [Hnull Hid].
  { exists []. simpl. split_and!; [by rewrite Z.add_0_r|done|done]. }
  simpl in *. assert (0 ≤ headers_bytes l).
  { apply headers_bytes_nonneg. eapply Forall_impl; [exact Hall|]. by intros ? [? _]. }
  pose proof (header_bytes_pos h Hh).
  rewrite phys_add_spec by (unfold in_width; lia).
  destruct (Z.ltb_spec (base + cursor) (2 ^ 52)); [|lia]. simpl.
  destruct (init_bitmap_spec h Hh Hn) as (ws & Hws & Hlen & Hw & Hbit).
  assert (header_bytes h = sizeof_SegmentHeader + 8 * Z.of_nat (length ws)) as Hby.
  { rewrite Hlen. pose proof (header_wf_size h Hh). unfold header_bytes, sizeof_SegmentHeader, npages, PAGE_SIZE in *. zlia. }
  rewrite ident_ref_ok by (split; lia). simpl. rewrite Hws. simpl. rewrite ident_ref_ok by (split; lia). simpl.
  pose proof (header_bytes_run h Hh) as Hrun. simpl in Hrun.
  destruct (bitmap_size h) as [b|]; [|done]. simpl in *. rewrite Hrun. simpl.
  unfold add64. rewrite chk_in by (unfold in_width; lia). simpl.
  destruct (IH (cursor + header_bytes h)) as (segs & -> & Hhd & Hseg); [lia..|split; [done|lia]|]. simpl.
  eexists. split; [unfold mret, res_ret; do 2 f_equal; lia|]. split; [by rewrite <-Hhd|].
  intros [|k] s; simpl.
  - intros [= <-]. simpl. rewrite Z.add_0_r. split_and!; try done.
    split; simpl; try done. intros i Hi. pose proof (fresh_pages_le h).
    rewrite Hbit by lia. apply Z.leb_le. lia.
  - intros Hk. destruct (Hseg k s Hk) as (Hp & ?). split; [|done]. rewrite Hp. lia.
Qed.

Lemma mmap_entries_run bb : bb_wf bb → mmap_entries bb = Ok (reverse (bb_mmap bb)).
Proof.
  intros (Hsz & Hne & Hw & _). unfold mmap_entries, sub64.
  assert (length (bb_mmap bb) ≠ 0%nat) by (by destruct (bb_mmap bb)).
  unfold in_width, sizeof_BootBoot, sizeof_MMapEnt in *.
  rewrite chk_in by (unfold in_width; lia). simpl.
  apply mapM_Ok, Forall2_reverse, Forall2_same_length_lookup_2.
  { rewrite length_range. zlia. }
  intros i z e Hz He. apply lookup_lt_Some in Hz as Hi. rewrite length_range in Hi.
  rewrite lookup_range in Hz by done. injection Hz as <-. rewrite Nat2Z.id, He. done.
Qed.

Lemma usable_headers_wf bb :
  bb_wf bb → Forall (λ h, header_wf h ∧ 0 < npages h) (usable_headers bb).
Proof.
  intros (_ & _ & _ & Hall & _). apply Forall_fmap, Forall_forall.
  intros e [Hu Hin]%list_elem_of_filter. rewrite elem_of_reverse in Hin.
  rewrite Forall_forall in Hall. apply to_header_wf; auto.
Qed.

Lemma usable_headers_disjoint bb :
  bb_wf bb →
  pairwise (λ h k, ∀ f, covers h f → covers k f → False) (usable_headers bb).
Proof.
  intros (_ & _ & _ & Hall & Hd).
  assert (pairwise regions_disjoint (reverse (bb_mmap bb))) as Hr.
  { eapply pairwise_Permutation; [|symmetry; apply reverse_Permutation|done].
    unfold regions_disjoint. intros. naive_solver. }
  eapply pairwise_filter_fmap; [|exact Hr]. intros e e' Hu Hu' Hdis f.
  destruct (Hdis Hu Hu'); unfold covers, to_header; simpl; zlia.
Qed.

Lemma disjoint_shrink need pre h post :
  0 ≤ need ≤ size h →
  pairwise (λ h k, ∀ f, covers h f → covers k f → False) (pre ++ h :: post) →
  disjoint_headers (pre ++ shrink need h :: post).
Proof.
  intros Hn Hp.
  assert (pairwise (λ h k, ∀ f, covers h f → covers k f → False)
    (pre ++ shrink need h :: post)) as Hp'.
  { eapply (pairwise_Forall2 (λ h k, ∀ f, covers k f → covers h f)); [|
      |exact Hp]; [naive_solver|].
    apply Forall2_app; [by apply Forall_Forall2_diag, Forall_true|].
    constructor; [|by apply Forall_Forall2_diag, Forall_true].
    unfold covers, shrink. simpl. intros. lia. }
  intros i j x y f Hi Hj Hx Hy.
  destruct (lt_eq_lt_dec i j) as [[Hlt| ->]|Hlt]; [exfalso|done|exfalso].
  - by apply (pairwise_lookup _ _ i j _ _ Hp' Hi Hj Hlt f).
  - by apply (pairwise_lookup _ _ j i _ _ Hp' Hj Hi Hlt f).
Qed.

Lemma headers_bytes_app l k : headers_bytes (l ++ k) = headers_bytes l + headers_bytes k.
Proof. induction l as [|h l IH]; simpl; [done|]. rewrite IH. lia. Qed.

Lemma header_bytes_shrink need h :
  0 ≤ need → header_bytes (shrink need h) ≤ header_bytes h.
Proof. intros. unfold header_bytes, npages, shrink, PAGE_SIZE. simpl. zlia. Qed.

Lemma headers_bytes_shrink need pre h post :
  0 ≤ need →
  headers_bytes (pre ++ shrink need h :: post) ≤ headers_bytes (pre ++ h :: post).
Proof.
  intros. rewrite !headers_bytes_app. simpl. pose proof (header_bytes_shrink need h). lia.
Qed.

Lemma usable_bytes_nonneg bb : bb_wf bb → 0 ≤ headers_bytes (usable_headers bb).
Proof.
  intros. apply headers_bytes_nonneg. eapply Forall_impl; [by apply usable_headers_wf|].
  by intros ? [? _].
Qed.

(** [init] up to the writing of the headers. *)
Lemma phys_init_placed bb pre h post :
  let total := headers_bytes (usable_headers bb) in
  bb_wf bb → usable_headers bb = pre ++ h :: post →
  Forall (λ s, size s < round_page total) pre → round_page total < size h →
  phys_init bb =
    (w ← write_headers (address h) 0 (pre ++ shrink (round_page total) h :: post);
     frame ← unwrap (frame_from_start (address h));
     mret (mkPFA w.1 total frame)).
Proof.
  intros total Hbb E Hpre Hlt.
  pose proof (usable_headers_wf bb Hbb) as Hwf.
  pose proof (usable_bytes_nonneg bb Hbb) as Ht. fold total in Ht.
  rewrite E in Hwf. assert (header_wf h) as Hh by (rewrite Forall_app, Forall_cons in Hwf; naive_solver).
  assert (total ≤ round_page total) by (unfold round_page; zlia).
  pose proof (header_wf_size h Hh). pose proof (hwf_addr h Hh) as [Ha1 Ha2]. pose proof (hwf_end h Hh).
  unfold phys_init. rewrite mmap_entries_run by done. simpl. destruct Hbb as (_ & _ & _ & Hents & _).
  rewrite collect_usable_run; [|by apply Forall_reverse|done|]. 2: { fold (usable_headers bb) total. lia. }
  fold (usable_headers bb) total. rewrite Z.add_0_l. simpl. rewrite E.
  by rewrite place_header_run by (done || (unfold in_width; lia) || lia).
Qed.

(** [phys_init] when some usable region is larger than the headers; [h] is the
    first one that can hold them. *)
Lemma phys_init_run bb pre h post :
  let total := headers_bytes (usable_headers bb) in
  bb_wf bb → usable_headers bb = pre ++ h :: post →
  Forall (λ s, size s < round_page total) pre → round_page total < size h →
  ident_ok (address h) total →
  ∃ p, phys_init bb = Ok p ∧ pfa_inv p ∧
    seg_header <$> segments p = pre ++ shrink (round_page total) h :: post ∧
    phyframe p = address h ∧ pfa_size p = total ∧
    ∀ k s, segments p !! k = Some s →
      fresh_segment (address h + headers_bytes (take k (seg_header <$> segments p)))
        (seg_header s) s.
Proof.
  intros total Hbb E Hpre Hlt [Hnull Hid].
  pose proof (usable_headers_wf bb Hbb) as Hwf. pose proof (usable_headers_disjoint bb Hbb) as Hd.
  pose proof (usable_bytes_nonneg bb Hbb) as Ht. fold total in Ht.
  rewrite E in Hwf, Hd. assert (header_wf h) as Hh by (rewrite Forall_app, Forall_cons in Hwf; naive_solver).
  assert (total ≤ round_page total) by (unfold round_page; zlia).
  pose proof (header_wf_size h Hh). pose proof (hwf_addr h Hh) as [Ha1 Ha2].
  pose proof (hwf_end h Hh).
  assert (page_aligned (round_page total) = true) as Hal
    by (apply Z.eqb_eq; unfold round_page, PAGE_SIZE; zlia).
  rewrite (phys_init_placed bb pre h post) by done. cbv zeta. fold total.
  set (l := pre ++ shrink (round_page total) h :: post).
  assert (Forall (λ h, header_wf h ∧ 0 < npages h) l) as Hl.
  { unfold l. rewrite Forall_app, Forall_cons in *. destruct Hwf as (? & ? & ?).
    split_and!; try done; apply shrink_wf; done || lia. }
  assert (headers_bytes l ≤ total) as Hle.
  { unfold l. etransitivity; [apply headers_bytes_shrink; lia|]. by rewrite <-E. }
  destruct (write_headers_run (address h) 0 l Hl) as (segs & Hw & Hhd & Hseg); [lia..|split; [done|lia]|].
  exists (mkPFA segs total (address h)).
  rewrite Hw. simpl. rewrite frame_from_start_spec by (unfold in_width; lia). rewrite Ha2. simpl.
  split; [done|]. split; [split; simpl|].
  - apply Forall_lookup_2. intros k s Hk. by apply (Hseg k s Hk).
  - rewrite Hhd. apply disjoint_shrink; [lia|done].
  - rewrite Hhd. split_and!; [done..|]. intros k s Hk.
    specialize (Hseg k s Hk). by rewrite Z.add_0_r in Hseg.
Qed.
End phys_init_proofs.

(** ** The allocator implements its interface *)

Section phys_interface.
Context {X : X86} {XO : X86Ok X}.

Lemma managed_replace p k s s' g :
  segments p !! k = Some s → seg_header s' = seg_header s →
  managed (set_segments (<[k := s']> (segments p)) p) g ↔ managed p g.
Proof.
  intros Hk Hh. unfold managed. simpl.
  assert (∀ q, Exists (λ s, covers (seg_header s) g) q ↔
    Exists (λ h, covers h g) (seg_header <$> q)) as Hq by (intros; by rewrite Exists_fmap).
  rewrite !Hq, list_fmap_insert, list_insert_id; [done|]. rewrite list_lookup_fmap, Hk. simpl. by rewrite Hh.
Qed.

Lemma free_managed p f : pfa_inv p → f ∈ free_frames p → managed p f ∧ good_frame f.
Proof.
  intros [Hall _] (s & Hs & Hf)%elem_of_free_frames.
  assert (seg_wf s) as Hwf by (by eapply Forall_forall).
  apply elem_of_free_in in Hf as (i & Hi & _ & ->).
  destruct (frame_of_covered _ i (wf_header s Hwf) Hi) as (Hc & Ha & Hw).
  split; [split; [done|]|done]. apply Exists_exists. eauto.
Qed.

Lemma deallocate_frame_run p f :
  pfa_inv p → good_frame f →
  (¬ managed p f ∧ deallocate_frame f p = Ok (tt, p)) ∨
  (∃ k s i, segments p !! k = Some s ∧ 0 ≤ i < npages (seg_header s) ∧
    f = frame_of (seg_header s) i ∧
    deallocate_frame f p = Ok (tt, set_segments (<[k := mark_free s i]> (segments p)) p)).
Proof.
  intros [Hall Hd] [Ha Hw]. unfold deallocate_frame.
  destruct (find_segment_spec (segments p) f Hall) as [[-> Hn]|(k & s & -> & Hk & Hc)]; simpl.
  - left. split; [|done]. intros [_ (s & Hs & Hc)%Exists_exists].
    rewrite Forall_forall in Hn. by apply (Hn s Hs).
  - right. assert (seg_wf s) as Hs by (by eapply Forall_lookup_1).
    destruct (covers_index _ f (wf_header s Hs) Hc Ha) as [Hi Hf].
    set (i := (f - address (seg_header s)) / PAGE_SIZE) in *.
    exists k, s, i. split_and!; [done|lia..|done|]. rewrite bitmap_Ok by done. simpl.
    pose proof (hwf_addr _ (wf_header s Hs)) as [? _]. pose proof (hwf_end _ (wf_header s Hs)).
    pose proof (header_wf_size _ (wf_header s Hs)). unfold covers in Hc.
    rewrite phys_sub_spec by (done || unfold in_width; lia).
    destruct (Z.leb_spec (address (seg_header s)) f); [|lia]. simpl. fold i.
    pose proof (seg_wf_index s i Hs Hi) as Hl. apply lookup_lt_is_Some in Hl as [w Ew].
    unfold mark_free. rewrite Ew. assert (0 ≤ i / 64) by zlia.
    rewrite (proj2 (index_Ok _ _ w)) by done. done.
Qed.

Lemma free_mark_free p k s i :
  pfa_inv p → segments p !! k = Some s → 0 ≤ i < npages (seg_header s) →
  free_frames (set_segments (<[k := mark_free s i]> (segments p)) p) =
  {[frame_of (seg_header s) i]} ∪ free_frames p.
Proof.
  intros Hp Hk Hi. assert (seg_wf s) as Hs by (eapply Forall_lookup_1; [apply Hp|done]).
  apply set_eq. intros f.
  rewrite (free_frames_replace p k s) by eauto using seg_wf_mark_free, seg_header_mark_free.
  rewrite free_in_mark_free, !elem_of_union, elem_of_singleton, !elem_of_free_frames by done.
  split; [naive_solver eauto using list_elem_of_lookup_2|].
  intros [->|(t & Ht & Hf)]; [by left; left|].
  destruct (decide (f ∈ free_in s)); [by left; right|right]. split; [by exists t|].
  intros Hc. apply list_elem_of_lookup in Ht as [j Hj].
  assert (seg_wf t) as Htw by (eapply Forall_lookup_1; [apply Hp|done]).
  assert (j = k) as ->; [|by simplify_eq].
  eapply (proj2 Hp j k _ _ f); rewrite ?list_lookup_fmap, ?Hj, ?Hk; try done.
  apply elem_of_free_in in Hf as (q & Hq & _ & ->). apply frame_of_covered; [apply Htw|done].
Qed.

#[global] Instance pfa_allocator : FrameAllocator PhysicalFrameAllocator := {|
  fa_alloc := allocate_frame;
  fa_dealloc := deallocate_frame;
|}.

Lemma allocate_frame_abs p :
  pfa_inv p →
  (allocate_frame p = Ok (None, p) ∧ free_frames p = ∅) ∨
  (∃ f p', allocate_frame p = Ok (Some f, p') ∧ pfa_inv p' ∧ f ∈ free_frames p ∧
    free_frames p' = free_frames p ∖ {[f]} ∧ ∀ g, managed p' g ↔ managed p g).
Proof.
  intros Hp. destruct (allocate_frame_run p Hp) as [?|(k & s & i & Hk & Hi & Hb & _ & _ & Hr)];
    [by left|right].
  assert (seg_wf s) as Hs by (eapply Forall_lookup_1; [apply Hp|done]).
  do 2 eexists. split; [exact Hr|]. split_and!.
  - eapply pfa_inv_replace; eauto using seg_wf_mark_used, seg_header_mark_used.
  - apply elem_of_free_frames. exists s. split; [by eapply list_elem_of_lookup_2|].
    apply elem_of_free_in. eauto.
  - by apply free_mark_used.
  - intros g. by apply (managed_replace p k s), seg_header_mark_used.
Qed.

Lemma deallocate_frame_abs p f :
  pfa_inv p → good_frame f →
  ∃ p', deallocate_frame f p = Ok (tt, p') ∧ pfa_inv p' ∧
    (∀ g, managed p' g ↔ managed p g) ∧
    (managed p f → free_frames p' = {[f]} ∪ free_frames p) ∧ (¬ managed p f → p' = p).
Proof.
  intros Hp Hf. destruct (deallocate_frame_run p f Hp Hf) as [[Hn ->]|(k & s & i & Hk & Hi & E & ->)].
  { exists p. split_and!; done. }
  assert (seg_wf s) as Hs by (eapply Forall_lookup_1; [apply Hp|done]).
  assert (managed p f) as Hm.
  { split; [apply Hf|]. apply Exists_exists. exists s.
    split; [by eapply list_elem_of_lookup_2|]. rewrite E. apply frame_of_covered; [apply Hs|done]. }
  eexists. split; [done|]. split_and!; [| | |done].
  - eapply pfa_inv_replace; eauto using seg_wf_mark_free, seg_header_mark_free.
  - intros g. by apply (managed_replace p k s), seg_header_mark_free.
  - intros _. rewrite E. by apply free_mark_free.
Qed.

#[global] Instance pfa_allocator_ok : FrameAllocatorOk PhysicalFrameAllocator := {|
  fa_inv := pfa_inv;
  fa_free := free_frames;
  fa_managed := managed;
  fa_free_managed := free_managed;
  fa_alloc_ok := allocate_frame_abs;
  fa_dealloc_ok := deallocate_frame_abs;
|}.
End phys_interface.

(** ** Properties *)

Section phys_properties.
Context {X : X86} {XO : X86Ok X}.

(** C4. From a well-formed allocator, [allocate_frame] never panics.  It returns
    [None], and leaves the allocator alone, exactly when no frame is free;
    otherwise it returns a page-aligned frame that was free, removes exactly
    that frame from the free set, and keeps the invariant. *)
Theorem allocate_frame_correct p :
  pfa_inv p →
  (allocate_frame p = Ok (None, p) ∧ free_frames p = ∅) ∨
  (∃ f p', allocate_frame p = Ok (Some f, p') ∧ f ∈ free_frames p ∧ good_frame f ∧
    free_frames p' = free_frames p ∖ {[f]} ∧ pfa_inv p').
Proof.
  intros Hp. destruct (allocate_frame_abs p Hp) as [?|(f & p' & Hr & Hp' & Hf & Hfree & _)];
    [by left|right].
  destruct (free_managed p f Hp Hf) as [_ Hg]. exists f, p'. split_and!; try done; apply Hg.
Qed.

(** [allocate_frame] is first fit: the frame it returns is the lowest free
    page of the first segment of the list that has a free page, and the
    list holds the regions of the memory map last first. *)
Theorem allocate_frame_first_fit p f p' :
  pfa_inv p → allocate_frame p = Ok (Some f, p') →
  ∃ k s i, segments p !! k = Some s ∧ f = frame_of (seg_header s) i ∧
    bit_at (seg_words s) i = false ∧
    (∀ g, g ∈ free_in s → f ≤ g) ∧
    (∀ j t, segments p !! j = Some t → (j < k)%nat → free_in t = ∅).
Proof.
  intros Hp Hr. destruct (allocate_frame_run p Hp)
    as [[E _]|(k & s & i & Hk & Hi & Hb & Hlow & Hpre & E)]; rewrite Hr in E; simplify_eq.
  exists k, s, i. split_and!; try done.
  intros g (j & Hj & Hbj & ->)%elem_of_free_in. unfold frame_of, PAGE_SIZE.
  destruct (Z.lt_ge_cases j i); [|lia]. rewrite Hlow in Hbj by lia. done.
Qed.

(** C31. Releasing a frame of one of the segments never panics and makes exactly
    that frame free again (releasing it twice changes nothing more);
    releasing an address outside every segment is ignored. *)
Theorem deallocate_frame_correct p f :
  pfa_inv p → good_frame f →
  ∃ p', deallocate_frame f p = Ok (tt, p') ∧ pfa_inv p' ∧
    (managed p f → free_frames p' = {[f]} ∪ free_frames p) ∧ (¬ managed p f → p' = p).
Proof.
  intros Hp Hf. destruct (deallocate_frame_abs p f Hp Hf) as (p' & Hr & Hp' & _ & H1 & H2).
  eauto.
Qed.

(** Round trip: releasing the frame that was just allocated restores the
    allocator bit for bit. *)
Theorem allocate_deallocate p f p' :
  pfa_inv p → allocate_frame p = Ok (Some f, p') → deallocate_frame f p' = Ok (tt, p).
Proof.
  intros Hp Hr. destruct (allocate_frame_run p Hp)
    as [[E0 _]|(k & s & i & Hk & Hi & Hb & _ & _ & E0)]; rewrite Hr in E0; simplify_eq.
  assert (seg_wf s) as Hs by (eapply Forall_lookup_1; [apply Hp|done]).
  assert (pfa_inv (set_segments (<[k:=mark_used s i]> (segments p)) p)) as Hp'.
  { eapply pfa_inv_replace; eauto using seg_wf_mark_used, seg_header_mark_used. }
  destruct (frame_of_covered _ i (wf_header s Hs) Hi) as (Hc & Ha & Hw).
  assert (k < length (segments p))%nat as Hlt by (by eapply lookup_lt_Some).
  assert (segments (set_segments (<[k:=mark_used s i]> (segments p)) p) !! k
    = Some (mark_used s i)) as Hk' by (by apply list_lookup_insert_eq).
  destruct (deallocate_frame_run _ (frame_of (seg_header s) i) Hp' (conj Ha Hw))
    as [[Hn _]|(k' & s' & i' & Hl & Hi' & E & ->)].
  { destruct Hn. split; [done|]. apply Exists_exists. exists (mark_used s i).
    split; [by eapply list_elem_of_lookup_2|by rewrite seg_header_mark_used]. }
  assert (k' = k) as ->.
  { eapply (proj2 Hp' k' k _ _ (frame_of (seg_header s) i)); rewrite ?list_lookup_fmap;
      [by rewrite Hl|by rewrite Hk'|..].
    - rewrite E. apply frame_of_covered; [|done]. eapply wf_header, Forall_lookup_1; [apply Hp'|done].
    - by rewrite seg_header_mark_used. }
  simplify_eq. rewrite seg_header_mark_used in E. apply frame_of_inj in E as <-.
  rewrite mark_free_used by (apply Hs || done).
  unfold set_segments. simpl. rewrite list_insert_insert_eq, list_insert_id by done. by destruct p.
Qed.





(** Nothing checks where the region for the headers lies: at address 0 the
    pointer to the first header is null and unwrapping it stops the kernel, and
    above the end of the loader's identity map the first write faults. *)
Theorem phys_init_needs_identity bb pre h post :
  let need := round_page (headers_bytes (usable_headers bb)) in
  bb_wf bb → usable_headers bb = pre ++ h :: post →
  Forall (λ s, size s < need) pre → need < size h →
  address h = 0 ∨ ident_end < address h + sizeof_SegmentHeader →
  phys_init bb = Panic (if address h =? 0 then Unwrap else Undefined).
Proof.
  intros need Hbb E Hpre Hlt Ha. rewrite (phys_init_placed bb pre h post) by done. cbv zeta. fold need.
  pose proof (usable_headers_wf bb Hbb) as Hwf. rewrite E, Forall_app, Forall_cons in Hwf.
  destruct Hwf as (_ & [Hh _] & _). pose proof (hwf_addr h Hh) as [H0 _]. pose proof (hwf_end h Hh).
  pose proof (header_wf_size h Hh).
  assert (∃ g l, pre ++ shrink need h :: post = g :: l) as (g & l & ->) by (destruct pre; simpl; eauto).
  cbn [write_headers]. rewrite phys_add_spec by (unfold in_width; lia). rewrite Z.add_0_r.
  destruct (Z.ltb_spec (address h) (2 ^ 52)); [|lia]. cbn [of_option mbind res_bind]. unfold ident_ref.
  destruct (Z.eqb_spec (address h) 0); [done|]. by destruct (Z.leb_spec (address h + sizeof_SegmentHeader) ident_end); [lia|].
Qed.

(** The headers and bitmaps the construction writes do not overlap and stay
    inside the [header_total_size] bytes reserved for them. *)
Theorem phys_init_headers_fit bb pre h post p :
  let need := round_page (headers_bytes (usable_headers bb)) in
  bb_wf bb → usable_headers bb = pre ++ h :: post →
  Forall (λ s, size s < need) pre → need < size h →
  ident_ok (address h) (headers_bytes (usable_headers bb)) → phys_init bb = Ok p →
  ∀ k s, segments p !! k = Some s →
    phyframe p ≤ seg_ptr s ∧ seg_ptr s + seg_bytes s ≤ phyframe p + pfa_size p ∧
    ∀ j t, segments p !! j = Some t → (k < j)%nat → seg_ptr s + seg_bytes s ≤ seg_ptr t.
Proof.
  intros need Hbb E Hpre Hlt Hid Hrun k s Hk.
  destruct (phys_init_run bb pre h post Hbb E Hpre Hlt Hid) as (p' & Hr & Hp & Hh & Hf & Hs & Hfresh).
  rewrite Hrun in Hr. injection Hr as <-.
  set (l := seg_header <$> segments p) in *.
  assert (Forall header_wf l) as Hl.
  { apply Forall_fmap. eapply Forall_impl; [apply Hp|]. intros t Ht. apply Ht. }
  assert (∀ n, 0 ≤ headers_bytes (take n l)) as Hpos
    by (intros; by apply headers_bytes_nonneg, Forall_take).
  destruct (Hfresh k s Hk) as (Hptr & _ & Hwf & _).
  assert (seg_bytes s = header_bytes (seg_header s)) as Hb.
  { unfold seg_bytes, header_bytes. rewrite (wf_len s Hwf).
    pose proof (header_wf_size _ (wf_header s Hwf)). unfold npages, PAGE_SIZE. zlia. }
  assert (l !! k = Some (seg_header s)) as Hlk by (unfold l; by rewrite list_lookup_fmap, Hk).
  assert (headers_bytes (take (S k) l) = headers_bytes (take k l) + seg_bytes s) as Hnext.
  { rewrite (take_S_r _ _ _ Hlk), headers_bytes_app. simpl. lia. }
  assert (∀ n, (S k ≤ n)%nat → headers_bytes (take (S k) l) ≤ headers_bytes (take n l)) as Hmono.
  { intros n Hn. replace (take n l) with (take (S k) l ++ take (n - S k) (drop (S k) l)).
    - rewrite headers_bytes_app. assert (0 ≤ headers_bytes (take (n - S k) (drop (S k) l)));
        [|lia]. by apply headers_bytes_nonneg, Forall_take, Forall_drop.
    - rewrite <-(take_drop (S k) l) at 3. rewrite take_app_ge by (rewrite length_take; lia).
      f_equal. f_equal. apply lookup_lt_Some in Hlk. rewrite length_take. lia. }
  specialize (Hpos k) as Hpk. split_and!.
  - lia.
  - specialize (Hmono (length l)). apply lookup_lt_Some in Hlk. rewrite firstn_all in Hmono.
    assert (headers_bytes l ≤ pfa_size p); [|lia]. pose proof (usable_bytes_nonneg bb Hbb).
    rewrite Hh, Hs. etransitivity; [apply headers_bytes_shrink; unfold round_page; zlia|].
    by rewrite <-E.
  - intros j t Hj Hkj. destruct (Hfresh j t Hj) as (Hpt & _). rewrite Hpt, Hptr.
    specialize (Hmono j). lia.
Qed.

(** The leftover mask of [init] is wrong when the number of pages of a segment
    is a multiple of 64: the shift is then 0, the whole last word is set, and
    the last 64 pages of the segment are never handed out. *)
Theorem init_bitmap_loses_last_word h :
  header_wf h → 0 < npages h → npages h mod 64 = 0 →
  ∃ ws, init_bitmap h = Ok ws ∧
    ∀ i, 0 ≤ i → bit_at ws i = false ↔ i < npages h - 64.
Proof.
  intros Hh Hn Hm. destruct (init_bitmap_spec h Hh Hn) as (ws & -> & _ & _ & Hb).
  exists ws. split; [done|]. intros i Hi. rewrite Hb by done. unfold fresh_pages.
  rewrite Hm. simpl. rewrite Z.leb_gt. done.
Qed.

(** A usable region whose start is not page aligned is rounded at its start
    but its size is not reduced accordingly: the segment stays inside the
    region exactly when the bytes skipped at the start fit in the bytes
    dropped at the end. *)
Theorem segment_inside_region e a s :
  in_width 64 (me_ptr e) → in_width 64 (me_size e) →
  phyadr e = Ok a → mmap_size e = Ok s →
  (a + s ≤ me_ptr e + raw_size e ↔ (- me_ptr e) mod PAGE_SIZE ≤ raw_size e mod PAGE_SIZE).
Proof.
  intros Hp Hs Ha Hsz. apply phyadr_Ok in Ha as [-> _]; [|done].
  rewrite mmap_size_Ok in Hsz by done. injection Hsz as <-. unfold PAGE_SIZE. zlia.
Qed.
End phys_properties.

(** ** Witnesses *)

Lemma demo_bb_wf : bb_wf demo_bb.
Proof.
  split_and!; [done|done|vm_compute; split; [discriminate|done]| |].
  - simpl. repeat apply Forall_cons_2; [..|done];
      (split_and!; [split; [vm_compute; discriminate|reflexivity]..|vm_compute; discriminate|]).
    + intros Hu. vm_compute in Hu. discriminate.
    + intros _. split; reflexivity.
    + intros _. split; reflexivity.
  - simpl. split_and!; repeat apply Forall_cons_2; try done;
      intros Hu Hu'; vm_compute in Hu, Hu'; try discriminate; left; vm_compute; discriminate.
Qed.

Lemma demo_headers :
  usable_headers demo_bb =
    [] ++ mkSegmentHeader MAGIC 0x400000 0x40000 :: [mkSegmentHeader MAGIC 0x200000 0x1FF000].
Proof. vm_compute. reflexivity. Qed.

Lemma demo_pfa_inv : pfa_inv demo_pfa.
Proof.
  destruct (phys_init_run demo_bb _ _ _ demo_bb_wf demo_headers) as (p & Hr & Hp & _).
  - constructor.
  - vm_compute. reflexivity.
  - by apply ident_ok_ref.
  - unfold demo_pfa. by rewrite Hr.
Qed.


Lemma phys_init_headers_fit_witness :
  ∃ s t, segments demo_pfa !! 0%nat = Some s ∧ segments demo_pfa !! 1%nat = Some t ∧
    seg_ptr s + seg_bytes s ≤ seg_ptr t.
Proof.
  do 2 eexists. split; [vm_compute; reflexivity|]. split; [vm_compute; reflexivity|].
  eapply (phys_init_headers_fit demo_bb _ _ _ demo_pfa demo_bb_wf demo_headers) with (k := 0%nat) (j := 1%nat);
    [constructor|vm_compute; reflexivity|by apply ident_ok_ref|vm_compute; reflexivity..|lia].
Defined.

Lemma allocate_frame_correct_witness :
  ∃ p', allocate_frame demo_pfa = Ok (Some 0x401000, p') ∧ pfa_inv p'.
Proof.
  destruct (allocate_frame_correct demo_pfa demo_pfa_inv) as [[Hr _]|(f & p' & Hr & _ & _ & _ & Hp)].
  - exfalso. revert Hr. vm_compute. discriminate.
  - exists p'. split; [|exact Hp]. rewrite Hr. f_equal. f_equal.
    apply (f_equal (λ r, match r with Ok (Some x, _) => x | _ => 0 end)) in Hr.
    vm_compute in Hr. by rewrite <-Hr.
Defined.

Lemma allocate_frame_first_fit_witness :
  ∃ k s i, segments demo_pfa !! k = Some s ∧ 0x401000 = frame_of (seg_header s) i.
Proof.
  edestruct (allocate_frame_first_fit demo_pfa 0x401000) as (k & s & i & Hk & Hf & _);
    [exact demo_pfa_inv|vm_compute; reflexivity|].
  exists k, s, i. split; [exact Hk|exact Hf].
Defined.

Lemma deallocate_frame_correct_witness :
  ∃ p', deallocate_frame 0x401000 demo_pfa = Ok (tt, p') ∧ pfa_inv p'.
Proof.
  destruct (deallocate_frame_correct demo_pfa 0x401000 demo_pfa_inv) as (p' & Hr & Hp & _).
  - split; [reflexivity|unfold in_width; lia].
  - exists p'. split; [exact Hr|exact Hp].
Defined.

Lemma allocate_deallocate_witness :
  ∃ p', allocate_frame demo_pfa = Ok (Some 0x401000, p') ∧
    deallocate_frame 0x401000 p' = Ok (tt, demo_pfa).
Proof.
  eexists. split; [vm_compute; reflexivity|].
  apply (allocate_deallocate demo_pfa); [exact demo_pfa_inv|vm_compute; reflexivity].
Defined.

Lemma init_bitmap_loses_last_word_witness :
  ∃ ws, init_bitmap (mkSegmentHeader MAGIC 0x400000 0x40000) = Ok ws ∧ bit_at ws 0 = true.
Proof.
  edestruct (init_bitmap_loses_last_word (mkSegmentHeader MAGIC 0x400000 0x40000))
    as (ws & Hr & Hb).
  - split; [done|split; [done|reflexivity]|split; [done|reflexivity]|done].
  - reflexivity.
  - reflexivity.
  - exists ws. split; [exact Hr|]. specialize (Hb 0 ltac:(lia)).
    destruct (bit_at ws 0); [done|]. exfalso. destruct Hb as [Hb _].
    specialize (Hb eq_refl). vm_compute in Hb. discriminate.
Defined.

Lemma segment_inside_region_witness :
  phyadr (mkMMapEnt 0x800 0x1001) = Ok 0x1000 ∧ mmap_size (mkMMapEnt 0x800 0x1001) = Ok 0x1000 ∧
  ¬ 0x1000 + 0x1000 ≤ 0x800 + 0x1000.
Proof.
  split; [reflexivity|]. split; [reflexivity|].
  pose proof (segment_inside_region (mkMMapEnt 0x800 0x1001) 0x1000 0x1000) as H.
  intros Hc. apply H in Hc; [vm_compute in Hc; by apply Hc|unfold in_width; simpl; lia..|
    reflexivity|reflexivity].
Defined.
