(* ===== verification/BootInfo.v ===== *)
(** * The information block in memory

    Models the rest of [kernel/src/bootboot.rs]: the boot loader leaves its
    structure, packed, in the page at [BOOTBOOT_INFO]; [bootboot()] is a
    reference to it, and the entries of the memory map follow its last field.
    Here the structure is read from the bytes of that page; the other files
    work with the value that is read. *)

From S2P Require Import Prelude X86 Bootboot FrameAlloc Phys.

Definition BOOTBOOT_MMIO : Z := 0xfffffffff8000000.
Definition BOOTBOOT_FB : Z := 0xfffffffffc000000.
Definition BOOTBOOT_INFO : Z := 0xffffffffffe00000.
Definition BOOTBOOT_ENV : Z := 0xffffffffffe01000.
Definition BOOTBOOT_CORE : Z := 0xffffffffffe02000.

Definition MMAP_USED : Z := 0.
Definition MMAP_FREE : Z := 1.
Definition MMAP_ACPI : Z := 2.
Definition MMAP_MMIO : Z := 3.

(** The [aarch64] member of the union [ArchInfo], eight words like the other. *)
Record ArchArm64 := mkArchArm64 {
  arm_acpi_ptr : Z;
  arm_mmio_ptr : Z;
  arm_efi_ptr : Z;
  arm_unused : list Z;
}.

(** ** Reading *)

(** An array of bytes. *)
Definition read_bytes (l : list Z) (off n : nat) : res (list Z) :=
  if (off + n <=? length l)%nat then Ok (sub_bytes l off n) else Panic Undefined.
(** [i16]: two's complement. *)
Definition signed16 (x : Z) : Z := if x <? 2 ^ 15 then x else x - 2 ^ 16.

(** The eight words of [ArchInfo], and its two members. *)
Definition read_ArchInfo (l : list Z) (off : nat) : res (list Z) :=
  mapM (λ i : nat, read_field l (off + 8 * i) 8) (seq 0 8).
Definition ArchInfo_x86_64 (ws : list Z) : Archx86 :=
  let w i := default 0 (ws !! i) in
  mkArchx86 (w 0%nat) (w 1%nat) (w 2%nat) (w 3%nat) (w 4%nat) (w 5%nat) (w 6%nat) (w 7%nat).
Definition ArchInfo_aarch64 (ws : list Z) : ArchArm64 :=
  let w i := default 0 (ws !! i) in mkArchArm64 (w 0%nat) (w 1%nat) (w 2%nat) (drop 3 ws).

(** [mmap.add(i)]. *)
Definition read_MMapEnt (l : list Z) (off : nat) : res MMapEnt :=
  ptr ← read_field l off 8; size ← read_field l (off + 8) 8; mret (mkMMapEnt ptr size).

(** [bootboot()] on the bytes from [BOOTBOOT_INFO] on; the entries are all
    those the bytes hold. *)
Definition bootboot (l : list Z) : res BootBoot :=
  magic ← read_bytes l 0 4;
  size ← read_field l 4 4;
  protocol ← read_field l 8 1;
  fb_type ← read_field l 9 1;
  numcores ← read_field l 10 2;
  bspid ← read_field l 12 2;
  timezone ← read_field l 14 2;
  datetime ← read_bytes l 16 8;
  initrd_ptr ← read_field l 24 8;
  initrd_size ← read_field l 32 8;
  fb_ptr ← read_field l 40 8;
  fb_size ← read_field l 48 4;
  fb_width ← read_field l 52 4;
  fb_height ← read_field l 56 4;
  fb_scanline ← read_field l 60 4;
  arch ← read_ArchInfo l 64;
  mmap ← mapM (λ i : nat, read_MMapEnt l (128 + 16 * i)) (seq 0 ((length l - 128) / 16));
  mret (mkBootBoot magic size protocol fb_type numcores bspid (signed16 timezone) datetime initrd_ptr initrd_size
    fb_ptr fb_size fb_width fb_height fb_scanline (ArchInfo_x86_64 arch) mmap).

Section fb.
Context {X : X86}.
(** The framebuffer is where the linker put the symbol [fb]. *)
Definition fb_virt (fb : Z) : res Z := of_option Crate (virt_new fb).
End fb.

(** ** What the boot loader writes *)

Definition fields1 (bb : BootBoot) : list (nat * Z) :=
  [(4%nat, bb_size bb); (1%nat, bb_protocol bb); (1%nat, bb_fb_type bb); (2%nat, bb_numcores bb); (2%nat, bb_bspid bb);
   (2%nat, bb_timezone bb mod 2 ^ 16)].
Definition arch_words (a : Archx86) : list Z :=
  [acpi_ptr a; smbi_ptr a; efi_ptr a; mp_ptr a; unused0 a; unused1 a; unused2 a; unused3 a].
Definition fields2 (bb : BootBoot) : list (nat * Z) :=
  [(8%nat, bb_initrd_ptr bb); (8%nat, bb_initrd_size bb); (8%nat, bb_fb_ptr bb); (4%nat, bb_fb_size bb);
   (4%nat, bb_fb_width bb); (4%nat, bb_fb_height bb); (4%nat, bb_fb_scanline bb)] ++ ((8%nat,.) <$> arch_words (bb_arch bb)).
Definition encode_MMapEnt (e : MMapEnt) : list Z := encode_fields [(8%nat, me_ptr e); (8%nat, me_size e)].
Definition encode_BootBoot (bb : BootBoot) : list Z :=
  bb_magic bb ++ encode_fields (fields1 bb) ++ bb_datetime bb ++ encode_fields (fields2 bb) ++
  (bb_mmap bb ≫= encode_MMapEnt).

(** Every field fits its width. *)
Record bb_fits (bb : BootBoot) : Prop := {
  bf_magic : length (bb_magic bb) = 4%nat;
  bf_datetime : length (bb_datetime bb) = 8%nat;
  bf_fields1 : Forall field_ok (fields1 bb);
  bf_timezone : - 2 ^ 15 ≤ bb_timezone bb < 2 ^ 15;
  bf_fields2 : Forall field_ok (fields2 bb);
  bf_mmap : Forall (λ e, in_width 64 (me_ptr e) ∧ in_width 64 (me_size e)) (bb_mmap bb);
}.
Definition set_mmap (l : list MMapEnt) (bb : BootBoot) : BootBoot :=
  mkBootBoot (bb_magic bb) (bb_size bb) (bb_protocol bb) (bb_fb_type bb) (bb_numcores bb) (bb_bspid bb) (bb_timezone bb)
    (bb_datetime bb) (bb_initrd_ptr bb) (bb_initrd_size bb) (bb_fb_ptr bb) (bb_fb_size bb) (bb_fb_width bb)
    (bb_fb_height bb) (bb_fb_scanline bb) (bb_arch bb) l.

Lemma length_fields1 bb : length (encode_fields (fields1 bb)) = 12%nat.
Proof. by rewrite length_encode_fields. Qed.
Lemma length_fields2 bb : length (encode_fields (fields2 bb)) = 104%nat.
Proof. by rewrite length_encode_fields. Qed.
Lemma length_entries es : length (es ≫= encode_MMapEnt) = (16 * length es)%nat.
Proof.
  induction es as [|e es IH]; [done|]. rewrite bind_cons, length_app, IH. unfold encode_MMapEnt.
  rewrite length_encode_fields. cbn [length]. change (sum_list _) with 16%nat. lia.
Qed.

Lemma signed16_wrap x : - 2 ^ 15 ≤ x < 2 ^ 15 → signed16 (x mod 2 ^ 16) = x.
Proof.
  intros Hx. unfold signed16. destruct (Z.ltb_spec (x mod 2 ^ 16) (2 ^ 15)) as [H|H]; [|]; zlia.
Qed.

Lemma read_bytes_at pre l post : read_bytes (pre ++ l ++ post) (length pre) (length l) = Ok l.
Proof.
  unfold read_bytes, sub_bytes. rewrite drop_app_length, take_app_length.
  destruct (Nat.leb_spec (length pre + length l) (length (pre ++ l ++ post))) as [|H]; [done|].
  rewrite !length_app in H. lia.
Qed.

Lemma read_MMapEnt_at pre e post :
  in_width 64 (me_ptr e) → in_width 64 (me_size e) →
  read_MMapEnt (pre ++ encode_MMapEnt e ++ post) (length pre) = Ok e.
Proof.
  intros Hp Hs. unfold read_MMapEnt, encode_MMapEnt. set (fs := [(8%nat, me_ptr e); (8%nat, me_size e)]).
  rewrite (read_encoded_field pre fs post 0 8 (me_ptr e) (length pre) eq_refl Hp) by (cbn; lia).
  rewrite (read_encoded_field pre fs post 1 8 (me_size e) (length pre + 8) eq_refl Hs) by (cbn; lia).
  by destruct e.
Qed.

(** The entry number [i] of the map. *)
Lemma read_entry pre es post i e :
  length pre = 128%nat → Forall (λ e, in_width 64 (me_ptr e) ∧ in_width 64 (me_size e)) es → es !! i = Some e →
  read_MMapEnt (pre ++ (es ≫= encode_MMapEnt) ++ post) (128 + 16 * i) = Ok e.
Proof.
  intros Hpre Hes Hi. destruct (Forall_lookup_1 _ _ _ _ Hes Hi) as [Hp Hs].
  rewrite <- (take_drop_middle _ _ _ Hi) at 1. rewrite bind_app, bind_cons, <- !app_assoc, (app_assoc pre).
  replace (128 + 16 * i)%nat with (length (pre ++ (take i es ≫= encode_MMapEnt))); [by apply read_MMapEnt_at|].
  rewrite length_app, length_entries, Hpre, length_take. pose proof (lookup_lt_Some _ _ _ Hi). lia.
Qed.

(** The head of the structure, before the entries. *)
Definition encode_head (bb : BootBoot) : list Z :=
  bb_magic bb ++ encode_fields (fields1 bb) ++ bb_datetime bb ++ encode_fields (fields2 bb).
Lemma length_head bb : bb_fits bb → length (encode_head bb) = 128%nat.
Proof. intros []. unfold encode_head. rewrite !length_app, length_fields1, length_fields2. lia. Qed.

Section read_head.
Context (bb : BootBoot) (Hbb : bb_fits bb) (post : list Z).

Lemma read_fields1 k w x off :
  fields1 bb !! k = Some (w, x) → off = (4 + field_offset (fields1 bb) k)%nat →
  read_field (encode_head bb ++ post) off w = Ok x.
Proof.
  intros Hk ->. unfold encode_head. rewrite <- !app_assoc. rewrite <- (bf_magic bb Hbb).
  eapply read_encoded_field; [exact Hk| |done]. by apply (Forall_lookup_1 _ _ _ _ (bf_fields1 bb Hbb) Hk).
Qed.
Lemma read_fields2 k w x off :
  fields2 bb !! k = Some (w, x) → off = (24 + field_offset (fields2 bb) k)%nat →
  read_field (encode_head bb ++ post) off w = Ok x.
Proof.
  intros Hk ->.
  assert (encode_head bb ++ post = (bb_magic bb ++ encode_fields (fields1 bb) ++ bb_datetime bb) ++ encode_fields (fields2 bb) ++ post)
    as -> by (unfold encode_head; by rewrite <- !app_assoc).
  eapply read_encoded_field; [exact Hk|by apply (Forall_lookup_1 _ _ _ _ (bf_fields2 bb Hbb) Hk)|].
  by rewrite !length_app, length_fields1, (bf_magic bb Hbb), (bf_datetime bb Hbb).
Qed.
Lemma read_magic : read_bytes (encode_head bb ++ post) 0 4 = Ok (bb_magic bb).
Proof.
  unfold encode_head. rewrite <- !app_assoc. pose proof (read_bytes_at [] (bb_magic bb)) as H. rewrite (bf_magic bb Hbb) in H. apply H.
Qed.
Lemma read_datetime : read_bytes (encode_head bb ++ post) 16 8 = Ok (bb_datetime bb).
Proof.
  assert (encode_head bb ++ post = (bb_magic bb ++ encode_fields (fields1 bb)) ++ bb_datetime bb ++ encode_fields (fields2 bb) ++ post)
    as -> by (unfold encode_head; by rewrite <- !app_assoc).
  pose proof (read_bytes_at (bb_magic bb ++ encode_fields (fields1 bb)) (bb_datetime bb)) as H.
  rewrite length_app, length_fields1, (bf_magic bb Hbb), (bf_datetime bb Hbb) in H. apply H.
Qed.
Lemma read_arch : read_ArchInfo (encode_head bb ++ post) 64 = Ok (arch_words (bb_arch bb)).
Proof.
  unfold read_ArchInfo. apply mapM_Ok, Forall2_same_length_lookup_2; [done|]. intros i j x Hj Hx.
  assert (i < 8)%nat as Hi by (by apply lookup_lt_Some in Hx). rewrite lookup_seq_lt in Hj by done. injection Hj as <-.
  apply (read_fields2 (7 + i)).
  - unfold fields2. rewrite lookup_app_r by (cbn; lia). rewrite list_lookup_fmap. cbn [length].
    replace (7 + i - 7)%nat with i by lia. by rewrite Hx.
  - unfold fields2, field_offset. do 8 (destruct i as [|i]; [done|]). lia.
Qed.
End read_head.

(** The entries that follow: those of the loader, then whatever the memory holds. *)
Lemma read_entries bb post :
  bb_fits bb → let l := encode_BootBoot bb ++ post in
  ∃ more, mapM (λ i : nat, read_MMapEnt l (128 + 16 * i)) (seq 0 ((length l - 128) / 16)) = Ok (bb_mmap bb ++ more).
Proof.
  intros Hbb l. set (es := bb_mmap bb). set (n := ((length l - 128) / 16)%nat).
  assert (l = encode_head bb ++ (es ≫= encode_MMapEnt) ++ post) as El.
  { unfold l, encode_BootBoot, encode_head. by rewrite <- !app_assoc. }
  assert (length l = 128 + 16 * length es + length post)%nat as Hl.
  { rewrite El, !length_app, length_entries, (length_head bb Hbb). lia. }
  assert (length es ≤ n)%nat as Hn.
  { unfold n. rewrite Hl. apply Nat.div_le_lower_bound; lia. }
  replace n with (length es + (n - length es))%nat by lia. rewrite seq_app.
  exists ((λ i, mkMMapEnt (le_decode (sub_bytes l (128 + 16 * i) 8)) (le_decode (sub_bytes l (128 + 16 * i + 8) 8))) <$>
    seq (0 + length es) (n - length es)).
  apply mapM_Ok, Forall2_app; apply Forall2_same_length_lookup_2.
  - by rewrite length_seq.
  - intros i j e Hj He. apply lookup_seq in Hj as [-> _]. rewrite El, Nat.add_0_l.
    apply read_entry; [by apply length_head|apply Hbb|done].
  - by rewrite length_fmap.
  - intros i j e Hj He. rewrite list_lookup_fmap, Hj in He. injection He as <-. apply lookup_seq in Hj as [-> Hlt].
    assert (128 + 16 * (0 + length es + i) + 16 ≤ length l)%nat as Hle.
    { pose proof (Nat.Div0.mul_div_le (length l - 128) 16). fold n in H. lia. }
    unfold read_MMapEnt, read_field. rewrite (proj2 (Nat.leb_le _ (length l))) by lia.
    cbn [mbind res_bind]. by rewrite (proj2 (Nat.leb_le _ (length l))) by lia.
Qed.

Lemma bootboot_reads bb post :
  bb_fits bb → ∃ more, bootboot (encode_BootBoot bb ++ post) = Ok (set_mmap (bb_mmap bb ++ more) bb).
Proof.
  intros Hbb. destruct (read_entries bb post Hbb) as [more Hm]. exists more. unfold bootboot. cbn zeta in Hm. rewrite Hm.
  assert (encode_BootBoot bb ++ post = encode_head bb ++ (bb_mmap bb ≫= encode_MMapEnt) ++ post) as ->.
  { unfold encode_BootBoot, encode_head. by rewrite <- !app_assoc. }
  set (rest := (bb_mmap bb ≫= encode_MMapEnt) ++ post).
  rewrite (read_magic bb Hbb rest), (read_datetime bb Hbb rest), (read_arch bb Hbb rest).
  rewrite (read_fields1 bb Hbb rest 0 4 _ 4 eq_refl eq_refl), (read_fields1 bb Hbb rest 1 1 _ 8 eq_refl eq_refl),
    (read_fields1 bb Hbb rest 2 1 _ 9 eq_refl eq_refl), (read_fields1 bb Hbb rest 3 2 _ 10 eq_refl eq_refl),
    (read_fields1 bb Hbb rest 4 2 _ 12 eq_refl eq_refl), (read_fields1 bb Hbb rest 5 2 _ 14 eq_refl eq_refl).
  rewrite (read_fields2 bb Hbb rest 0 8 _ 24 eq_refl eq_refl), (read_fields2 bb Hbb rest 1 8 _ 32 eq_refl eq_refl),
    (read_fields2 bb Hbb rest 2 8 _ 40 eq_refl eq_refl), (read_fields2 bb Hbb rest 3 4 _ 48 eq_refl eq_refl),
    (read_fields2 bb Hbb rest 4 4 _ 52 eq_refl eq_refl), (read_fields2 bb Hbb rest 5 4 _ 56 eq_refl eq_refl),
    (read_fields2 bb Hbb rest 6 4 _ 60 eq_refl eq_refl).
  cbn [mbind res_bind]. rewrite (signed16_wrap _ (bf_timezone bb Hbb)). unfold set_mmap. by destruct (bb_arch bb).
Qed.

(** Only the entries the size of the structure announces are looked at. *)
Lemma mmap_entries_more bb more :
  bb_wf bb → mmap_entries (set_mmap (bb_mmap bb ++ more) bb) = Ok (reverse (bb_mmap bb)).
Proof.
  intros (Hsz & Hne & Hw & _). assert (length (bb_mmap bb) ≠ 0%nat) by (by destruct (bb_mmap bb)).
  unfold mmap_entries, in_width, sizeof_BootBoot, sizeof_MMapEnt, sub64 in *. cbn [set_mmap bb_size bb_mmap].
  rewrite chk_in by (unfold in_width; lia). cbn [mbind res_bind].
  apply mapM_Ok, Forall2_reverse, Forall2_same_length_lookup_2; [rewrite length_range; zlia|].
  intros i z e Hz He. pose proof (lookup_lt_Some _ _ _ Hz) as Hi. rewrite length_range in Hi.
  rewrite lookup_range in Hz by done. injection Hz as <-. by rewrite Nat2Z.id, (lookup_app_l_Some _ _ _ _ He).
Qed.

(** The two members of the union have the pointers to the tables of the
    firmware at the same place. *)
Lemma ArchInfo_members ws :
  acpi_ptr (ArchInfo_x86_64 ws) = arm_acpi_ptr (ArchInfo_aarch64 ws) ∧
  efi_ptr (ArchInfo_x86_64 ws) = arm_efi_ptr (ArchInfo_aarch64 ws).
Proof. done. Qed.

(** The type of a region is the constant of the protocol in the low bits of
    its size; other codes stop the kernel. *)
Definition mmap_code (t : MMapType) : Z :=
  match t with Used => MMAP_USED | Free => MMAP_FREE | Acpi => MMAP_ACPI | MemoryMappedIO => MMAP_MMIO end.
Theorem get_type_codes e t :
  get_type e = Ok t ↔ Z.land (me_size e) 0xF = mmap_code t.
Proof.
  unfold get_type. set (c := Z.land (me_size e) 0xF). assert (0 ≤ c) as Hc by (apply Z.land_nonneg; lia).
  destruct (decide (c = 0)) as [->|]; [by destruct t|]. destruct (decide (c = 1)) as [->|]; [by destruct t|].
  destruct (decide (c = 2)) as [->|]; [by destruct t|]. destruct (decide (c = 3)) as [->|]; [by destruct t|].
  split.
  - destruct c as [|[[?|?|]|[?|?|]|]|]; done.
  - destruct t; unfold mmap_code, MMAP_USED, MMAP_FREE, MMAP_ACPI, MMAP_MMIO; lia.
Qed.

Section roundtrip.
Context {X : X86}.

(** C20. The information block of the boot loader: the kernel reads from the
    packed bytes at [BOOTBOOT_INFO] every field as the loader wrote it, the
    time zone with its sign, whatever memory follows; of the entries it walks
    exactly those of the loader, last first, and so the frame allocator it
    builds is the one of the map that was written. *)
Theorem bootboot_roundtrip bb post :
  bb_fits bb → bb_wf bb →
  ∃ bb', bootboot (encode_BootBoot bb ++ post) = Ok bb' ∧ bb' = set_mmap (bb_mmap bb') bb ∧
    mmap_entries bb' = Ok (reverse (bb_mmap bb)) ∧ phys_init bb' = phys_init bb.
Proof.
  intros Hbb Hwf. destruct (bootboot_reads bb post Hbb) as [more Hr]. eexists. split_and!; [exact Hr|done|by apply mmap_entries_more|].
  unfold phys_init. by rewrite (mmap_entries_more bb more Hwf), (mmap_entries_run bb Hwf).
Qed.
End roundtrip.

(** The block of [demo_bb], with other memory after it. *)
Lemma demo_bb_fits : bb_fits demo_bb.
Proof. split; [done|done| |by vm_compute| |]; repeat constructor; by vm_compute. Qed.

Lemma bootboot_roundtrip_witness :
  ∃ bb', bootboot (encode_BootBoot demo_bb ++ replicate 40 255) = Ok bb' ∧ bb_bspid bb' = bb_bspid demo_bb ∧
    mmap_entries bb' = Ok (reverse (bb_mmap demo_bb)) ∧ phys_init bb' = phys_init demo_bb ∧
    length (bb_mmap bb') = 5%nat.
Proof.
  destruct (bootboot_roundtrip demo_bb (replicate 40 255)) as (bb' & Hr & He & Hm & Hp).
  - exact demo_bb_fits.
  - exact demo_bb_wf.
  - exists bb'. split_and!; [exact Hr|by rewrite He|exact Hm|exact Hp|].
    vm_compute in Hr. injection Hr as <-. reflexivity.
Defined.
