(* ===== verification/WindowCache.v ===== *)
(** * The window cache interface

    The mapper and the boot code reach page tables through windows: pages of
    kernel space that show a chosen frame.  The virtual cache
    ([kernel/src/mem/virt/vcache.rs]) hands them out.  [WindowCache] lists its
    operations as the rest of the kernel calls them and [WindowCacheOk] what
    they promise, in terms of one relation: [wc_shows v p f] says that the
    page [p] is handed out and shows the frame [f]. *)

From S2P Require Import Prelude X86 FrameAlloc.

Class WindowCache (V : Type) := {
  wc_map : Z → M V (option Z);
  wc_map_many : list Z → M V (option (list Z));
  wc_unmap_many : list Z → M V unit;
  wc_remap : Z → Z → M V (option unit);
  (** The frame the processor reaches through a page of the cache. *)
  wc_frame : V → Z → option Z;
}.

(** The relation [shows] changes at most on the pages of [ps]. *)
Definition same_windows (shows shows' : Z → Z → Prop) (ps : list Z) : Prop :=
  ∀ q g, q ∉ ps → shows' q g ↔ shows q g.

(** At most [512 - n] pages are handed out. *)
Definition has_room (shows : Z → Z → Prop) (n : nat) : Prop :=
  ∀ ps, NoDup ps → Forall (λ p, ∃ f, shows p f) ps → (length ps + n ≤ 512)%nat.

Class WindowCacheOk (V : Type) `{WindowCache V} := {
  wc_inv : V → Prop;
  wc_shows : V → Z → Z → Prop;
  wc_shows_functional v p f g : wc_inv v → wc_shows v p f → wc_shows v p g → f = g;
  wc_frame_shows v p f : wc_inv v → wc_shows v p f → wc_frame v p = Some f;
  wc_map_ok v f : wc_inv v → good_frame f → has_room (wc_shows v) 1 →
    ∃ p v', wc_map f v = Ok (Some p, v') ∧ wc_inv v' ∧ (∀ g, ¬ wc_shows v p g) ∧
      wc_shows v' p f ∧ same_windows (wc_shows v) (wc_shows v') [p];
  wc_map_many_ok v fs : wc_inv v → Forall good_frame fs → has_room (wc_shows v) (length fs) →
    ∃ ps v', wc_map_many fs v = Ok (Some ps, v') ∧ wc_inv v' ∧ NoDup ps ∧
      Forall (λ p, ∀ g, ¬ wc_shows v p g) ps ∧ Forall2 (wc_shows v') ps fs ∧
      same_windows (wc_shows v) (wc_shows v') ps;
  wc_unmap_many_ok v ps : wc_inv v → NoDup ps → Forall (λ p, ∃ f, wc_shows v p f) ps →
    ∃ v', wc_unmap_many ps v = Ok (tt, v') ∧ wc_inv v' ∧
      Forall (λ p, ∀ g, ¬ wc_shows v' p g) ps ∧ same_windows (wc_shows v) (wc_shows v') ps;
  wc_remap_ok v p f0 f : wc_inv v → wc_shows v p f0 → good_frame f →
    ∃ v', wc_remap p f v = Ok (Some tt, v') ∧ wc_inv v' ∧ wc_shows v' p f ∧
      same_windows (wc_shows v) (wc_shows v') [p];
}.

(** ** Room *)

Lemma same_windows_trans s1 s2 s3 ps qs :
  same_windows s1 s2 ps → same_windows s2 s3 qs → same_windows s1 s3 (ps ++ qs).
Proof.
  intros H1 H2 q g Hq. rewrite elem_of_app in Hq.
  rewrite (H2 q g) by tauto. apply H1. tauto.
Qed.

Lemma has_room_le s n m : (m ≤ n)%nat → has_room s n → has_room s m.
Proof. intros Hle H ps Hnd Hps. pose proof (H ps Hnd Hps). lia. Qed.

Lemma has_room_sub (s s' : Z → Z → Prop) n :
  (∀ p f, s' p f → ∃ g, s p g) → has_room s n → has_room s' n.
Proof.
  intros Hs H ps Hnd Hps. apply H; [done|]. eapply Forall_impl; [exact Hps|].
  intros p [f Hf]. by eapply Hs.
Qed.

(** Handing out one page costs one unit of room. *)
Lemma has_room_take s s' p n :
  same_windows s s' [p] → has_room s (S n) → has_room s' n.
Proof.
  intros Hsame Hroom ps Hnd Hps.
  assert (length (filter (λ q, q ≠ p) ps) + S n ≤ 512)%nat as Hle.
  { apply Hroom; [by apply NoDup_filter|]. apply Forall_forall.
    intros q [Hq Hin]%list_elem_of_filter. rewrite Forall_forall in Hps.
    destruct (Hps q Hin) as [f Hf]. exists f. apply Hsame; [set_solver|done]. }
  assert (length ps ≤ S (length (filter (λ q, q ≠ p) ps)))%nat; [|lia].
  clear -Hnd. induction Hnd as [|q ps Hq Hnd IH]; [simpl; lia|].
  rewrite filter_cons. case_decide as E; simpl; [lia|].
  assert (q = p) as -> by (destruct (decide (q = p)); tauto).
  enough (filter (λ q, q ≠ p) ps = ps) as -> by lia.
  clear IH. induction ps as [|x ps IH]; [done|]. rewrite filter_cons.
  apply not_elem_of_cons in Hq as [? ?]. apply NoDup_cons in Hnd as [? ?].
  rewrite decide_True by done. f_equal. auto.
Qed.

(** Pages that are not handed out leave at least as much room. *)
Lemma has_room_give s s' ps n :
  NoDup ps → Forall (λ p, ∃ f, s p f) ps → Forall (λ p, ∀ g, ¬ s' p g) ps →
  same_windows s s' ps → has_room s n → has_room s' (length ps + n).
Proof.
  intros Hnd Hs Hs' Hsame Hroom qs Hqs Hall. rewrite Forall_forall in Hs'.
  assert (∀ q, q ∈ qs → q ∉ ps) as Hdisj.
  { intros q Hq Hp. rewrite Forall_forall in Hall. destruct (Hall q Hq) as [f Hf].
    by eapply Hs'. }
  assert (length (qs ++ ps) + n ≤ 512)%nat as H; [|rewrite length_app in H; lia].
  apply Hroom.
  - apply NoDup_app. naive_solver.
  - apply Forall_app. split; [|done]. rewrite Forall_forall in Hall |- *.
    intros q Hq. destruct (Hall q Hq) as [f Hf]. exists f. apply Hsame; auto.
Qed.
