(* ===== verification/VCache.v ===== *)
(** * The virtual cache

    Models [kernel/src/mem/virt/vcache.rs]: a pool of 2048 pages at the start
    of kernel space whose page table entries the kernel can always reach.
    [map] hands out a page that shows a given frame, [remap] points a page at
    another frame and [unmap] gives a page back lazily: its entry stays
    present until all tables are full and the lazy pages of one table are
    collected.  The construction of the pool ([init]) is in the file Boot. *)

From S2P Require Import Prelude X86 FrameAlloc WindowCache.

Definition KVMSPACE : Z := 0xFFFF800000000000.
Definition START_ADDR : Z := KVMSPACE.
Definition P1PAGE_COUNT : Z := 2048.
Definition P2PAGE_COUNT : Z := P1PAGE_COUNT / 512.
Definition VC_SIZE : Z := P1PAGE_COUNT * PAGE_SIZE.

Record VCacheState := mkVCacheState {
  p2_freecount : list Z;
  p2_lazycount : list Z;
  p1_age : list (list Z);
}.

(** [vc_p1] is the slice of page tables, each with its 512 entries. *)
Record VCache := mkVCache {
  vc_p1 : list (list Z);
  vc_state : VCacheState;
}.

Definition VCacheState_new : VCacheState :=
  mkVCacheState (replicate (Z.to_nat P2PAGE_COUNT) 512) (replicate (Z.to_nat P2PAGE_COUNT) 0)
    (replicate (Z.to_nat P2PAGE_COUNT) (replicate 512 0)).

Definition set_p1 (p1 : list (list Z)) (v : VCache) : VCache := mkVCache p1 (vc_state v).
Definition set_freecount (l : list Z) (v : VCache) : VCache :=
  mkVCache (vc_p1 v) (mkVCacheState l (p2_lazycount (vc_state v)) (p1_age (vc_state v))).
Definition set_lazycount (l : list Z) (v : VCache) : VCache :=
  mkVCache (vc_p1 v) (mkVCacheState (p2_freecount (vc_state v)) l (p1_age (vc_state v))).
Definition set_age (l : list (list Z)) (v : VCache) : VCache :=
  mkVCache (vc_p1 v) (mkVCacheState (p2_freecount (vc_state v)) (p2_lazycount (vc_state v)) l).

Section vcache.
Context {X : X86}.

(** The flags of every cache entry. *)
Definition VC_FLAGS : Z := fl_union (fl_union WRITABLE GLOBAL) PRESENT.

(** First loop of [map]: [lazy_pages_count] and [p2index]. *)
Fixpoint scan_free (lazies frees : list Z) (i : nat) (lazy : option Z) :
    option Z * option nat :=
  match lazies, frees with
  | lz :: lazies', fr :: frees' =>
    let lazy' := match lazy with None => Some lz | Some _ => lazy end in
    if negb (fr =? 0) then (lazy', Some i) else scan_free lazies' frees' (S i) lazy'
  | _, _ => (lazy, None)
  end.

(** The loop over the entries of one table that turns its lazy pages into free
    ones: the new ages and entries, the number found and the last one found.
    [ptes] is empty when the slice has no such table. *)
Fixpoint reclaim (ages ptes : list Z) (p1i : nat) (limit found : Z) (p1index : option nat) :
    res (list Z * list Z * Z * option nat) :=
  match ages with
  | [] => Ok ([], ptes, found, p1index)
  | age :: ages' =>
    if limit <=? found then Ok (ages, ptes, found, p1index)
    else if negb (age =? 0) then
      match ptes with
      | [] => Panic Bounds
      | e :: ptes' =>
        found' ← chk 16 (found + 1);
        let e' := pte_set_flags e (fl_remove (pte_flags e) PRESENT) in
        r ← reclaim ages' ptes' (S p1i) limit found' (Some p1i);
        let '(a, p, f, x) := r in mret (0 :: a, e' :: p, f, x)
      end
    else
      r ← reclaim ages' (tail ptes) (S p1i) limit found p1index;
      let '(a, p, f, x) := r in
      mret (age :: a, match ptes with [] => [] | e :: _ => e :: p end, f, x)
  end.

(** The page of entry [p1i] of table [p2i]. *)
Definition slot_page (p2i p1i : nat) : res Z :=
  a ← of_option Crate (virt_add START_ADDR (PAGE_SIZE * (Z.of_nat p2i * 512 + Z.of_nat p1i)));
  unwrap (page_from_start a).

(** [self.p1[p2i][p1i] = e] and the like; out of range panics. *)
Definition write2 (l : list (list Z)) (i j : nat) (e : Z) : res (list (list Z)) :=
  row ← of_option Bounds (l !! i);
  if (j <? length row)%nat then mret (<[i := <[j := e]> row]> l) else Panic Bounds.

(** The second part of [map]: the pages found free, or the collection of the
    lazy pages of the first table that has some. *)
Definition reclaim_table (limit : Z) : M VCache (option nat * option nat) := λ v,
  match list_find (λ c, c ≠ 0) (p2_lazycount (vc_state v)) with
  | None => Ok ((None, None), v)
  | Some (p2i, _) =>
    ages ← of_option Bounds (p1_age (vc_state v) !! p2i);
    r ← reclaim ages (default [] (vc_p1 v !! p2i)) 0 limit 0 None;
    let '(ages', ptes', found, p1index) := r in
    mret ((Some p2i, p1index),
      set_lazycount (<[p2i := 0]> (p2_lazycount (vc_state v)))
        (set_freecount (<[p2i := found]> (p2_freecount (vc_state v)))
          (set_age (<[p2i := ages']> (p1_age (vc_state v)))
            (set_p1 (<[p2i := ptes']> (vc_p1 v)) v))))
  end.

(** [self.state.p2_freecount[p2index] -= 1]. *)
Definition take_free (p2index : nat) : M VCache unit := λ v,
  c ← of_option Bounds (p2_freecount (vc_state v) !! p2index);
  c' ← chk 16 (c - 1);
  mret (tt, set_freecount (<[p2index := c']> (p2_freecount (vc_state v))) v).

(** The search for an entry that is not present, when none was collected. *)
Definition find_slot (p2index : nat) : M VCache nat := λ v,
  row ← of_option Bounds (vc_p1 v !! p2index);
  let found := list_find (λ e, fl_contains (pte_flags e) PRESENT = false) row in
  p1index ← unwrap (fst <$> found);
  ages' ← write2 (p1_age (vc_state v)) p2index p1index 0;
  mret (p1index, set_age ages' v).

Definition vcache_map (physframe : Z) : M VCache (option Z) :=
  v ← get;
  let '(lazy_pages_count, p2index) :=
    scan_free (p2_lazycount (vc_state v)) (p2_freecount (vc_state v)) 0 None in
  match p2index, lazy_pages_count with
  | None, None => mret None
  | _, _ =>
    r ← match p2index with
        | Some i => mret (Some i, None)
        | None => reclaim_table (default 0 lazy_pages_count)
        end;
    let '(p2index, p1index) := r in
    p2index ← lift (unwrap p2index);
    _ ← take_free p2index;
    p1index ← match p1index with Some i => mret i | None => find_slot p2index end;
    v ← get;
    e ← lift (of_option Crate (pte_set_frame physframe VC_FLAGS));
    p1 ← lift (write2 (vc_p1 v) p2index p1index e);
    _ ← put (set_p1 p1 v);
    page ← lift (slot_page p2index p1index);
    mret (Some page)
  end.

Definition vc_p2_index (page : Z) : res nat :=
  i ← sub64 (Z.of_nat (p2_index page)) (Z.of_nat (p2_index START_ADDR));
  mret (Z.to_nat i).

Definition vcache_unmap (page : Z) : M VCache unit := λ v,
  target_p2i ← vc_p2_index page;
  let target_p1i := p1_index page in
  ages ← write2 (p1_age (vc_state v)) target_p2i target_p1i 1;
  c ← of_option Bounds (p2_lazycount (vc_state v) !! target_p2i);
  c' ← chk 16 (c + 1);
  mret (tt, set_lazycount (<[target_p2i := c']> (p2_lazycount (vc_state v))) (set_age ages v)).

Definition vcache_unmap_many (pages : list Z) : M VCache unit := for_ pages vcache_unmap.

(** [map_many]: [result] holds the pages mapped so far. *)
Fixpoint map_many_loop (frames : list Z) (result : list Z) : M VCache (option (list Z)) :=
  match frames with
  | [] => mret (Some result)
  | f :: rest =>
    r ← vcache_map f;
    match r with
    | Some page => map_many_loop rest (result ++ [page])
    | None => _ ← for_ result vcache_unmap; mret None
    end
  end.
Definition vcache_map_many (frames : list Z) : M VCache (option (list Z)) :=
  map_many_loop frames [].

(** The result is [None] for [Err(())]. *)
Definition vcache_remap (page physframe : Z) : M VCache (option unit) := λ v,
  e ← of_option Crate (virt_add START_ADDR VC_SIZE);
  if (page <? START_ADDR) || (e <=? page) then mret (None, v) else
  target_p2i ← vc_p2_index page;
  row ← of_option Bounds (vc_p1 v !! target_p2i);
  p1_entry ← of_option Bounds (row !! p1_index page);
  if negb (pte_is_unused p1_entry) && bool_decide (pte_frame p1_entry = Some physframe)
  then mret (Some tt, v)
  else
    e' ← of_option Crate (pte_set_frame physframe VC_FLAGS);
    mret (Some tt, set_p1 (<[target_p2i := <[p1_index page := e']> row]> (vc_p1 v)) v).

(** The frame the processor reaches through a page of the cache. *)
Definition vcache_frame (v : VCache) (page : Z) : option Z :=
  let k := Z.to_nat ((page - START_ADDR) / PAGE_SIZE) in
  row ← vc_p1 v !! (k / 512)%nat;
  e ← row !! (k mod 512)%nat;
  pte_frame e.

(** ** Abstract view *)

Definition present (e : Z) : bool := fl_contains (pte_flags e) PRESENT.

(** The page of a slot, as a number. *)
Definition page_of (t i : nat) : Z := START_ADDR + PAGE_SIZE * (Z.of_nat t * 512 + Z.of_nat i).

Definition slot (v : VCache) (t i : nat) (e a : Z) : Prop :=
  (∃ row, vc_p1 v !! t = Some row ∧ row !! i = Some e) ∧
  (∃ ages, p1_age (vc_state v) !! t = Some ages ∧ ages !! i = Some a).

(** A page that was handed out and not given back, with the frame it shows. *)
Definition shows (v : VCache) (page frame : Z) : Prop :=
  ∃ t i e, slot v t i e 0 ∧ page = page_of t i ∧ present e = true ∧ pte_frame e = Some frame.

Record table_inv (row ages : list Z) (fc lc : Z) : Prop := {
  ti_row : length row = 512%nat;
  ti_ages : length ages = 512%nat;
  ti_free : fc = countb (λ e, negb (present e)) row;
  ti_lazy : lc = countb (λ a, negb (a =? 0)) ages;
  ti_flags : Forall (λ e, kernel_flags (pte_flags e)) row;
  ti_frame : Forall (λ e, present e = true → ∃ f, pte_frame e = Some f) row;
  ti_present i a e : ages !! i = Some a → row !! i = Some e → a ≠ 0 → present e = true;
}.

(** Four tables, with their ages and counters. *)
Record vc_shape (v : VCache) : Prop := {
  vi_p1 : length (vc_p1 v) = 4%nat;
  vi_age : length (p1_age (vc_state v)) = 4%nat;
  vi_free : length (p2_freecount (vc_state v)) = 4%nat;
  vi_lazy : length (p2_lazycount (vc_state v)) = 4%nat;
}.

(** The counters count, and a lazy page is present. *)
Record vc_inv (v : VCache) : Prop := {
  vi_shape : vc_shape v;
  vi_table t row ages fc lc :
    vc_p1 v !! t = Some row → p1_age (vc_state v) !! t = Some ages →
    p2_freecount (vc_state v) !! t = Some fc → p2_lazycount (vc_state v) !! t = Some lc →
    table_inv row ages fc lc;
}.
End vcache.

#[global] Instance vcache_windows `{X86} : WindowCache VCache := {|
  wc_map := vcache_map;
  wc_map_many := vcache_map_many;
  wc_unmap_many := vcache_unmap_many;
  wc_remap := vcache_remap;
  wc_frame := vcache_frame;
|}.

(** A cache whose entries are all [e]. *)
Definition uniform_cache (e fc : Z) : VCache :=
  mkVCache (replicate 4 (replicate 512 e))
    (mkVCacheState (replicate 4 fc) (replicate 4 0) (replicate 4 (replicate 512 0))).

(** ** Lists of tables *)

(** Some entry is free, or the first table has a lazy page to collect. *)
Definition can_map (v : VCache) : Prop :=
  (∃ t c, p2_freecount (vc_state v) !! t = Some c ∧ c ≠ 0) ∨
  (∃ c, p2_lazycount (vc_state v) !! 0%nat = Some c ∧ c ≠ 0).

(** The part of [shows] that one table contributes, and the rest. *)
Definition table_shows `{X86} (t : nat) (row ages : list Z) (page frame : Z) : Prop :=
  ∃ i e, row !! i = Some e ∧ ages !! i = Some 0 ∧ page = page_of t i ∧
    present e = true ∧ pte_frame e = Some frame.
Definition other_shows `{X86} (v : VCache) (t : nat) (page frame : Z) : Prop :=
  ∃ t' i e, t' ≠ t ∧ slot v t' i e 0 ∧ page = page_of t' i ∧
    present e = true ∧ pte_frame e = Some frame.

(** A lazy entry turned into a free one. *)
Definition clear_present `{X86} (e : Z) : Z :=
  pte_set_flags e (fl_remove (pte_flags e) PRESENT).
Definition collected `{X86} (ages row : list Z) : list Z :=
  zip_with (λ a e, if a =? 0 then e else clear_present e) ages row.

(** The cache with table [t] and its counters replaced. *)
Definition put_table (v : VCache) (t : nat) (row ages : list Z) (fc lc : Z) : VCache :=
  mkVCache (<[t := row]> (vc_p1 v))
    (mkVCacheState (<[t := fc]> (p2_freecount (vc_state v)))
      (<[t := lc]> (p2_lazycount (vc_state v))) (<[t := ages]> (p1_age (vc_state v)))).

Definition has_table (v : VCache) (t : nat) (row ages : list Z) (fc lc : Z) : Prop :=
  vc_p1 v !! t = Some row ∧ p1_age (vc_state v) !! t = Some ages ∧
  p2_freecount (vc_state v) !! t = Some fc ∧ p2_lazycount (vc_state v) !! t = Some lc.

Section vcache_proofs.
Context {X : X86} {XO : X86Ok X}.

Lemma vc_shape_table v t :
  vc_shape v → (t < 4)%nat → ∃ row ages fc lc, has_table v t row ages fc lc.
Proof.
  intros [H1 H2 H3 H4] Ht.
  destruct (lookup_lt_is_Some_2 (vc_p1 v) t) as [row Hr]; [by rewrite H1|].
  destruct (lookup_lt_is_Some_2 (p1_age (vc_state v)) t) as [ages Ha]; [by rewrite H2|].
  destruct (lookup_lt_is_Some_2 (p2_freecount (vc_state v)) t) as [fc Hf]; [by rewrite H3|].
  destruct (lookup_lt_is_Some_2 (p2_lazycount (vc_state v)) t) as [lc Hl]; [by rewrite H4|].
  by exists row, ages, fc, lc.
Qed.

Lemma has_table_lt v t row ages fc lc :
  vc_shape v → has_table v t row ages fc lc → (t < 4)%nat.
Proof. intros Hv (Hr & _). rewrite <-(vi_p1 v Hv). by eapply lookup_lt_Some. Qed.

Lemma has_table_inv v t row ages fc lc :
  vc_inv v → has_table v t row ages fc lc → table_inv row ages fc lc.
Proof. intros Hv (Hr & Ha & Hf & Hl). by eapply vi_table. Qed.

Lemma put_table_shape v t row ages fc lc : vc_shape v → vc_shape (put_table v t row ages fc lc).
Proof. intros [H1 H2 H3 H4]. split; simpl; by rewrite length_insert. Qed.

Lemma put_table_inv v t row ages fc lc :
  vc_inv v → (t < 4)%nat → table_inv row ages fc lc → vc_inv (put_table v t row ages fc lc).
Proof.
  intros [Hs Hv] Ht Hti. split; [by apply put_table_shape|].
  intros t' row' ages' fc' lc'. simpl. destruct (decide (t' = t)) as [->|].
  - destruct Hs as [H1 H2 H3 H4]. rewrite !list_lookup_insert_eq by lia. naive_solver.
  - rewrite !list_lookup_insert_ne by done. by apply Hv.
Qed.

Lemma slot_put_table v t row ages fc lc t' i e a :
  vc_shape v → (t < 4)%nat →
  slot (put_table v t row ages fc lc) t' i e a ↔
    (t' = t ∧ row !! i = Some e ∧ ages !! i = Some a) ∨ (t' ≠ t ∧ slot v t' i e a).
Proof.
  intros [H1 H2 H3 H4] Ht. unfold slot. simpl. destruct (decide (t' = t)) as [->|].
  - rewrite !list_lookup_insert_eq by lia. naive_solver.
  - rewrite !list_lookup_insert_ne by done. naive_solver.
Qed.

Lemma slot_has_table v t row ages fc lc i e a :
  has_table v t row ages fc lc → slot v t i e a ↔ row !! i = Some e ∧ ages !! i = Some a.
Proof. intros (Hr & Ha & _). unfold slot. rewrite Hr, Ha. naive_solver. Qed.

Lemma put_put_table v t row ages fc lc row' ages' fc' lc' :
  put_table (put_table v t row ages fc lc) t row' ages' fc' lc' = put_table v t row' ages' fc' lc'.
Proof. unfold put_table. simpl. by rewrite !list_insert_insert_eq. Qed.

Lemma has_put_table v t row ages fc lc :
  vc_shape v → (t < 4)%nat → has_table (put_table v t row ages fc lc) t row ages fc lc.
Proof.
  intros [H1 H2 H3 H4] Ht. unfold has_table. simpl. by rewrite !list_lookup_insert_eq by lia.
Qed.

Lemma page_of_inj t i t' i' :
  (i < 512)%nat → (i' < 512)%nat → page_of t i = page_of t' i' → t = t' ∧ i = i'.
Proof. unfold page_of, PAGE_SIZE. lia. Qed.

(** ** Changes of one table *)

Lemma table_set_present row ages fc lc i e0 e f :
  table_inv row ages fc lc → row !! i = Some e0 → present e0 = false →
  kernel_flags (pte_flags e) → present e = true → pte_frame e = Some f →
  table_inv (<[i := e]> row) (<[i := 0]> ages) (fc - 1) lc ∧ ages !! i = Some 0.
Proof.
  intros [Hr Ha Hf Hl Hk Hfr Hp] Hi Hn Hke Hpe Hfe.
  destruct (lookup_lt_is_Some_2 ages i) as [a Hai].
  { rewrite Ha, <-Hr. by eapply lookup_lt_Some. }
  assert (a = 0) as ->.
  { destruct (decide (a = 0)); [done|]. exfalso. rewrite (Hp _ _ _ Hai Hi) in Hn; done. }
  split; [|done]. rewrite (list_insert_id ages) by done.
  split; rewrite ?length_insert; try done.
  - rewrite (countb_insert _ _ _ e0) by done. rewrite Hn, Hpe. simpl. lia.
  - by apply Forall_insert.
  - apply Forall_insert; eauto.
  - intros j b e' Hb He'. destruct (decide (j = i)) as [->|].
    + rewrite list_lookup_insert_eq in He' by (by eapply lookup_lt_Some). by simplify_eq.
    + rewrite list_lookup_insert_ne in He' by done. by eapply Hp.
Qed.

Lemma table_unmap row ages fc lc i e :
  table_inv row ages fc lc → ages !! i = Some 0 → row !! i = Some e → present e = true →
  table_inv row (<[i := 1]> ages) fc (lc + 1).
Proof.
  intros [Hr Ha Hf Hl Hk Hfr Hp] Hi He Hpe. split; rewrite ?length_insert; try done.
  - rewrite (countb_insert _ _ _ 0) by done. simpl. lia.
  - intros j b e' Hb He'. destruct (decide (j = i)) as [->|]; [by simplify_eq|].
    rewrite list_lookup_insert_ne in Hb by done. by eapply Hp.
Qed.

Lemma table_remap row ages fc lc i e0 e f :
  table_inv row ages fc lc → row !! i = Some e0 → present e0 = true →
  kernel_flags (pte_flags e) → present e = true → pte_frame e = Some f →
  table_inv (<[i := e]> row) ages fc lc.
Proof.
  intros [Hr Ha Hf Hl Hk Hfr Hp] Hi Hn Hke Hpe Hfe.
  split; rewrite ?length_insert; try done.
  - rewrite (countb_insert _ _ _ e0) by done. rewrite Hn, Hpe. simpl. lia.
  - by apply Forall_insert.
  - apply Forall_insert; eauto.
  - intros j b e' Hb He'. destruct (decide (j = i)) as [->|].
    + rewrite list_lookup_insert_eq in He' by (by eapply lookup_lt_Some). by simplify_eq.
    + rewrite list_lookup_insert_ne in He' by done. by eapply Hp.
Qed.

(** ** The collection of lazy pages *)

Lemma reclaim_run ages row p1i limit found x :
  length ages = length row → 0 ≤ found → limit < 2 ^ 16 →
  limit = found + countb (λ a, negb (a =? 0)) ages →
  ∃ y, reclaim ages row p1i limit found x =
      Ok ((λ _, 0) <$> ages, collected ages row, limit, y) ∧
    (countb (λ a, negb (a =? 0)) ages = 0 → y = x) ∧
    (countb (λ a, negb (a =? 0)) ages ≠ 0 →
      ∃ j a, y = Some (p1i + j)%nat ∧ ages !! j = Some a ∧ a ≠ 0).
Proof.
  revert row p1i found x. induction ages as [|a ages IH]; intros [|e row] p1i found x Hlen Hf Hlim E;
    simpl in *; try done.
  { exists x. rewrite E, Z.add_0_r. naive_solver. }
  injection Hlen as Hlen. pose proof (countb_bounds (λ a, negb (a =? 0)) ages).
  destruct (Z.leb_spec limit found).
  - assert (countb (λ a, negb (a =? 0)) (a :: ages) = 0) as Hz by (simpl; destruct (a =? 0); simpl in *; lia).
    exists x. simpl in Hz. split; [|naive_solver]. rewrite E, Hz, Z.add_0_r.
    pose proof (proj1 (countb_zero _ (a :: ages)) Hz) as Hall.
    unfold collected, mret, res_ret. f_equal. f_equal. f_equal. f_equal.
    + change (a :: ages = (λ _, 0) <$> (a :: ages)). apply list_eq. intros j.
      rewrite list_lookup_fmap. destruct ((a :: ages) !! j) as [b|] eqn:Hb; [|done].
      specialize (Hall _ _ Hb). simpl in *. f_equal. destruct (Z.eqb_spec b 0); done.
    + change (e :: row = collected (a :: ages) (e :: row)). apply list_eq. intros j.
      unfold collected. rewrite lookup_zip_with.
      destruct ((a :: ages) !! j) as [b|] eqn:Hb; simpl.
      * specialize (Hall _ _ Hb). simpl in Hall. destruct ((e :: row) !! j); simpl; [|done].
        by destruct (b =? 0).
      * apply lookup_ge_None in Hb. apply lookup_ge_None. simpl in *. lia.
  - destruct (Z.eqb_spec a 0) as [->|Ha]; simpl in *.
    + destruct (IH row (S p1i) found x Hlen Hf Hlim E) as (y & -> & Hy0 & Hy1). simpl.
      exists y. split; [done|]. split; [auto|]. intros Hc.
      destruct (Hy1 ltac:(lia)) as (j & b & -> & Hj & Hb). exists (S j), b.
      split_and!; [f_equal; lia|done|done].
    + rewrite chk_in by (unfold in_width; lia). simpl.
      destruct (IH row (S p1i) (found + 1) (Some p1i) Hlen) as (y & -> & Hy0 & Hy1); [lia..|].
      simpl. exists y. split; [|split; [lia|]].
      { unfold collected. simpl. by destruct (Z.eqb_spec a 0). }
      intros _. destruct (decide (countb (λ a, negb (a =? 0)) ages = 0)) as [Hz|Hz].
      * rewrite (Hy0 Hz). exists 0%nat, a. split_and!; [f_equal; lia|done|done].
      * destruct (Hy1 Hz) as (j & b & -> & Hj & Hb). exists (S j), b.
        split_and!; [f_equal; lia|done|done].
Qed.

Lemma clear_present_spec e :
  kernel_flags (pte_flags e) →
  present (clear_present e) = false ∧ kernel_flags (pte_flags (clear_present e)).
Proof.
  intros Hk. unfold present, clear_present.
  rewrite pte_set_flags_spec by auto with helium. auto with helium.
Qed.

Lemma collected_lookup ages row i a e :
  ages !! i = Some a → row !! i = Some e →
  collected ages row !! i = Some (if a =? 0 then e else clear_present e).
Proof. intros Ha He. unfold collected. by rewrite lookup_zip_with, Ha, He. Qed.

Lemma collected_count ages row :
  length ages = length row → countb (λ e, negb (present e)) row = 0 →
  Forall (λ e, kernel_flags (pte_flags e)) row →
  countb (λ e, negb (present e)) (collected ages row) = countb (λ a, negb (a =? 0)) ages.
Proof.
  revert row. induction ages as [|a ages IH]; intros [|e row] Hlen Hz Hk; simpl in *; try done.
  apply Forall_cons in Hk as [Hke Hk]. pose proof (countb_bounds (λ e, negb (present e)) row).
  rewrite IH by (done || lia || (destruct (present e); simpl in *; lia)).
  destruct (Z.eqb_spec a 0); simpl.
  - destruct (present e); simpl in *; lia.
  - by rewrite (proj1 (clear_present_spec e Hke)).
Qed.

Lemma table_collect row ages lc :
  table_inv row ages 0 lc →
  table_inv (collected ages row) ((λ _, 0) <$> ages) lc 0.
Proof.
  intros [Hr Ha Hf Hl Hk Hfr Hp].
  assert (∀ i e, collected ages row !! i = Some e → ∃ a e0, ages !! i = Some a ∧
    row !! i = Some e0 ∧ e = if a =? 0 then e0 else clear_present e0) as Hlk.
  { intros i e He. unfold collected in He. rewrite lookup_zip_with in He.
    destruct (ages !! i), (row !! i); simpl in He; simplify_eq; eauto. }
  split; rewrite ?length_fmap; try done.
  - unfold collected. rewrite length_zip_with. lia.
  - rewrite collected_count by (done || congruence). done.
  - symmetry. apply countb_zero. intros i x. rewrite list_lookup_fmap.
    destruct (ages !! i); simpl; [|done]. by intros [= <-].
  - apply Forall_lookup_2. intros i e (a & e0 & Hai & Hri & ->)%Hlk.
    assert (kernel_flags (pte_flags e0)) as Hk0 by (eapply (Forall_lookup_1 _ _ _ _ Hk); done).
    destruct (a =? 0); [done|]. by apply clear_present_spec.
  - apply Forall_lookup_2. intros i e (a & e0 & Hai & Hri & ->)%Hlk.
    assert (kernel_flags (pte_flags e0)) as Hk0 by (eapply (Forall_lookup_1 _ _ _ _ Hk); done).
    destruct (a =? 0); [by apply (Forall_lookup_1 _ _ _ _ Hfr Hri)|].
    by rewrite (proj1 (clear_present_spec e0 Hk0)).
  - intros i a e. rewrite list_lookup_fmap. destruct (ages !! i); simpl; naive_solver.
Qed.

(** ** The operations on a whole cache *)

Lemma scan_free_spec lazies frees i lazy :
  length lazies = length frees →
  (scan_free lazies frees i lazy).1 =
    match lazy with Some l => Some l | None => head lazies end ∧
  match (scan_free lazies frees i lazy).2 with
  | Some k => ∃ j c, k = (i + j)%nat ∧ frees !! j = Some c ∧ c ≠ 0
  | None => ∀ j c, frees !! j = Some c → c = 0
  end.
Proof.
  revert frees i lazy. induction lazies as [|lz lazies IH]; intros [|fr frees] i lazy Hlen;
    simpl in *; try done.
  { split; [by destruct lazy|done]. }
  injection Hlen as Hlen. destruct (Z.eqb_spec fr 0) as [->|Hfr]; simpl.
  - destruct (IH frees (S i) (match lazy with Some _ => lazy | None => Some lz end) Hlen)
      as [H1 H2]. split; [rewrite H1; by destruct lazy|].
    destruct (scan_free _ _ _ _).2 as [k|].
    + destruct H2 as (j & c & -> & Hj & Hc). exists (S j), c. split_and!; [lia|done|done].
    + intros [|j] c; simpl; [by intros [= <-]|apply H2].
  - split; [by destruct lazy|]. exists 0%nat, fr. split_and!; [lia|done|done].
Qed.

Lemma VC_FLAGS_ok : kernel_flags VC_FLAGS ∧ fl_contains VC_FLAGS PRESENT = true.
Proof.
  destruct kernel_flags_const as (_ & ? & ? & _ & ?). unfold VC_FLAGS. auto with helium.
Qed.

Lemma vc_entry f :
  good_frame f → ∃ e, pte_set_frame f VC_FLAGS = Some e ∧
    kernel_flags (pte_flags e) ∧ present e = true ∧ pte_frame e = Some f.
Proof.
  intros [Ha Hw]. destruct VC_FLAGS_ok as [Hk Hp].
  destruct (pte_set_frame_spec f VC_FLAGS Hw Ha Hk) as (e & He & Hfl & Hfr).
  exists e. unfold present. rewrite Hfl. auto.
Qed.

Lemma slot_page_run t i : (t < 4)%nat → (i < 512)%nat → slot_page t i = Ok (page_of t i).
Proof.
  intros Ht Hi. unfold slot_page, page_of, START_ADDR, KVMSPACE, PAGE_SIZE in *.
  assert (canonical (0xFFFF800000000000 + 4096 * (Z.of_nat t * 512 + Z.of_nat i)) = true) as Hc.
  { unfold canonical. apply orb_true_iff. right. apply andb_true_iff. lia. }
  rewrite virt_add_spec by (done || unfold in_width; lia). rewrite Hc. simpl.
  rewrite page_from_start_spec by done.
  replace (page_aligned _) with true; [done|]. symmetry. apply Z.eqb_eq. unfold PAGE_SIZE. zlia.
Qed.

Lemma write2_run l t (row : list Z) i x :
  l !! t = Some row → (i < length row)%nat → write2 l t i x = Ok (<[t := <[i := x]> row]> l).
Proof.
  intros Hl Hi. unfold write2. rewrite Hl. simpl. by rewrite (proj2 (Nat.ltb_lt _ _) Hi).
Qed.

(** The steps of [map] after the slot was chosen. *)
Lemma map_store v t i row ages fc lc f e :
  vc_shape v → has_table v t row ages fc lc → (i < 512)%nat → length row = 512%nat →
  pte_set_frame f VC_FLAGS = Some e →
  (v ← get;
   e ← lift (of_option Crate (pte_set_frame f VC_FLAGS));
   p1 ← lift (write2 (vc_p1 v) t i e);
   _ ← put (set_p1 p1 v);
   page ← lift (slot_page t i);
   mret (Some page)) v =
    Ok (Some (page_of t i), put_table v t (<[i := e]> row) ages fc lc).
Proof.
  intros Hv Ht Hi Hlen He. pose proof (has_table_lt _ _ _ _ _ _ Hv Ht) as Hlt.
  destruct Ht as (Hr & Ha & Hf & Hl).
  unfold mbind, M_bind, get, lift, put. rewrite He. simpl.
  rewrite (write2_run _ _ row) by (done || lia). rewrite slot_page_run by done. simpl.
  unfold mret, M_ret, put_table, set_p1. simpl.
  rewrite (list_insert_id (p2_freecount _)), (list_insert_id (p2_lazycount _)),
    (list_insert_id (p1_age _)) by done. by destruct (vc_state v).
Qed.

Lemma take_free_run v t row ages fc lc :
  has_table v t row ages fc lc → in_width 16 (fc - 1) →
  take_free t v = Ok (tt, put_table v t row ages (fc - 1) lc).
Proof.
  intros (Hr & Ha & Hf & Hl) Hw. unfold take_free. rewrite Hf. simpl.
  rewrite chk_in by done. simpl. unfold mret, res_ret, put_table, set_freecount.
  by rewrite (list_insert_id (vc_p1 v)), (list_insert_id (p2_lazycount _)),
    (list_insert_id (p1_age _)) by done.
Qed.

Lemma find_slot_run v t row ages fc lc :
  has_table v t row ages fc lc → length row = 512%nat → length ages = 512%nat →
  countb (λ e, negb (present e)) row ≠ 0 →
  ∃ i e0, row !! i = Some e0 ∧ present e0 = false ∧
    find_slot t v = Ok (i, put_table v t row (<[i := 0]> ages) fc lc).
Proof.
  intros (Hr & Ha & Hf & Hl) Hlr Hla Hc. unfold find_slot. rewrite Hr. simpl.
  destruct (list_find (λ e, fl_contains (pte_flags e) PRESENT = false) row) as [[i e0]|] eqn:E.
  - apply list_find_Some in E as (Hi & Hp & _). exists i, e0. split_and!; [done..|]. simpl.
    rewrite (write2_run _ _ ages) by (done || (apply lookup_lt_Some in Hi; lia)). simpl.
    unfold mret, res_ret, put_table, set_age.
    by rewrite (list_insert_id (vc_p1 v)), (list_insert_id (p2_lazycount _)),
      (list_insert_id (p2_freecount _)) by done.
  - exfalso. apply list_find_None in E. apply countb_pos in Hc as (i & x & Hx & Hp).
    rewrite Forall_lookup in E. apply (E _ _ Hx). unfold present in Hp.
    by destruct (fl_contains _ _).
Qed.

Lemma free_bounds row ages fc lc : table_inv row ages fc lc → 0 ≤ fc ≤ 512 ∧ 0 ≤ lc ≤ 512.
Proof.
  intros [Hr Ha -> -> _ _ _]. pose proof (countb_bounds (λ e, negb (present e)) row).
  pose proof (countb_bounds (λ a, negb (a =? 0)) ages). lia.
Qed.

(** [map] when some table has a free entry. *)
Lemma vcache_map_free v f t row ages fc lc :
  vc_inv v → good_frame f → has_table v t row ages fc lc → fc ≠ 0 →
  (scan_free (p2_lazycount (vc_state v)) (p2_freecount (vc_state v)) 0 None).2 = Some t →
  ∃ i e0 e, row !! i = Some e0 ∧ present e0 = false ∧ pte_set_frame f VC_FLAGS = Some e ∧
    vcache_map f v =
      Ok (Some (page_of t i), put_table v t (<[i := e]> row) (<[i := 0]> ages) (fc - 1) lc).
Proof.
  intros Hv Hf Ht Hfc Hscan. pose proof (vi_shape v Hv) as Hsh.
  pose proof (has_table_lt _ _ _ _ _ _ Hsh Ht) as Hlt.
  pose proof (has_table_inv _ _ _ _ _ _ Hv Ht) as Hti.
  pose proof (free_bounds _ _ _ _ Hti) as [Hb _]. destruct (vc_entry f Hf) as (e & He & _).
  assert (has_table (put_table v t row ages (fc - 1) lc) t row ages (fc - 1) lc) as Hv1
    by (by apply has_put_table).
  destruct (find_slot_run _ _ _ _ _ _ Hv1) as (i & e0 & Hi & Hp & Hfind);
    [apply Hti|apply Hti|by rewrite <-(ti_free _ _ _ _ Hti)|].
  exists i, e0, e. split_and!; [done..|].
  unfold vcache_map. rewrite (M_bind_run _ _ v v v eq_refl).
  destruct (scan_free _ _ _ _) as [lz p2]. simpl in Hscan. subst p2.
  rewrite (M_bind_run _ _ v (Some t, None) v) by done.
  rewrite (M_bind_run _ _ v t v) by done.
  rewrite (M_bind_run _ _ _ _ _ (take_free_run v t row ages fc lc Ht ltac:(unfold in_width; lia))).
  rewrite (M_bind_run _ _ _ _ _ Hfind). rewrite put_put_table.
  erewrite map_store.
  - by rewrite put_put_table.
  - by apply put_table_shape.
  - by apply has_put_table.
  - rewrite <-(ti_row _ _ _ _ Hti). by eapply lookup_lt_Some.
  - apply Hti.
  - done.
Qed.

(** What the first loop finds. *)
Lemma scan_cases v lc0 :
  vc_shape v → p2_lazycount (vc_state v) !! 0%nat = Some lc0 →
  let r := scan_free (p2_lazycount (vc_state v)) (p2_freecount (vc_state v)) 0 None in
  r.1 = Some lc0 ∧
  match r.2 with
  | Some t => ∃ fc, p2_freecount (vc_state v) !! t = Some fc ∧ fc ≠ 0
  | None => ∀ t fc, p2_freecount (vc_state v) !! t = Some fc → fc = 0
  end.
Proof.
  intros [_ _ H3 H4] Hl0.
  destruct (scan_free_spec (p2_lazycount (vc_state v)) (p2_freecount (vc_state v)) 0 None) as [Hs1 Hs2];
    [lia|]. rewrite head_lookup in Hs1. split; [by rewrite Hs1|].
  destruct (scan_free _ _ _ _).2; [|done]. destruct Hs2 as (j & c & -> & ? & ?). eauto.
Qed.

(** [map] when no entry is free and the first table has lazy pages. *)
Lemma vcache_map_lazy v f row ages lc :
  vc_inv v → good_frame f → has_table v 0 row ages 0 lc → lc ≠ 0 →
  (scan_free (p2_lazycount (vc_state v)) (p2_freecount (vc_state v)) 0 None).2 = None →
  ∃ i a e, ages !! i = Some a ∧ a ≠ 0 ∧ pte_set_frame f VC_FLAGS = Some e ∧
    vcache_map f v = Ok (Some (page_of 0 i),
      put_table v 0 (<[i := e]> (collected ages row)) ((λ _, 0) <$> ages) (lc - 1) 0).
Proof.
  intros Hv Hf Ht Hlc Hscan. pose proof (vi_shape v Hv) as Hsh.
  pose proof (has_table_inv _ _ _ _ _ _ Hv Ht) as Hti.
  pose proof (free_bounds _ _ _ _ Hti) as [_ Hb]. destruct (vc_entry f Hf) as (e & He & _).
  destruct (reclaim_run ages row 0 lc 0 None) as (y & Hrun & _ & Hy);
    [by rewrite (ti_row _ _ _ _ Hti), (ti_ages _ _ _ _ Hti)|lia|lia|apply Hti|].
  destruct Hy as (i & a & -> & Hi & Ha); [by rewrite <-(ti_lazy _ _ _ _ Hti)|].
  exists i, a, e. split_and!; [done..|].
  pose proof (table_collect _ _ _ Hti) as Hti'.
  set (v1 := put_table v 0 (collected ages row) ((λ _, 0) <$> ages) lc 0).
  assert (has_table v1 0 (collected ages row) ((λ _, 0) <$> ages) lc 0) as Hv1
    by (by apply has_put_table; [|lia]).
  assert (vc_shape v1) as Hsh1 by (by apply put_table_shape).
  assert (reclaim_table lc v = Ok ((Some 0%nat, Some i), v1)) as Hrec.
  { destruct Ht as (Hr & Hag & Hfc & Hl). unfold reclaim_table.
    destruct (p2_lazycount (vc_state v)) as [|c lazies] eqn:El; [done|]. simpl in Hl.
    simplify_eq. simpl. rewrite decide_True by done. rewrite Hag. simpl.
    rewrite Hr. simpl. rewrite Hrun. simpl. unfold v1, put_table. by rewrite El. }
  destruct (scan_cases v lc Hsh) as [Hs1 _]; [apply Ht|].
  unfold vcache_map. rewrite (M_bind_run _ _ v v v eq_refl).
  destruct (scan_free _ _ _ _) as [lz p2]. simpl in Hscan, Hs1. subst lz p2.
  rewrite (M_bind_run _ _ _ _ _ Hrec).
  rewrite (M_bind_run _ _ v1 0%nat v1) by done.
  rewrite (M_bind_run _ _ _ _ _ (take_free_run _ _ _ _ _ _ Hv1 ltac:(unfold in_width; lia))).
  rewrite (M_bind_run _ _ (put_table v1 0 (collected ages row) ((λ _, 0) <$> ages) (lc - 1) 0)
    i (put_table v1 0 (collected ages row) ((λ _, 0) <$> ages) (lc - 1) 0)) by done.
  erewrite map_store.
  - unfold v1. by rewrite !put_put_table.
  - by apply put_table_shape.
  - apply has_put_table; [done|lia].
  - rewrite <-(ti_ages _ _ _ _ Hti). by eapply lookup_lt_Some.
  - apply Hti'.
  - done.
Qed.

(** [map] when no entry is free and the first table has no lazy page. *)
Lemma vcache_map_exhausted_run v f :
  vc_inv v → p2_lazycount (vc_state v) !! 0%nat = Some 0 →
  (scan_free (p2_lazycount (vc_state v)) (p2_freecount (vc_state v)) 0 None).2 = None →
  vcache_map f v =
    Panic (if bool_decide (Forall (λ c, c = 0) (p2_lazycount (vc_state v)))
           then Unwrap else Overflow).
Proof.
  intros Hv Hl0 Hscan. pose proof (vi_shape v Hv) as Hsh.
  destruct (scan_cases v 0 Hsh Hl0) as [Hs1 _].
  unfold vcache_map. rewrite (M_bind_run _ _ v v v eq_refl).
  destruct (scan_free _ _ _ _) as [lz p2]. simpl in Hscan, Hs1. subst lz p2. simpl.
  destruct (list_find (λ c, c ≠ 0) (p2_lazycount (vc_state v))) as [[t c]|] eqn:E.
  - apply list_find_Some in E as Hc. destruct Hc as (Ht & Hc & _).
    rewrite bool_decide_eq_false_2.
    2: { intros Hall. rewrite Forall_lookup in Hall. by apply Hc, (Hall t). }
    assert (t < 4)%nat as Hlt by (rewrite <-(vi_lazy v Hsh); by eapply lookup_lt_Some).
    destruct (vc_shape_table v t Hsh Hlt) as (row & ages & fc & lc & Htab).
    pose proof (has_table_inv _ _ _ _ _ _ Hv Htab) as Hti.
    unfold mbind at 1, M_bind at 1, reclaim_table. rewrite E.
    destruct Htab as (Hr & Ha & Hf & Hl). rewrite Ha. simpl. rewrite Hr. simpl.
    destruct ages as [|a ages]; [pose proof (ti_ages _ _ _ _ Hti); simpl in *; lia|]. simpl.
    unfold mbind, M_bind, take_free. simpl.
    rewrite list_lookup_insert_eq by (by rewrite (vi_free v Hsh)). done.
  - rewrite bool_decide_eq_true_2; [|].
    + unfold mbind, M_bind, reclaim_table. by rewrite E.
    + apply list_find_None in E. eapply Forall_impl; [exact E|]. intros x Hx.
      by apply dec_stable in Hx.
Qed.

(** ** Effect on the pages handed out *)

Lemma shows_split v t row ages fc lc q g :
  has_table v t row ages fc lc →
  shows v q g ↔ table_shows t row ages q g ∨ other_shows v t q g.
Proof.
  intros Ht. unfold shows, table_shows, other_shows. split.
  - intros (t' & i & e & Hs & Hq & Hp & Hf). destruct (decide (t' = t)) as [->|].
    + left. rewrite (slot_has_table v t row ages fc lc) in Hs by done. naive_solver.
    + right. naive_solver.
  - intros [(i & e & Hr & Ha & ?)|(t' & i & e & _ & ?)]; [|by exists t', i, e].
    exists t, i, e. by rewrite (slot_has_table v t row ages fc lc) by done.
Qed.

Lemma shows_put_table v t row ages fc lc q g :
  vc_shape v → (t < 4)%nat →
  shows (put_table v t row ages fc lc) q g ↔ table_shows t row ages q g ∨ other_shows v t q g.
Proof.
  intros Hv Ht. rewrite (shows_split _ t row ages fc lc) by (by apply has_put_table).
  unfold other_shows. setoid_rewrite slot_put_table; [|done..]. naive_solver.
Qed.

Lemma slot_bound v t i e a : vc_inv v → slot v t i e a → (t < 4)%nat ∧ (i < 512)%nat.
Proof.
  intros Hv [(row & Hr & Hi) _]. pose proof (vi_shape v Hv) as Hsh.
  assert (t < 4)%nat as Ht by (rewrite <-(vi_p1 v Hsh); by eapply lookup_lt_Some).
  split; [done|]. destruct (vc_shape_table v t Hsh Ht) as (row' & ages & fc & lc & Htab).
  pose proof (has_table_inv _ _ _ _ _ _ Hv Htab) as Hti. destruct Htab as (Hr' & _).
  simplify_eq. rewrite <-(ti_row _ _ _ _ Hti). by eapply lookup_lt_Some.
Qed.

Lemma other_shows_ne v t i q g :
  vc_inv v → (i < 512)%nat → other_shows v t q g → q ≠ page_of t i.
Proof.
  intros Hv Hi (t' & j & e & Hne & Hs & -> & _) E.
  destruct (slot_bound _ _ _ _ _ Hv Hs) as [_ Hj]. apply page_of_inj in E; [|done..]. naive_solver.
Qed.

(** Two tables that agree outside entry [i] show the same pages outside it. *)
Lemma shows_update v t i row ages fc lc row' ages' fc' lc' q g :
  vc_inv v → has_table v t row ages fc lc → (i < 512)%nat →
  (∀ j, j ≠ i → table_shows t row' ages' (page_of t j) g → table_shows t row ages (page_of t j) g) →
  (∀ j, j ≠ i → table_shows t row ages (page_of t j) g → table_shows t row' ages' (page_of t j) g) →
  q ≠ page_of t i →
  shows (put_table v t row' ages' fc' lc') q g ↔ shows v q g.
Proof.
  intros Hv Ht Hi H1 H2 Hq. pose proof (vi_shape v Hv) as Hsh.
  rewrite shows_put_table by (done || by eapply has_table_lt).
  rewrite (shows_split v t) by done. split; (intros [Hs|]; [left|by right]);
    pose proof Hs as (j & e & _ & _ & -> & _); [apply H1|apply H2]; try done; congruence.
Qed.

Lemma table_shows_at t row ages j g :
  length row = 512%nat → (j < 512)%nat →
  table_shows t row ages (page_of t j) g ↔
    ∃ e, row !! j = Some e ∧ ages !! j = Some 0 ∧ present e = true ∧ pte_frame e = Some g.
Proof.
  intros Hl Hj. split; [|intros (e & ? & ? & ? & ?); by exists j, e].
  intros (i & e & Hr & Ha & E & Hp & Hf). assert (i < 512)%nat.
  { rewrite <-Hl. by eapply lookup_lt_Some. }
  apply page_of_inj in E as [_ ->]; [|done..]. eauto.
Qed.

Lemma page_of_ne t j k i : j ≠ i → page_of t j = page_of t k → k ≠ i.
Proof. unfold page_of, PAGE_SIZE. lia. Qed.

(** Storing a frame in entry [i], which showed nothing. *)
Lemma put_table_abs v t i row ages fc lc row1 ages1 fc' lc' e f :
  vc_inv v → has_table v t row ages fc lc → (i < 512)%nat →
  table_inv (<[i := e]> row1) ages1 fc' lc' → ages1 !! i = Some 0 →
  present e = true → pte_frame e = Some f →
  (∀ g, ¬ table_shows t row ages (page_of t i) g) →
  (∀ j g x, j ≠ i → present x = true → pte_frame x = Some g →
    row1 !! j = Some x ∧ ages1 !! j = Some 0 ↔ row !! j = Some x ∧ ages !! j = Some 0) →
  let v' := put_table v t (<[i := e]> row1) ages1 fc' lc' in
  vc_inv v' ∧ (∀ g, ¬ shows v (page_of t i) g) ∧ shows v' (page_of t i) f ∧
  (∀ q g, q ≠ page_of t i → shows v' q g ↔ shows v q g).
Proof.
  intros Hv Ht Hi Hti Ha Hp Hf Hnot Hsame v'. pose proof (vi_shape v Hv) as Hsh.
  pose proof (has_table_lt _ _ _ _ _ _ Hsh Ht) as Hlt.
  assert (length row1 = 512%nat) as Hl1 by (rewrite <-(ti_row _ _ _ _ Hti); by rewrite length_insert).
  split_and!.
  - by apply put_table_inv.
  - intros g. rewrite (shows_split v t) by done. intros [Hs|Hs]; [by eapply Hnot|].
    by eapply other_shows_ne in Hs.
  - apply shows_put_table; [done..|]. left. apply table_shows_at; [apply Hti|done|].
    exists e. rewrite list_lookup_insert_eq by (by rewrite Hl1). done.
  - intros q g Hq. eapply (shows_update v t i); try done;
      intros j Hj (k & x & Hx & Hk & E & Hpx & Hgx); exists k, x;
      pose proof (page_of_ne _ _ _ _ Hj E) as Hne.
    + rewrite list_lookup_insert_ne in Hx by done.
      destruct (proj1 (Hsame k g x Hne Hpx Hgx)); done.
    + rewrite list_lookup_insert_ne by done.
      destruct (proj2 (Hsame k g x Hne Hpx Hgx)); done.
Qed.

Lemma vcache_map_free_abs v f t fc :
  vc_inv v → good_frame f → p2_freecount (vc_state v) !! t = Some fc → fc ≠ 0 →
  (scan_free (p2_lazycount (vc_state v)) (p2_freecount (vc_state v)) 0 None).2 = Some t →
  ∃ page v', vcache_map f v = Ok (Some page, v') ∧ vc_inv v' ∧
    (∀ g, ¬ shows v page g) ∧ shows v' page f ∧
    (∀ q g, q ≠ page → shows v' q g ↔ shows v q g).
Proof.
  intros Hv Hf Hfc Hne Escan. pose proof (vi_shape v Hv) as Hsh.
  assert (t < 4)%nat as Hlt by (rewrite <-(vi_free v Hsh); by eapply lookup_lt_Some).
  destruct (vc_shape_table v t Hsh Hlt) as (row & ages & fc' & lc & Ht).
  assert (fc' = fc) as -> by (destruct Ht as (_ & _ & ? & _); congruence).
  pose proof (has_table_inv _ _ _ _ _ _ Hv Ht) as Hti.
  destruct (vc_entry f Hf) as (e & He & Hk & Hp & Hfr).
  destruct (vcache_map_free v f t row ages fc lc Hv Hf Ht Hne Escan)
    as (i & e0 & e' & Hi & Hn & He' & Hrun). assert (e' = e) as -> by congruence.
  destruct (table_set_present row ages fc lc i e0 e f Hti Hi Hn Hk Hp Hfr) as [Hti' Hai].
  assert (i < 512)%nat as Hib by (rewrite <-(ti_row _ _ _ _ Hti); by eapply lookup_lt_Some).
  do 2 eexists. split; [exact Hrun|]. eapply put_table_abs; try done.
  - apply list_lookup_insert_eq. by rewrite (ti_ages _ _ _ _ Hti).
  - intros g (x & ? & _ & ? & _)%table_shows_at; [congruence|apply Hti|done].
  - intros j g x Hj _ _. by rewrite list_lookup_insert_ne.
Qed.

Lemma vcache_map_lazy_abs v f lc :
  vc_inv v → good_frame f → p2_lazycount (vc_state v) !! 0%nat = Some lc → lc ≠ 0 →
  (scan_free (p2_lazycount (vc_state v)) (p2_freecount (vc_state v)) 0 None).2 = None →
  ∃ page v', vcache_map f v = Ok (Some page, v') ∧ vc_inv v' ∧
    (∀ g, ¬ shows v page g) ∧ shows v' page f ∧
    (∀ q g, q ≠ page → shows v' q g ↔ shows v q g).
Proof.
  intros Hv Hf Hlc Hne Escan. pose proof (vi_shape v Hv) as Hsh.
  destruct (vc_shape_table v 0 Hsh ltac:(lia)) as (row & ages & fc & lc' & Ht).
  assert (lc' = lc) as -> by (destruct Ht as (_ & _ & _ & ?); congruence).
  destruct (scan_cases v lc Hsh Hlc) as [_ Hs]. rewrite Escan in Hs.
  assert (fc = 0) as -> by (apply (Hs 0%nat); apply Ht).
  pose proof (has_table_inv _ _ _ _ _ _ Hv Ht) as Hti. pose proof (table_collect _ _ _ Hti) as Hti1.
  destruct (vc_entry f Hf) as (e & He & Hk & Hp & Hfr).
  destruct (vcache_map_lazy v f row ages lc Hv Hf Ht Hne Escan) as (i & a & e' & Hi & Ha & He' & Hrun).
  assert (e' = e) as -> by congruence.
  assert (i < 512)%nat as Hib by (rewrite <-(ti_ages _ _ _ _ Hti); by eapply lookup_lt_Some).
  destruct (lookup_lt_is_Some_2 row i) as [e0 He0]; [by rewrite (ti_row _ _ _ _ Hti)|].
  assert (∀ j x, row !! j = Some x → kernel_flags (pte_flags x)) as Hkf.
  { intros j x Hx. by apply (Forall_lookup_1 _ _ _ _ (ti_flags _ _ _ _ Hti) Hx). }
  pose proof (collected_lookup _ _ _ _ _ Hi He0) as Hcol.
  destruct (Z.eqb_spec a 0) as [|_]; [done|].
  destruct (table_set_present _ _ _ _ i _ e f Hti1 Hcol) as [Hti' Hai]; try done;
    [by eapply clear_present_spec, Hkf|].
  rewrite (list_insert_id _ i 0) in Hti' by done.
  do 2 eexists. split; [exact Hrun|]. eapply put_table_abs; try done.
  - intros g (x & ? & ? & _)%table_shows_at; [congruence|apply Hti|done].
  - intros j g x Hj Hpx _. unfold collected. rewrite lookup_zip_with, list_lookup_fmap.
    destruct (ages !! j) as [b|]; simpl; [|naive_solver].
    destruct (row !! j) as [y|] eqn:Ey; simpl; [|naive_solver].
    destruct (Z.eqb_spec b 0) as [->|Hb]; [naive_solver|].
    split; [|naive_solver]. intros [[= <-] _].
    rewrite (proj1 (clear_present_spec y (Hkf _ _ Ey))) in Hpx. done.
Qed.

Lemma vcache_map_abs v f :
  vc_inv v → good_frame f → can_map v →
  ∃ page v', vcache_map f v = Ok (Some page, v') ∧ vc_inv v' ∧
    (∀ g, ¬ shows v page g) ∧ shows v' page f ∧
    (∀ q g, q ≠ page → shows v' q g ↔ shows v q g).
Proof.
  intros Hv Hf Hcan. pose proof (vi_shape v Hv) as Hsh.
  destruct (vc_shape_table v 0 Hsh ltac:(lia)) as (row0 & ages0 & fc0 & lc0 & H0).
  destruct (scan_cases v lc0 Hsh) as [_ Hs]; [apply H0|]. simpl in Hs.
  destruct (scan_free _ _ _ _).2 as [t|] eqn:Escan.
  - destruct Hs as (fc & Hfc & Hne). by eapply vcache_map_free_abs.
  - eapply (vcache_map_lazy_abs v f lc0); try done; [apply H0|].
    destruct Hcan as [(t & c & Hc & Hne)|(c & Hc & Hne)]; [by apply Hs in Hc|].
    destruct H0 as (_ & _ & _ & ?). congruence.
Qed.

Lemma vc_index_page t i :
  (t < 4)%nat → (i < 512)%nat →
  vc_p2_index (page_of t i) = Ok t ∧ p1_index (page_of t i) = i.
Proof.
  intros Ht Hi. unfold vc_p2_index, sub64. rewrite !p2_index_spec, p1_index_spec.
  unfold page_of, START_ADDR, KVMSPACE, PAGE_SIZE. split.
  - rewrite chk_in by (unfold in_width; zlia). simpl. unfold mret, res_ret. f_equal. zlia.
  - zlia.
Qed.

(** The table behind a page that is handed out. *)
Lemma shows_table v page f :
  vc_inv v → shows v page f →
  ∃ t i row ages fc lc e, has_table v t row ages fc lc ∧ table_inv row ages fc lc ∧
    (t < 4)%nat ∧ (i < 512)%nat ∧ page = page_of t i ∧ row !! i = Some e ∧
    ages !! i = Some 0 ∧ present e = true ∧ pte_frame e = Some f.
Proof.
  intros Hv (t & i & e & Hs & -> & Hp & Hf).
  destruct (slot_bound _ _ _ _ _ Hv Hs) as [Ht Hi].
  destruct (vc_shape_table v t (vi_shape v Hv) Ht) as (row & ages & fc & lc & Htab).
  pose proof (has_table_inv _ _ _ _ _ _ Hv Htab).
  rewrite (slot_has_table v t row ages fc lc) in Hs by done.
  exists t, i, row, ages, fc, lc, e. naive_solver.
Qed.

Lemma shows_functional v page f g : vc_inv v → shows v page f → shows v page g → f = g.
Proof.
  intros Hv Hf Hg. destruct (shows_table v page f Hv Hf)
    as (t & i & row & ages & fc & lc & e & Htab & Hti & Ht & Hi & -> & Hr & Ha & Hp & Hfr).
  apply (shows_split v t row ages fc lc) in Hg as [Hg|Hg]; [| |done].
  - apply table_shows_at in Hg as (x & ? & _ & _ & ?); [congruence|apply Hti|done].
  - by eapply other_shows_ne in Hg.
Qed.

Lemma vcache_unmap_abs v page f :
  vc_inv v → shows v page f →
  ∃ v', vcache_unmap page v = Ok (tt, v') ∧ vc_inv v' ∧ (∀ g, ¬ shows v' page g) ∧
    (∀ q g, q ≠ page → shows v' q g ↔ shows v q g).
Proof.
  intros Hv Hs. pose proof (vi_shape v Hv) as Hsh. destruct (shows_table v page f Hv Hs)
    as (t & i & row & ages & fc & lc & e & Htab & Hti & Ht & Hi & -> & Hr & Ha & Hp & Hfr).
  destruct (vc_index_page t i Ht Hi) as [Hidx Hidx1].
  pose proof (table_unmap _ _ _ _ _ _ Hti Ha Hr Hp) as Hti'.
  pose proof (free_bounds _ _ _ _ Hti') as [_ Hb].
  exists (put_table v t row (<[i := 1]> ages) fc (lc + 1)). split_and!.
  - destruct Htab as (Hr' & Ha' & Hf' & Hl'). unfold vcache_unmap. rewrite Hidx. simpl.
    rewrite Hidx1. rewrite (write2_run _ _ ages) by (done || (rewrite (ti_ages _ _ _ _ Hti); done)).
    simpl. rewrite Hl'. simpl. rewrite chk_in by (unfold in_width; lia). simpl.
    unfold mret, res_ret, put_table, set_lazycount, set_age. simpl.
    by rewrite (list_insert_id (vc_p1 v)), (list_insert_id (p2_freecount _)) by done.
  - by apply put_table_inv.
  - intros g. rewrite shows_put_table by done. intros [Hg|Hg]; [|by eapply other_shows_ne in Hg].
    apply table_shows_at in Hg as (x & _ & Hx & _); [|apply Hti|done].
    rewrite list_lookup_insert_eq in Hx by (rewrite (ti_ages _ _ _ _ Hti); done). done.
  - intros q g Hq. eapply (shows_update v t i); try done;
      intros j Hj (k & x & Hx & Hk & E & ?); exists k, x;
      pose proof (page_of_ne _ _ _ _ Hj E) as Hne; rewrite list_lookup_insert_ne in *; done.
Qed.

Lemma vcache_remap_abs v page f0 f :
  vc_inv v → shows v page f0 → good_frame f →
  ∃ v', vcache_remap page f v = Ok (Some tt, v') ∧ vc_inv v' ∧ shows v' page f ∧
    (∀ q g, q ≠ page → shows v' q g ↔ shows v q g).
Proof.
  intros Hv Hs Hf. pose proof (vi_shape v Hv) as Hsh. destruct (shows_table v page f0 Hv Hs)
    as (t & i & row & ages & fc & lc & e0 & Htab & Hti & Ht & Hi & -> & Hr & Ha & Hp & Hfr).
  destruct (vc_index_page t i Ht Hi) as [Hidx Hidx1].
  unfold vcache_remap. rewrite virt_add_spec by (done || unfold in_width, VC_SIZE, P1PAGE_COUNT, PAGE_SIZE; lia).
  change (canonical (START_ADDR + VC_SIZE)) with true. simpl.
  replace ((page_of t i <? START_ADDR) || (START_ADDR + VC_SIZE <=? page_of t i)) with false.
  2: { unfold page_of, VC_SIZE, P1PAGE_COUNT, PAGE_SIZE. symmetry. apply orb_false_iff. lia. }
  rewrite Hidx. simpl. destruct Htab as (Hr' & Ha' & Hf' & Hl'). rewrite Hr'. simpl.
  rewrite Hidx1, Hr. simpl. destruct (negb _ && _) eqn:E.
  - apply andb_true_iff in E as [_ E%bool_decide_eq_true_1].
    exists v. split_and!; [done..| |done]. assert (f0 = f) as <- by congruence. done.
  - destruct (vc_entry f Hf) as (e & -> & Hk & Hpe & Hfe). simpl.
    pose proof (table_remap _ _ _ _ _ _ e f Hti Hr Hp Hk Hpe Hfe) as Hti'.
    exists (put_table v t (<[i := e]> row) ages fc lc). split_and!.
    + unfold mret, res_ret, put_table, set_p1. rewrite (list_insert_id (p1_age _)),
        (list_insert_id (p2_freecount _)), (list_insert_id (p2_lazycount _)) by done.
      by destruct (vc_state v).
    + by apply put_table_inv.
    + apply shows_put_table; [done..|]. left. apply table_shows_at; [apply Hti'|done|].
      exists e. rewrite list_lookup_insert_eq by (rewrite (ti_row _ _ _ _ Hti); done). done.
    + intros q g Hq. eapply (shows_update v t i); try done;
        intros j Hj (k & x & Hx & Hk' & E' & ?); exists k, x;
        pose proof (page_of_ne _ _ _ _ Hj E') as Hne; rewrite list_lookup_insert_ne in *; done.
Qed.

Lemma shows_frame v page f : vc_inv v → shows v page f → vcache_frame v page = Some f.
Proof.
  intros Hv Hs. destruct (shows_table v page f Hv Hs)
    as (t & i & row & ages & fc & lc & e & Htab & Hti & Ht & Hi & -> & Hr & Ha & Hp & Hfr).
  unfold vcache_frame. replace (Z.to_nat ((page_of t i - START_ADDR) / PAGE_SIZE))
    with (t * 512 + i)%nat by (unfold page_of, PAGE_SIZE; zlia).
  rewrite Nat.div_add_l, (Nat.div_small i), Nat.add_0_r by lia.
  rewrite Nat.add_comm, Nat.Div0.mod_add, Nat.mod_small by lia.
  destruct Htab as (Hr' & _). rewrite Hr'. simpl. rewrite Hr. done.
Qed.

(** With fewer than 512 pages handed out there is a page to hand out. *)
Lemma has_room_can_map v : vc_inv v → has_room (shows v) 1 → can_map v.
Proof.
  intros Hv Hroom. destruct (vc_shape_table v 0 (vi_shape v Hv) ltac:(lia))
    as (row & ages & fc & lc & Ht).
  pose proof (has_table_inv _ _ _ _ _ _ Hv Ht) as Hti. pose proof Ht as (Hr & Ha & Hf & Hl).
  destruct (decide (fc = 0)) as [->|]; [|left; eauto].
  destruct (decide (lc = 0)) as [->|]; [exfalso|right; eauto].
  assert (length (page_of 0 <$> seq 0 512) + 1 ≤ 512)%nat as Hlen; [|rewrite length_fmap, length_seq in Hlen; lia].
  apply Hroom.
  - apply NoDup_fmap_2_strong; [|apply NoDup_seq]. intros x y Hx%elem_of_seq Hy%elem_of_seq E.
    apply page_of_inj in E; [naive_solver|lia..].
  - apply Forall_fmap, Forall_forall. intros i Hi%elem_of_seq. simpl.
    destruct (lookup_lt_is_Some_2 row i) as [e He]; [rewrite (ti_row _ _ _ _ Hti); lia|].
    destruct (lookup_lt_is_Some_2 ages i) as [a Hai]; [rewrite (ti_ages _ _ _ _ Hti); lia|].
    pose proof (proj1 (countb_zero _ _) (eq_sym (ti_free _ _ _ _ Hti)) i e He) as Hp.
    pose proof (proj1 (countb_zero _ _) (eq_sym (ti_lazy _ _ _ _ Hti)) i a Hai) as Hz.
    apply negb_false_iff in Hp, Hz. apply Z.eqb_eq in Hz as ->.
    destruct (Forall_lookup_1 _ _ _ _ (ti_frame _ _ _ _ Hti) He Hp) as [f Hfr].
    exists f, 0%nat, i, e. by rewrite (slot_has_table v 0 row ages 0 0).
Qed.

Lemma map_many_loop_abs fs v res :
  vc_inv v → Forall good_frame fs → has_room (shows v) (length fs) →
  ∃ ps v', map_many_loop fs res v = Ok (Some (res ++ ps), v') ∧ vc_inv v' ∧ NoDup ps ∧
    Forall (λ p, ∀ g, ¬ shows v p g) ps ∧ Forall2 (shows v') ps fs ∧
    same_windows (shows v) (shows v') ps.
Proof.
  revert v res. induction fs as [|f fs IH]; intros v res Hv Hfs Hroom.
  - exists [], v. rewrite app_nil_r. split_and!; try done; constructor.
  - apply Forall_cons in Hfs as [Hf Hfs]. simpl in Hroom.
    destruct (vcache_map_abs v f Hv Hf) as (p & v1 & Hrun & Hv1 & Hnew & Hsh & Hsame).
    { apply has_room_can_map; [done|]. eapply has_room_le; [|exact Hroom]. lia. }
    assert (same_windows (shows v) (shows v1) [p]) as Hsw by (intros q g Hq; apply Hsame; set_solver).
    destruct (IH v1 (res ++ [p]) Hv1 Hfs (has_room_take _ _ _ _ Hsw Hroom))
      as (ps & v' & Hrun' & Hv' & Hnd & Hnew' & Hsh' & Hsame').
    assert (p ∉ ps) as Hp.
    { intros Hin. rewrite Forall_forall in Hnew'. by eapply (Hnew' p Hin f). }
    exists (p :: ps), v'. split_and!; [|done|by constructor|..].
    + simpl. rewrite (M_bind_run _ _ _ _ _ Hrun), Hrun'. by rewrite <-app_assoc.
    + constructor; [done|]. rewrite Forall_forall in Hnew' |- *. intros q Hq g Hg.
      apply (Hnew' q Hq g). apply Hsame; [congruence|done].
    + constructor; [|done]. by apply Hsame'.
    + by apply (same_windows_trans _ _ _ [p] ps Hsw).
Qed.

Lemma vcache_unmap_many_abs ps v :
  vc_inv v → NoDup ps → Forall (λ p, ∃ f, shows v p f) ps →
  ∃ v', vcache_unmap_many ps v = Ok (tt, v') ∧ vc_inv v' ∧
    Forall (λ p, ∀ g, ¬ shows v' p g) ps ∧ same_windows (shows v) (shows v') ps.
Proof.
  revert v. induction ps as [|p ps IH]; intros v Hv Hnd Hps; [by exists v|].
  apply NoDup_cons in Hnd as [Hp Hnd]. apply Forall_cons in Hps as [[f Hf] Hps].
  destruct (vcache_unmap_abs v p f Hv Hf) as (v1 & Hrun & Hv1 & Hno & Hsame).
  destruct (IH v1 Hv1 Hnd) as (v' & Hrun' & Hv' & Hno' & Hsame').
  { rewrite Forall_forall in Hps |- *. intros q Hq. destruct (Hps q Hq) as [g Hg].
    exists g. apply Hsame; [congruence|done]. }
  exists v'. split_and!; [|done|..].
  - unfold vcache_unmap_many. rewrite for_cons, (M_bind_run _ _ _ _ _ Hrun). done.
  - constructor; [|done]. intros g Hg. apply (Hno g). by apply Hsame'.
  - apply (same_windows_trans _ (shows v1) _ [p] ps); [|done].
    intros q g Hq. apply Hsame. set_solver.
Qed.

(** The cache implements the interface the mapper is verified against. *)
#[global] Program Instance vcache_windows_ok : WindowCacheOk VCache := {|
  wc_inv := vc_inv;
  wc_shows := shows;
|}.
Next Obligation. apply shows_functional. Qed.
Next Obligation. apply shows_frame. Qed.
Next Obligation.
  intros v f Hv Hf Hroom. destruct (vcache_map_abs v f Hv Hf) as (p & v' & ? & ? & ? & ? & Hsame);
    [by apply has_room_can_map|].
  exists p, v'. split_and!; try done. intros q g Hq. apply Hsame. set_solver.
Qed.
Next Obligation. intros v fs Hv Hfs Hroom. by apply (map_many_loop_abs fs v []). Qed.
Next Obligation. intros v ps ???. by apply vcache_unmap_many_abs. Qed.
Next Obligation.
  intros v p f0 f Hv Hs Hf. destruct (vcache_remap_abs v p f0 f Hv Hs Hf) as (v' & ? & ? & ? & Hsame).
  exists v'. split_and!; try done. intros q g Hq. apply Hsame. set_solver.
Qed.

(** ** Uniform caches *)

Lemma unused_not_present : present pte_new = false.
Proof.
  unfold present. rewrite pte_new_spec, pte_flags_unused, contains_present. apply Z.bits_0.
Qed.

Lemma countb_replicate {A} (p : A → bool) n x :
  countb p (replicate n x) = if p x then Z.of_nat n else 0.
Proof. induction n as [|n IH]; simpl; [by destruct (p x)|]. rewrite IH. destruct (p x); lia. Qed.

Lemma uniform_cache_inv e :
  kernel_flags (pte_flags e) → (present e = true → ∃ f, pte_frame e = Some f) →
  vc_inv (uniform_cache e (if present e then 0 else 512)).
Proof.
  intros Hk Hf. split; [by split|]. intros t row ages fc lc.
  cbn [uniform_cache vc_p1 vc_state p1_age p2_freecount p2_lazycount].
  intros [-> _]%lookup_replicate [-> _]%lookup_replicate [-> _]%lookup_replicate
    [-> _]%lookup_replicate.
  split; rewrite ?length_replicate, ?countb_replicate; try done.
  - by destruct (present e).
  - by apply Forall_replicate.
  - by apply Forall_replicate.
  - intros i a x [-> _]%lookup_replicate. done.
Qed.

Lemma fresh_cache_inv : vc_inv (uniform_cache pte_new 512).
Proof.
  pose proof (uniform_cache_inv pte_new) as H. rewrite unused_not_present in H.
  apply H; [|done]. rewrite pte_new_spec, pte_flags_unused. apply kernel_flags_const.
Qed.
End vcache_proofs.

(** ** What the cache promises *)

Section vcache_claims.
Context {X : X86} {XO : X86Ok X}.


(** C28. [map] never returns its documented error: when no entry is free and the
    first table has no lazily released page it panics, by unwrapping the
    missing table index when no table has a lazy page, and by an arithmetic
    underflow of the free counter when another table has some (the number of
    pages to collect is taken from table 0 whatever table is collected). *)
Theorem vcache_map_exhausted v f :
  vc_inv v → good_frame f →
  (∀ v', vcache_map f v ≠ Ok (None, v')) ∧
  (¬ can_map v → vcache_map f v =
    Panic (if bool_decide (Forall (λ c, c = 0) (p2_lazycount (vc_state v)))
           then Unwrap else Overflow)).
Proof.
  intros Hv Hf. destruct (vc_shape_table v 0 (vi_shape v Hv) ltac:(lia))
    as (row & ages & fc & lc & (_ & _ & _ & Hl)).
  destruct (scan_cases v lc (vi_shape v Hv) Hl) as [_ Hs].
  assert (can_map v ∨ lc = 0 ∧
    (scan_free (p2_lazycount (vc_state v)) (p2_freecount (vc_state v)) 0 None).2 = None)
    as [Hc|[-> Hn]].
  { destruct (decide (lc = 0)) as [->|]; [|left; right; eauto].
    destruct (scan_free _ _ _ _).2 as [t|] eqn:E; [|by right].
    destruct Hs as (c & ? & ?). left. left. eauto. }
  - destruct (vcache_map_abs v f Hv Hf Hc) as (p & v1 & -> & _). by split.
  - pose proof (vcache_map_exhausted_run v f Hv Hl Hn) as ->. by split.
Qed.

(** [unmap] of a page that is handed out succeeds without reaching its
    overflow checks, the page shows nothing afterwards, and no other page of
    the cache changes. *)
Theorem vcache_unmap_correct v page f :
  vc_inv v → shows v page f →
  ∃ v', vcache_unmap page v = Ok (tt, v') ∧ vc_inv v' ∧ (∀ g, ¬ shows v' page g) ∧
    (∀ q g, q ≠ page → shows v' q g ↔ shows v q g).
Proof. apply vcache_unmap_abs. Qed.

(** [remap] points a page that is handed out at another frame and changes
    no other page; for a page outside the cache it returns its error and
    leaves the cache as it is. *)
Theorem vcache_remap_correct v page f :
  vc_inv v → good_frame f →
  (∀ f0, shows v page f0 → ∃ v', vcache_remap page f v = Ok (Some tt, v') ∧ vc_inv v' ∧
    shows v' page f ∧ (∀ q g, q ≠ page → shows v' q g ↔ shows v q g)) ∧
  (page < START_ADDR ∨ START_ADDR + VC_SIZE ≤ page → vcache_remap page f v = Ok (None, v)).
Proof.
  intros Hv Hf. split; [intros f0 Hs; by eapply vcache_remap_abs|]. intros Hout.
  unfold vcache_remap. rewrite virt_add_spec
    by (done || unfold in_width, VC_SIZE, P1PAGE_COUNT, PAGE_SIZE; lia).
  change (canonical (START_ADDR + VC_SIZE)) with true. simpl.
  destruct (Z.ltb_spec page START_ADDR), (Z.leb_spec (START_ADDR + VC_SIZE) page); done || lia.
Qed.

(** [map_many] of frames for which the cache has room returns as many
    different pages, none of them handed out before, each showing its frame. *)
Theorem vcache_map_many_correct v fs :
  vc_inv v → Forall good_frame fs → has_room (shows v) (length fs) →
  ∃ ps v', vcache_map_many fs v = Ok (Some ps, v') ∧ vc_inv v' ∧ NoDup ps ∧
    Forall (λ p, ∀ g, ¬ shows v p g) ps ∧ Forall2 (shows v') ps fs ∧
    same_windows (shows v) (shows v') ps.
Proof. intros Hv Hfs Hroom. by apply (map_many_loop_abs fs v []). Qed.
End vcache_claims.

(** ** Witnesses *)

Lemma good_frame_0x5000 : good_frame 0x5000.
Proof. split; [done|]. unfold in_width. lia. Qed.

(** An empty cache, and one whose entries are all taken. *)
Definition demo_cache : VCache := uniform_cache 0 512.
Definition full_cache : VCache := uniform_cache (0x5000 + 0x103) 0.
(** [demo_cache] after one [map] of the frame [0x5000]. *)
Definition demo_cache1 : VCache :=
  match vcache_map 0x5000 demo_cache with Ok (_, v) => v | Panic _ => demo_cache end.

Lemma demo_cache_inv : vc_inv demo_cache.
Proof. exact (@fresh_cache_inv x86_ref x86_ref_ok). Qed.

Lemma full_cache_inv : vc_inv full_cache.
Proof.
  pose proof (uniform_cache_inv (0x5000 + 0x103)) as H.
  replace (present (0x5000 + 0x103)) with true in H by (vm_compute; reflexivity).
  apply H; [by vm_compute|]. intros _. exists 0x5000. by vm_compute.
Qed.

(** No page of the empty cache is handed out. *)
Lemma demo_cache_room n : (n ≤ 512)%nat → has_room (shows demo_cache) n.
Proof.
  intros Hn [|p ps] _ Hps; [simpl; lia|exfalso].
  apply Forall_cons in Hps as [(f & t & i & e & [(row & Hr & He) _] & _ & Hp & _) _].
  apply lookup_replicate in Hr as [-> _]. apply lookup_replicate in He as [-> _]. done.
Qed.

Lemma demo_cache1_ok : vc_inv demo_cache1 ∧ shows demo_cache1 START_ADDR 0x5000 ∧
  has_room (shows demo_cache1) 2.
Proof.
  assert (∃ v', vcache_map 0x5000 demo_cache = Ok (Some START_ADDR, v')) as [v1 E]
    by (eexists; vm_compute; reflexivity).
  destruct (vcache_map_abs demo_cache 0x5000 demo_cache_inv good_frame_0x5000)
    as (p & v' & Hrun & Hv' & _ & Hs & Hsame); [left; by exists 0%nat, 512|].
  unfold demo_cache1. rewrite Hrun. rewrite E in Hrun. simplify_eq. split_and!; [done..|].
  apply (has_room_take (shows demo_cache) _ START_ADDR); [|apply demo_cache_room; lia].
  intros q g Hq. apply Hsame. set_solver.
Qed.




Lemma vcache_map_exhausted_witness : vcache_map 0x5000 full_cache = Panic Unwrap.
Proof.
  apply (vcache_map_exhausted full_cache 0x5000 full_cache_inv good_frame_0x5000).
  intros [(t & c & [-> _]%lookup_replicate & Hc)|(c & [= <-] & Hc)]; by apply Hc.
Defined.

Lemma vcache_unmap_correct_witness :
  ∃ v', vcache_unmap START_ADDR demo_cache1 = Ok (tt, v') ∧ ∀ g, ¬ shows v' START_ADDR g.
Proof.
  destruct demo_cache1_ok as (Hv & Hs & _).
  destruct (vcache_unmap_correct demo_cache1 START_ADDR 0x5000 Hv Hs) as (v' & H & _ & Hn & _).
  by exists v'.
Defined.

Lemma vcache_remap_correct_witness :
  vcache_remap 0 0x5000 demo_cache = Ok (None, demo_cache) ∧
  ∃ v', vcache_remap START_ADDR 0x5000 demo_cache1 = Ok (Some tt, v').
Proof.
  destruct demo_cache1_ok as (Hv & Hs & _). split.
  - apply (vcache_remap_correct demo_cache 0 0x5000 demo_cache_inv good_frame_0x5000).
    left. unfold START_ADDR, KVMSPACE. lia.
  - destruct (proj1 (vcache_remap_correct demo_cache1 START_ADDR 0x5000 Hv good_frame_0x5000) _ Hs)
      as (v' & H & _). by exists v'.
Defined.

Lemma vcache_map_many_correct_witness :
  ∃ ps v', vcache_map_many [0x5000; 0x5000] demo_cache = Ok (Some ps, v') ∧ NoDup ps.
Proof.
  destruct (vcache_map_many_correct demo_cache [0x5000; 0x5000] demo_cache_inv)
    as (ps & v' & H & _ & Hnd & _).
  - by repeat constructor.
  - apply demo_cache_room. simpl. lia.
  - by exists ps, v'.
Defined.
