(* ===== verification/Mapper.v ===== *)
(** * The kernel mapper

    Models [kernel/src/mem/virt/mod.rs] ([alloc_substruct]) and
    [kernel/src/mem/virt/mapper.rs] ([KernelMapper::map], [ensure_allocated],
    [remove_identity]).  The page tables live in frames of physical memory;
    the mapper reaches them only through windows of the virtual cache, and
    through the identity mapping while that is still in place.  The memory of
    the tables is [k_mem], a map from a frame to its 512 entries.

    [translate] is the processor's walk.  The central theorem says that [map]
    makes exactly the requested pages translate to the requested frames, with
    the flags the code promises, and leaves every other translation alone. *)

From S2P Require Import Prelude X86 FrameAlloc WindowCache VCache.

Inductive KernelMapError := NullSize | Managed | NoVCacheSpace.

Definition RLCR3_THRESHOLD : Z := 32.

(** What the code does to the translation buffer of the processor. *)
Inductive tlb_op := FlushPage (page : Z) | FlushAll.

(** The kernel's memory: the frame allocator, the virtual cache, the page
    tables, the window of the root table ([P4TABLE]) and the flushes made. *)
Record Kmem (P V : Type) := mkKmem {
  k_pmm : P;
  k_vc : V;
  k_mem : gmap Z (list Z);
  k_p4 : Z;
  k_tlb : list tlb_op;
}.
Arguments mkKmem {P V}.
Arguments k_pmm {P V}.
Arguments k_vc {P V}.
Arguments k_mem {P V}.
Arguments k_p4 {P V}.
Arguments k_tlb {P V}.

Definition set_pmm {P V} (p : P) (s : Kmem P V) : Kmem P V :=
  mkKmem p (k_vc s) (k_mem s) (k_p4 s) (k_tlb s).
Definition set_vc {P V} (v : V) (s : Kmem P V) : Kmem P V :=
  mkKmem (k_pmm s) v (k_mem s) (k_p4 s) (k_tlb s).
Definition set_mem {P V} (m : gmap Z (list Z)) (s : Kmem P V) : Kmem P V :=
  mkKmem (k_pmm s) (k_vc s) m (k_p4 s) (k_tlb s).
Definition flush {P V} (o : tlb_op) : M (Kmem P V) unit :=
  modify (λ s, mkKmem (k_pmm s) (k_vc s) (k_mem s) (k_p4 s) (o :: k_tlb s)).

(** Where a page table entry is reached: in a window, or at its physical
    address through the identity mapping. *)
Inductive place :=
  | Win (page : Z) (i : nat)
  | Ident (frame : Z) (i : nat).

Section mapper.
Context {X : X86} {P : Type} `{FrameAllocator P} {V : Type} `{WindowCache V}.

Definition on_vc {A} (m : M V A) : M (Kmem P V) A := zoom k_vc set_vc m.

Definition palloc : M (Kmem P V) (option Z) := zoom k_pmm set_pmm fa_alloc.
Definition pfree (frame : Z) : M (Kmem P V) unit := zoom k_pmm set_pmm (fa_dealloc frame).

(** The frame behind a window; a page that shows no frame faults. *)
Definition win_frame (page : Z) : M (Kmem P V) Z := λ s,
  f ← of_option Undefined (wc_frame (k_vc s) page); mret (f, s).
Definition place_frame (pl : place) : M (Kmem P V) (Z * nat) :=
  match pl with
  | Win page i => f ← win_frame page; mret (f, i)
  | Ident f i => mret (f, i)
  end.

Definition read_place (pl : place) : M (Kmem P V) Z :=
  '(f, i) ← place_frame pl;
  s ← get;
  t ← lift (of_option Undefined (k_mem s !! f));
  lift (of_option Bounds (t !! i)).

Definition write_place (pl : place) (e : Z) : M (Kmem P V) unit :=
  '(f, i) ← place_frame pl;
  s ← get;
  t ← lift (of_option Undefined (k_mem s !! f));
  if (i <? length t)%nat then put (set_mem (<[f := <[i := e]> t]> (k_mem s)) s)
  else fail Bounds.

(** [slice::from_raw_parts_mut(..).fill(0)] of a whole frame. *)
Definition clear_frame (f : Z) : M (Kmem P V) unit :=
  modify (λ s, set_mem (<[f := replicate 512 0]> (k_mem s)) s).

Definition alloc_substruct (entry : place) (flags : Z) (clear_inplace : bool) :
    M (Kmem P V) Z :=
  r ← palloc;
  match r with
  | None => fail Explicit
  | Some frame =>
    _ ← (if clear_inplace then _ ← lift (ident_slice frame PAGE_SIZE); clear_frame frame else mret tt);
    _ ← write_place entry pte_new;
    e ← lift (of_option Crate (pte_set_frame frame flags));
    _ ← write_place entry e;
    mret frame
  end.

(** The returned table is the one in the window [map_to_page]. *)
Definition ensure_allocated (entry : place) (page map_to_page : Z) : M (Kmem P V) Z :=
  e ← read_place entry;
  created ←
    (if pte_is_unused e then
       let flags := fl_union WRITABLE PRESENT in
       let flags := if page <? KVMSPACE then fl_union flags USER_ACCESSIBLE else flags in
       _ ← alloc_substruct entry flags false;
       mret true
     else mret false);
  e ← read_place entry;
  frame ← lift (unwrap (pte_frame e));
  r ← on_vc (wc_remap map_to_page frame);
  _ ← lift (unwrap r);
  _ ← (if created : bool then f ← win_frame map_to_page; clear_frame f else mret tt);
  mret map_to_page.

(** The flags written for one page, from the flags of the page before it. *)
Definition leaf_flags (page flags : Z) : Z :=
  let flags := if KVMSPACE <? page
               then fl_remove (fl_union flags GLOBAL) USER_ACCESSIBLE else flags in
  fl_union flags PRESENT.

(** One turn of the loop of [map]; the result is the variable [flags]. *)
Definition map_step (page0 phys0 : Z) (tmp_pages : list Z) (detail_flush : bool)
    (i flags : Z) : M (Kmem P V) Z :=
  a ← lift (of_option Crate (virt_add page0 (i * PAGE_SIZE)));
  page ← lift (unwrap (page_from_start a));
  b ← lift (of_option Crate (phys_add phys0 (i * PAGE_SIZE)));
  physframe ← lift (unwrap (frame_from_start b));
  p4table ← gets k_p4;
  tmp0 ← lift (index tmp_pages 0);
  tmp1 ← lift (index tmp_pages 1);
  p3 ← ensure_allocated (Win p4table (p4_index page)) page tmp0;
  p2 ← ensure_allocated (Win p3 (p3_index page)) page tmp1;
  p1 ← ensure_allocated (Win p2 (p2_index page)) page tmp0;
  let flags := leaf_flags page flags in
  e ← lift (of_option Crate (pte_set_frame physframe flags));
  _ ← write_place (Win p1 (p1_index page)) e;
  _ ← (if detail_flush then flush (FlushPage page) else mret tt);
  mret flags.

Fixpoint map_loop (page0 phys0 : Z) (tmp_pages : list Z) (detail_flush : bool)
    (l : list Z) (flags : Z) : M (Kmem P V) unit :=
  match l with
  | [] => mret tt
  | i :: l' =>
    flags ← map_step page0 phys0 tmp_pages detail_flush i flags;
    map_loop page0 phys0 tmp_pages detail_flush l' flags
  end.

Definition kernel_map (page phys size flags : Z) : M (Kmem P V) (result unit KernelMapError) :=
  if size =? 0 then mret (RErr NullSize) else
  cache_end ← lift (of_option Crate (virt_add START_ADDR VC_SIZE));
  if (START_ADDR <=? page) && (page <? cache_end) then mret (RErr Managed) else
  size ← lift (of_option Crate (align_up size PAGE_SIZE));
  let num_pages := size / PAGE_SIZE in
  let detail_flush := fl_contains flags GLOBAL || (KVMSPACE <=? page) ||
                      (size / PAGE_SIZE <? RLCR3_THRESHOLD) in
  let null_frame := frame_containing 0 in
  r ← on_vc (wc_map_many [null_frame; null_frame]);
  match r with
  | None => mret (RErr NoVCacheSpace)
  | Some tmp_pages =>
    _ ← map_loop page phys tmp_pages detail_flush (range num_pages) flags;
    _ ← on_vc (wc_unmap_many tmp_pages);
    _ ← (if detail_flush then mret tt else flush FlushAll);
    mret (ROk tt)
  end.

(** Clears the first half of the root table. *)
Definition remove_identity : M (Kmem P V) unit :=
  p4table ← gets k_p4;
  f ← win_frame p4table;
  s ← get;
  t ← lift (of_option Undefined (k_mem s !! f));
  _ ← put (set_mem (<[f := replicate 256 0 ++ drop 256 t]> (k_mem s)) s);
  flush FlushAll.

(** ** The walk of the processor *)

(** The table entry [i] of table [f] points to, when it is one of the tables. *)
Definition next (mem : gmap Z (list Z)) (f : Z) (i : nat) : option Z :=
  t ← mem !! f; e ← t !! i; c ← pte_frame e; _ ← mem !! c; Some c.
Fixpoint walk (mem : gmap Z (list Z)) (f : Z) (ix : list nat) : option Z :=
  match ix with [] => Some f | i :: ix' => c ← next mem f i; walk mem c ix' end.

Definition page_path (q : Z) : list nat := [p4_index q; p3_index q; p2_index q].
Definition leaf_entry (mem : gmap Z (list Z)) (p4 q : Z) : option Z :=
  p1 ← walk mem p4 (page_path q); t ← mem !! p1; t !! p1_index q.

(** The frame and the flags of a page. *)
Definition translate (mem : gmap Z (list Z)) (p4 q : Z) : option (Z * Z) :=
  e ← leaf_entry mem p4 q; f ← pte_frame e; Some (f, pte_flags e).

(** A page that user code can reach. *)
Definition user_page (mem : gmap Z (list Z)) (p4 q : Z) : Prop :=
  ∃ f fl, translate mem p4 q = Some (f, fl) ∧ fl_contains fl USER_ACCESSIBLE = true.

(** Every entry on the way is unused or points to another table. *)
Fixpoint clear_path (mem : gmap Z (list Z)) (f : Z) (ix : list nat) : bool :=
  match mem !! f with
  | None => false
  | Some t =>
    match ix with
    | [] => true
    | i :: ix' =>
      match t !! i with
      | None => false
      | Some e => pte_is_unused e ||
          match pte_frame e with Some c => clear_path mem c ix' | None => false end
      end
    end
  end.

(** ** Invariant *)

(** [lv] gives the level of a table: 4 for the root, 1 for the last one. *)
Record pt_inv (free : gset Z) (mem : gmap Z (list Z)) (p4 : Z) (lv : Z → nat) : Prop := {
  pt_root : is_Some (mem !! p4);
  pt_root_level : lv p4 = 4%nat;
  pt_table f t : mem !! f = Some t →
    length t = 512%nat ∧ good_frame f ∧ f ∉ free ∧ (1 ≤ lv f)%nat;
  pt_child f t i e c : mem !! f = Some t → (2 ≤ lv f)%nat → t !! i = Some e →
    pte_frame e = Some c → c ∉ free ∧ (is_Some (mem !! c) → lv f = S (lv c));
  pt_tree f g i j c : (2 ≤ lv f)%nat → (2 ≤ lv g)%nat →
    next mem f i = Some c → next mem g j = Some c → f = g ∧ i = j;
}.
End mapper.

(** The memory after a new empty table [c] was hung under entry [i] of [f]. *)
Definition add_table (mem : gmap Z (list Z)) (f : Z) (t : list Z) (i : nat) (e c : Z) :
    gmap Z (list Z) :=
  <[c := replicate 512 0]> (<[f := <[i := e]> t]> mem).
Definition add_level (lv : Z → nat) (f c : Z) : Z → nat :=
  λ g, if decide (g = c) then pred (lv f) else lv g.

Section page_tables.
Context {X : X86} {XO : X86Ok X}.
Implicit Types (mem : gmap Z (list Z)) (free : gset Z) (lv : Z → nat) (t : list Z).

Lemma zero_frame : pte_frame 0 = None.
Proof.
  apply pte_frame_not_present. rewrite pte_flags_unused, contains_present. apply Z.bits_0.
Qed.

Lemma unused_frame e : pte_is_unused e = true → pte_frame e = None.
Proof. rewrite pte_is_unused_spec, Z.eqb_eq. intros ->. apply zero_frame. Qed.

Lemma next_Some mem f i c :
  next mem f i = Some c ↔ ∃ t e, mem !! f = Some t ∧ t !! i = Some e ∧
    pte_frame e = Some c ∧ is_Some (mem !! c).
Proof.
  unfold next. split.
  - intros (t & Ht & (e & He & (d & Hd & (t' & Ht' & [= ->])%bind_Some)%bind_Some)%bind_Some)%bind_Some.
    eauto 10.
  - intros (t & e & -> & He & Hc & [t' Ht']). simpl. rewrite He. simpl. rewrite Hc. simpl.
    by rewrite Ht'.
Qed.

(** ** Walks *)

Lemma walk_app mem g a b :
  walk mem g (a ++ b) = h ← walk mem g a; walk mem h b.
Proof.
  revert g. induction a as [|i a IH]; intros g; [done|]. simpl.
  destruct (next mem g i) as [d|]; simpl; [apply IH|done].
Qed.

Lemma walk_level free mem p4 lv g ix h :
  pt_inv free mem p4 lv → is_Some (mem !! g) → (length ix < lv g)%nat →
  walk mem g ix = Some h → lv g = (length ix + lv h)%nat ∧ is_Some (mem !! h).
Proof.
  intros Hpt. revert g. induction ix as [|i ix IH]; intros g Hg Hlt; simpl in *.
  - intros [= <-]. done.
  - intros (d & Hn & Hw)%bind_Some. pose proof Hn as (t & e & Ht & He & Hd & Hdm)%next_Some.
    destruct (pt_child _ _ _ _ Hpt _ _ _ _ _ Ht ltac:(lia) He Hd) as [_ Hl].
    specialize (Hl Hdm). destruct (IH d Hdm ltac:(lia) Hw). split; [lia|done].
Qed.

Lemma walk_inj free mem p4 lv a b h :
  pt_inv free mem p4 lv → length a = length b → (length a ≤ 3)%nat →
  walk mem p4 a = Some h → walk mem p4 b = Some h → a = b.
Proof.
  intros Hpt. revert b h. induction a as [|i a IH] using rev_ind; intros b h Hlen Hle Ha Hb.
  { by destruct b. }
  destruct b as [|j b _] using rev_ind; [rewrite length_app in Hlen; simpl in *; lia|].
  rewrite !length_app in Hlen. rewrite length_app in Hle. simpl in Hlen, Hle.
  rewrite walk_app in Ha, Hb. apply bind_Some in Ha as (g & Hg & Ha), Hb as (g' & Hg' & Hb).
  simpl in Ha, Hb. apply bind_Some in Ha as (? & Ha & [= ->]), Hb as (? & Hb & [= ->]).
  pose proof (pt_root_level _ _ _ _ Hpt) as Hrl. pose proof (pt_root _ _ _ _ Hpt) as Hroot.
  destruct (walk_level _ _ _ _ _ a g Hpt Hroot ltac:(lia) Hg) as [Hlg _].
  destruct (walk_level _ _ _ _ _ b g' Hpt Hroot ltac:(lia) Hg') as [Hlg' _].
  destruct (pt_tree _ _ _ _ Hpt g g' i j h) as [-> ->]; [lia|lia|done|done|].
  by rewrite (IH b g') by (done || lia).
Qed.

Lemma clear_walk mem g a b h :
  clear_path mem g (a ++ b) = true → walk mem g a = Some h → clear_path mem h b = true.
Proof.
  revert g. induction a as [|i a IH]; intros g; simpl; [by intros ? [= <-]|].
  intros Hcl (d & (t & e & Ht & He & Hd & Hdm)%next_Some & Hw)%bind_Some.
  rewrite Ht, He, Hd in Hcl. apply (IH d); [|done].
  destruct (pte_is_unused e) eqn:E; [|done]. by rewrite unused_frame in Hd.
Qed.

Lemma clear_prefix mem g a b : clear_path mem g (a ++ b) = true → clear_path mem g a = true.
Proof.
  revert g. induction a as [|i a IH]; intros g Hcl; simpl in *.
  - destruct b; simpl in Hcl; by destruct (mem !! g).
  - destruct (mem !! g) as [t|]; [|done]. destruct (t !! i) as [e|]; [|done].
    apply orb_true_iff in Hcl as [->|Hcl]; [done|]. apply orb_true_iff. right.
    destruct (pte_frame e); [auto|done].
Qed.

Lemma clear_table mem g ix : clear_path mem g ix = true → is_Some (mem !! g).
Proof. destruct ix; simpl; by destruct (mem !! g). Qed.

(** ** Hanging a new table *)

Section add_table.
Context (free : gset Z) (mem : gmap Z (list Z)) (p4 : Z) (lv : Z → nat).
Context (f : Z) (t : list Z) (i : nat) (e0 e c : Z).
Hypothesis Hpt : pt_inv free mem p4 lv.
Hypothesis Hf : mem !! f = Some t.
Hypothesis Hlv : (2 ≤ lv f)%nat.
Hypothesis Hi : t !! i = Some e0.
Hypothesis Hunused : pte_is_unused e0 = true.
Hypothesis Hc : c ∈ free.
Hypothesis Hgood : good_frame c.
Hypothesis He : pte_frame e = Some c.

Lemma add_fresh : mem !! c = None.
Proof.
  destruct (mem !! c) as [t'|] eqn:E; [|done]. exfalso.
  by destruct (pt_table _ _ _ _ Hpt _ _ E) as (_ & _ & ? & _).
Qed.

Lemma add_ne : f ≠ c.
Proof. intros ->. pose proof add_fresh. congruence. Qed.

Lemma add_dom g : is_Some (add_table mem f t i e c !! g) ↔ g = c ∨ is_Some (mem !! g).
Proof.
  unfold add_table. rewrite !lookup_insert_is_Some'. split.
  - intros [->|[<-|?]]; [by left|right; by rewrite Hf|by right].
  - intros [->|?]; auto.
Qed.

Lemma add_lookup g : g ≠ c → g ≠ f → add_table mem f t i e c !! g = mem !! g.
Proof. intros. unfold add_table. by rewrite !lookup_insert_ne. Qed.

Lemma add_lookup_f : add_table mem f t i e c !! f = Some (<[i := e]> t).
Proof.
  unfold add_table. rewrite lookup_insert_ne by (pose proof add_ne; congruence).
  apply lookup_insert_eq.
Qed.

Lemma add_lookup_c : add_table mem f t i e c !! c = Some (replicate 512 0).
Proof. apply lookup_insert_eq. Qed.

Lemma add_level_old g : is_Some (mem !! g) → add_level lv f c g = lv g.
Proof.
  intros Hg. unfold add_level. case_decide as E; [|done]. subst g.
  rewrite add_fresh in Hg. by destruct Hg.
Qed.

Lemma next_add_new : next (add_table mem f t i e c) f i = Some c.
Proof.
  apply next_Some. exists (<[i := e]> t), e. rewrite add_lookup_f, add_lookup_c.
  split_and!; try done. apply list_lookup_insert_eq. by eapply lookup_lt_Some.
Qed.

Lemma next_add_empty j : next (add_table mem f t i e c) c j = None.
Proof.
  apply eq_None_not_Some. intros [g (t' & x & Ht & Hx & Hg & _)%next_Some].
  rewrite add_lookup_c in Ht. simplify_eq. apply lookup_replicate in Hx as [-> _].
  by rewrite zero_frame in Hg.
Qed.

Lemma next_add_old g j :
  is_Some (mem !! g) → (2 ≤ lv g)%nat → (g, j) ≠ (f, i) →
  next (add_table mem f t i e c) g j = next mem g j.
Proof.
  intros [tg Hg] Hlg Hne. assert (g ≠ c) as Hgc by (intros ->; rewrite add_fresh in Hg; done).
  apply option_eq. intros d. rewrite !next_Some. rewrite Hg.
  assert (∀ t' x, mem !! g = Some t' → t' !! j = Some x → pte_frame x = Some d → d ≠ c) as Hdc.
  { intros t' x Ht' Hx Hd ->. by destruct (pt_child _ _ _ _ Hpt _ _ _ _ _ Ht' Hlg Hx Hd). }
  assert (∀ x t', add_table mem f t i e c !! g = Some t' → t' !! j = Some x → tg !! j = Some x) as Hent.
  { intros x t' Ht' Hx. destruct (decide (g = f)) as [->|].
    - rewrite add_lookup_f in Ht'. simplify_eq. rewrite list_lookup_insert_ne in Hx by congruence. done.
    - rewrite add_lookup in Ht' by done. by simplify_eq. }
  split.
  - intros (t' & x & Ht' & Hx & Hd & Hdom). pose proof (Hent x t' Ht' Hx) as Hx'.
    exists tg, x. split_and!; try done. apply add_dom in Hdom as [->|]; [|done].
    by destruct (Hdc tg x).
  - intros (t' & x & [= <-] & Hx & Hd & Hdom). destruct (decide (g = f)) as [->|].
    + exists (<[i := e]> t), x. rewrite add_lookup_f. simplify_eq.
      rewrite list_lookup_insert_ne by congruence. split_and!; try done. apply add_dom. by right.
    + exists tg, x. rewrite add_lookup by done. split_and!; try done. apply add_dom. by right.
Qed.

Lemma add_table_inv : pt_inv (free ∖ {[c]}) (add_table mem f t i e c) p4 (add_level lv f c).
Proof.
  destruct Hpt as [[tr Hr] Hrl Htab Hch Htree].
  split.
  - apply add_dom. eauto.
  - rewrite add_level_old by eauto. done.
  - intros g tg Hg. destruct (decide (g = c)) as [->|Hgc].
    + rewrite add_lookup_c in Hg. simplify_eq. split_and!; [done|done|set_solver|].
      unfold add_level. rewrite decide_True by done. lia.
    + assert (is_Some (mem !! g)) as Hgm by (assert (is_Some (add_table mem f t i e c !! g)) as
        [?|?]%add_dom by eauto; done).
      rewrite add_level_old by done. destruct Hgm as [t0 Ht0].
      destruct (Htab _ _ Ht0) as (Hlen & Hgf & Hnf & Hl). split_and!; [|done|set_solver|done].
      destruct (decide (g = f)) as [->|]; [rewrite add_lookup_f in Hg; simplify_eq;
        by rewrite length_insert|]. rewrite add_lookup in Hg by done. by simplify_eq.
  - intros g tg j x d Hg Hlg Hx Hd. destruct (decide (g = c)) as [->|Hgc].
    { rewrite add_lookup_c in Hg. simplify_eq. apply lookup_replicate in Hx as [-> _].
      by rewrite zero_frame in Hd. }
    destruct (decide ((g, j) = (f, i))) as [[= -> ->]|Hne].
    { rewrite add_lookup_f in Hg. simplify_eq. rewrite list_lookup_insert_eq in Hx
        by (by eapply lookup_lt_Some). simplify_eq. split; [set_solver|]. intros _.
      rewrite (add_level_old f) by eauto. unfold add_level. rewrite decide_True by done. lia. }
    assert (∃ t0, mem !! g = Some t0 ∧ t0 !! j = Some x) as (t0 & Ht0 & Hx0).
    { destruct (decide (g = f)) as [->|].
      - rewrite add_lookup_f in Hg. simplify_eq. exists t. split; [done|].
        rewrite list_lookup_insert_ne in Hx by congruence. done.
      - rewrite add_lookup in Hg by done. eauto. }
    rewrite add_level_old in Hlg |- * by eauto.
    destruct (Hch _ _ _ _ _ Ht0 Hlg Hx0 Hd) as [Hdf Hl]. split; [set_solver|].
    intros [->|Hdm]%add_dom; [done|]. by rewrite add_level_old, (Hl Hdm).
  - intros g h j k d Hlg Hlh Hg Hh.
    assert (∀ g j, (2 ≤ add_level lv f c g)%nat → next (add_table mem f t i e c) g j = Some d →
      (g = f ∧ j = i ∧ d = c) ∨ (is_Some (mem !! g) ∧ (2 ≤ lv g)%nat ∧ next mem g j = Some d)) as Hcase.
    { clear g h j k Hlg Hlh Hg Hh. intros g j Hl Hn.
      assert (is_Some (mem !! g)) as Hgm.
      { pose proof Hn as (tg & _ & Htg & _)%next_Some.
        assert (is_Some (add_table mem f t i e c !! g)) as [->|?]%add_dom by eauto; [|done].
        by rewrite next_add_empty in Hn. }
      rewrite add_level_old in Hl by done.
      destruct (decide ((g, j) = (f, i))) as [[= -> ->]|Hne].
      - rewrite next_add_new in Hn. left. naive_solver.
      - right. by rewrite <-next_add_old. }
    assert (∀ g j, next mem g j ≠ Some c) as Hnoc.
    { intros g' j' (_ & _ & _ & _ & _ & Hs)%next_Some. rewrite add_fresh in Hs. by destruct Hs. }
    destruct (Hcase g j Hlg Hg) as [(-> & -> & ->)|(Hgm & Hlg' & Hng)],
      (Hcase h k Hlh Hh) as [(-> & -> & E)|(Hhm & Hlh' & Hnh)]; [done| | |by eapply Htree].
    + by apply Hnoc in Hnh.
    + subst d. by apply Hnoc in Hng.
Qed.

Lemma next_add_before : next mem f i = None.
Proof.
  apply eq_None_not_Some. intros [d (t' & x & ? & ? & Hd & _)%next_Some]. simplify_eq.
  by rewrite unused_frame in Hd.
Qed.

Lemma walk_add ix g :
  is_Some (mem !! g) → (length ix < lv g)%nat →
  walk (add_table mem f t i e c) g ix = walk mem g ix ∨
  (walk mem g ix = None ∧ (walk (add_table mem f t i e c) g ix = None ∨
                           walk (add_table mem f t i e c) g ix = Some c)).
Proof.
  revert g. induction ix as [|j ix IH]; intros g Hg Hlt; simpl in *; [by left|].
  destruct (decide ((g, j) = (f, i))) as [[= -> ->]|Hne].
  - rewrite next_add_new, next_add_before. simpl. right. split; [done|].
    destruct ix as [|k ix]; simpl; [by right|]. rewrite next_add_empty. by left.
  - rewrite next_add_old by (done || lia). destruct (next mem g j) as [d|] eqn:E; simpl; [|by left].
    pose proof E as (t' & x & Ht & Hx & Hd & Hdm)%next_Some.
    destruct (pt_child _ _ _ _ Hpt _ _ _ _ _ Ht ltac:(lia) Hx Hd) as [_ Hl].
    apply IH; [done|]. specialize (Hl Hdm). lia.
Qed.

Lemma walk_add_Some ix h :
  (length ix ≤ 3)%nat → walk mem p4 ix = Some h → walk (add_table mem f t i e c) p4 ix = Some h.
Proof.
  intros Hlen Hw. destruct (walk_add ix p4) as [E|[E _]]; [by eapply pt_root|
    rewrite (pt_root_level _ _ _ _ Hpt); lia|congruence..].
Qed.

Lemma translate_add q : translate (add_table mem f t i e c) p4 q = translate mem p4 q.
Proof.
  unfold translate, leaf_entry. pose proof (pt_root_level _ _ _ _ Hpt) as Hrl.
  pose proof (pt_root _ _ _ _ Hpt) as Hroot.
  assert (length (page_path q) < lv p4)%nat as Hlt by (rewrite Hrl; simpl; lia).
  destruct (walk_add (page_path q) p4 Hroot Hlt) as [->|(-> & [->| ->])]; [|done|].
  - destruct (walk mem p4 (page_path q)) as [h|] eqn:Hw; simpl; [|done].
    destruct (walk_level _ _ _ _ _ _ _ Hpt Hroot Hlt Hw) as [Hl Hh].
    rewrite Hrl in Hl. simpl in Hl. rewrite add_lookup; [done| |intros ->; lia].
    intros ->. rewrite add_fresh in Hh. by destruct Hh.
  - cbn [mbind option_bind]. rewrite add_lookup_c. cbn [mbind option_bind].
    destruct (_ !! p1_index q) as [x|] eqn:E; cbn [mbind option_bind]; [|done].
    apply lookup_replicate in E as [-> _]. by rewrite zero_frame.
Qed.

Lemma clear_add ix g :
  Forall (λ j, j < 512)%nat ix → (length ix < lv g)%nat → clear_path mem g ix = true →
  clear_path (add_table mem f t i e c) g ix = true.
Proof.
  revert g. induction ix as [|j ix IH]; intros g Hix Hlt Hcl.
  - destruct (clear_table _ _ _ Hcl) as [tg Hg]. simpl.
    assert (is_Some (add_table mem f t i e c !! g)) as [? ->] by (apply add_dom; eauto). done.
  - destruct (clear_table _ _ _ Hcl) as [tg Hg].
    assert (g ≠ c) as Hgc by (intros ->; rewrite add_fresh in Hg; done).
    simpl in Hcl. rewrite Hg in Hcl. destruct (tg !! j) as [x|] eqn:Hx; [|done].
    destruct (decide ((g, j) = (f, i))) as [[= -> ->]|Hne].
    + simpl. rewrite add_lookup_f, list_lookup_insert_eq by (by eapply lookup_lt_Some).
      rewrite He. apply orb_true_iff. right.
      destruct ix as [|k ix]; cbn [clear_path]; rewrite add_lookup_c; [done|].
      apply Forall_cons in Hix as [_ Hix]. apply Forall_cons in Hix as [Hk _].
      rewrite lookup_replicate_2 by done. by rewrite (pte_is_unused_spec 0).
    + assert (∃ t0, add_table mem f t i e c !! g = Some t0 ∧ t0 !! j = Some x) as (t0 & Ht0 & Hx0).
      { destruct (decide (g = f)) as [->|]; [|exists tg; by rewrite add_lookup].
        exists (<[i := e]> t). rewrite add_lookup_f, list_lookup_insert_ne by congruence.
        simplify_eq. done. }
      simpl. rewrite Ht0, Hx0. apply orb_true_iff in Hcl as [->|Hcl]; [done|].
      apply orb_true_iff. right. destruct (pte_frame x) as [d|] eqn:Hd; [|done].
      apply Forall_cons in Hix as [_ Hix]. apply IH; [done| |done]. simpl in Hlt.
      destruct (pt_child _ _ _ _ Hpt _ _ _ _ _ Hg ltac:(lia) Hx Hd) as [_ Hl].
      specialize (Hl (clear_table _ _ _ Hcl)). lia.
Qed.
End add_table.
(** ** Writing an entry of a last-level table *)

Section write_leaf.
Context (free : gset Z) (mem : gmap Z (list Z)) (p4 : Z) (lv : Z → nat).
Context (f : Z) (t : list Z) (i : nat) (e : Z).
Hypothesis Hpt : pt_inv free mem p4 lv.
Hypothesis Hf : mem !! f = Some t.
Hypothesis Hlv : lv f = 1%nat.
Let mem' : gmap Z (list Z) := <[f := <[i := e]> t]> mem.

Lemma leaf_dom g : is_Some (mem' !! g) ↔ is_Some (mem !! g).
Proof.
  unfold mem'. rewrite lookup_insert_is_Some'. split; [|by right].
  intros [<-|?]; [by rewrite Hf|done].
Qed.

Lemma leaf_lookup g : (2 ≤ lv g)%nat → mem' !! g = mem !! g.
Proof. intros Hg. apply lookup_insert_ne. intros ->. lia. Qed.

Lemma leaf_next g j : (2 ≤ lv g)%nat → next mem' g j = next mem g j.
Proof.
  intros Hg. apply option_eq. intros d. rewrite !next_Some, leaf_lookup by done.
  by setoid_rewrite leaf_dom.
Qed.

Lemma leaf_inv : pt_inv free mem' p4 lv.
Proof.
  destruct Hpt as [Hr Hrl Htab Hch Htree]. split.
  - by apply leaf_dom.
  - done.
  - intros g tg Hg. destruct (decide (g = f)) as [->|].
    + unfold mem' in Hg. rewrite lookup_insert_eq in Hg. simplify_eq.
      rewrite length_insert. by apply Htab.
    + unfold mem' in Hg. rewrite lookup_insert_ne in Hg by done. by apply Htab.
  - intros g tg j x c Hg Hlg Hx Hc. rewrite leaf_lookup in Hg by done.
    rewrite leaf_dom. by eapply Hch.
  - intros g h j k c Hlg Hlh. rewrite !leaf_next by done. by apply Htree.
Qed.

Lemma leaf_walk ix g : is_Some (mem !! g) → (length ix < lv g)%nat → walk mem' g ix = walk mem g ix.
Proof.
  revert g. induction ix as [|j ix IH]; intros g Hg Hlt; simpl in *; [done|].
  rewrite leaf_next by lia. destruct (next mem g j) as [d|] eqn:E; [|done]. simpl.
  pose proof E as (t' & x & Ht & Hx & Hd & Hdm)%next_Some.
  destruct (pt_child _ _ _ _ Hpt _ _ _ _ _ Ht ltac:(lia) Hx Hd) as [_ Hl].
  specialize (Hl Hdm). apply IH; [done|lia].
Qed.

Lemma leaf_clear ix g : (length ix < lv g)%nat → clear_path mem g ix = true → clear_path mem' g ix = true.
Proof.
  revert g. induction ix as [|j ix IH]; intros g Hlt Hcl.
  - destruct (clear_table _ _ _ Hcl) as [tg Hg]. simpl.
    assert (is_Some (mem' !! g)) as [? ->] by (apply leaf_dom; eauto). done.
  - destruct (clear_table _ _ _ Hcl) as [tg Hg]. simpl in *.
    rewrite leaf_lookup by lia. rewrite Hg in Hcl |- *. destruct (tg !! j) as [x|] eqn:Hx; [|done].
    apply orb_true_iff in Hcl as [->|Hcl]; [done|]. apply orb_true_iff. right.
    destruct (pte_frame x) as [d|] eqn:Hd; [|done]. apply IH; [|done].
    destruct (pt_child _ _ _ _ Hpt _ _ _ _ _ Hg ltac:(lia) Hx Hd) as [_ Hl].
    specialize (Hl (clear_table _ _ _ Hcl)). lia.
Qed.

Lemma path_below q : (length (page_path q) < lv p4)%nat.
Proof. rewrite (pt_root_level _ _ _ _ Hpt). simpl. lia. Qed.

Lemma leaf_translate_other q q' :
  walk mem p4 (page_path q) = Some f → p1_index q = i →
  (page_path q', p1_index q') ≠ (page_path q, p1_index q) →
  translate mem' p4 q' = translate mem p4 q'.
Proof.
  intros Hw Hi Hne. unfold translate, leaf_entry.
  rewrite leaf_walk by (apply path_below || by eapply pt_root).
  destruct (walk mem p4 (page_path q')) as [h|] eqn:Hw'; [|done]. cbn [mbind option_bind].
  unfold mem'. destruct (decide (h = f)) as [->|]; [|by rewrite lookup_insert_ne].
  rewrite lookup_insert_eq, Hf. cbn [mbind option_bind].
  rewrite list_lookup_insert_ne; [done|]. intros E. apply Hne. f_equal; [|congruence].
  eapply (walk_inj _ _ _ _ _ _ f Hpt); done || (simpl; lia).
Qed.

Lemma leaf_translate q :
  walk mem p4 (page_path q) = Some f → p1_index q = i → (i < 512)%nat →
  translate mem' p4 q = f' ← pte_frame e; Some (f', pte_flags e).
Proof.
  intros Hw Hi Hlt. unfold translate, leaf_entry.
  rewrite leaf_walk by (apply path_below || by eapply pt_root). rewrite Hw.
  cbn [mbind option_bind]. unfold mem'. rewrite lookup_insert_eq. cbn [mbind option_bind].
  rewrite Hi, list_lookup_insert_eq; [done|]. by rewrite (proj1 (pt_table _ _ _ _ Hpt _ _ Hf)).
Qed.
End write_leaf.

(** ** Pages and their indices *)

Lemma page_indices_lt q : Forall (λ j, j < 512)%nat (page_path q) ∧ (p1_index q < 512)%nat.
Proof.
  unfold page_path. rewrite p4_index_spec, p3_index_spec, p2_index_spec, p1_index_spec.
  split; [apply Forall_cons; split; [zlia|]; apply Forall_cons; split; [zlia|]; apply Forall_cons; split; [zlia|done]|zlia].
Qed.

(** Four digits in base 512 determine a number below [2^36]. *)
Lemma digits_inj k k' :
  k mod 512 = k' mod 512 → k / 512 mod 512 = k' / 512 mod 512 →
  k / 512 / 512 mod 512 = k' / 512 / 512 mod 512 →
  k / 512 / 512 / 512 mod 512 = k' / 512 / 512 / 512 mod 512 → k mod 2 ^ 36 = k' mod 2 ^ 36.
Proof.
  intros H1 H2 H3 H4.
  assert (∀ x, x mod 2 ^ 36 = 512 * (512 * (512 * (x / 512 / 512 / 512 mod 512) +
    x / 512 / 512 mod 512) + x / 512 mod 512) + x mod 512) as Hd; [|rewrite !Hd; congruence].
  intros x. change (2 ^ 36) with (512 * (512 * (512 * 512))). rewrite !Z.rem_mul_r by lia. lia.
Qed.

Lemma page_indices_inj q q' :
  canonical q = true → canonical q' = true → page_aligned q = true → page_aligned q' = true →
  (page_path q', p1_index q') = (page_path q, p1_index q) → q' = q.
Proof.
  unfold page_path, canonical, page_aligned, PAGE_SIZE.
  rewrite !p4_index_spec, !p3_index_spec, !p2_index_spec, !p1_index_spec.
  intros Hc Hc' Ha Ha' E. injection E as E4 E3 E2 E1.
  assert (q' / 4096 mod 2 ^ 36 = q / 4096 mod 2 ^ 36) as Hmod.
  { apply digits_inj; rewrite ?Z.div_div by lia; apply Z2Nat.inj; try (apply Z.mod_pos_bound; lia);
      assumption. }
  apply orb_true_iff in Hc, Hc'. rewrite !andb_true_iff in Hc, Hc'. clear E4 E3 E2 E1.
  rewrite Z.eqb_eq in Ha, Ha'. 
  pose proof (Z.div_mod q 4096 ltac:(lia)). pose proof (Z.div_mod q' 4096 ltac:(lia)).
  set (k := q / 4096) in *. set (k' := q' / 4096) in *.
  pose proof (Z.div_mod k (2 ^ 36) ltac:(lia)). pose proof (Z.div_mod k' (2 ^ 36) ltac:(lia)).
  lia.
Qed.
End page_tables.

(** ** The state of the kernel's memory *)

Section kmem.
Context {X : X86} {P : Type} {FA : FrameAllocator P} {FAO : FrameAllocatorOk P}.
Context {V : Type} {WC : WindowCache V} {WCO : WindowCacheOk V}.

Record kmem_inv (s : Kmem P V) (p4 : Z) (lv : Z → nat) : Prop := {
  ki_pmm : fa_inv (k_pmm s);
  ki_vc : wc_inv (k_vc s);
  ki_root : wc_shows (k_vc s) (k_p4 s) p4;
  ki_pt : pt_inv (fa_free (k_pmm s)) (k_mem s) p4 lv;
}.

(** The tables stay well-formed when the allocator hands out frames. *)
Lemma pt_inv_shrink free free' mem p4 lv :
  free' ⊆ free → pt_inv free mem p4 lv → pt_inv free' mem p4 lv.
Proof.
  intros Hsub [H1 H2 H3 H4 H5]. split; try done.
  - intros f t Ht. destruct (H3 f t Ht) as (? & ? & ? & ?). split_and!; try done. set_solver.
  - intros f t i e c Ht Hl Hi He. destruct (H4 f t i e c Ht Hl Hi He). split; [set_solver|done].
Qed.

(** The frames [U] are neither tables nor pointed to by one that is not a
    last-level table. *)
Definition sealed (U : gset Z) (s : Kmem P V) (p4 : Z) : Prop := ∃ lv, pt_inv U (k_mem s) p4 lv.
(** From [s] to [s'] only frames that were free have become tables. *)
Definition seals (p4 : Z) (s s' : Kmem P V) : Prop := ∀ U, fa_free (k_pmm s) ⊆ U →
  sealed U s p4 → sealed (U ∖ (fa_free (k_pmm s) ∖ fa_free (k_pmm s'))) s' p4.

(** [s'] has at most [n] more tables than [s], and translates as [s] does. *)
Record grows (n : nat) (p4 : Z) (s s' : Kmem P V) (lv lv' : Z → nat) : Prop := {
  gr_level g : is_Some (k_mem s !! g) → is_Some (k_mem s' !! g) ∧ lv' g = lv g;
  gr_walk ix h : (length ix ≤ 3)%nat → walk (k_mem s) p4 ix = Some h → walk (k_mem s') p4 ix = Some h;
  gr_translate q : translate (k_mem s') p4 q = translate (k_mem s) p4 q;
  gr_clear ix : Forall (λ j, j < 512)%nat ix → (length ix ≤ 3)%nat →
    clear_path (k_mem s) p4 ix = true → clear_path (k_mem s') p4 ix = true;
  gr_p4 : k_p4 s' = k_p4 s;
  gr_tlb : k_tlb s' = k_tlb s;
  gr_free : fa_free (k_pmm s') ⊆ fa_free (k_pmm s);
  gr_size : (size (fa_free (k_pmm s)) ≤ size (fa_free (k_pmm s')) + n)%nat;
  gr_managed f : fa_managed (k_pmm s') f ↔ fa_managed (k_pmm s) f;
  gr_dom g : is_Some (k_mem s' !! g) →
    is_Some (k_mem s !! g) ∨ g ∈ fa_free (k_pmm s) ∖ fa_free (k_pmm s');
}.

(** [s'] differs from [s] at most in the translation of the pages [ps], and
    has at most [n] frames fewer. *)
Record remaps `{X86} (n : nat) (p4 : Z) (ps : list Z) (s s' : Kmem P V) : Prop := {
  rm_other q : canonical q = true → page_aligned q = true → q ∉ ps →
    translate (k_mem s') p4 q = translate (k_mem s) p4 q;
  rm_clear ix : Forall (λ j, j < 512)%nat ix → (length ix ≤ 3)%nat →
    clear_path (k_mem s) p4 ix = true → clear_path (k_mem s') p4 ix = true;
  rm_p4 : k_p4 s' = k_p4 s;
  rm_free : fa_free (k_pmm s') ⊆ fa_free (k_pmm s);
  rm_size : (size (fa_free (k_pmm s)) ≤ size (fa_free (k_pmm s')) + n)%nat;
  rm_managed f : fa_managed (k_pmm s') f ↔ fa_managed (k_pmm s) f;
  (** A new table is a frame that was free. *)
  rm_dom g : is_Some (k_mem s' !! g) →
    is_Some (k_mem s !! g) ∨ g ∈ fa_free (k_pmm s) ∖ fa_free (k_pmm s');
  rm_seals : seals p4 s s';
  (** No page of kernel space is opened to user code. *)
  rm_user q : canonical q = true → page_aligned q = true → KVMSPACE < q →
    user_page (k_mem s') p4 q → user_page (k_mem s) p4 q;
}.

Definition good_page (q : Z) : Prop := canonical q = true ∧ page_aligned q = true.

(** Page and frame number [i] of a request can be mapped. *)
Definition can_map_page (s : Kmem P V) (p4 page phys i : Z) : Prop :=
  good_page (page + i * PAGE_SIZE) ∧ good_frame (phys + i * PAGE_SIZE) ∧
  clear_path (k_mem s) p4 (page_path (page + i * PAGE_SIZE)) = true.

(** The number of pages of a request of [size] bytes. *)
Definition pages_for (size : Z) : Z := (size + PAGE_SIZE - 1) / PAGE_SIZE.

(** The pages of a request. *)
Definition request_pages (page : Z) (l : list Z) : list Z := (λ i, page + i * PAGE_SIZE) <$> l.
End kmem.

Section mapper_proofs.
Context {X : X86} {XO : X86Ok X} {P : Type} {FA : FrameAllocator P} {FAO : FrameAllocatorOk P}.
Context {V : Type} {WC : WindowCache V} {WCO : WindowCacheOk V}.
Implicit Types (s : Kmem P V).

Lemma seals_shrink p4 s s' :
  k_mem s' = k_mem s → fa_free (k_pmm s') ⊆ fa_free (k_pmm s) → seals p4 s s'.
Proof.
  intros E Hsub U HU [lv Hpt]. exists lv. rewrite E. eapply pt_inv_shrink; [|exact Hpt]. set_solver.
Qed.
Lemma seals_trans p4 s1 s2 s3 :
  fa_free (k_pmm s2) ⊆ fa_free (k_pmm s1) → fa_free (k_pmm s3) ⊆ fa_free (k_pmm s2) →
  seals p4 s1 s2 → seals p4 s2 s3 → seals p4 s1 s3.
Proof.
  intros H12 H23 A B U HU Hs. specialize (A U HU Hs). destruct (B (U ∖ (fa_free (k_pmm s1) ∖ fa_free (k_pmm s2)))) as [lv Hpt]; [set_solver|done|].
  exists lv. eapply pt_inv_shrink; [|exact Hpt]. set_solver.
Qed.

Lemma grows_refl p4 s lv : grows 0 p4 s s lv lv.
Proof. split; try done; [lia|by left]. Qed.

Lemma grows_vc p4 s lv v : grows 0 p4 s (set_vc v s) lv lv.
Proof. split; simpl; try done; [lia|by left]. Qed.

Lemma grows_trans n m p4 s1 s2 s3 lv1 lv2 lv3 :
  grows n p4 s1 s2 lv1 lv2 → grows m p4 s2 s3 lv2 lv3 → grows (n + m) p4 s1 s3 lv1 lv3.
Proof.
  intros [A1 A2 A3 A4 A5 A6 A7 A8 A9 A10] [B1 B2 B3 B4 B5 B6 B7 B8 B9 B10]. split.
  - intros g Hg. destruct (A1 g Hg) as [Hg2 E]. destruct (B1 g Hg2). split; [done|congruence].
  - auto.
  - intros q. by rewrite B3.
  - auto.
  - congruence.
  - congruence.
  - set_solver.
  - lia.
  - intros f. by rewrite B9.
  - intros g [Hg|Hg]%B10; [apply A10 in Hg as [?|Hg]; [by left|]|]; right; set_solver.
Qed.

Lemma win_frame_run s page f :
  wc_inv (k_vc s) → wc_shows (k_vc s) page f → win_frame page s = Ok (f, s).
Proof. intros Hv Hs. unfold win_frame. by rewrite (wc_frame_shows _ _ _ Hv Hs). Qed.

Lemma read_win_run s page f t i e :
  wc_inv (k_vc s) → wc_shows (k_vc s) page f → k_mem s !! f = Some t → t !! i = Some e →
  read_place (Win page i) s = Ok (e, s).
Proof.
  intros Hv Hs Ht Hi. unfold read_place, place_frame. rewrite M_bind_assoc.
  run_step (win_frame_run s page f Hv Hs). unfold mbind, M_bind, mret, M_ret, get, lift.
  rewrite Ht. simpl. by rewrite Hi.
Qed.

Lemma write_win_run s page f t i e :
  wc_inv (k_vc s) → wc_shows (k_vc s) page f → k_mem s !! f = Some t → (i < length t)%nat →
  write_place (Win page i) e s = Ok (tt, set_mem (<[f := <[i := e]> t]> (k_mem s)) s).
Proof.
  intros Hv Hs Ht Hi. unfold write_place, place_frame. rewrite M_bind_assoc.
  run_step (win_frame_run s page f Hv Hs). unfold mbind, M_bind, mret, M_ret, get, lift.
  rewrite Ht. simpl. destruct (Nat.ltb_spec i (length t)); [done|lia].
Qed.

(** Allocating a table for an entry that is reached through a window. *)
Lemma alloc_substruct_run s page f t i flags :
  fa_inv (k_pmm s) → wc_inv (k_vc s) → wc_shows (k_vc s) page f →
  k_mem s !! f = Some t → (i < length t)%nat → kernel_flags flags →
  fl_contains flags PRESENT = true → (1 ≤ size (fa_free (k_pmm s)))%nat →
  ∃ c p' e, alloc_substruct (Win page i) flags false s =
      Ok (c, set_mem (<[f := <[i := e]> t]> (k_mem s)) (set_pmm p' s)) ∧
    fa_inv p' ∧ c ∈ fa_free (k_pmm s) ∧ good_frame c ∧ fa_free p' = fa_free (k_pmm s) ∖ {[c]} ∧
    (∀ g, fa_managed p' g ↔ fa_managed (k_pmm s) g) ∧
    pte_frame e = Some c ∧ pte_flags e = flags.
Proof.
  intros Hp Hv Hs Ht Hi Hk Hpr Hsz.
  destruct (fa_alloc_ok (k_pmm s) Hp) as [[_ E]|(c & p' & Hal & Hp' & Hc & Hfree & Hman)].
  { rewrite E, size_empty in Hsz. lia. }
  destruct (fa_free_managed _ _ Hp Hc) as [_ Hg]. destruct Hg as [Hal' Hw].
  destruct (pte_set_frame_spec c flags Hw Hal' Hk) as (e & He & Hfl & Hfr).
  exists c, p', e. split_and!; auto; [|by split].
  unfold alloc_substruct, palloc. run_step (zoom_run k_pmm set_pmm _ s _ _ Hal). simpl.
  unfold mret, M_ret. unfold mbind at 1, M_bind at 1.
  rewrite (M_bind_run _ _ _ _ _ (write_win_run (set_pmm p' s) page f t i pte_new Hv Hs Ht Hi)).
  rewrite (M_bind_run _ _ _ e _ (lift_run _ _ _ (f_equal (of_option Crate) He))).
  rewrite (M_bind_run _ _ _ _ _ (write_win_run
    (set_mem (<[f := <[i := pte_new]> t]> (k_mem s)) (set_pmm p' s)) page f
    (<[i := pte_new]> t) i e Hv Hs (lookup_insert_eq _ _ _) ltac:(by rewrite length_insert))).
  unfold set_mem. simpl. by rewrite insert_insert_eq, list_insert_insert_eq.
Qed.

Lemma grows_le n m p4 s s' lv lv' : (n ≤ m)%nat → grows n p4 s s' lv lv' → grows m p4 s s' lv lv'.
Proof. intros Hle []. split; auto. lia. Qed.

(** The flags of a new table entry. *)
Lemma table_flags_ok page :
  let flags := fl_union WRITABLE PRESENT in
  let flags := if page <? KVMSPACE then fl_union flags USER_ACCESSIBLE else flags in
  kernel_flags flags ∧ fl_contains flags PRESENT = true.
Proof.
  destruct kernel_flags_const as (_ & Hp & Hw & Hu & _). simpl.
  assert (fl_contains (fl_union WRITABLE PRESENT) PRESENT = true) as H1 by apply union_present.
  destruct (page <? KVMSPACE); [|auto with helium]. split; [auto with helium|].
  rewrite contains_present in H1 |- *. by rewrite (fl_union_spec _ USER_ACCESSIBLE), Z.lor_spec, H1.
Qed.

(** Steps shared by the two branches of [ensure_allocated]. *)
Lemma ensure_alloc_created s ep f ix t i e0 page mp f0 p4 lv :
  kmem_inv s p4 lv → wc_shows (k_vc s) ep f → k_mem s !! f = Some t →
  walk (k_mem s) p4 ix = Some f → (length ix ≤ 2)%nat →
  t !! i = Some e0 → pte_is_unused e0 = true → wc_shows (k_vc s) mp f0 → mp ≠ ep →
  mp ≠ k_p4 s → (1 ≤ size (fa_free (k_pmm s)))%nat →
  ∃ s' lv' c, ensure_allocated (Win ep i) page mp s = Ok (mp, s') ∧ kmem_inv s' p4 lv' ∧
    (grows 1 p4 s s' lv lv' ∧ seals p4 s s') ∧ next (k_mem s') f i = Some c ∧ wc_shows (k_vc s') mp c ∧
    same_windows (wc_shows (k_vc s)) (wc_shows (k_vc s')) [mp].
Proof.
  intros [Hp Hv Hroot Hpt] Hs Ht Hw Hix Hi Hun Hmp Hne Hnp4 Hsz.
  assert (∀ U lv, pt_inv U (k_mem s) p4 lv → (2 ≤ lv f)%nat) as Hlvs.
  { intros U lv1 Hpt1. pose proof (pt_root_level _ _ _ _ Hpt1) as Hrl.
    destruct (walk_level _ _ _ _ _ ix f Hpt1 (pt_root _ _ _ _ Hpt1) ltac:(lia) Hw) as [Hl _]. lia. }
  pose proof (Hlvs _ _ Hpt) as Hlv. destruct (table_flags_ok page) as [Hk Hpr].
  assert (i < length t)%nat as Hit by (by eapply lookup_lt_Some).
  destruct (alloc_substruct_run s ep f t i _ Hp Hv Hs Ht Hit Hk Hpr Hsz)
    as (c & p' & e & Hrun & Hp' & Hc & Hgc & Hfree & Hman & Hfr & _).
  set (s1 := set_mem _ _) in Hrun.
  destruct (wc_remap_ok (k_vc s) mp f0 c Hv Hmp Hgc) as (v' & Hremap & Hv' & Hshow & Hsame).
  assert (k_mem s1 !! f = Some (<[i := e]> t)) as Ht1 by apply lookup_insert_eq.
  assert (<[i := e]> t !! i = Some e) as Hi1 by (by apply list_lookup_insert_eq).
  exists (set_mem (add_table (k_mem s) f t i e c) (set_vc v' s1)), (add_level lv f c), c.
  assert (∀ g, is_Some (k_mem s !! g) → g ≠ c) as Hnc.
  { intros g Hg ->. erewrite add_fresh in Hg by done. by destruct Hg. }
  split_and!.
  - unfold ensure_allocated. run_step (read_win_run s ep f t i e0 Hv Hs Ht Hi). rewrite Hun.
    rewrite M_bind_assoc. run_step Hrun. unfold mret, M_ret. unfold mbind at 1, M_bind at 1.
    run_step (read_win_run s1 ep f _ i e Hv Hs Ht1 Hi1).
    rewrite (M_bind_run _ _ _ c _ (lift_run _ _ _ (proj2 (unwrap_Ok _ _) Hfr))).
    unfold on_vc. run_step (zoom_run k_vc set_vc _ s1 _ _ Hremap).
    unfold lift, unwrap, of_option. unfold mbind at 1, M_bind at 1. rewrite M_bind_assoc.
    run_step (win_frame_run (set_vc v' s1) mp c Hv' Hshow). unfold clear_frame, modify.
    unfold mbind, M_bind. unfold set_mem, set_vc, s1. simpl. done.
  - split; simpl; [done|done| |].
    + apply Hsame; [set_solver|done].
    + rewrite Hfree. by eapply add_table_inv.
  - split; simpl; try done.
    + intros g Hg. split; [by eapply add_dom; eauto|by eapply add_level_old].
    + intros ix1 h. by eapply walk_add_Some.
    + intros q. by eapply translate_add.
    + intros ix1 Hix1 Hlen. eapply clear_add; try done. rewrite (pt_root_level _ _ _ _ Hpt). lia.
    + rewrite Hfree. set_solver.
    + rewrite Hfree, size_difference, size_singleton by set_solver. lia.
    + intros g Hg. eapply add_dom in Hg as [->|Hg]; try done; [right; set_solver|by left].
  - intros U HU [lv1 Hpt1]. exists (add_level lv1 f c). cbn [k_mem k_pmm set_mem set_vc s1 set_pmm]. rewrite Hfree.
    eapply pt_inv_shrink; [|eapply add_table_inv; [exact Hpt1|exact Ht|by eapply Hlvs|exact Hi|exact Hun|by apply HU|exact Hgc|exact Hfr]].
    set_solver.
  - by eapply next_add_new.
  - done.
  - done.
Qed.

Lemma ensure_alloc_found s ep f t i e0 c page mp f0 p4 lv :
  kmem_inv s p4 lv → wc_shows (k_vc s) ep f → k_mem s !! f = Some t → 
  t !! i = Some e0 → pte_frame e0 = Some c → is_Some (k_mem s !! c) →
  wc_shows (k_vc s) mp f0 → mp ≠ k_p4 s →
  ∃ s' lv' c, ensure_allocated (Win ep i) page mp s = Ok (mp, s') ∧ kmem_inv s' p4 lv' ∧
    (grows 1 p4 s s' lv lv' ∧ seals p4 s s') ∧ next (k_mem s') f i = Some c ∧ wc_shows (k_vc s') mp c ∧
    same_windows (wc_shows (k_vc s)) (wc_shows (k_vc s')) [mp].
Proof.
  intros [Hp Hv Hroot Hpt] Hs Ht Hi Hfr Hc Hmp Hnp4. destruct Hc as [tc Htc].
  destruct (pt_table _ _ _ _ Hpt _ _ Htc) as (_ & Hgc & _).
  destruct (wc_remap_ok (k_vc s) mp f0 c Hv Hmp Hgc) as (v' & Hremap & Hv' & Hshow & Hsame).
  exists (set_vc v' s), lv, c. split_and!; try done.
  - unfold ensure_allocated. run_step (read_win_run s ep f t i e0 Hv Hs Ht Hi).
    destruct (pte_is_unused e0) eqn:E; [by rewrite unused_frame in Hfr|].
    unfold mret, M_ret. unfold mbind at 1, M_bind at 1.
    run_step (read_win_run s ep f t i e0 Hv Hs Ht Hi).
    rewrite (M_bind_run _ _ _ c _ (lift_run _ _ _ (proj2 (unwrap_Ok _ _) Hfr))).
    unfold on_vc. by run_step (zoom_run k_vc set_vc _ s _ _ Hremap).
  - split; simpl; try done. apply Hsame; [set_solver|done].
  - eapply grows_le; [|apply grows_vc]. lia.
  - by apply seals_shrink.
  - apply next_Some. exists t, e0. simpl. eauto.
Qed.

(** There are [n] frames for a run, or it returns anyway. *)
Definition enough {A} (n : nat) (m : M (Kmem P V) A) s : Prop := (n ≤ size (fa_free (k_pmm s)))%nat ∨ returns m s.

(** A run that hangs up a new table has found a frame. *)
Lemma ensure_alloc_frame s ep f t i e0 page mp p4 lv :
  kmem_inv s p4 lv → wc_shows (k_vc s) ep f → k_mem s !! f = Some t → t !! i = Some e0 → pte_is_unused e0 = true →
  enough 1 (ensure_allocated (Win ep i) page mp) s → (1 ≤ size (fa_free (k_pmm s)))%nat.
Proof.
  intros [Hp Hv _ _] Hs Ht Hi Hun [Hle|Hret]; [done|]. unfold ensure_allocated in Hret.
  apply (returns_snd _ _ _ _ _ (read_win_run s ep f t i e0 Hv Hs Ht Hi)), returns_fst in Hret. rewrite Hun in Hret.
  apply returns_fst in Hret. unfold alloc_substruct in Hret.
  destruct (fa_alloc_ok (k_pmm s) Hp) as [[E _]|(c & p' & _ & _ & Hc & _)].
  - apply (returns_snd _ _ s None s) in Hret; [by destruct Hret as (? & ? & ?)|].
    unfold palloc. rewrite (zoom_run k_pmm set_pmm _ s _ _ E). by destruct s.
  - apply Nat.le_succ_l, Nat.neq_0_lt_0. intros Hz%size_empty_inv. set_solver.
Qed.

(** [ensure_allocated] leaves a window on the next table of the walk. *)
Lemma ensure_allocated_ok s ep f ix i page mp f0 p4 lv :
  kmem_inv s p4 lv → wc_shows (k_vc s) ep f → walk (k_mem s) p4 ix = Some f →
  (length ix ≤ 2)%nat → clear_path (k_mem s) p4 (ix ++ [i]) = true →
  wc_shows (k_vc s) mp f0 → mp ≠ ep → mp ≠ k_p4 s → enough 1 (ensure_allocated (Win ep i) page mp) s →
  ∃ s' lv' c, ensure_allocated (Win ep i) page mp s = Ok (mp, s') ∧ kmem_inv s' p4 lv' ∧
    (grows 1 p4 s s' lv lv' ∧ seals p4 s s') ∧ walk (k_mem s') p4 (ix ++ [i]) = Some c ∧ wc_shows (k_vc s') mp c ∧
    same_windows (wc_shows (k_vc s)) (wc_shows (k_vc s')) [mp].
Proof.
  intros Hinv Hs Hw Hlen Hcl Hmp Hne Hnp4 Hsz. pose proof (ki_pt _ _ _ Hinv) as Hpt.
  pose proof (pt_root_level _ _ _ _ Hpt) as Hrl.
  destruct (walk_level _ _ _ _ _ ix f Hpt (pt_root _ _ _ _ Hpt) ltac:(lia) Hw) as [Hl _].
  pose proof (clear_walk _ _ _ _ _ Hcl Hw) as Hcf. simpl in Hcf.
  destruct (k_mem s !! f) as [t|] eqn:Ht; [|done]. destruct (t !! i) as [e0|] eqn:Hi; [|done].
  assert (∃ s' lv' c, ensure_allocated (Win ep i) page mp s = Ok (mp, s') ∧ kmem_inv s' p4 lv' ∧
    (grows 1 p4 s s' lv lv' ∧ seals p4 s s') ∧ next (k_mem s') f i = Some c ∧ wc_shows (k_vc s') mp c ∧
    same_windows (wc_shows (k_vc s)) (wc_shows (k_vc s')) [mp])
    as (s' & lv' & c & Hrun & Hinv' & [Hgr Hse] & Hnext & Hsh & Hsw).
  { destruct (pte_is_unused e0) eqn:Hun.
    - eapply (ensure_alloc_created s ep f ix); try done. exact (ensure_alloc_frame s ep f t i e0 page mp p4 lv Hinv Hs Ht Hi Hun Hsz).
    - simpl in Hcf. destruct (pte_frame e0) as [c|] eqn:Hfr; [|done].
      eapply ensure_alloc_found; try done. destruct (k_mem s !! c); done. }
  exists s', lv', c. split_and!; try done.
  rewrite walk_app. rewrite (gr_walk _ _ _ _ _ _ Hgr ix f ltac:(lia) Hw). simpl. by rewrite Hnext.
Qed.

Lemma remaps_trans n m p4 ps qs s1 s2 s3 :
  remaps n p4 ps s1 s2 → remaps m p4 qs s2 s3 → remaps (n + m) p4 (ps ++ qs) s1 s3.
Proof.
  intros [A1 A2 A3 A4 A5 A6 A7 A8 A9] [B1 B2 B3 B4 B5 B6 B7 B8 B9]. split.
  - intros q ?? Hq. rewrite elem_of_app in Hq. rewrite B1, A1 by tauto. done.
  - auto.
  - congruence.
  - set_solver.
  - lia.
  - intros f. by rewrite B6.
  - intros g [Hg|Hg]%B7; [apply A7 in Hg as [?|Hg]; [by left|]|]; right; set_solver.
  - by eapply seals_trans.
  - auto.
Qed.

Lemma remaps_grows n p4 s s' lv lv' : grows n p4 s s' lv lv' → seals p4 s s' → remaps n p4 [] s s'.
Proof. intros []. split; auto. intros q _ _ _ (f & fl & Htr & Hu). exists f, fl. by rewrite <-gr_translate0. Qed.

Lemma remaps_refl p4 s s' :
  k_mem s' = k_mem s → k_pmm s' = k_pmm s → k_p4 s' = k_p4 s → remaps 0 p4 [] s s'.
Proof. intros E1 E2 E3. split; rewrite ?E1, ?E2, ?E3; try done; [lia|by left|]. apply seals_shrink; [done|by rewrite E2]. Qed.

Lemma leaf_flags_ok page flags :
  kernel_flags flags → kernel_flags (leaf_flags page flags) ∧
    fl_contains (leaf_flags page flags) PRESENT = true.
Proof.
  destruct kernel_flags_const as (_ & Hp & _ & _ & Hg). intros Hk. unfold leaf_flags.
  split; [|apply union_present]. destruct (_ <? _); auto with helium.
Qed.

(** The flags of a leaf, bit by bit. *)
Lemma leaf_flags_bits page flags :
  fl_contains (leaf_flags page flags) PRESENT = true ∧
  (KVMSPACE < page → fl_contains (leaf_flags page flags) USER_ACCESSIBLE = false ∧
    fl_contains (leaf_flags page flags) GLOBAL = true) ∧
  (page ≤ KVMSPACE →
    fl_contains (leaf_flags page flags) USER_ACCESSIBLE = fl_contains flags USER_ACCESSIBLE) ∧
  fl_contains (leaf_flags page flags) WRITABLE = fl_contains flags WRITABLE.
Proof.
  rewrite contains_present, !contains_user, !contains_global, !contains_writable.
  unfold leaf_flags. rewrite !fl_union_spec, fl_remove_spec.
  destruct flags_values as (-> & _ & -> & _ & ->).
  destruct (Z.ltb_spec KVMSPACE page);
    rewrite !Z.lor_spec, ?Z.ldiff_spec, ?Z.lor_spec; change (Z.testbit 1 0) with true;
    change (Z.testbit 1 1) with false; change (Z.testbit 1 2) with false;
    change (Z.testbit 4 1) with false; change (Z.testbit 4 2) with true;
    change (Z.testbit 256 1) with false; change (Z.testbit 1 8) with false;
    change (Z.testbit 4 8) with false; change (Z.testbit 256 8) with true;
    rewrite ?orb_false_r, ?orb_true_r, ?andb_true_r, ?andb_false_r; simpl; split_and!; done || lia.
Qed.

(** Writing the last-level entry of a page. *)
Lemma write_leaf_ok s p1 w page frame flags p4 lv :
  kmem_inv s p4 lv → wc_shows (k_vc s) w p1 → walk (k_mem s) p4 (page_path page) = Some p1 →
  good_page page → good_frame frame → kernel_flags flags → fl_contains flags PRESENT = true →
  (KVMSPACE < page → fl_contains flags USER_ACCESSIBLE = false) →
  ∃ e s', pte_set_frame frame flags = Some e ∧
    write_place (Win w (p1_index page)) e s = Ok (tt, s') ∧
    kmem_inv s' p4 lv ∧ translate (k_mem s') p4 page = Some (frame, flags) ∧
    remaps 0 p4 [page] s s' ∧ k_vc s' = k_vc s ∧ k_tlb s' = k_tlb s.
Proof.
  intros [Hp Hv Hroot Hpt] Hs Hw [Hcan Hal] [Hfal Hfw] Hk Hpr Hus.
  pose proof (pt_root_level _ _ _ _ Hpt) as Hrl.
  destruct (walk_level _ _ _ _ _ (page_path page) p1 Hpt (pt_root _ _ _ _ Hpt)
    ltac:(simpl; lia) Hw) as [Hl [t Ht]]. simpl in Hl.
  destruct (pt_table _ _ _ _ Hpt _ _ Ht) as (Hlen & _). destruct (page_indices_lt page) as [_ Hi].
  destruct (pte_set_frame_spec frame flags Hfw Hfal Hk) as (e & He & Hfl & Hfr).
  set (s' := set_mem (<[p1 := <[p1_index page := e]> t]> (k_mem s)) s).
  assert (translate (k_mem s') p4 page = Some (frame, flags)) as Htr.
  { simpl. erewrite leaf_translate; try done; [|lia]. by rewrite Hfr, Hfl. }
  assert (∀ q, canonical q = true → page_aligned q = true → q ∉ [page] → translate (k_mem s') p4 q = translate (k_mem s) p4 q) as Hoth.
  { intros q ?? Hq. eapply (leaf_translate_other _ _ _ _ _ _ _ _ Hpt Ht ltac:(lia) page); try done.
    intros E. apply page_indices_inj in E; [set_solver|done..]. }
  exists e, s'. split_and!; try done.
  - apply write_win_run; try done. by rewrite Hlen.
  - split; simpl; try done. eapply leaf_inv; try done. lia.
  - split; simpl; try done; [|lia| | |].
    + intros ix Hix Hle. eapply leaf_clear; try done; lia.
    + intros g Hg. left. by eapply leaf_dom.
    + intros U HU [lv1 Hpt1]. exists lv1. eapply pt_inv_shrink; [|eapply leaf_inv; [exact Hpt1|exact Ht|]]; [set_solver|].
      pose proof (pt_root_level _ _ _ _ Hpt1) as Hrl1.
      destruct (walk_level _ _ _ _ _ (page_path page) p1 Hpt1 (pt_root _ _ _ _ Hpt1) ltac:(simpl; lia) Hw) as [Hl1 _]. simpl in Hl1. lia.
    + intros q Hqc Hqa Hq (f & fl & Hf & Hu). destruct (decide (q = page)) as [->|Hne].
      * change (<[p1:=<[p1_index page:=e]> t]> (k_mem s)) with (k_mem s') in Hf. rewrite Htr in Hf. injection Hf as <- <-.
        by rewrite Hus in Hu.
      * exists f, fl. split; [|done]. rewrite <-Hoth; [done..|]. set_solver.
Qed.

(** A turn of the loop after its addresses were computed. *)
Definition map_walk (p4table page frame tmp0 tmp1 : Z) (detail : bool) (flags : Z) : M (Kmem P V) Z :=
  p3 ← ensure_allocated (Win p4table (p4_index page)) page tmp0;
  p2 ← ensure_allocated (Win p3 (p3_index page)) page tmp1;
  p1 ← ensure_allocated (Win p2 (p2_index page)) page tmp0;
  e ← lift (of_option Crate (pte_set_frame frame (leaf_flags page flags)));
  _ ← write_place (Win p1 (p1_index page)) e;
  _ ← (if detail then flush (FlushPage page) else mret tt);
  mret (leaf_flags page flags).

(** The addresses of a turn of the loop are computed without a panic. *)
Lemma map_step_args s page0 phys0 tmp0 tmp1 detail i flags :
  good_page page0 → good_page (page0 + i * PAGE_SIZE) →
  good_frame phys0 → good_frame (phys0 + i * PAGE_SIZE) → 0 ≤ i → i * PAGE_SIZE < 2 ^ 64 →
  let page := page0 + i * PAGE_SIZE in
  map_step page0 phys0 [tmp0; tmp1] detail i flags s =
    map_walk (k_p4 s) page (phys0 + i * PAGE_SIZE) tmp0 tmp1 detail flags s.
Proof.
  intros [Hc0 Ha0] [Hgc Hga] [Hfa0 Hfw0] [Hfa Hfw] Hi0 Hi64 page. unfold map_step.
  assert (of_option Crate (virt_add page0 (i * PAGE_SIZE)) = Ok page) as E1.
  { rewrite virt_add_spec by (done || unfold in_width, PAGE_SIZE in *; lia). by rewrite Hgc. }
  assert (unwrap (page_from_start page) = Ok page) as E2.
  { rewrite page_from_start_spec by done. unfold page. by rewrite Hga. }
  assert (of_option Crate (phys_add phys0 (i * PAGE_SIZE)) = Ok (phys0 + i * PAGE_SIZE)) as E3.
  { rewrite phys_add_spec by (done || unfold in_width, PAGE_SIZE in *; lia).
    destruct (Z.ltb_spec (phys0 + i * PAGE_SIZE) (2 ^ 52)); [done|destruct Hfw; lia]. }
  assert (unwrap (frame_from_start (phys0 + i * PAGE_SIZE)) = Ok (phys0 + i * PAGE_SIZE)) as E4.
  { rewrite frame_from_start_spec by done. by rewrite Hfa. }
  run_step (lift_run _ s _ E1). run_step (lift_run _ s _ E2). run_step (lift_run _ s _ E3).
  run_step (lift_run _ s _ E4).
  rewrite (M_bind_run (gets k_p4) _ s (k_p4 s) s eq_refl).
  rewrite (M_bind_run (lift (index [tmp0; tmp1] 0)) _ s tmp0 s eq_refl).
  rewrite (M_bind_run (lift (index [tmp0; tmp1] 1)) _ s tmp1 s eq_refl). done.
Qed.

(** One turn of the loop. *)
Lemma map_step_ok s page0 phys0 tmp0 tmp1 f0 f1 detail i flags p4 lv :
  kmem_inv s p4 lv → good_page page0 → good_page (page0 + i * PAGE_SIZE) →
  good_frame phys0 → good_frame (phys0 + i * PAGE_SIZE) → 0 ≤ i → i * PAGE_SIZE < 2 ^ 64 →
  wc_shows (k_vc s) tmp0 f0 → wc_shows (k_vc s) tmp1 f1 → tmp0 ≠ tmp1 →
  tmp0 ≠ k_p4 s → tmp1 ≠ k_p4 s → kernel_flags flags →
  clear_path (k_mem s) p4 (page_path (page0 + i * PAGE_SIZE)) = true →
  enough 3 (map_step page0 phys0 [tmp0; tmp1] detail i flags) s →
  let page := page0 + i * PAGE_SIZE in
  let fl := leaf_flags page flags in
  ∃ s' lv', map_step page0 phys0 [tmp0; tmp1] detail i flags s = Ok (fl, s') ∧
    kmem_inv s' p4 lv' ∧ translate (k_mem s') p4 page = Some (phys0 + i * PAGE_SIZE, fl) ∧
    remaps 3 p4 [page] s s' ∧
    k_tlb s' = (if detail then [FlushPage page] else []) ++ k_tlb s ∧
    same_windows (wc_shows (k_vc s)) (wc_shows (k_vc s')) [tmp0; tmp1] ∧
    (∃ g0, wc_shows (k_vc s') tmp0 g0) ∧ (∃ g1, wc_shows (k_vc s') tmp1 g1).
Proof.
  intros Hinv [Hc0 Ha0] Hgp [Hfa0 Hfw0] Hgf Hi0 Hi64 Ht0 Ht1 Hne Hn0 Hn1 Hk Hcl Hsz page fl.
  pose proof (page_indices_lt page) as [Hix _].
  assert ((3 ≤ size (fa_free (k_pmm s)))%nat ∨ returns (map_walk (k_p4 s) page (phys0 + i * PAGE_SIZE) tmp0 tmp1 detail flags) s) as Hret
    by (destruct Hsz as [?|Hsz]; [by left|right]; unfold returns in *; by rewrite map_step_args in Hsz).
  clear Hsz. unfold map_walk in Hret.
  assert (∀ s1 k, clear_path (k_mem s1) p4 (page_path page) = true →
    clear_path (k_mem s1) p4 (take k (page_path page)) = true) as Hclk.
  { intros s1 k Hk1. apply (clear_prefix _ _ _ (drop k (page_path page))). by rewrite take_drop. }
  destruct (ensure_allocated_ok s (k_p4 s) p4 [] (p4_index page) page tmp0 f0 p4 lv)
    as (s1 & lv1 & c3 & Hr1 & Hinv1 & [Hg1 Hse1] & Hw1 & Hsh1 & Hsw1); try done;
    [apply Hinv|simpl; lia|by apply (Hclk s 1%nat)|eapply or_returns_fst; [|exact Hret]; lia|].
  assert (clear_path (k_mem s1) p4 (page_path page) = true) as Hcl1
    by (eapply (gr_clear _ _ _ _ _ _ Hg1); done || (simpl; lia)).
  pose proof (gr_size _ _ _ _ _ _ Hg1) as Hsz1. pose proof (gr_p4 _ _ _ _ _ _ Hg1) as Hp41.
  pose proof (or_returns_snd (3 ≤ size (fa_free (k_pmm s)))%nat (2 ≤ size (fa_free (k_pmm s1)))%nat _ _ _ _ _ Hr1 ltac:(lia) Hret) as Hret1. cbv beta in Hret1.
  assert (wc_shows (k_vc s1) tmp1 f1) as Ht1' by (apply Hsw1; [set_solver|done]).
  destruct (ensure_allocated_ok s1 tmp0 c3 [p4_index page] (p3_index page) page tmp1 f1 p4 lv1)
    as (s2 & lv2 & c2 & Hr2 & Hinv2 & [Hg2 Hse2] & Hw2 & Hsh2 & Hsw2); try done;
    [simpl; lia|by apply (Hclk s1 2%nat)|congruence|eapply or_returns_fst; [|exact Hret1]; lia|].
  assert (clear_path (k_mem s2) p4 (page_path page) = true) as Hcl2
    by (eapply (gr_clear _ _ _ _ _ _ Hg2); done || (simpl; lia)).
  pose proof (gr_size _ _ _ _ _ _ Hg2) as Hsz2. pose proof (gr_p4 _ _ _ _ _ _ Hg2) as Hp42.
  pose proof (or_returns_snd (2 ≤ size (fa_free (k_pmm s1)))%nat (1 ≤ size (fa_free (k_pmm s2)))%nat _ _ _ _ _ Hr2 ltac:(lia) Hret1) as Hret2. cbv beta in Hret2.
  assert (wc_shows (k_vc s2) tmp0 c3) as Ht0' by (apply Hsw2; [set_solver|done]).
  destruct (ensure_allocated_ok s2 tmp1 c2 [p4_index page; p3_index page] (p2_index page) page
    tmp0 c3 p4 lv2) as (s3 & lv3 & c1 & Hr3 & Hinv3 & [Hg3 Hse3] & Hw3 & Hsh3 & Hsw3); try done;
    [congruence|eapply or_returns_fst; [|exact Hret2]; lia|].
  assert (wc_shows (k_vc s3) tmp1 c2) as Ht1'' by (apply Hsw3; [set_solver|done]).
  destruct (leaf_flags_ok page flags Hk) as [Hkf Hpr].
  destruct (write_leaf_ok s3 c1 tmp0 page (phys0 + i * PAGE_SIZE) fl p4 lv3)
    as (e & s4 & He & Hr4 & Hinv4 & Htr & Hrm & Hvc & Htlb); try done; [apply leaf_flags_bits|].
  set (s5 := mkKmem (k_pmm s4) (k_vc s4) (k_mem s4) (k_p4 s4)
    ((if detail then [FlushPage page] else []) ++ k_tlb s4)).
  exists s5, lv3. split_and!.
  - rewrite map_step_args by done. unfold map_walk.
    run_step Hr1. run_step Hr2. run_step Hr3.
    run_step (lift_run _ s3 _ (f_equal (of_option Crate) He)).
    run_step Hr4. unfold s5. destruct detail; [done|]. simpl. by destruct s4.
  - destruct Hinv4. by split.
  - done.
  - pose proof (remaps_grows _ _ _ _ _ _ Hg1 Hse1) as R1. pose proof (remaps_grows _ _ _ _ _ _ Hg2 Hse2) as R2.
    pose proof (remaps_grows _ _ _ _ _ _ Hg3 Hse3) as R3.
    pose proof (remaps_trans _ _ _ _ _ _ _ _ R1 R2) as R12.
    pose proof (remaps_trans _ _ _ _ _ _ _ _ R12 R3) as R13.
    pose proof (remaps_trans _ _ _ _ _ _ _ _ R13 Hrm) as [].
    by split.
  - simpl. rewrite Htlb, (gr_tlb _ _ _ _ _ _ Hg3), (gr_tlb _ _ _ _ _ _ Hg2), (gr_tlb _ _ _ _ _ _ Hg1).
    done.
  - simpl. rewrite Hvc. intros q g Hq. rewrite (Hsw3 q g), (Hsw2 q g), (Hsw1 q g) by set_solver. done.
  - simpl. rewrite Hvc. eauto.
  - simpl. rewrite Hvc. eauto.
Qed.

(** A second turn of the loop does not change the flags again. *)
Lemma leaf_flags_idem page page' flags :
  (KVMSPACE <? page') = (KVMSPACE <? page) →
  leaf_flags page' (leaf_flags page flags) = leaf_flags page flags.
Proof.
  unfold leaf_flags. intros ->. rewrite !fl_union_spec. destruct (KVMSPACE <? page).
  - rewrite !fl_remove_spec. apply Z.bits_inj'. intros k Hk.
    rewrite !Z.lor_spec, !Z.ldiff_spec, !Z.lor_spec, !Z.ldiff_spec, !Z.lor_spec.
    destruct flags_values as (-> & _ & -> & _ & ->).
    by destruct (Z.testbit flags k), (Z.testbit 256 k), (Z.testbit 1 k), (Z.testbit 4 k).
  - by rewrite <-Z.lor_assoc, Z.lor_diag.
Qed.

Lemma can_map_page_remaps s s' n ps p4 page phys i :
  remaps n p4 ps s s' → can_map_page s p4 page phys i → can_map_page s' p4 page phys i.
Proof.
  intros Hr (Hp & Hf & Hcl). split_and!; try done. apply (rm_clear _ _ _ _ _ Hr); try done.
  apply page_indices_lt.
Qed.

(** The whole loop, for requests that stay in one half of the address space. *)
Lemma map_loop_ok l b s page0 phys0 tmp0 tmp1 f0 f1 detail flags p4 lv :
  NoDup l → kmem_inv s p4 lv → good_page page0 → good_frame phys0 →
  (∀ i, i ∈ l → 0 ≤ i ∧ i * PAGE_SIZE < 2 ^ 64 ∧ can_map_page s p4 page0 phys0 i ∧
    (KVMSPACE <? page0 + i * PAGE_SIZE) = b) →
  wc_shows (k_vc s) tmp0 f0 → wc_shows (k_vc s) tmp1 f1 → tmp0 ≠ tmp1 →
  tmp0 ≠ k_p4 s → tmp1 ≠ k_p4 s → kernel_flags flags →
  enough (3 * length l) (map_loop page0 phys0 [tmp0; tmp1] detail l flags) s →
  ∃ s' lv', map_loop page0 phys0 [tmp0; tmp1] detail l flags s = Ok (tt, s') ∧
    kmem_inv s' p4 lv' ∧
    (∀ i, i ∈ l → translate (k_mem s') p4 (page0 + i * PAGE_SIZE) =
      Some (phys0 + i * PAGE_SIZE, leaf_flags (page0 + i * PAGE_SIZE) flags)) ∧
    remaps (3 * length l) p4 (request_pages page0 l) s s' ∧
    k_tlb s' = (if detail then reverse (FlushPage <$> request_pages page0 l) else []) ++ k_tlb s ∧
    same_windows (wc_shows (k_vc s)) (wc_shows (k_vc s')) [tmp0; tmp1] ∧
    (∃ g0, wc_shows (k_vc s') tmp0 g0) ∧ (∃ g1, wc_shows (k_vc s') tmp1 g1).
Proof.
  intros Hnd. revert s lv flags f0 f1.
  induction Hnd as [|i l Hil Hnd IH]; intros s lv flags f0 f1 Hinv Hp0 Hf0 Hl Ht0 Ht1 Hne Hn0 Hn1 Hk Hsz.
  { exists s, lv. split_and!; try done; eauto; [by intros i Hi%elem_of_nil|by apply remaps_refl|].
    by destruct detail. }
  destruct (Hl i ltac:(set_solver)) as (Hi0 & Hi64 & (Hgp & Hgf & Hcl) & Hb).
  unfold enough in Hsz. cbn [length map_loop] in Hsz. destruct (map_step_ok s page0 phys0 tmp0 tmp1 f0 f1 detail i flags p4 lv)
    as (s1 & lv1 & Hr1 & Hinv1 & Htr & Hrm & Htlb & Hsw & [g0 Hg0] & [g1 Hg1]); try done.
  { eapply or_returns_fst; [|exact Hsz]. lia. }
  pose proof (rm_p4 _ _ _ _ _ Hrm) as Hp4. pose proof (rm_size _ _ _ _ _ Hrm).
  destruct (IH s1 lv1 (leaf_flags (page0 + i * PAGE_SIZE) flags) g0 g1)
    as (s' & lv' & Hr & Hinv' & Htr' & Hrm' & Htlb' & Hsw' & Hg0' & Hg1'); try done.
  { intros j Hj. destruct (Hl j ltac:(set_solver)) as (? & ? & ? & ?).
    split_and!; try done. by eapply can_map_page_remaps. }
  { congruence. } { congruence. } { by apply leaf_flags_ok. }
  { eapply (or_returns_snd _ _ _ _ _ _ _ Hr1); [|exact Hsz]. lia. }
  exists s', lv'. split_and!; try done.
  - simpl. run_step Hr1. done.
  - intros j [->|Hj]%elem_of_cons.
    + rewrite (rm_other _ _ _ _ _ Hrm'); [done|apply Hgp..|].
      intros (k & E & Hk')%list_elem_of_fmap. unfold PAGE_SIZE in E. assert (k = i) by lia. congruence.
    + rewrite (Htr' j Hj). destruct (Hl j ltac:(set_solver)) as (_ & _ & _ & Hbj).
      rewrite leaf_flags_idem by congruence. unfold leaf_flags. by rewrite Hb, Hbj.
  - replace (3 * length (i :: l))%nat with (3 + 3 * length l)%nat by (simpl; lia).
    change (request_pages page0 (i :: l)) with ([page0 + i * PAGE_SIZE] ++ request_pages page0 l).
    by eapply remaps_trans.
  - rewrite Htlb', Htlb. destruct detail; [|done].
    change (request_pages page0 (i :: l)) with (page0 + i * PAGE_SIZE :: request_pages page0 l).
    rewrite fmap_cons, reverse_cons, <-app_assoc. done.
  - intros q g Hq. by rewrite (Hsw' q g), (Hsw q g).
Qed.

(** A request whose pages are all canonical stays in one half. *)
Lemma request_half page n i :
  (∀ k, 0 ≤ k < n → canonical (page + k * PAGE_SIZE) = true) →
  page_aligned page = true → page ≠ KVMSPACE → 0 ≤ i < n →
  (KVMSPACE <? page + i * PAGE_SIZE) = (KVMSPACE <? page).
Proof.
  intros Hc Ha Hne Hi.
  assert (∀ k, 0 ≤ k → k < n → (page < 2 ^ 47 → page + k * PAGE_SIZE < 2 ^ 47)) as Hlow.
  { intros k Hk. pattern k. apply natlike_ind; [lia| |done]. clear k Hk. intros k Hk IH Hlt Hp.
    specialize (IH ltac:(lia) Hp). pose proof (Hc (Z.succ k) ltac:(lia)) as Hck.
    apply canonical_iff in Hck. apply page_aligned_iff in Ha. unfold PAGE_SIZE in *. zlia. }
  pose proof (Hc 0 ltac:(lia)) as H0. pose proof (Hc i Hi) as H1. specialize (Hlow i ltac:(lia) ltac:(lia)).
  apply canonical_iff in H0, H1. unfold KVMSPACE, PAGE_SIZE in *.
  destruct (Z.ltb_spec 0xFFFF800000000000 page),
    (Z.ltb_spec 0xFFFF800000000000 (page + i * 4096)); try done; lia.
Qed.

Lemma good_frame_0 : frame_containing 0 = 0 ∧ good_frame 0.
Proof.
  split; [|split; [done|unfold in_width; lia]].
  rewrite frame_containing_spec by (unfold in_width; lia). done.
Qed.

Lemma pages_for_bound size : 0 < size → 0 < pages_for size ∧ (pages_for size - 1) * PAGE_SIZE < size.
Proof. unfold pages_for, PAGE_SIZE. zlia. Qed.

(** A request inside the cache, or an empty one, is refused. *)
Lemma kernel_map_refuses s page phys size flags :
  (size = 0 → kernel_map page phys size flags s = Ok (RErr NullSize, s)) ∧
  (size ≠ 0 → START_ADDR ≤ page < START_ADDR + VC_SIZE →
    kernel_map page phys size flags s = Ok (RErr Managed, s)).
Proof.
  unfold kernel_map. split.
  - intros ->. done.
  - intros Hs Hp. destruct (Z.eqb_spec size 0); [done|].
    assert (of_option Crate (virt_add START_ADDR VC_SIZE) = Ok (START_ADDR + VC_SIZE)) as E.
    { by rewrite virt_add_spec. }
    run_step (lift_run _ s _ E).
    destruct (Z.leb_spec START_ADDR page), (Z.ltb_spec page (START_ADDR + VC_SIZE)); done || lia.
Qed.

(** The part of [map] before the loop. *)
Lemma kernel_map_start s page phys nbytes flags ps v1 :
  0 < nbytes → nbytes + PAGE_SIZE ≤ 2 ^ 64 →
  page < START_ADDR ∨ START_ADDR + VC_SIZE ≤ page →
  wc_map_many [0; 0] (k_vc s) = Ok (Some ps, v1) →
  let detail := fl_contains flags GLOBAL || (KVMSPACE <=? page) ||
    (pages_for nbytes <? RLCR3_THRESHOLD) in
  kernel_map page phys nbytes flags s =
    (_ ← map_loop page phys ps detail (range (pages_for nbytes)) flags;
     _ ← on_vc (wc_unmap_many ps);
     _ ← (if detail then mret tt else flush FlushAll);
     mret (ROk tt)) (set_vc v1 s).
Proof.
  intros Hs0 Hs64 Hnm Hmm detail. unfold kernel_map. destruct (Z.eqb_spec nbytes 0); [lia|].
  assert (of_option Crate (virt_add START_ADDR VC_SIZE) = Ok (START_ADDR + VC_SIZE)) as E.
  { by rewrite virt_add_spec. }
  run_step (lift_run _ s _ E). clear E.
  replace ((START_ADDR <=? page) && (page <? START_ADDR + VC_SIZE)) with false
    by (symmetry; apply andb_false_iff; lia).
  assert (of_option Crate (align_up nbytes PAGE_SIZE) = Ok (pages_for nbytes * PAGE_SIZE)) as E.
  { unfold pages_for, PAGE_SIZE in *. change 4096 with PAGE_SIZE at 1.
    rewrite align_up_page_spec by (split; lia).
    replace (nbytes + 4096 - 1) with (nbytes + 4095) by lia. simpl.
    destruct (Z.ltb_spec ((nbytes + 4095) / 4096 * 4096) (2 ^ 64)); [done|zlia]. }
  run_step (lift_run _ s _ E). rewrite Z.div_mul by done. fold detail.
  rewrite (proj1 good_frame_0). unfold on_vc. by run_step (zoom_run k_vc set_vc _ s _ _ Hmm).
Qed.

(** The two windows [map] borrows. *)
Lemma two_windows v :
  wc_inv v → has_room (wc_shows v) 2 →
  ∃ tmp0 tmp1 v1, wc_map_many [0; 0] v = Ok (Some [tmp0; tmp1], v1) ∧ wc_inv v1 ∧ tmp0 ≠ tmp1 ∧
    (∀ g, ¬ wc_shows v tmp0 g) ∧ (∀ g, ¬ wc_shows v tmp1 g) ∧
    wc_shows v1 tmp0 0 ∧ wc_shows v1 tmp1 0 ∧
    same_windows (wc_shows v) (wc_shows v1) [tmp0; tmp1].
Proof.
  intros Hv Hroom. pose proof (proj2 good_frame_0) as Hgf.
  destruct (wc_map_many_ok v [0; 0]) as (ps & v1 & Hmm & Hv1 & Hnd & Hnew & Hsh & Hsw);
    [done|by repeat constructor|done|].
  destruct (Forall2_cons_inv_r _ _ _ _ Hsh) as (tmp0 & ps' & Ht0 & Hsh' & ->).
  destruct (Forall2_cons_inv_r _ _ _ _ Hsh') as (tmp1 & ps'' & Ht1 & Hsh'' & ->).
  apply Forall2_nil_inv_r in Hsh'' as ->.
  rewrite !Forall_cons in Hnew. destruct Hnew as (Hnew0 & Hnew1 & _).
  exists tmp0, tmp1, v1. split_and!; try done.
  intros ->. apply NoDup_cons in Hnd as [Hin _]. set_solver.
Qed.

Lemma kernel_map_gen s page phys nbytes flags p4 lv :
  kmem_inv s p4 lv → 0 < nbytes → nbytes + PAGE_SIZE ≤ 2 ^ 64 → kernel_flags flags →
  page < START_ADDR ∨ START_ADDR + VC_SIZE ≤ page →
  (∀ i, 0 ≤ i < pages_for nbytes → can_map_page s p4 page phys i) →
  enough (3 * Z.to_nat (pages_for nbytes)) (kernel_map page phys nbytes flags) s →
  has_room (wc_shows (k_vc s)) 2 →
  ∃ s' lv', kernel_map page phys nbytes flags s = Ok (ROk tt, s') ∧ kmem_inv s' p4 lv' ∧
    (∀ i, 0 ≤ i < pages_for nbytes → translate (k_mem s') p4 (page + i * PAGE_SIZE) =
      Some (phys + i * PAGE_SIZE, leaf_flags page flags)) ∧
    remaps (3 * Z.to_nat (pages_for nbytes)) p4 (request_pages page (range (pages_for nbytes))) s s' ∧
    same_windows (wc_shows (k_vc s)) (wc_shows (k_vc s')) [] ∧
    (∃ o, k_tlb s' = o ++ k_tlb s ∧
      (o = [FlushAll] ∧ fl_contains flags GLOBAL = false ∧ page < KVMSPACE ∨
       o = reverse (FlushPage <$> request_pages page (range (pages_for nbytes))))).
Proof.
  intros Hinv Hs0 Hs64 Hk Hnm Hreq Hsz Hroom.
  destruct (pages_for_bound nbytes Hs0) as [Hn0 Hnb].
  destruct (Hreq 0 ltac:(lia)) as (Hgp & Hgf & _). rewrite Z.add_0_r in Hgp, Hgf.
  destruct (two_windows (k_vc s)) as (tmp0 & tmp1 & v1 & Hmm & Hv1 & Hne & Hnew0 & Hnew1 & Ht0 & Ht1 & Hsw);
    [apply Hinv|done|].
  pose proof (ki_root _ _ _ Hinv) as Hroot.
  assert (tmp0 ≠ k_p4 s) as Hn0' by (intros ->; by eapply Hnew0).
  assert (tmp1 ≠ k_p4 s) as Hn1' by (intros ->; by eapply Hnew1).
  assert (∀ i, 0 ≤ i < pages_for nbytes →
    (KVMSPACE <? page + i * PAGE_SIZE) = (KVMSPACE <? page)) as Hhalf.
  { intros i Hi. eapply request_half; [|apply Hgp| |done].
    - intros k Hk'. by destruct (Hreq k Hk') as [[? _] _].
    - intros ->. unfold START_ADDR, VC_SIZE, P1PAGE_COUNT, PAGE_SIZE in Hnm. lia. }
  pose proof (kernel_map_start s page phys nbytes flags _ _ Hs0 Hs64 Hnm Hmm) as Hstart.
  cbv zeta in Hstart. set (detail := _ || _ || _) in Hstart.
  destruct (map_loop_ok (range (pages_for nbytes)) (KVMSPACE <? page) (set_vc v1 s) page phys tmp0 tmp1
    0 0 detail flags p4 lv) as (s2 & lv2 & Hr & Hinv2 & Htr & Hrm & Htlb & Hsw2 & Hg0 & Hg1); try done.
  { unfold range. apply NoDup_fmap_2; [apply _|apply NoDup_seq]. }
  { destruct Hinv. split; simpl; try done. apply Hsw; [set_solver|done]. }
  { intros i Hi%elem_of_range. split_and!; [lia|unfold PAGE_SIZE in *; lia|by apply Hreq|by apply Hhalf]. }
  { unfold enough, returns in Hsz. rewrite Hstart in Hsz. rewrite length_range. destruct Hsz as [?|Hsz]; [by left|right].
    by apply returns_fst in Hsz. }
  destruct (wc_unmap_many_ok (k_vc s2) [tmp0; tmp1]) as (v3 & Hum & Hv3 & Hno & Hsw3);
    [apply Hinv2|by repeat constructor; set_solver|by repeat constructor|].
  exists (mkKmem (k_pmm s2) v3 (k_mem s2) (k_p4 s2)
    ((if detail then [] else [FlushAll]) ++ k_tlb s2)), lv2. split_and!.
  - rewrite Hstart. run_step Hr. unfold on_vc.
    run_step (zoom_run k_vc set_vc _ s2 _ _ Hum). by destruct detail.
  - destruct Hinv2. split; simpl; try done. apply Hsw3; [|done].
    rewrite (rm_p4 _ _ _ _ _ Hrm). simpl. set_solver.
  - intros i Hi. simpl. rewrite Htr by (by apply elem_of_range). do 2 f_equal. unfold leaf_flags.
    by rewrite Hhalf.
  - destruct Hrm. rewrite length_range in *. by split.
  - intros q g _. simpl. destruct (decide (q ∈ [tmp0; tmp1])) as [Hq|Hq].
    + rewrite Forall_forall in Hno. split; [intros Hs; by destruct (Hno q Hq g)|].
      intros Hs. rewrite !elem_of_cons, elem_of_nil in Hq.
      destruct Hq as [->|[->|[]]]; [by destruct (Hnew0 g)|by destruct (Hnew1 g)].
    + rewrite (Hsw3 q g Hq), (Hsw2 q g Hq). simpl. apply (Hsw q g Hq).
  - simpl. rewrite Htlb. simpl. destruct detail eqn:Ed; [eexists; split; [done|by right]|].
    exists [FlushAll]. split; [done|]. left. unfold detail in Ed.
    apply orb_false_iff in Ed as [[? ?]%orb_false_iff _]. split_and!; try done. lia.
Qed.

Lemma kernel_map_ok s page phys nbytes flags p4 lv :
  kmem_inv s p4 lv → 0 < nbytes → nbytes + PAGE_SIZE ≤ 2 ^ 64 → kernel_flags flags →
  page < START_ADDR ∨ START_ADDR + VC_SIZE ≤ page →
  (∀ i, 0 ≤ i < pages_for nbytes → can_map_page s p4 page phys i) →
  (3 * Z.to_nat (pages_for nbytes) ≤ size (fa_free (k_pmm s)))%nat →
  has_room (wc_shows (k_vc s)) 2 →
  ∃ s' lv', kernel_map page phys nbytes flags s = Ok (ROk tt, s') ∧ kmem_inv s' p4 lv' ∧
    (∀ i, 0 ≤ i < pages_for nbytes → translate (k_mem s') p4 (page + i * PAGE_SIZE) =
      Some (phys + i * PAGE_SIZE, leaf_flags page flags)) ∧
    remaps (3 * Z.to_nat (pages_for nbytes)) p4 (request_pages page (range (pages_for nbytes))) s s' ∧
    same_windows (wc_shows (k_vc s)) (wc_shows (k_vc s')) [] ∧
    (∃ o, k_tlb s' = o ++ k_tlb s ∧
      (o = [FlushAll] ∧ fl_contains flags GLOBAL = false ∧ page < KVMSPACE ∨
       o = reverse (FlushPage <$> request_pages page (range (pages_for nbytes))))).
Proof. intros. apply (kernel_map_gen s page phys nbytes flags p4 lv); try done. by left. Qed.

(** ** Removing the identity mapping *)

Lemma half_cleared_lookup t k :
  length t = 512%nat → (k < 512)%nat →
  (replicate 256 0 ++ drop 256 t) !! k = if (k <? 256)%nat then Some 0 else t !! k.
Proof.
  intros Ht Hk. destruct (Nat.ltb_spec k 256).
  - rewrite lookup_app_l by (by rewrite length_replicate). by apply lookup_replicate_2.
  - rewrite lookup_app_r by (by rewrite length_replicate). rewrite length_replicate, lookup_drop.
    f_equal. lia.
Qed.

Section half_cleared.
Context (free : gset Z) (mem : gmap Z (list Z)) (p4 : Z) (lv : Z → nat) (t : list Z).
Hypothesis Hpt : pt_inv free mem p4 lv.
Hypothesis Ht : mem !! p4 = Some t.
Let mem' : gmap Z (list Z) := <[p4 := replicate 256 0 ++ drop 256 t]> mem.

Lemma half_dom g : is_Some (mem' !! g) ↔ is_Some (mem !! g).
Proof.
  unfold mem'. rewrite lookup_insert_is_Some'. split; [|by right].
  intros [<-|?]; [by rewrite Ht|done].
Qed.

(** An entry that is left is the old one. *)
Lemma half_entry g tg j e c :
  mem' !! g = Some tg → tg !! j = Some e → pte_frame e = Some c →
  (g = p4 → 256 ≤ j)%nat ∧ ∃ t0, mem !! g = Some t0 ∧ t0 !! j = Some e.
Proof.
  unfold mem'. destruct (decide (g = p4)) as [->|]; [|rewrite lookup_insert_ne by done; naive_solver].
  rewrite lookup_insert_eq. intros E He Hc. apply Some_inj in E. subst tg.
  assert (length t = 512%nat) as Hl by (by eapply (pt_table _ _ _ _ Hpt)).
  assert (j < 512)%nat.
  { apply lookup_lt_Some in He. rewrite length_app, length_replicate, length_drop in He. lia. }
  rewrite half_cleared_lookup in He by done. destruct (Nat.ltb_spec j 256); [|eauto].
  simplify_eq. by rewrite zero_frame in Hc.
Qed.

Lemma half_next g j :
  (2 ≤ lv g)%nat → (j < 512)%nat → (g = p4 → 256 ≤ j)%nat → next mem' g j = next mem g j.
Proof.
  intros Hg Hj Hhi. apply option_eq. intros c. rewrite !next_Some. split.
  - intros (tg & e & Htg & He & Hc & Hdm). destruct (half_entry _ _ _ _ _ Htg He Hc) as (_ & t0 & ? & ?).
    exists t0, e. by rewrite <-half_dom.
  - intros (tg & e & Htg & He & Hc & Hdm). unfold mem'. destruct (decide (g = p4)) as [->|].
    + exists (replicate 256 0 ++ drop 256 t), e. rewrite lookup_insert_eq. simplify_eq.
      rewrite half_cleared_lookup by (done || by eapply (pt_table _ _ _ _ Hpt)).
      destruct (Nat.ltb_spec j 256); [lia|]. split_and!; try done. by apply half_dom.
    + exists tg, e. rewrite lookup_insert_ne by done. split_and!; try done. by apply half_dom.
Qed.

Lemma half_inv : pt_inv free mem' p4 lv.
Proof.
  pose proof Hpt as [Hr Hrl Htab Hch Htree]. split.
  - by apply half_dom.
  - done.
  - intros g tg. unfold mem'. destruct (decide (g = p4)) as [->|]; [|rewrite lookup_insert_ne by done; auto].
    rewrite lookup_insert_eq. intros E. apply Some_inj in E. subst tg.
    destruct (Htab _ _ Ht) as (Hl & ?). split; [|done].
    rewrite length_app, length_replicate, length_drop. lia.
  - intros g tg j e c Htg Hlg He Hc. destruct (half_entry _ _ _ _ _ Htg He Hc) as (_ & t0 & ? & ?).
    rewrite half_dom. by eapply Hch.
  - intros g h j k c Hlg Hlh Hg Hh.
    assert (∀ g j, (2 ≤ lv g)%nat → next mem' g j = Some c → next mem g j = Some c) as Hold.
    { intros g' j' Hl (tg & e & Htg & He & Hc & Hdm)%next_Some.
      destruct (half_entry _ _ _ _ _ Htg He Hc) as (_ & t0 & ? & ?).
      apply next_Some. exists t0, e. by rewrite <-half_dom. }
    eapply Htree; eauto.
Qed.

(** Below the root the walks are the same. *)
Lemma half_walk ix g :
  is_Some (mem !! g) → (length ix < lv g ≤ 3)%nat → Forall (λ j, j < 512)%nat ix →
  walk mem' g ix = walk mem g ix.
Proof.
  revert g. induction ix as [|j ix IH]; intros g Hg Hlt Hix; [done|].
  apply Forall_cons in Hix as [Hj Hix]. simpl in *.
  rewrite half_next; [|lia|done|intros ->; rewrite (pt_root_level _ _ _ _ Hpt) in Hlt; lia].
  destruct (next mem g j) as [d|] eqn:E; [|done]. simpl.
  pose proof E as (tg & e & Htg & He & Hd & Hdm)%next_Some.
  destruct (pt_child _ _ _ _ Hpt _ _ _ _ _ Htg ltac:(lia) He Hd) as [_ Hl].
  specialize (Hl Hdm). apply IH; [done|lia|done].
Qed.

Lemma half_translate q :
  translate mem' p4 q = if (p4_index q <? 256)%nat then None else translate mem p4 q.
Proof.
  pose proof (pt_root_level _ _ _ _ Hpt) as Hrl.
  destruct (page_indices_lt q) as [Hix _]. unfold page_path in Hix.
  apply Forall_cons in Hix as [H4 Hix]. unfold translate, leaf_entry, page_path.
  assert (∀ m i ix, walk m p4 (i :: ix) = c ← next m p4 i; walk m c ix) as Hcons by done.
  rewrite !Hcons. destruct (Nat.ltb_spec (p4_index q) 256).
  - destruct (next mem' p4 (p4_index q)) as [c|] eqn:E; [exfalso|done].
    apply next_Some in E as (tg & e & Htg & He & Hc & _).
    destruct (half_entry _ _ _ _ _ Htg He Hc) as (Hge & _). specialize (Hge eq_refl). lia.
  - rewrite half_next by (done || lia).
    destruct (next mem p4 (p4_index q)) as [c|] eqn:E; [|done]. cbn [mbind option_bind].
    pose proof E as (tg & e & Htg & He & Hd & Hdm)%next_Some.
    destruct (pt_child _ _ _ _ Hpt _ _ _ _ _ Htg ltac:(lia) He Hd) as [_ Hl]. specialize (Hl Hdm).
    rewrite half_walk by (done || (simpl; lia)).
    destruct (walk mem c [p3_index q; p2_index q]) as [h|] eqn:Ew; [|done]. cbn [mbind option_bind].
    destruct (walk_level _ _ _ _ c [p3_index q; p2_index q] h Hpt Hdm) as [Hlh _]; [simpl; lia|done|].
    unfold mem'. rewrite lookup_insert_ne; [done|]. intros <-. simpl in Hlh. lia.
Qed.

(** A path of the upper half is as clear as it was, one of the lower half is
    clear. *)
Lemma half_clear_below ix g :
  (length ix < lv g ≤ 3)%nat → clear_path mem g ix = true → clear_path mem' g ix = true.
Proof.
  revert g. induction ix as [|j ix IH]; intros g Hlt Hcl; destruct (clear_table _ _ _ Hcl) as [tg Hg].
  - simpl. assert (is_Some (mem' !! g)) as [? ->] by (apply half_dom; eauto). done.
  - assert (g ≠ p4) as Hne by (intros ->; rewrite (pt_root_level _ _ _ _ Hpt) in Hlt; lia).
    cbn [clear_path length] in *. unfold mem' at 1. rewrite lookup_insert_ne, Hg by done. rewrite Hg in Hcl.
    destruct (tg !! j) as [e|] eqn:He; [|done]. apply orb_true_iff in Hcl as [->|Hcl]; [done|].
    apply orb_true_iff. right. destruct (pte_frame e) as [c|] eqn:Hc; [|done].
    destruct (pt_child _ _ _ _ Hpt _ _ _ _ _ Hg ltac:(lia) He Hc) as [_ Hl].
    specialize (Hl (clear_table _ _ _ Hcl)). apply IH; [lia|done].
Qed.

Lemma half_clear i ix :
  (i < 512)%nat → (length ix ≤ 2)%nat → (i < 256)%nat ∨ clear_path mem p4 (i :: ix) = true →
  clear_path mem' p4 (i :: ix) = true.
Proof.
  intros Hi Hlen Hcl. assert (length t = 512%nat) as Hl by (by eapply (pt_table _ _ _ _ Hpt)).
  cbn [clear_path]. unfold mem' at 1. rewrite lookup_insert_eq, half_cleared_lookup by done.
  destruct (Nat.ltb_spec i 256) as [|Hge].
  - by rewrite pte_is_unused_spec.
  - destruct Hcl as [|Hcl]; [lia|]. cbn [clear_path] in Hcl. rewrite Ht in Hcl.
    destruct (t !! i) as [e|] eqn:He; [|done]. apply orb_true_iff in Hcl as [->|Hcl]; [done|].
    apply orb_true_iff. right. destruct (pte_frame e) as [c|] eqn:Hc; [|done].
    pose proof (pt_root_level _ _ _ _ Hpt) as Hrl.
    destruct (pt_child _ _ _ _ Hpt _ _ _ _ _ Ht ltac:(lia) He Hc) as [_ Hlv].
    specialize (Hlv (clear_table _ _ _ Hcl)). apply half_clear_below; [lia|done].
Qed.
End half_cleared.
End mapper_proofs.

(** ** The allocator under the mapper *)

(** What [fa_alloc] keeps, every operation of the mapper keeps. *)
Section allocator_kept.
Context {X : X86} {P : Type} {FA : FrameAllocator P} {V : Type} {WC : WindowCache V}.
Variable Q : P → P → Prop.
Context {HQ : PreOrder Q}.
Hypothesis Halloc : runs Q fa_alloc.

Definition pmm_rel (s s' : Kmem P V) : Prop := Q (k_pmm s) (k_pmm s').
#[local] Instance pmm_rel_preorder : PreOrder pmm_rel.
Proof. split; [intros s; unfold pmm_rel; reflexivity|intros s1 s2 s3; unfold pmm_rel; apply HQ]. Qed.

Lemma palloc_pmm : runs pmm_rel palloc.
Proof. apply runs_zoom. intros s a p Hp. by apply (Halloc _ _ _ Hp). Qed.

Lemma on_vc_pmm {A} (m : M V A) : runs pmm_rel (on_vc m).
Proof. apply runs_zoom. intros s a v _. unfold pmm_rel. simpl. reflexivity. Qed.

Lemma win_frame_pmm page : runs pmm_rel (win_frame page).
Proof. intros s a s'. unfold win_frame. destruct (wc_frame (k_vc s) page); [|done]. intros [= <- <-]. reflexivity. Qed.

Lemma write_place_pmm pl e : runs pmm_rel (write_place pl e).
Proof.
  unfold write_place. apply (runs_bind pmm_rel).
  - pose proof win_frame_pmm. destruct pl; cbn [place_frame]; runs_auto.
  - intros [f i] s a s' H. inv_ok. destruct (i <? length x1)%nat; inv_ok. unfold pmm_rel. simpl. reflexivity.
Qed.

Lemma read_place_pmm pl : runs pmm_rel (read_place pl).
Proof. unfold read_place, place_frame. pose proof win_frame_pmm. runs_auto. Qed.

Lemma alloc_substruct_pmm entry flags b : runs pmm_rel (alloc_substruct entry flags b).
Proof.
  unfold alloc_substruct, clear_frame. pose proof palloc_pmm. pose proof write_place_pmm. runs_auto.
  apply runs_modify. intros s. unfold pmm_rel. simpl. reflexivity.
Qed.

Lemma ensure_allocated_pmm entry page mp : runs pmm_rel (ensure_allocated entry page mp).
Proof.
  unfold ensure_allocated, clear_frame. pose proof read_place_pmm. pose proof alloc_substruct_pmm.
  pose proof @on_vc_pmm. pose proof win_frame_pmm. runs_auto.
  apply runs_modify. intros s. unfold pmm_rel. simpl. reflexivity.
Qed.

Lemma flush_pmm o : runs pmm_rel (flush o).
Proof. apply runs_modify. intros s. unfold pmm_rel. simpl. reflexivity. Qed.

Lemma map_loop_pmm page0 phys0 tmp detail l flags : runs pmm_rel (map_loop page0 phys0 tmp detail l flags).
Proof.
  pose proof ensure_allocated_pmm. pose proof write_place_pmm. pose proof flush_pmm.
  revert flags. induction l as [|i l IH]; intros flags; cbn [map_loop]; [runs_auto|].
  unfold map_step. runs_auto.
Qed.

Lemma kernel_map_pmm page phys nbytes flags : runs pmm_rel (kernel_map page phys nbytes flags).
Proof.
  unfold kernel_map. pose proof @on_vc_pmm. pose proof map_loop_pmm. pose proof flush_pmm. runs_auto.
Qed.
End allocator_kept.

(** ** What the mapper promises *)

Section mapper_claims.
Context {X : X86} {XO : X86Ok X} {P : Type} {FA : FrameAllocator P} {FAO : FrameAllocatorOk P}.
Context {V : Type} {WC : WindowCache V} {WCO : WindowCacheOk V}.
Implicit Types (s : Kmem P V).

(** C3. Correctness of [KernelMapper::map].  From a well-formed memory, a
    request whose pages are canonical, outside the cache and not below a huge
    page, with room for two windows and three frames per page, succeeds.
    Afterwards every page of the request translates to its frame with the
    promised flags, every other page translates as before, the page tables
    are still a tree of frames the allocator does not hand out, and both
    windows are given back.  Each page is flushed from the translation buffer,
    or the whole buffer is, and then no page of the request is global. *)
Theorem kernel_map_correct s page phys nbytes flags p4 lv :
  kmem_inv s p4 lv → 0 < nbytes → nbytes + PAGE_SIZE ≤ 2 ^ 64 → kernel_flags flags →
  page < START_ADDR ∨ START_ADDR + VC_SIZE ≤ page →
  (∀ i, 0 ≤ i < pages_for nbytes → can_map_page s p4 page phys i) →
  (3 * Z.to_nat (pages_for nbytes) ≤ size (fa_free (k_pmm s)))%nat →
  has_room (wc_shows (k_vc s)) 2 →
  ∃ s' lv', kernel_map page phys nbytes flags s = Ok (ROk tt, s') ∧ kmem_inv s' p4 lv' ∧
    (∀ i, 0 ≤ i < pages_for nbytes → translate (k_mem s') p4 (page + i * PAGE_SIZE) =
      Some (phys + i * PAGE_SIZE, leaf_flags page flags)) ∧
    remaps (3 * Z.to_nat (pages_for nbytes)) p4
      (request_pages page (range (pages_for nbytes))) s s' ∧
    same_windows (wc_shows (k_vc s)) (wc_shows (k_vc s')) [] ∧
    (∃ o, k_tlb s' = o ++ k_tlb s ∧
      (o = [FlushAll] ∧ fl_contains flags GLOBAL = false ∧ page < KVMSPACE ∨
       o = reverse (FlushPage <$> request_pages page (range (pages_for nbytes))))).
Proof. apply kernel_map_ok. Qed.

(** The flags [map] writes: a mapping is always present; a page of kernel
    space is global and never accessible to user code, whatever the caller
    asks for; below kernel space the user and write bits are the caller's. *)
Theorem leaf_flags_isolation page flags :
  fl_contains (leaf_flags page flags) PRESENT = true ∧
  (KVMSPACE < page → fl_contains (leaf_flags page flags) USER_ACCESSIBLE = false ∧
    fl_contains (leaf_flags page flags) GLOBAL = true) ∧
  (page ≤ KVMSPACE →
    fl_contains (leaf_flags page flags) USER_ACCESSIBLE = fl_contains flags USER_ACCESSIBLE) ∧
  fl_contains (leaf_flags page flags) WRITABLE = fl_contains flags WRITABLE.
Proof. apply leaf_flags_bits. Qed.

(** [map] refuses an empty request with [NullSize] and one that starts
    inside the virtual cache with [Managed], and changes nothing. *)
Theorem kernel_map_refused s page phys nbytes flags :
  (nbytes = 0 → kernel_map page phys nbytes flags s = Ok (RErr NullSize, s)) ∧
  (nbytes ≠ 0 → START_ADDR ≤ page < START_ADDR + VC_SIZE →
    kernel_map page phys nbytes flags s = Ok (RErr Managed, s)).
Proof. apply kernel_map_refuses. Qed.

Lemma remove_identity_state s p4 lv t :
  kmem_inv s p4 lv → k_mem s !! p4 = Some t →
  remove_identity s = Ok (tt, mkKmem (k_pmm s) (k_vc s) (<[p4 := replicate 256 0 ++ drop 256 t]> (k_mem s)) (k_p4 s)
    (FlushAll :: k_tlb s)).
Proof.
  intros [Hp Hv Hroot Hpt] Ht.
  unfold remove_identity. rewrite (M_bind_run (gets k_p4) _ s (k_p4 s) s eq_refl).
  run_step (win_frame_run s (k_p4 s) p4 Hv Hroot). rewrite (M_bind_run get _ s s s eq_refl).
  run_step (lift_run _ s _ (f_equal (of_option Undefined) Ht)). done.
Qed.

Lemma remove_identity_run s p4 lv :
  kmem_inv s p4 lv →
  ∃ s', remove_identity s = Ok (tt, s') ∧ kmem_inv s' p4 lv ∧
    (∀ q, 0 ≤ q < 2 ^ 47 → translate (k_mem s') p4 q = None) ∧
    (∀ q, KVMSPACE ≤ q < 2 ^ 64 → translate (k_mem s') p4 q = translate (k_mem s) p4 q) ∧
    k_tlb s' = FlushAll :: k_tlb s.
Proof.
  intros Hinv. pose proof Hinv as [Hp Hv Hroot Hpt]. destruct (pt_root _ _ _ _ Hpt) as [t Ht].
  eexists. split_and!; [by eapply remove_identity_state| | | |done].
  - split; cbn [k_pmm k_vc k_mem k_p4]; try done. by apply half_inv.
  - intros q Hq. cbn [k_mem]. rewrite (half_translate _ _ _ _ _ Hpt Ht).
    destruct (Nat.ltb_spec (p4_index q) 256) as [|Hge]; [done|].
    rewrite p4_index_spec in Hge. zlia.
  - intros q Hq. cbn [k_mem]. rewrite (half_translate _ _ _ _ _ Hpt Ht).
    destruct (Nat.ltb_spec (p4_index q) 256) as [Hlt|]; [|done].
    rewrite p4_index_spec in Hlt. unfold KVMSPACE in Hq. zlia.
Qed.

(** [remove_identity] leaves no translation in the lower half of the
    address space, keeps every translation of the upper half, flushes the
    translation buffer and keeps the memory well-formed. *)
Theorem remove_identity_correct s p4 lv :
  kmem_inv s p4 lv →
  ∃ s', remove_identity s = Ok (tt, s') ∧ kmem_inv s' p4 lv ∧
    (∀ q, 0 ≤ q < 2 ^ 47 → translate (k_mem s') p4 q = None) ∧
    (∀ q, KVMSPACE ≤ q < 2 ^ 64 → translate (k_mem s') p4 q = translate (k_mem s) p4 q) ∧
    k_tlb s' = FlushAll :: k_tlb s.
Proof. apply remove_identity_run. Qed.
End mapper_claims.
