(* ===== verification/Mem.v ===== *)
(** * The memory services of the kernel

    Models the functions of [kernel/src/mem/mod.rs] the rest of the kernel
    calls: [pfree_all], [vmap], [vmap_many], [valloc], [valloc_size] and
    [valloc_ktable].  They combine the frame allocator and the mapper; the
    theorems here are proved against the interfaces of both. *)

From S2P Require Import Prelude X86 FrameAlloc WindowCache VCache Mapper.

Section mem.
Context {X : X86} {P : Type} {FA : FrameAllocator P} {V : Type} {WC : WindowCache V}.

Definition pfree_all (frames : list Z) : M (Kmem P V) unit := for_ frames pfree.

Definition vmap (page frame nbytes flags : Z) : M (Kmem P V) (result unit KernelMapError) :=
  kernel_map page frame nbytes flags.

(** [for (i, frame) in frames.iter().enumerate()], from position [i]. *)
Fixpoint vmap_many_from (i : Z) (page : Z) (frames : list Z) (flags : Z) : M (Kmem P V) unit :=
  match frames with
  | [] => mret tt
  | frame :: frames' =>
    p ← lift (of_option Crate (page_add page i));
    r ← vmap p frame PAGE_SIZE flags;
    _ ← lift (unwrap_result r);
    vmap_many_from (i + 1) page frames' flags
  end.
Definition vmap_many (page : Z) (frames : list Z) (flags : Z) : M (Kmem P V) unit :=
  vmap_many_from 0 page frames flags.

(** One turn of the loop of [valloc]. *)
Definition valloc_step (page flags off : Z) : M (Kmem P V) unit :=
  r ← palloc;
  match r with
  | None => fail Explicit
  | Some frame =>
    a ← lift (of_option Crate (virt_add page (off * PAGE_SIZE)));
    p ← lift (unwrap (page_from_start a));
    r ← vmap p frame PAGE_SIZE flags;
    lift (unwrap_result r)
  end.
Definition valloc (page n flags : Z) : M (Kmem P V) unit :=
  for_ (range n) (valloc_step page flags).

Definition valloc_size (page nbytes flags : Z) : M (Kmem P V) unit :=
  a ← lift (of_option Crate (align_up nbytes PAGE_SIZE));
  valloc page (a / PAGE_SIZE) flags.

(** [sizeof_T] is [mem::size_of::<T>()]. *)
Definition valloc_ktable (sizeof_T vadr n : Z) : M (Kmem P V) unit :=
  p ← lift (unwrap (page_from_start vadr));
  nbytes ← lift (mul64 n sizeof_T);
  valloc_size p nbytes WRITABLE.
End mem.

Section mem_proofs.
Context {X : X86} {XO : X86Ok X} {P : Type} {FA : FrameAllocator P} {FAO : FrameAllocatorOk P}.
Context {V : Type} {WC : WindowCache V} {WCO : WindowCacheOk V}.
Implicit Types (s : Kmem P V).

Lemma palloc_run s p4 lv :
  kmem_inv s p4 lv → (1 ≤ size (fa_free (k_pmm s)))%nat →
  ∃ f p', palloc s = Ok (Some f, set_pmm p' s) ∧ kmem_inv (set_pmm p' s) p4 lv ∧
    f ∈ fa_free (k_pmm s) ∧ good_frame f ∧ fa_free p' = fa_free (k_pmm s) ∖ {[f]} ∧
    remaps 1 p4 [] s (set_pmm p' s).
Proof.
  intros [Hp Hv Hroot Hpt] Hsz.
  destruct (fa_alloc_ok (k_pmm s) Hp) as [[_ E]|(f & p' & Hal & Hp' & Hf & Hfree & Hman)].
  { rewrite E, size_empty in Hsz. lia. }
  destruct (fa_free_managed _ _ Hp Hf) as [_ Hg]. exists f, p'. split_and!; try done.
  - by apply (zoom_run k_pmm set_pmm).
  - split; simpl; try done. eapply pt_inv_shrink; [|exact Hpt]. rewrite Hfree. set_solver.
  - split; simpl; try done.
    + rewrite Hfree. set_solver.
    + rewrite Hfree, size_difference, size_singleton by set_solver. lia.
    + by left.
    + apply seals_shrink; [done|]. cbn [k_pmm set_pmm]. rewrite Hfree. set_solver.
Qed.

(** Mapping one page. *)
Lemma vmap_page s page frame flags p4 lv :
  kmem_inv s p4 lv → good_page page → good_frame frame → kernel_flags flags →
  page < START_ADDR ∨ START_ADDR + VC_SIZE ≤ page →
  clear_path (k_mem s) p4 (page_path page) = true →
  (3 ≤ size (fa_free (k_pmm s)))%nat → has_room (wc_shows (k_vc s)) 2 →
  ∃ s' lv', vmap page frame PAGE_SIZE flags s = Ok (ROk tt, s') ∧ kmem_inv s' p4 lv' ∧
    translate (k_mem s') p4 page = Some (frame, leaf_flags page flags) ∧
    remaps 3 p4 [page] s s' ∧ same_windows (wc_shows (k_vc s)) (wc_shows (k_vc s')) [].
Proof.
  intros Hinv Hp Hf Hk Hnm Hcl Hsz Hroom.
  destruct (kernel_map_ok s page frame PAGE_SIZE flags p4 lv)
    as (s' & lv' & Hr & Hinv' & Htr & Hrm & Hsw & _); try done.
  - intros i Hi. replace i with 0 by (change (pages_for PAGE_SIZE) with 1 in Hi; lia).
    unfold can_map_page. rewrite !Z.add_0_r. done.
  - exists s', lv'. split_and!; try done.
    specialize (Htr 0). rewrite !Z.add_0_r in Htr. apply Htr. done.
    change (request_pages page (range (pages_for PAGE_SIZE))) with [page + 0 * PAGE_SIZE] in Hrm.
    by rewrite Z.add_0_r in Hrm.
Qed.

(** A page of the request [page, n] for which memory can be allocated. *)
Definition can_valloc s (p4 page n : Z) : Prop :=
  ∀ i, 0 ≤ i < n → good_page (page + i * PAGE_SIZE) ∧
    (page + i * PAGE_SIZE < START_ADDR ∨ START_ADDR + VC_SIZE ≤ page + i * PAGE_SIZE) ∧
    clear_path (k_mem s) p4 (page_path (page + i * PAGE_SIZE)) = true.

Lemma valloc_step_ok s page flags off p4 lv :
  kmem_inv s p4 lv → good_page page → good_page (page + off * PAGE_SIZE) →
  0 ≤ off → off * PAGE_SIZE < 2 ^ 64 → kernel_flags flags →
  page + off * PAGE_SIZE < START_ADDR ∨ START_ADDR + VC_SIZE ≤ page + off * PAGE_SIZE →
  clear_path (k_mem s) p4 (page_path (page + off * PAGE_SIZE)) = true →
  (4 ≤ size (fa_free (k_pmm s)))%nat → has_room (wc_shows (k_vc s)) 2 →
  ∃ f s' lv', valloc_step page flags off s = Ok (tt, s') ∧ kmem_inv s' p4 lv' ∧
    f ∈ fa_free (k_pmm s) ∧ f ∉ fa_free (k_pmm s') ∧ k_mem s' !! f = None ∧
    translate (k_mem s') p4 (page + off * PAGE_SIZE) =
      Some (f, leaf_flags (page + off * PAGE_SIZE) flags) ∧
    remaps 4 p4 [page + off * PAGE_SIZE] s s' ∧
    same_windows (wc_shows (k_vc s)) (wc_shows (k_vc s')) [].
Proof.
  intros Hinv [Hc0 Ha0] Hp Ho Ho64 Hk Hnm Hcl Hsz Hroom.
  destruct (palloc_run s p4 lv Hinv ltac:(lia)) as (f & p' & Hal & Hinv1 & Hf & Hgf & Hfree & Hrm1).
  pose proof (rm_size _ _ _ _ _ Hrm1) as Hsz1.
  destruct (vmap_page (set_pmm p' s) (page + off * PAGE_SIZE) f flags p4 lv)
    as (s' & lv' & Hr & Hinv' & Htr & Hrm2 & Hsw); try done; [simpl in *; lia|].
  pose proof (rm_free _ _ _ _ _ Hrm2) as Hfr2. simpl in Hfr2. rewrite Hfree in Hfr2.
  exists f, s', lv'. split_and!; try done.
  - unfold valloc_step. run_step Hal. destruct Hp as [Hpc Hpa].
    assert (of_option Crate (virt_add page (off * PAGE_SIZE)) = Ok (page + off * PAGE_SIZE)) as E1.
    { rewrite virt_add_spec by (done || unfold in_width, PAGE_SIZE in *; lia). by rewrite Hpc. }
    assert (unwrap (page_from_start (page + off * PAGE_SIZE)) = Ok (page + off * PAGE_SIZE)) as E2.
    { rewrite page_from_start_spec by done. by rewrite Hpa. }
    run_step (lift_run _ (set_pmm p' s) _ E1). run_step (lift_run _ (set_pmm p' s) _ E2).
    by run_step Hr.
  - set_solver.
  - apply eq_None_not_Some. intros [Hs|Hs]%(rm_dom _ _ _ _ _ Hrm2).
    + destruct Hs as [t Ht]. simpl in Ht.
      by destruct (pt_table _ _ _ _ (ki_pt _ _ _ Hinv) _ _ Ht) as (_ & _ & ? & _).
    + simpl in Hs. rewrite Hfree in Hs. set_solver.
  - exact (remaps_trans _ _ _ _ _ _ _ _ Hrm1 Hrm2).
Qed.

Lemma same_windows_room s s' n :
  same_windows (wc_shows (k_vc s)) (wc_shows (k_vc s')) [] →
  has_room (wc_shows (k_vc s)) n → has_room (wc_shows (k_vc s')) n.
Proof. intros Hsw. apply has_room_sub. intros p f Hf. exists f. by apply Hsw; [set_solver|]. Qed.

(** The frames [fs] back the pages of the request, and nothing else. *)
Definition backs s s' (p4 page flags : Z) (l fs : list Z) : Prop :=
  Forall2 (λ off f, translate (k_mem s') p4 (page + off * PAGE_SIZE) =
    Some (f, leaf_flags (page + off * PAGE_SIZE) flags)) l fs ∧
  NoDup fs ∧
  Forall (λ f, f ∈ fa_free (k_pmm s) ∧ f ∉ fa_free (k_pmm s') ∧ k_mem s' !! f = None) fs.

Lemma backs_cons s s1 s' p4 page flags off l f fs n :
  translate (k_mem s1) p4 (page + off * PAGE_SIZE) =
    Some (f, leaf_flags (page + off * PAGE_SIZE) flags) →
  good_page (page + off * PAGE_SIZE) → off ∉ l →
  f ∈ fa_free (k_pmm s) → f ∉ fa_free (k_pmm s1) → k_mem s1 !! f = None →
  fa_free (k_pmm s1) ⊆ fa_free (k_pmm s) →
  remaps n p4 (request_pages page l) s1 s' → backs s1 s' p4 page flags l fs →
  backs s s' p4 page flags (off :: l) (f :: fs).
Proof.
  intros Htr [Hpc Hpa] Hoff Hf Hf1 Hm1 Hsub Hrm (Htrs & Hnd & Hall).
  pose proof (rm_free _ _ _ _ _ Hrm) as Hfr. split_and!.
  - constructor; [|done]. rewrite (rm_other _ _ _ _ _ Hrm); [done..|].
    intros (k & E & Hk)%list_elem_of_fmap. unfold PAGE_SIZE in E.
    assert (k = off) by lia. congruence.
  - constructor; [|done]. intros Hin. rewrite Forall_forall in Hall.
    by destruct (Hall f Hin) as (? & _).
  - constructor.
    + split_and!; [done|set_solver|]. apply eq_None_not_Some.
      intros [Hs|Hs]%(rm_dom _ _ _ _ _ Hrm); [|set_solver]. rewrite Hm1 in Hs. by destruct Hs.
    + eapply Forall_impl; [exact Hall|]. intros g (? & ? & ?). split_and!; try done. set_solver.
Qed.

Lemma valloc_ok l s page flags p4 lv :
  NoDup l → kmem_inv s p4 lv → good_page page → kernel_flags flags →
  (∀ off, off ∈ l → 0 ≤ off ∧ off * PAGE_SIZE < 2 ^ 64 ∧ good_page (page + off * PAGE_SIZE) ∧
    (page + off * PAGE_SIZE < START_ADDR ∨ START_ADDR + VC_SIZE ≤ page + off * PAGE_SIZE) ∧
    clear_path (k_mem s) p4 (page_path (page + off * PAGE_SIZE)) = true) →
  (4 * length l ≤ size (fa_free (k_pmm s)))%nat → has_room (wc_shows (k_vc s)) 2 →
  ∃ fs s' lv', for_ l (valloc_step page flags) s = Ok (tt, s') ∧ kmem_inv s' p4 lv' ∧
    backs s s' p4 page flags l fs ∧
    remaps (4 * length l) p4 (request_pages page l) s s' ∧
    same_windows (wc_shows (k_vc s)) (wc_shows (k_vc s')) [].
Proof.
  intros Hnd. revert s lv. induction Hnd as [|off l Hoff Hnd IH]; intros s lv Hinv Hp Hk Hl Hsz Hroom.
  { exists [], s, lv. split_and!; try done; [|by apply remaps_refl].
    split_and!; constructor. }
  destruct (Hl off ltac:(set_solver)) as (H0 & H64 & Hgp & Hnm & Hcl). simpl in Hsz.
  destruct (valloc_step_ok s page flags off p4 lv)
    as (f & s1 & lv1 & Hr1 & Hinv1 & Hf & Hf1 & Hm1 & Htr & Hrm & Hsw); try done; [lia|].
  pose proof (rm_size _ _ _ _ _ Hrm). pose proof (rm_free _ _ _ _ _ Hrm) as Hsub.
  destruct (IH s1 lv1) as (fs & s' & lv' & Hr & Hinv' & Hb & Hrm' & Hsw'); try done.
  { intros k Hk'. destruct (Hl k ltac:(set_solver)) as (? & ? & ? & ? & ?). split_and!; try done.
    apply (rm_clear _ _ _ _ _ Hrm); try done. apply page_indices_lt. }
  { lia. }
  { by eapply same_windows_room. }
  exists (f :: fs), s', lv'. split_and!; try done.
  - rewrite for_cons. by run_step Hr1.
  - by eapply backs_cons.
  - replace (4 * length (off :: l))%nat with (4 + 4 * length l)%nat by (simpl; lia).
    by eapply (remaps_trans _ _ _ [page + off * PAGE_SIZE] (request_pages page l)).
  - intros q g Hq. by rewrite (Hsw' q g), (Hsw q g).
Qed.

(** The pages of [vmap_many] from position [i]. *)
Definition pages_from (i page : Z) (frames : list Z) : list Z :=
  imap (λ k _, page + (i + Z.of_nat k) * PAGE_SIZE) frames.

Lemma pages_from_cons i page f frames :
  pages_from i page (f :: frames) = page + i * PAGE_SIZE :: pages_from (i + 1) page frames.
Proof.
  unfold pages_from. rewrite imap_cons. f_equal; [f_equal; lia|]. apply imap_ext.
  intros k x _. simpl. f_equal. lia.
Qed.

Lemma elem_of_pages_from q i page frames :
  q ∈ pages_from i page frames → ∃ k, (k < length frames)%nat ∧ q = page + (i + Z.of_nat k) * PAGE_SIZE.
Proof.
  unfold pages_from. intros (k & f & -> & Hk)%elem_of_lookup_imap. exists k.
  split; [by eapply lookup_lt_Some|done].
Qed.

Lemma vmap_many_ok frames i s page flags p4 lv :
  kmem_inv s p4 lv → good_page page → Forall good_frame frames → kernel_flags flags → 0 ≤ i →
  (i + Z.of_nat (length frames)) * PAGE_SIZE < 2 ^ 64 →
  Forall (λ q, good_page q ∧ (q < START_ADDR ∨ START_ADDR + VC_SIZE ≤ q) ∧
    clear_path (k_mem s) p4 (page_path q) = true) (pages_from i page frames) →
  (3 * length frames ≤ size (fa_free (k_pmm s)))%nat → has_room (wc_shows (k_vc s)) 2 →
  ∃ s' lv', vmap_many_from i page frames flags s = Ok (tt, s') ∧ kmem_inv s' p4 lv' ∧
    Forall2 (λ q f, translate (k_mem s') p4 q = Some (f, leaf_flags q flags))
      (pages_from i page frames) frames ∧
    remaps (3 * length frames) p4 (pages_from i page frames) s s' ∧
    same_windows (wc_shows (k_vc s)) (wc_shows (k_vc s')) [].
Proof.
  revert i s lv. induction frames as [|f frames IH];
    intros i s lv Hinv Hp Hfs Hk Hi Hlen Hpages Hsz Hroom.
  { exists s, lv. split_and!; try done. by apply remaps_refl. }
  rewrite pages_from_cons in *. apply Forall_cons in Hpages as [(Hgp & Hnm & Hcl) Hpages].
  apply Forall_cons in Hfs as [Hf Hfs]. simpl length in *.
  destruct (vmap_page s (page + i * PAGE_SIZE) f flags p4 lv)
    as (s1 & lv1 & Hr1 & Hinv1 & Htr & Hrm & Hsw); try done; [lia|].
  pose proof (rm_size _ _ _ _ _ Hrm).
  destruct (IH (i + 1) s1 lv1) as (s' & lv' & Hr & Hinv' & Htrs & Hrm' & Hsw'); try done; try lia.
  { eapply Forall_impl; [exact Hpages|]. intros q (? & ? & ?). split_and!; try done.
    apply (rm_clear _ _ _ _ _ Hrm); try done. apply page_indices_lt. }
  { by eapply same_windows_room. }
  exists s', lv'. split_and!; try done.
  - simpl. destruct Hp as [Hpc Hpa].
    assert (of_option Crate (page_add page i) = Ok (page + i * PAGE_SIZE)) as E.
    { rewrite page_add_spec by (done || (unfold PAGE_SIZE in *; lia)). by rewrite (proj1 Hgp). }
    run_step (lift_run _ s _ E). run_step Hr1.
    by rewrite (M_bind_run (lift (unwrap_result (ROk tt))) _ s1 tt s1 eq_refl).
  - constructor; [|done]. rewrite (rm_other _ _ _ _ _ Hrm'); [done|apply Hgp..|].
    intros (k & Hk' & E)%elem_of_pages_from. unfold PAGE_SIZE in E. lia.
  - replace (3 * S (length frames))%nat with (3 + 3 * length frames)%nat by lia.
    by eapply (remaps_trans _ _ _ [page + i * PAGE_SIZE]).
  - intros q g Hq. by rewrite (Hsw' q g), (Hsw q g).
Qed.

Lemma pfree_run s p4 lv f :
  kmem_inv s p4 lv → good_frame f →
  ∃ p', pfree f s = Ok (tt, set_pmm p' s) ∧ fa_inv p' ∧
    (∀ g, fa_managed p' g ↔ fa_managed (k_pmm s) g) ∧
    (fa_managed (k_pmm s) f → fa_free p' = {[f]} ∪ fa_free (k_pmm s)) ∧
    (¬ fa_managed (k_pmm s) f → p' = k_pmm s).
Proof.
  intros Hinv Hf. destruct (fa_dealloc_ok (k_pmm s) f (ki_pmm _ _ _ Hinv) Hf)
    as (p' & Hr & Hp' & Hman & H1 & H2).
  exists p'. split_and!; try done. by apply (zoom_run k_pmm set_pmm).
Qed.

Lemma valloc_run s page n flags p4 lv :
  kmem_inv s p4 lv → good_page page → kernel_flags flags → 0 ≤ n → n * PAGE_SIZE ≤ 2 ^ 64 →
  can_valloc s p4 page n → (4 * Z.to_nat n ≤ size (fa_free (k_pmm s)))%nat →
  has_room (wc_shows (k_vc s)) 2 →
  ∃ fs s' lv', valloc page n flags s = Ok (tt, s') ∧ kmem_inv s' p4 lv' ∧
    backs s s' p4 page flags (range n) fs ∧
    remaps (4 * Z.to_nat n) p4 (request_pages page (range n)) s s' ∧
    same_windows (wc_shows (k_vc s)) (wc_shows (k_vc s')) [].
Proof.
  intros Hinv Hp Hk Hn Hn64 Hcan Hsz Hroom. rewrite <-(length_range n) in *.
  apply (valloc_ok (range n) s page flags p4 lv); try done.
  - unfold range. apply NoDup_fmap_2; [apply _|apply NoDup_seq].
  - intros off Hoff%elem_of_range. destruct (Hcan off Hoff) as (? & ? & ?).
    split_and!; try done; [lia|]. unfold PAGE_SIZE in *. lia.
Qed.

(** ** What the services promise *)

(** C21. [valloc] of [n] pages succeeds when four frames per page are free: the
    pages are backed by [n] different frames that were free and are not free
    afterwards, none of them holds a page table, the flags are the mapper's,
    and no other page changes its translation. *)
Theorem valloc_correct s page n flags p4 lv :
  kmem_inv s p4 lv → good_page page → kernel_flags flags → 0 ≤ n → n * PAGE_SIZE ≤ 2 ^ 64 →
  can_valloc s p4 page n → (4 * Z.to_nat n ≤ size (fa_free (k_pmm s)))%nat →
  has_room (wc_shows (k_vc s)) 2 →
  ∃ fs s' lv', valloc page n flags s = Ok (tt, s') ∧ kmem_inv s' p4 lv' ∧
    backs s s' p4 page flags (range n) fs ∧
    remaps (4 * Z.to_nat n) p4 (request_pages page (range n)) s s' ∧
    same_windows (wc_shows (k_vc s)) (wc_shows (k_vc s')) [].
Proof. apply valloc_run. Qed.

(** [vmap_many] maps frame number [i] at page [page + i] for every [i], with
    the flags of the mapper, and changes the translation of no other page. *)
Theorem vmap_many_correct s page frames flags p4 lv :
  kmem_inv s p4 lv → good_page page → Forall good_frame frames → kernel_flags flags →
  Z.of_nat (length frames) * PAGE_SIZE < 2 ^ 64 →
  Forall (λ q, good_page q ∧ (q < START_ADDR ∨ START_ADDR + VC_SIZE ≤ q) ∧
    clear_path (k_mem s) p4 (page_path q) = true) (pages_from 0 page frames) →
  (3 * length frames ≤ size (fa_free (k_pmm s)))%nat → has_room (wc_shows (k_vc s)) 2 →
  ∃ s' lv', vmap_many page frames flags s = Ok (tt, s') ∧ kmem_inv s' p4 lv' ∧
    Forall2 (λ q f, translate (k_mem s') p4 q = Some (f, leaf_flags q flags))
      (pages_from 0 page frames) frames ∧
    remaps (3 * length frames) p4 (pages_from 0 page frames) s s' ∧
    same_windows (wc_shows (k_vc s)) (wc_shows (k_vc s')) [].
Proof. intros. by eapply vmap_many_ok. Qed.
End mem_proofs.
