(* ===== verification/Heap.v ===== *)
(** * The kernel heap

    Models [kernel/src/mem/heap.rs]: the region of kernel space the global
    allocator works in is backed by frames on demand, by [expand], which the
    page fault handler calls.  The state is the kernel's memory with the two
    statics [HEAP_HEAD] and [EXPAND_COUNT].  The allocator that carves the
    region up ([linked_list_allocator]) is a crate of its own and is not
    modelled; its [init] receives the region [HEAP_START, HEAP_SIZE]. *)

From S2P Require Import Prelude X86 FrameAlloc WindowCache VCache Mapper Mem.

Definition HEAP_START : Z := 0xFFFF808000000000.
Definition HEAP_SIZE : Z := 2 * 1024 * 1024 * 1024.
Definition FRAG_SIZE : Z := 32 * 1024.

Record Heap (P V : Type) := mkHeap {
  h_kmem : Kmem P V;
  HEAP_HEAD : Z;
  EXPAND_COUNT : Z;
}.
Arguments mkHeap {P V}.
Arguments h_kmem {P V}.
Arguments HEAP_HEAD {P V}.
Arguments EXPAND_COUNT {P V}.

Section heap.
Context {X : X86} {P : Type} {FA : FrameAllocator P} {V : Type} {WC : WindowCache V}.

Definition on_kmem {A} (m : M (Kmem P V) A) : M (Heap P V) A :=
  zoom h_kmem (λ k h, mkHeap k (HEAP_HEAD h) (EXPAND_COUNT h)) m.

Definition heap_init : M (Heap P V) unit :=
  on_kmem (valloc HEAP_START (FRAG_SIZE / PAGE_SIZE) WRITABLE).

(** [EXPAND_COUNT.fetch_add(1, ..)]: wraps, returns the old value. *)
Definition fetch_add_count : M (Heap P V) Z := λ h,
  Ok (EXPAND_COUNT h, mkHeap (h_kmem h) (HEAP_HEAD h) (wrap 64 (EXPAND_COUNT h + 1))).

Definition heap_expand (adr : Z) : M (Heap P V) unit :=
  head ← gets HEAP_HEAD;
  if adr <? head then mret tt else
  heap_end ← lift (of_option Crate (virt_add HEAP_START HEAP_SIZE));
  let adr := page_containing adr in
  left ← lift (of_option Crate (virt_sub heap_end HEAP_START));
  count ← fetch_add_count;
  count1 ← lift (add64 count 1);
  max_expand_amount ← lift (mul64 count1 FRAG_SIZE);
  let expand := if max_expand_amount <? left then max_expand_amount else left in
  page ← lift (unwrap (page_from_start adr));
  _ ← on_kmem (valloc page (expand / PAGE_SIZE) WRITABLE);
  head' ← lift (add64 head expand);
  modify (λ h, mkHeap (h_kmem h) head' (EXPAND_COUNT h)).

Definition is_heap (adr : Z) : res bool :=
  heap_end ← of_option Crate (virt_add HEAP_START HEAP_SIZE);
  mret ((HEAP_START <=? adr) && (adr <? heap_end)).

(** The bytes the [count]-th expansion maps. *)
Definition expand_amount (count : Z) : Z :=
  if (count + 1) * FRAG_SIZE <? HEAP_SIZE then (count + 1) * FRAG_SIZE else HEAP_SIZE.
End heap.

Section heap_proofs.
Context {X : X86} {XO : X86Ok X} {P : Type} {FA : FrameAllocator P} {FAO : FrameAllocatorOk P}.
Context {V : Type} {WC : WindowCache V} {WCO : WindowCacheOk V}.
Implicit Types (h : Heap P V).

(** The expansion at [adr] has the frames, the windows and the paths it needs. *)
Record can_expand h (p4 : Z) (lv : Z → nat) (adr : Z) : Prop := {
  ce_inv : kmem_inv (h_kmem h) p4 lv;
  ce_adr : HEAP_START ≤ adr < HEAP_START + HEAP_SIZE;
  ce_head : in_width 63 (HEAP_HEAD h - HEAP_START);
  ce_count : 0 ≤ EXPAND_COUNT h < 2 ^ 40;
  ce_path i : 0 ≤ i < expand_amount (EXPAND_COUNT h) / PAGE_SIZE →
    clear_path (k_mem (h_kmem h)) p4 (page_path (page_base adr + i * PAGE_SIZE)) = true;
  ce_frames : (4 * Z.to_nat (expand_amount (EXPAND_COUNT h) / PAGE_SIZE) ≤
    size (fa_free (k_pmm (h_kmem h))))%nat;
  ce_room : has_room (wc_shows (k_vc (h_kmem h))) 2;
}.

Lemma expand_amount_bound c :
  0 ≤ c → FRAG_SIZE ≤ expand_amount c ≤ HEAP_SIZE ∧
    0 < expand_amount c / PAGE_SIZE ∧ expand_amount c / PAGE_SIZE * PAGE_SIZE = expand_amount c.
Proof.
  intros Hc. unfold expand_amount, FRAG_SIZE, HEAP_SIZE, PAGE_SIZE.
  destruct (Z.ltb_spec ((c + 1) * (32 * 1024)) (2 * 1024 * 1024 * 1024)); zlia.
Qed.

(** An address in the heap, and every page the expansion can reach, is good. *)
Lemma heap_page_good adr k :
  HEAP_START ≤ adr < HEAP_START + HEAP_SIZE → 0 ≤ k → k * PAGE_SIZE ≤ HEAP_SIZE →
  good_page (page_base adr + k * PAGE_SIZE) ∧
  START_ADDR + VC_SIZE ≤ page_base adr + k * PAGE_SIZE.
Proof.
  unfold good_page, page_base, HEAP_START, HEAP_SIZE, START_ADDR, VC_SIZE, P1PAGE_COUNT, KVMSPACE, PAGE_SIZE.
  rewrite canonical_iff, page_aligned_iff. intros. split; [split|]; zlia.
Qed.

(** [expand] once the pages are allocated. *)
Lemma heap_expand_step h adr k' :
  HEAP_START ≤ adr < HEAP_START + HEAP_SIZE → in_width 63 (HEAP_HEAD h - HEAP_START) →
  0 ≤ EXPAND_COUNT h < 2 ^ 40 → HEAP_HEAD h ≤ adr →
  valloc (page_base adr) (expand_amount (EXPAND_COUNT h) / PAGE_SIZE) WRITABLE (h_kmem h) =
    Ok (tt, k') →
  heap_expand adr h =
    Ok (tt, mkHeap k' (HEAP_HEAD h + expand_amount (EXPAND_COUNT h)) (EXPAND_COUNT h + 1)).
Proof.
  intros Hadr [Hh0 Hh1] Hc Hhead Hrun.
  destruct (expand_amount_bound (EXPAND_COUNT h) ltac:(lia)) as (Hamt & Hn & Hmul).
  pose proof (heap_page_good adr 0 Hadr ltac:(lia) ltac:(unfold HEAP_SIZE; lia)) as [Hgp _].
  rewrite Z.add_0_r in Hgp.
  assert (canonical adr = true) as Hca.
  { apply canonical_iff. unfold HEAP_START, HEAP_SIZE in Hadr. lia. }
  unfold heap_expand. rewrite (M_bind_run (gets HEAP_HEAD) _ h (HEAP_HEAD h) h eq_refl).
  destruct (Z.ltb_spec adr (HEAP_HEAD h)); [lia|].
  assert (of_option Crate (virt_add HEAP_START HEAP_SIZE) = Ok (HEAP_START + HEAP_SIZE)) as E1.
  { by rewrite virt_add_spec. }
  run_step (lift_run _ h _ E1). clear E1. cbv zeta.
  assert (of_option Crate (virt_sub (HEAP_START + HEAP_SIZE) HEAP_START) = Ok HEAP_SIZE) as E1.
  { by rewrite virt_sub_spec. }
  run_step (lift_run _ h _ E1). clear E1.
  rewrite (M_bind_run fetch_add_count _ h (EXPAND_COUNT h)
    (mkHeap (h_kmem h) (HEAP_HEAD h) (wrap 64 (EXPAND_COUNT h + 1))) eq_refl).
  rewrite (wrap_id 64 (EXPAND_COUNT h + 1)) by (unfold in_width; lia).
  set (h1 := mkHeap _ _ _).
  assert (add64 (EXPAND_COUNT h) 1 = Ok (EXPAND_COUNT h + 1)) as E1
    by (apply chk_in; unfold in_width; lia).
  run_step (lift_run _ h1 _ E1). clear E1.
  assert (mul64 (EXPAND_COUNT h + 1) FRAG_SIZE = Ok ((EXPAND_COUNT h + 1) * FRAG_SIZE)) as E1
    by (apply chk_in; unfold in_width, FRAG_SIZE; lia).
  run_step (lift_run _ h1 _ E1). clear E1.
  rewrite page_containing_spec by done. fold (expand_amount (EXPAND_COUNT h)). fold (page_base adr).
  assert (unwrap (page_from_start (page_base adr)) = Ok (page_base adr)) as E1.
  { rewrite page_from_start_spec by apply Hgp. by rewrite (proj2 Hgp). }
  run_step (lift_run _ h1 _ E1). clear E1. unfold on_kmem.
  run_step (zoom_run h_kmem (λ k h, mkHeap k (HEAP_HEAD h) (EXPAND_COUNT h)) _ h1 _ _ Hrun).
  assert (add64 (HEAP_HEAD h) (expand_amount (EXPAND_COUNT h)) =
    Ok (HEAP_HEAD h + expand_amount (EXPAND_COUNT h))) as E1.
  { apply chk_in. unfold in_width, HEAP_START, HEAP_SIZE, FRAG_SIZE in *. lia. }
  run_step (lift_run _ (mkHeap k' (HEAP_HEAD h) (EXPAND_COUNT h + 1)) _ E1). done.
Qed.

Lemma heap_expand_run h adr p4 lv :
  can_expand h p4 lv adr → HEAP_HEAD h ≤ adr →
  ∃ fs k' lv', heap_expand adr h =
      Ok (tt, mkHeap k' (HEAP_HEAD h + expand_amount (EXPAND_COUNT h)) (EXPAND_COUNT h + 1)) ∧
    kmem_inv k' p4 lv' ∧
    backs (h_kmem h) k' p4 (page_base adr) WRITABLE
      (range (expand_amount (EXPAND_COUNT h) / PAGE_SIZE)) fs ∧
    remaps (4 * Z.to_nat (expand_amount (EXPAND_COUNT h) / PAGE_SIZE)) p4
      (request_pages (page_base adr) (range (expand_amount (EXPAND_COUNT h) / PAGE_SIZE)))
      (h_kmem h) k' ∧
    same_windows (wc_shows (k_vc (h_kmem h))) (wc_shows (k_vc k')) [].
Proof.
  intros [Hinv Hadr Hh Hc Hpath Hfr Hroom] Hhead.
  destruct (expand_amount_bound (EXPAND_COUNT h) ltac:(lia)) as (Hamt & Hn & Hmul).
  pose proof (heap_page_good adr 0 Hadr ltac:(lia) ltac:(unfold HEAP_SIZE; lia)) as [Hgp _].
  rewrite Z.add_0_r in Hgp. pose proof kernel_flags_const as (_ & _ & Hkw & _).
  destruct (valloc_run (h_kmem h) (page_base adr) (expand_amount (EXPAND_COUNT h) / PAGE_SIZE)
    WRITABLE p4 lv) as (fs & k' & lv' & Hrun & Hinv' & Hb & Hrm & Hsw); try done; [lia| | |].
  { rewrite Hmul. unfold HEAP_SIZE in *. lia. }
  { intros i Hi. destruct (heap_page_good adr i Hadr) as [Hg Hout]; [lia| |].
    - rewrite <-Hmul in Hamt. unfold PAGE_SIZE in *. lia.
    - split_and!; [done|by right|by apply Hpath]. }
  exists fs, k', lv'. split_and!; try done.
  by apply heap_expand_step.
Qed.

(** The frame behind the faulting address after an expansion. *)
Lemma backs_first k k' p4 adr n fs :
  0 < n → HEAP_START ≤ adr < HEAP_START + HEAP_SIZE →
  backs (X:=X) (P:=P) (V:=V) k k' p4 (page_base adr) WRITABLE (range n) fs →
  ∃ f, translate (k_mem k') p4 (page_base adr) = Some (f, leaf_flags (page_base adr) WRITABLE) ∧
    f ∈ fa_free (k_pmm k) ∧ f ∉ fa_free (k_pmm k').
Proof.
  intros Hn Hadr (Htr & _ & Hall). unfold range in Htr.
  destruct (Z.to_nat n) as [|m] eqn:E; [lia|]. rewrite <-cons_seq, fmap_cons in Htr.
  apply Forall2_cons_inv_l in Htr as (f & fs' & Hf & _ & ->).
  apply Forall_cons in Hall as [(? & ? & _) _]. exists f. by rewrite Z.add_0_r in Hf.
Qed.

(** ** What [expand] promises *)

(** [expand] at an address of the heap that is not below [HEAP_HEAD]
    succeeds and backs [expand_amount] bytes from the page of the address with
    different frames that were free, mapped writable, global and inaccessible
    to user code; in particular the faulting page is mapped.  No other page
    changes its translation. *)
Theorem heap_expand_correct h adr p4 lv :
  can_expand h p4 lv adr → HEAP_HEAD h ≤ adr →
  ∃ fs f k' lv', heap_expand adr h =
      Ok (tt, mkHeap k' (HEAP_HEAD h + expand_amount (EXPAND_COUNT h)) (EXPAND_COUNT h + 1)) ∧
    kmem_inv k' p4 lv' ∧
    translate (k_mem k') p4 (page_base adr) = Some (f, leaf_flags (page_base adr) WRITABLE) ∧
    backs (h_kmem h) k' p4 (page_base adr) WRITABLE
      (range (expand_amount (EXPAND_COUNT h) / PAGE_SIZE)) fs ∧
    remaps (4 * Z.to_nat (expand_amount (EXPAND_COUNT h) / PAGE_SIZE)) p4
      (request_pages (page_base adr) (range (expand_amount (EXPAND_COUNT h) / PAGE_SIZE)))
      (h_kmem h) k'.
Proof.
  intros Hce Hhead. pose proof (ce_count _ _ _ _ Hce) as Hc.
  destruct (expand_amount_bound (EXPAND_COUNT h) ltac:(lia)) as (_ & Hn & _).
  destruct (heap_expand_run h adr p4 lv Hce Hhead) as (fs & k' & lv' & Hr & Hinv & Hb & Hrm & _).
  destruct (backs_first _ _ _ _ _ _ Hn (ce_adr _ _ _ _ Hce) Hb) as (f & Hf & _).
  exists fs, f, k', lv'. split_and!; done.
Qed.

(** [HEAP_HEAD] moves by the size of the expansion and not to its end, so
    the check that should make a second fault on a page harmless fails for an
    address further up: a second [expand] at the same address succeeds too and
    puts another frame behind the page, whose contents are lost. *)
Theorem heap_expand_twice h adr p4 lv :
  can_expand h p4 lv adr → HEAP_HEAD h + expand_amount (EXPAND_COUNT h) ≤ adr →
  EXPAND_COUNT h < 2 ^ 39 →
  (∀ i, 0 ≤ i < expand_amount (EXPAND_COUNT h + 1) / PAGE_SIZE →
    clear_path (k_mem (h_kmem h)) p4 (page_path (page_base adr + i * PAGE_SIZE)) = true) →
  (4 * Z.to_nat (expand_amount (EXPAND_COUNT h) / PAGE_SIZE) +
   4 * Z.to_nat (expand_amount (EXPAND_COUNT h + 1) / PAGE_SIZE) ≤
    size (fa_free (k_pmm (h_kmem h))))%nat →
  ∃ h1 f1 h2 f2, heap_expand adr h = Ok (tt, h1) ∧ heap_expand adr h1 = Ok (tt, h2) ∧
    translate (k_mem (h_kmem h1)) p4 (page_base adr) =
      Some (f1, leaf_flags (page_base adr) WRITABLE) ∧
    translate (k_mem (h_kmem h2)) p4 (page_base adr) =
      Some (f2, leaf_flags (page_base adr) WRITABLE) ∧ f2 ≠ f1.
Proof.
  intros Hce Hhead Hc39 Hpath Hsz. pose proof (ce_count _ _ _ _ Hce) as Hc.
  destruct (expand_amount_bound (EXPAND_COUNT h) ltac:(lia)) as (Ha & Hn & _).
  destruct (expand_amount_bound (EXPAND_COUNT h + 1) ltac:(lia)) as (_ & Hn2 & _).
  destruct (heap_expand_run h adr p4 lv Hce) as (fs & k1 & lv1 & Hr & Hinv1 & Hb & Hrm & Hsw);
    [unfold FRAG_SIZE in *; lia|].
  destruct (backs_first _ _ _ _ _ _ Hn (ce_adr _ _ _ _ Hce) Hb) as (f & Hf & _ & Hnf).
  set (h1 := mkHeap _ _ _) in Hr.
  assert (can_expand h1 p4 lv1 adr) as Hce1.
  { destruct Hce as [_ Hadr [Hh0 Hh1] _ _ _ Hroom]. pose proof (rm_size _ _ _ _ _ Hrm).
    split; cbn [h_kmem HEAP_HEAD EXPAND_COUNT h1]; try done.
    - unfold in_width, HEAP_START, HEAP_SIZE, FRAG_SIZE in *. lia.
    - lia.
    - intros i Hi. apply (rm_clear _ _ _ _ _ Hrm); [apply page_indices_lt|simpl; lia|by apply Hpath].
    - lia.
    - by eapply same_windows_room. }
  destruct (heap_expand_run h1 adr p4 lv1 Hce1) as (fs2 & k2 & lv2 & Hr2 & _ & Hb2 & _); [simpl; lia|].
  destruct (backs_first _ _ _ _ _ _ Hn2 (ce_adr _ _ _ _ Hce) Hb2) as (f2 & Hf2 & Hin2 & _).
  eexists h1, f, _, f2. split_and!; [exact Hr|exact Hr2|exact Hf|exact Hf2|]. intros ->. done.
Qed.

(** An expansion at the last page of the heap maps pages beyond its end:
    the amount left is computed from the start of the heap and not from the
    faulting address. *)
Theorem heap_expand_overruns h adr p4 lv :
  can_expand h p4 lv adr → HEAP_HEAD h ≤ adr → page_base adr = HEAP_START + HEAP_SIZE - PAGE_SIZE →
  ∃ h1 f, heap_expand adr h = Ok (tt, h1) ∧ is_heap (HEAP_START + HEAP_SIZE) = Ok false ∧
    translate (k_mem (h_kmem h1)) p4 (HEAP_START + HEAP_SIZE) =
      Some (f, leaf_flags (HEAP_START + HEAP_SIZE) WRITABLE).
Proof.
  intros Hce Hhead Hlast. pose proof (ce_count _ _ _ _ Hce) as Hc.
  destruct (expand_amount_bound (EXPAND_COUNT h) ltac:(lia)) as (Ha & Hn & Hmul).
  destruct (heap_expand_run h adr p4 lv Hce Hhead) as (fs & k' & lv' & Hr & _ & (Htr & _) & _).
  eexists. set (n := expand_amount (EXPAND_COUNT h) / PAGE_SIZE) in *.
  assert (range n !! 1%nat = Some 1) as H1.
  { apply (lookup_range n 1). unfold FRAG_SIZE, PAGE_SIZE in *. lia. }
  destruct (Forall2_lookup_l _ _ _ _ _ Htr H1) as (f & _ & Hf). exists f.
  split_and!; [exact Hr| |].
  - unfold is_heap. by rewrite virt_add_spec.
  - simpl. rewrite Hlast in Hf. unfold PAGE_SIZE in Hf.
    by replace (HEAP_START + HEAP_SIZE - 4096 + 1 * 4096) with (HEAP_START + HEAP_SIZE) in Hf by lia.
Qed.
End heap_proofs.
