(* ===== verification/EarlyHeap.v ===== *)
(** * The early heap

    Models [kernel/src/mem/early_heap.rs]: a static array of 128 KiB with an
    allocator of the crate [linked_list_allocator], used where the heap of the
    kernel is not there yet or must not fault (the segments of the frame
    allocator, the flags of a page fault report).  The crate is the class
    [HeapCrate] with the laws its documentation gives; the same class stands
    for the allocator of the kernel's heap. *)

From S2P Require Import Prelude.

(** A heap, with [init] on a region, and [alloc] and [dealloc] of
    [GlobalAlloc]: [alloc] answers the null pointer when it fails. *)
Class HeapCrate := {
  LHeap : Type;
  lh_empty : LHeap;
  lh_init : Z → Z → LHeap → LHeap;
  lh_alloc : Z → Z → LHeap → Z * LHeap;
  lh_dealloc : Z → Z → Z → LHeap → LHeap;
}.

(** The bytes of two blocks do not overlap. *)
Definition apart (p n q m : Z) : Prop := p + n ≤ q ∨ q + m ≤ p.
(** [Layout]: an alignment is a power of two. *)
Definition layout_ok (sz align : Z) : Prop := 0 ≤ sz ∧ ∃ k, 0 ≤ k < 63 ∧ align = 2 ^ k.

(** What the documentation promises of a heap on the [len] bytes at [start]
    with the blocks [blocks] handed out: by address, the layout (size and
    alignment) each was requested with, which is also the one it must be given
    back with. *)
Class HeapCrateOk (H : HeapCrate) := {
  lh_wf : LHeap → Z → Z → gmap Z (Z * Z) → Prop;
  lh_init_ok start len : 0 < start → 0 ≤ len → lh_wf (lh_init start len lh_empty) start len ∅;
  lh_alloc_ok h start len blocks sz align : lh_wf h start len blocks → 0 < sz → layout_ok sz align →
    lh_alloc sz align h = (0, h) ∨
    ∃ p h', lh_alloc sz align h = (p, h') ∧ p ≠ 0 ∧ p mod align = 0 ∧ start ≤ p ∧ p + sz ≤ start + len ∧
      map_Forall (λ q l, apart p sz q l.1) blocks ∧ lh_wf h' start len (<[p := (sz, align)]> blocks);
  lh_dealloc_ok h start len blocks p sz align : lh_wf h start len blocks → blocks !! p = Some (sz, align) →
    lh_wf (lh_dealloc p sz align h) start len (delete p blocks);
}.

Definition EARLY_HEAP_SIZE : Z := 128 * 1024.
Inductive AllocError := mkAllocError.

Section early_heap.
Context {H : HeapCrate}.
(** The address of [EARLY_HEAP]. *)
Variable EARLY_HEAP : Z.

Definition early_heap_init : M LHeap unit := modify (lh_init EARLY_HEAP EARLY_HEAP_SIZE).

(** [EarlyAllocator::allocate]: a slice, as its address and length;
    [layout.dangling()] is the alignment as an address. *)
Definition early_allocate (sz align : Z) : M LHeap (result (Z * Z) AllocError) :=
  if sz =? 0 then mret (ROk (align, 0)) else λ h,
  let '(raw_ptr, h') := lh_alloc sz align h in
  if raw_ptr =? 0 then Ok (RErr mkAllocError, h') else Ok (ROk (raw_ptr, sz), h').
Definition early_deallocate (ptr sz align : Z) : M LHeap unit :=
  if negb (sz =? 0) then modify (lh_dealloc ptr sz align) else mret tt.

(** What the clients of the allocator do: requests, and giving back a block
    that is theirs, with its layout.  [live] are the blocks of at least a byte
    they hold. *)
Inductive early_step : LHeap * gmap Z (Z * Z) → LHeap * gmap Z (Z * Z) → Prop :=
  | step_allocate sz align h live r h' :
      layout_ok sz align → early_allocate sz align h = Ok (r, h') →
      early_step (h, live)
        (h', match r with ROk (p, n) => if n =? 0 then live else <[p := (n, align)]> live | RErr _ => live end)
  | step_deallocate p sz align h live h' :
      sz = 0 ∨ live !! p = Some (sz, align) → early_deallocate p sz align h = Ok (tt, h') →
      early_step (h, live) (h', if sz =? 0 then live else delete p live).

(** A slice that fits its layout: not null, aligned, and of its size. *)
Definition slice_fits (sz align : Z) (r : Z * Z) : Prop := r.1 ≠ 0 ∧ r.1 mod align = 0 ∧ r.2 = sz.

(** Live blocks are inside the array and apart from each other. *)
Definition live_ok (live : gmap Z (Z * Z)) : Prop :=
  map_Forall (λ p l, 0 < l.1 ∧ EARLY_HEAP ≤ p ∧ p + l.1 ≤ EARLY_HEAP + EARLY_HEAP_SIZE) live ∧
  ∀ p l q l', live !! p = Some l → live !! q = Some l' → p ≠ q → apart p l.1 q l'.1.
End early_heap.

Section early_proofs.
Context {H : HeapCrate} {HO : HeapCrateOk H}.
Variable EARLY_HEAP : Z.
Notation wf h live := (lh_wf h EARLY_HEAP EARLY_HEAP_SIZE live).

Lemma apart_sym p n q m : apart p n q m → apart q m p n.
Proof. unfold apart. tauto. Qed.

Lemma live_insert p n a live :
  live_ok EARLY_HEAP live → 0 < n → EARLY_HEAP ≤ p → p + n ≤ EARLY_HEAP + EARLY_HEAP_SIZE →
  map_Forall (λ q l, apart p n q l.1) live → live_ok EARLY_HEAP (<[p := (n, a)]> live).
Proof.
  intros [Hin Hap] Hn Hlo Hhi Hnew. split; [by apply map_Forall_insert_2|].
  intros q m q' m' Hq Hq' Hne. destruct (decide (q = p)) as [->|Hqp].
  - rewrite lookup_insert_eq in Hq. injection Hq as <-. rewrite lookup_insert_ne in Hq' by done. by apply Hnew.
  - rewrite lookup_insert_ne in Hq by done. destruct (decide (q' = p)) as [->|].
    + rewrite lookup_insert_eq in Hq'. injection Hq' as <-. by apply apart_sym, Hnew.
    + rewrite lookup_insert_ne in Hq' by done. eauto.
Qed.

Lemma live_delete p live : live_ok EARLY_HEAP live → live_ok EARLY_HEAP (delete p live).
Proof.
  intros [Hin Hap]. split; [by apply map_Forall_delete|].
  intros q m q' m' [_ Hq]%lookup_delete_Some [_ Hq']%lookup_delete_Some. eauto.
Qed.

(** [allocate] on every branch. *)
Lemma early_allocate_run h live sz align :
  wf h live → layout_ok sz align →
  ∃ r h', early_allocate sz align h = Ok (r, h') ∧
    match r with
    | RErr _ => 0 < sz ∧ h' = h
    | ROk (p, n) => slice_fits sz align (p, n) ∧
        if n =? 0 then h' = h else
          wf h' (<[p := (n, align)]> live) ∧ EARLY_HEAP ≤ p ∧ p + n ≤ EARLY_HEAP + EARLY_HEAP_SIZE ∧
          map_Forall (λ q l, apart p n q l.1) live
    end.
Proof.
  intros Hwf Hl. unfold early_allocate. destruct (Z.eqb_spec sz 0) as [->|Hne].
  - exists (ROk (align, 0)), h. destruct Hl as [_ (k & Hk & ->)]. split_and!; [done| |done].
    assert (0 < 2 ^ k) by (apply Z.pow_pos_nonneg; lia). split_and!; simpl; [lia|by apply Z.mod_same; lia|done].
  - pose proof Hl as [H0 _]. destruct (lh_alloc_ok h _ _ live sz align Hwf ltac:(lia) Hl)
      as [->|(p & h' & -> & Hp & Hal & Hlo & Hhi & Hap & Hwf')].
    + eexists _, h. split; [reflexivity|]. simpl. split; [lia|done].
    + eexists (ROk (p, sz)), h'. destruct (Z.eqb_spec p 0); [done|]. split; [done|]. split; [done|].
      by destruct (Z.eqb_spec sz 0).
Qed.

Lemma early_step_inv h live h' live' :
  early_step (h, live) (h', live') → wf h live → live_ok EARLY_HEAP live →
  wf h' live' ∧ live_ok EARLY_HEAP live'.
Proof.
  intros Hs Hwf Hok. inversion Hs as [sz align h1 live1 r h1' Hl Hr|p sz align h1 live1 h1' Hp Hr]; simplify_eq.
  - destruct (early_allocate_run h live sz align Hwf Hl) as (r' & h2 & Hr' & Hcase).
    rewrite Hr in Hr'. injection Hr' as <- <-. destruct r as [[p n]|e]; [|by destruct Hcase as [_ ->]].
    destruct Hcase as [[_ [_ Hsz]] Hcase]. simpl in Hsz. rewrite Hsz in *. clear Hsz.
    destruct (Z.eqb_spec sz 0) as [E0|E0]; [by rewrite Hcase|]. destruct Hcase as (Hwf' & Hlo & Hhi & Hap). destruct Hl as [? _].
    split; [done|]. apply live_insert; try done. lia.
  - clear Hs. unfold early_deallocate in Hr. destruct (sz =? 0) eqn:Hsz; cbn [negb] in Hr.
    + unfold mret, M_ret in Hr. by simplify_eq.
    + destruct Hp as [->|Hp]; [done|]. unfold modify in Hr. injection Hr as <-.
      split; [by apply lh_dealloc_ok|by apply live_delete].
Qed.

Lemma early_reachable h live :
  0 < EARLY_HEAP → rtc early_step (lh_init EARLY_HEAP EARLY_HEAP_SIZE lh_empty, ∅) (h, live) →
  wf h live ∧ live_ok EARLY_HEAP live.
Proof.
  intros H0 Hs. remember (lh_init EARLY_HEAP EARLY_HEAP_SIZE lh_empty, ∅) as x eqn:Ex.
  remember (h, live) as y eqn:Ey.
  assert (∀ h0 live0, x = (h0, live0) → wf h0 live0 → live_ok EARLY_HEAP live0 →
    wf y.1 y.2 ∧ live_ok EARLY_HEAP y.2) as Hgen.
  { clear Ex Ey. induction Hs as [x|x z y Hxz _ IH]; intros h0 live0 -> Hwf Hok; [done|].
    destruct z as [h1 live1]. destruct (early_step_inv _ _ _ _ Hxz Hwf Hok). by eapply IH. }
  subst. apply (Hgen _ _ eq_refl); [by apply lh_init_ok|]. split; [apply map_Forall_empty|done].
Qed.

(** The early allocator keeps the contract of [Allocator] after any
    sequence of requests and returns of blocks: a request either fails and
    changes nothing, which happens to no request of zero bytes, or answers a
    slice that is not null, is aligned as asked and has exactly the length
    asked for; a slice of at least a byte lies in the static array and
    overlaps no block that is still held. *)
Theorem early_allocate_typed h live sz align :
  0 < EARLY_HEAP → rtc early_step (lh_init EARLY_HEAP EARLY_HEAP_SIZE lh_empty, ∅) (h, live) →
  layout_ok sz align →
  live_ok EARLY_HEAP live ∧
  ∃ r h', early_allocate sz align h = Ok (r, h') ∧
    match r with
    | RErr _ => 0 < sz ∧ h' = h
    | ROk (p, n) => slice_fits sz align (p, n) ∧
        (0 < n → EARLY_HEAP ≤ p ∧ p + n ≤ EARLY_HEAP + EARLY_HEAP_SIZE ∧
          map_Forall (λ q l, apart p n q l.1) live)
    end.
Proof.
  intros H0 Hs Hl. destruct (early_reachable h live H0 Hs) as [Hwf Hok]. split; [done|].
  destruct (early_allocate_run h live sz align Hwf Hl) as (r & h' & Hr & Hcase). exists r, h'.
  split; [done|]. destruct r as [[p n]|e]; [|done]. destruct Hcase as [Hfit Hcase]. split; [done|].
  intros Hn. destruct (Z.eqb_spec n 0); [lia|]. tauto.
Qed.
End early_proofs.

(** ** A concrete heap: blocks are taken one after the other *)

Record Bump := mkBump { bu_start : Z; bu_len : Z; bu_cursor : Z }.
Definition bump_alloc (sz align : Z) (h : Bump) : Z * Bump :=
  let p := (bu_cursor h + align - 1) / align * align in
  if p + sz <=? bu_start h + bu_len h then (p, mkBump (bu_start h) (bu_len h) (p + sz)) else (0, h).
#[global] Instance bump_heap : HeapCrate := {|
  LHeap := Bump;
  lh_empty := mkBump 0 0 0;
  lh_init start len _ := mkBump start len start;
  lh_alloc := bump_alloc;
  lh_dealloc _ _ _ h := h;
|}.

Lemma round_up_bounds c a : 0 < a → c ≤ (c + a - 1) / a * a.
Proof. intros Ha. pose proof (Z.div_mod (c + a - 1) a). pose proof (Z.mod_pos_bound (c + a - 1) a). lia. Qed.

#[global] Instance bump_heap_ok : HeapCrateOk bump_heap.
Proof.
  refine {| lh_wf := λ (h : @LHeap bump_heap) start len blocks,
    bu_start h = start ∧ bu_len h = len ∧ 0 < start ≤ bu_cursor h ∧
    map_Forall (λ p l, p + l.1 ≤ bu_cursor h) blocks |}.
  - intros start len Hs Hl. cbn. split_and!; try lia. apply map_Forall_empty.
  - intros h start len blocks sz align (Hst & Hln & Hc & Hb) Hsz [_ (k & Hk & ->)]. cbn. unfold bump_alloc.
    set (p := (bu_cursor h + 2 ^ k - 1) / 2 ^ k * 2 ^ k).
    assert (0 < 2 ^ k) as Ha by (apply Z.pow_pos_nonneg; lia).
    assert (bu_cursor h ≤ p) as Hp by (by apply round_up_bounds).
    destruct (Z.leb_spec (p + sz) (bu_start h + bu_len h)); [right|by left].
    eexists p, _. split; [reflexivity|]. split_and!; cbn; try lia.
    + apply Z.mod_mul. lia.
    + intros q m Hq. right. specialize (Hb q m Hq). cbn in Hb. lia.
    + apply map_Forall_insert_2; [cbn; lia|]. intros q m Hq. specialize (Hb q m Hq). cbn in Hb. lia.
  - intros h start len blocks p sz align (Hst & Hln & Hc & Hb) Hp. do 2 (split; [done|]). split; [done|]. by apply map_Forall_delete.
Defined.

Lemma early_allocate_typed_witness :
  ∃ r h', early_allocate (H := bump_heap) 24 8 (bump_alloc 10 1 (mkBump 0x9000 EARLY_HEAP_SIZE 0x9000)).2 = Ok (ROk r, h') ∧
    r = (0x9010, 24).
Proof.
  destruct (early_allocate_typed (H := bump_heap) 0x9000 (bump_alloc 10 1 (mkBump 0x9000 EARLY_HEAP_SIZE 0x9000)).2 {[0x9000 := (10, 1)]} 24 8)
    as (_ & r & h' & Hr & _).
  - lia.
  - apply rtc_once. apply (step_allocate (H := bump_heap) 10 1 _ ∅ (ROk (0x9000, 10))); [|reflexivity].
    split; [lia|]. exists 0. split; [lia|reflexivity].
  - split; [lia|]. exists 3. split; [lia|reflexivity].
  - eexists _, h'. split; [|reflexivity]. rewrite Hr. vm_compute in Hr. injection Hr as <- <-. vm_compute. reflexivity.
Defined.
