(* ===== verification/Boot.v ===== *)
(** * Taking over the memory

    Models the part of the initialisation that takes the page tables over from
    the boot loader: [vcache::init] ([kernel/src/mem/virt/vcache.rs]),
    [mapper::init] ([kernel/src/mem/virt/mapper.rs]), [phys::map_header]
    ([kernel/src/mem/phys.rs]) and [virt::init] ([kernel/src/mem/virt/mod.rs]).
    While it runs the memory is identity mapped, so that a table is reached at
    its physical address ([Ident] of [Mapper]); the address must not be null,
    which the code unwraps, and must be below the end of the identity map.

    The tables of the cache are memory twice over: the processor finds them
    through the entries of the level two table, the kernel writes them through
    the slice [p1], which starts at the first page of the cache.  The theorems
    say when the two are the same memory. *)

From S2P Require Import Prelude X86 FrameAlloc WindowCache VCache Bootboot Phys Mapper Mem.

Definition PHYSHEADER_START : Z := 0xFFFF804000000000.
(** [mem::size_of::<PageTableEntry>()]. *)
Definition sizeof_PageTableEntry : Z := 8.

Section boot.
Context {X : X86} {P : Type} {FA : FrameAllocator P}.
(** The frame of the root table, [Cr3::read()]. *)
Variable cr3 : Z.
Notation K := (Kmem P VCache).

Definition TABLE_FLAGS : Z := fl_union WRITABLE PRESENT.

(** [(f as *mut PageTable).as_mut().unwrap()]. *)
Definition ident_table (f : Z) : M K unit := lift (ident_ref f PAGE_SIZE).

(** The table in [f] is unwrapped, then [if entry.is_unused()
    { alloc_substruct(..) }; entry.frame().unwrap()] for its entry [i]. *)
Definition entry_table (f : Z) (i : nat) : M K Z :=
  _ ← ident_table f;
  e ← read_place (Ident f i);
  _ ← (if pte_is_unused e then _ ← alloc_substruct (Ident f i) TABLE_FLAGS true; mret tt else mret tt);
  e ← read_place (Ident f i);
  lift (unwrap (pte_frame e)).

(** One turn of the loop that allocates the tables of the cache. *)
Definition alloc_p1 (p2 i : Z) : M K unit :=
  e ← read_place (Ident p2 (Z.to_nat i));
  if negb (pte_is_unused e) then fail Explicit else
  _ ← alloc_substruct (Ident p2 (Z.to_nat i)) TABLE_FLAGS true;
  mret tt.

Definition table_of (f : Z) : M K (list Z) := s ← get; lift (of_option Undefined (k_mem s !! f)).

(** [vcache.map] while [p1] is the single table in the frame [p1_frame]. *)
Definition early_map (p1_frame frame : Z) : M K (option Z) :=
  r ← on_vc (vcache_map frame);
  v ← gets k_vc;
  t ← lift (of_option Bounds (vc_p1 v !! 0%nat));
  _ ← modify (λ s, set_mem (<[p1_frame := t]> (k_mem s)) s);
  mret r.

(** One turn of the loop that maps the tables of the cache into the cache. *)
Definition map_p1 (p1_frame i : Z) : M K unit :=
  a ← lift (of_option Crate (phys_add p1_frame (i * 512 * sizeof_PageTableEntry)));
  frame ← lift (unwrap (frame_from_start a));
  r ← early_map p1_frame frame;
  match r with
  | None => fail Explicit
  | Some page =>
    expected ← lift (of_option Crate (virt_add START_ADDR (PAGE_SIZE * i)));
    if page =? expected then mret tt else fail Explicit
  end.

(** The frames behind the first pages of the cache, which [from_raw_parts_mut]
    takes for the tables of the cache. *)
Definition slice_frames (mem : gmap Z (list Z)) : option (list Z) :=
  mapM (λ i, fst <$> translate mem cr3 (START_ADDR + PAGE_SIZE * i)) (range P2PAGE_COUNT).

(** [VCache::renew] on that slice.  From here on the tables belong to the
    cache: they leave [k_mem]. *)
Definition renew : M K unit :=
  s ← get;
  fs ← lift (of_option Undefined (slice_frames (k_mem s)));
  p1 ← lift (of_option Undefined (mapM (λ f, k_mem s !! f) fs));
  put (set_vc (mkVCache p1 (vc_state (k_vc s))) (set_mem (foldr delete (k_mem s) fs) s)).

Definition vcache_init : M K unit :=
  p3 ← entry_table cr3 (p4_index START_ADDR);
  p2 ← entry_table p3 (p3_index START_ADDR);
  _ ← ident_table p2;
  _ ← for_ (range P2PAGE_COUNT) (alloc_p1 p2);
  e ← read_place (Ident p2 0);
  p1_frame ← lift (unwrap (pte_frame e));
  _ ← ident_table p1_frame;
  p1 ← table_of p1_frame;
  _ ← modify (set_vc (mkVCache [p1] VCacheState_new));
  _ ← for_ (range P2PAGE_COUNT) (map_p1 p1_frame);
  renew.

Definition mapper_init : M K unit :=
  r ← on_vc (vcache_map cr3);
  page ← lift (unwrap r);
  modify (λ s, mkKmem (k_pmm s) (k_vc s) (k_mem s) page (k_tlb s)).
End boot.

Section header.
Context {X : X86}.
Notation K := (Kmem PhysicalFrameAllocator VCache).

(** [offset_segment_ptr], which is unwrapped. *)
Definition offset_segment (segment_offset : Z) (s : Segment) : res Segment :=
  ptr ← add64 (seg_ptr s) segment_offset;
  if ptr =? 0 then Panic Unwrap else
  mret (mkSegment ptr (seg_header s) (seg_words s)).
Definition map_header : M K unit :=
  pmm_frame ← gets (λ s, phyframe (k_pmm s));
  pmm_size ← gets (λ s, pfa_size (k_pmm s));
  r ← vmap PHYSHEADER_START pmm_frame pmm_size WRITABLE;
  _ ← lift (unwrap_result r);
  segment_offset ← lift (sub64 PHYSHEADER_START pmm_frame);
  s ← get;
  segs ← lift (mapM (offset_segment segment_offset) (segments (k_pmm s)));
  put (set_pmm (mkPFA segs (pfa_size (k_pmm s)) (phyframe (k_pmm s))) s).

(** [virt::init]. *)
Definition virt_init (cr3 : Z) : M K unit :=
  _ ← vcache_init cr3;
  _ ← mapper_init cr3;
  _ ← map_header;
  remove_identity.
End header.

(** ** Allocating the tables *)

(** Frames that can be reached by their physical addresses. *)
Definition ident_frames `{X86} (l : list Z) : Prop := Forall (λ f, ident_ok f PAGE_SIZE) l.

(** The next [n] frames the allocator hands out. *)
Fixpoint next_frames {P} `{FrameAllocator P} (n : nat) (p : P) : option (list Z * P) :=
  match n with
  | O => Some ([], p)
  | S n' =>
    match fa_alloc p with
    | Ok (Some f, p') => '(fs, p'') ← next_frames n' p'; Some (f :: fs, p'')
    | _ => None
    end
  end.

Section alloc_proofs.
Context {X : X86} {XO : X86Ok X} {P : Type} {FA : FrameAllocator P} {FAO : FrameAllocatorOk P}.
Variable cr3 : Z.
Implicit Types (s : Kmem P VCache) (mem : gmap Z (list Z)) (lv : Z → nat).

Lemma next_frames_cons n p fs p' :
  next_frames (S n) p = Some (fs, p') →
  ∃ f q fs', fs = f :: fs' ∧ fa_alloc p = Ok (Some f, q) ∧ next_frames n q = Some (fs', p').
Proof.
  cbn [next_frames]. destruct (fa_alloc p) as [[[f|] q]|]; [|done..].
  intros ([fs' p''] & Hn & [= <- <-])%bind_Some. eauto 10.
Qed.

Lemma table_flags : kernel_flags TABLE_FLAGS ∧ fl_contains TABLE_FLAGS PRESENT = true.
Proof. destruct kernel_flags_const as (_ & Hp & Hw & _). unfold TABLE_FLAGS. auto with helium. Qed.

Lemma ident_table_ok s f : ident_ok f PAGE_SIZE → ident_table f s = Ok (tt, s).
Proof. intros Hf. apply lift_run. by apply ident_ref_ok. Qed.

Lemma read_ident s f t i e :
  k_mem s !! f = Some t → t !! i = Some e → read_place (Ident f i) s = Ok (e, s).
Proof.
  intros Ht Hi. unfold read_place, place_frame, mbind, M_bind, mret, M_ret, get, lift. rewrite Ht. simpl.
  by rewrite Hi.
Qed.

Lemma write_ident s f t i e :
  k_mem s !! f = Some t → (i < length t)%nat →
  write_place (Ident f i) e s = Ok (tt, set_mem (<[f := <[i := e]> t]> (k_mem s)) s).
Proof.
  intros Ht Hi. unfold write_place, place_frame, mbind, M_bind, mret, M_ret, get, lift. rewrite Ht. simpl.
  by destruct (Nat.ltb_spec i (length t)); [|lia].
Qed.

(** The allocator and the tables while the memory is identity mapped. *)
Record ident_inv s lv : Prop := {
  ii_pmm : fa_inv (k_pmm s);
  ii_pt : pt_inv (fa_free (k_pmm s)) (k_mem s) cr3 lv;
}.

(** Allocating a table below an unused entry, cleared in place. *)
Lemma alloc_ident s f t i e0 c p' lv :
  ident_inv s lv → k_mem s !! f = Some t → (2 ≤ lv f)%nat → t !! i = Some e0 →
  pte_is_unused e0 = true → fa_alloc (k_pmm s) = Ok (Some c, p') → ident_ok c PAGE_SIZE →
  ∃ e, let s' := set_mem (add_table (k_mem s) f t i e c) (set_pmm p' s) in
    alloc_substruct (Ident f i) TABLE_FLAGS true s = Ok (c, s') ∧ pte_frame e = Some c ∧
    good_frame c ∧ k_mem s !! c = None ∧
    ident_inv s' (add_level lv f c) ∧ grows 1 cr3 s s' lv (add_level lv f c).
Proof.
  intros [Hp Hpt] Ht Hlv Hi Hun Hal Hid. destruct table_flags as [Hk Hpr].
  destruct (fa_alloc_ok (k_pmm s) Hp) as [[E _]|(c' & q & E & Hp' & Hc & Hfree & Hman)];
    rewrite Hal in E; simplify_eq.
  destruct (fa_free_managed _ _ Hp Hc) as [_ Hg]. pose proof Hg as [Hga Hgw].
  destruct (pte_set_frame_spec c' TABLE_FLAGS Hgw Hga Hk) as (e & He & _ & Hfr). specialize (Hfr Hpr).
  assert (i < length t)%nat as Hit by (by eapply lookup_lt_Some).
  assert (k_mem s !! c' = None) as Hfresh by (by eapply add_fresh).
  assert (f ≠ c') as Hne by congruence.
  exists e. split_and!; try done.
  - unfold alloc_substruct, palloc. run_step (zoom_run k_pmm set_pmm _ s _ _ Hal).
    set (s1 := set_mem (<[c' := replicate 512 0]> (k_mem s)) (set_pmm q s)).
    assert ((_ ← lift (ident_slice c' PAGE_SIZE); clear_frame c') (set_pmm q s) = Ok (tt, s1)) as Hcl
      by (by run_step (lift_run _ (set_pmm q s) _ (ident_slice_ok c' PAGE_SIZE Hid))).
    run_step Hcl.
    assert (k_mem s1 !! f = Some t) as Ht1 by (by unfold s1; simpl; rewrite lookup_insert_ne).
    run_step (write_ident s1 f t i pte_new Ht1 Hit).
    rewrite (M_bind_run _ _ _ e _ (lift_run _ _ _ (f_equal (of_option Crate) He))).
    set (s2 := set_mem _ s1).
    assert (k_mem s2 !! f = Some (<[i := pte_new]> t)) as Ht2 by apply lookup_insert_eq.
    run_step (write_ident s2 f _ i e Ht2 ltac:(by rewrite length_insert)).
    unfold s2, s1, set_mem, set_pmm, add_table. cbn. unfold mret, M_ret. do 3 f_equal.
    rewrite insert_insert_eq, list_insert_insert_eq. by apply insert_insert_ne.
  - split; [done|]. cbn [k_pmm k_mem set_mem set_pmm]. rewrite Hfree. by eapply add_table_inv.
  - split; cbn [k_pmm k_mem set_mem set_pmm k_p4 k_tlb]; try done.
    + intros g Hgm. split; [by eapply add_dom; eauto|by eapply add_level_old].
    + intros ix h. by eapply walk_add_Some.
    + intros q'. by eapply translate_add.
    + intros ix Hix Hlen. eapply clear_add; try done. rewrite (pt_root_level _ _ _ _ Hpt). lia.
    + rewrite Hfree. set_solver.
    + rewrite Hfree, size_difference, size_singleton by set_solver. lia.
    + intros g Hgm. eapply add_dom in Hgm as [->|Hgm]; try done; [right; set_solver|by left].
Qed.

Lemma entry_table_new s f t i e0 c p' lv :
  ident_inv s lv → k_mem s !! f = Some t → (2 ≤ lv f)%nat → t !! i = Some e0 →
  pte_is_unused e0 = true → fa_alloc (k_pmm s) = Ok (Some c, p') → ident_ok f PAGE_SIZE → ident_ok c PAGE_SIZE →
  ∃ e, let s' := set_mem (add_table (k_mem s) f t i e c) (set_pmm p' s) in
    entry_table f i s = Ok (c, s') ∧ pte_frame e = Some c ∧ k_mem s !! c = None ∧
    next (k_mem s') f i = Some c ∧
    ident_inv s' (add_level lv f c) ∧ grows 1 cr3 s s' lv (add_level lv f c).
Proof.
  intros Hinv Ht Hlv Hi Hun Hal Hidf Hidc.
  destruct (alloc_ident s f t i e0 c p' lv Hinv Ht Hlv Hi Hun Hal Hidc) as (e & Hrun & He & _ & Hfr & Hinv' & Hg).
  assert (f ≠ c) as Hne by congruence. assert (i < length t)%nat by (by eapply lookup_lt_Some).
  exists e. set (s' := set_mem _ _) in *.
  assert (k_mem s' !! f = Some (<[i := e]> t)) as Ht'.
  { unfold s', add_table. cbn [k_mem set_mem]. rewrite lookup_insert_ne by done. apply lookup_insert_eq. }
  assert (<[i := e]> t !! i = Some e) as Hi' by (by apply list_lookup_insert_eq).
  split_and!; try done.
  - unfold entry_table. run_step (ident_table_ok s f Hidf). run_step (read_ident s f t i e0 Ht Hi). rewrite Hun, M_bind_assoc. run_step Hrun.
    rewrite (M_bind_run (mret tt) _ s' tt s' eq_refl). run_step (read_ident s' f _ i e Ht' Hi').
    apply lift_run. by apply unwrap_Ok.
  - apply next_Some. exists (<[i := e]> t), e. split_and!; try done.
    unfold s', add_table. cbn [k_mem set_mem]. rewrite lookup_insert_eq. eauto.
Qed.

(** The level two table [p2] has the entries [ds], which point to the empty
    tables in the frames [fs]; the rest is unused. *)
Record p1_alloc s (lv : Z → nat) (p2 : Z) (ds fs : list Z) : Prop := {
  pa_inv : ident_inv s lv;
  pa_level : lv p2 = 2%nat;
  pa_row : k_mem s !! p2 = Some (ds ++ replicate (512 - length ds) 0);
  pa_fit : (length ds ≤ 512)%nat;
  pa_nodup : NoDup fs;
  pa_tables : Forall2 (λ d f, pte_frame d = Some f ∧ good_frame f ∧
    k_mem s !! f = Some (replicate 512 0) ∧ lv f = 1%nat) ds fs;
}.

Lemma p1_alloc_step s lv p2 ds fs f p' :
  p1_alloc s lv p2 ds fs → (length ds < 512)%nat → fa_alloc (k_pmm s) = Ok (Some f, p') →
  ident_ok f PAGE_SIZE →
  ∃ d s' lv', alloc_p1 p2 (Z.of_nat (length ds)) s = Ok (tt, s') ∧ k_pmm s' = p' ∧
    p1_alloc s' lv' p2 (ds ++ [d]) (fs ++ [f]) ∧ grows 1 cr3 s s' lv lv'.
Proof.
  intros [Hinv Hlv Hrow Hfit Hnd Htabs] Hlt Hal Hid. set (n := length ds) in *.
  set (row := ds ++ replicate (512 - n) 0) in *.
  assert (row !! n = Some 0) as Hn.
  { unfold row. rewrite lookup_app_r by done. fold n. rewrite Nat.sub_diag. apply lookup_replicate_2. lia. }
  assert (pte_is_unused 0 = true) as Hun by (by rewrite pte_is_unused_spec).
  destruct (alloc_ident s p2 row n 0 f p' lv Hinv Hrow ltac:(lia) Hn Hun Hal Hid)
    as (d & Hrun & Hd & Hgf & Hfresh & Hinv' & Hg).
  set (s' := set_mem _ _) in *. assert (p2 ≠ f) as Hne by congruence.
  exists d, s', (add_level lv p2 f). split_and!; try done.
  - unfold alloc_p1. rewrite Nat2Z.id. run_step (read_ident s p2 row n 0 Hrow Hn). rewrite Hun.
    cbn [negb]. by run_step Hrun.
  - split; try done.
    + rewrite (proj2 (gr_level _ _ _ _ _ _ Hg p2 ltac:(eauto))). done.
    + unfold s', add_table. cbn [k_mem set_mem]. rewrite lookup_insert_ne, lookup_insert_eq by done. f_equal.
      unfold row. rewrite insert_app_r_alt by lia. fold n. rewrite Nat.sub_diag, <-app_assoc. f_equal.
      rewrite length_app. simpl. fold n. replace (512 - n)%nat with (S (512 - (n + 1))) by lia. done.
    + rewrite length_app. simpl. fold n. lia.
    + apply NoDup_app. split_and!; [done| |apply NoDup_singleton]. intros g Hg' ->%list_elem_of_singleton.
      apply list_elem_of_lookup_1 in Hg' as [j Hj]. destruct (Forall2_lookup_r _ _ _ _ _ Htabs Hj) as (? & _ & _ & _ & ? & _).
      congruence.
    + apply Forall2_app; [|constructor; [|done]].
      * eapply Forall2_impl; [exact Htabs|]. intros d' g (? & ? & Hg' & Hl).
        assert (g ≠ p2) by (intros ->; lia). split_and!; try done.
        -- unfold s', add_table. cbn [k_mem set_mem]. by rewrite !lookup_insert_ne by congruence.
        -- rewrite (proj2 (gr_level _ _ _ _ _ _ Hg g ltac:(eauto))). done.
      * split_and!; try done; [apply lookup_insert_eq|]. unfold add_level. rewrite decide_True by done. lia.
Qed.

Lemma p1_alloc_loop n s lv p2 ds fs fs' p' :
  p1_alloc s lv p2 ds fs → (length ds + n ≤ 512)%nat → next_frames n (k_pmm s) = Some (fs', p') →
  ident_frames fs' →
  ∃ ds' s' lv', for_ (Z.of_nat <$> seq (length ds) n) (alloc_p1 p2) s = Ok (tt, s') ∧ k_pmm s' = p' ∧
    p1_alloc s' lv' p2 (ds ++ ds') (fs ++ fs') ∧ grows n cr3 s s' lv lv'.
Proof.
  revert s lv ds fs fs'. induction n as [|n IH]; intros s lv ds fs fs' Hpa Hn Hnext Hid.
  { simpl in Hnext. simplify_eq. exists [], s, lv. rewrite !app_nil_r. split_and!; try done. apply grows_refl. }
  destruct (next_frames_cons _ _ _ _ Hnext) as (f & q & fs1 & -> & Hal & Hnext1).
  apply Forall_cons in Hid as [Hidf Hid].
  destruct (p1_alloc_step s lv p2 ds fs f q Hpa ltac:(lia) Hal Hidf) as (d & s1 & lv1 & Hr1 & Hq & Hpa1 & Hg1).
  rewrite <-Hq in Hnext1.
  destruct (IH s1 lv1 (ds ++ [d]) (fs ++ [f]) fs1 Hpa1) as (ds' & s2 & lv2 & Hr2 & Hq2 & Hpa2 & Hg2).
  { rewrite length_app. simpl. lia. }
  { done. }
  { done. }
  exists (d :: ds'), s2, lv2. rewrite <-!app_assoc in Hpa2. split_and!; try done.
  - cbn [seq]. rewrite fmap_cons, for_cons. run_step Hr1. rewrite length_app, Nat.add_1_r in Hr2. exact Hr2.
  - by eapply (grows_trans 1 n).
Qed.
End alloc_proofs.

(** ** The cache while it has one table *)

(** The cache after its first [length es] pages were handed out. *)
Definition early_cache (es : list Z) : VCache :=
  mkVCache [es ++ replicate (512 - length es) 0]
    (mkVCacheState [512 - Z.of_nat (length es); 512; 512; 512] [0; 0; 0; 0]
      (replicate 4 (replicate 512 0))).

Lemma early_cache_p1 es :
  vc_p1 (early_cache es) !! 0%nat = Some (es ++ replicate (512 - length es) 0).
Proof. reflexivity. Qed.

Section early_proofs.
Context {X : X86} {XO : X86Ok X}.

Lemma find_first_unused es :
  Forall (λ e, present e = true) es → (length es < 512)%nat →
  list_find (λ e, fl_contains (pte_flags e) PRESENT = false) (es ++ replicate (512 - length es) 0) =
    Some (length es, 0).
Proof.
  intros Hes Hlt. apply list_find_Some. split_and!.
  - rewrite lookup_app_r, Nat.sub_diag by done. apply lookup_replicate_2. lia.
  - rewrite pte_flags_unused, contains_present. apply Z.bits_0.
  - intros j e Hj Hlen. rewrite lookup_app_l in Hj by done.
    pose proof (Forall_lookup_1 _ _ _ _ Hes Hj) as Hp. unfold present in Hp. congruence.
Qed.

Lemma early_cache_map es f :
  Forall (λ e, present e = true) es → (length es < 512)%nat → good_frame f →
  ∃ e, vcache_map f (early_cache es) =
      Ok (Some (START_ADDR + PAGE_SIZE * Z.of_nat (length es)), early_cache (es ++ [e])) ∧
    present e = true ∧ pte_frame e = Some f ∧ kernel_flags (pte_flags e).
Proof.
  intros Hes Hlt Hf. destruct (vc_entry f Hf) as (e & He & Hfl & Hp & Hfr).
  exists e. split_and!; try done. set (n := length es) in *.
  set (row := es ++ replicate (512 - n) 0). set (ages := replicate 512 0 : list Z).
  assert (has_table (early_cache es) 0 row ages (512 - Z.of_nat n) 0) as Ht by done.
  unfold vcache_map. rewrite (M_bind_run _ _ _ (early_cache es) (early_cache es) eq_refl).
  cbn [early_cache vc_state p2_lazycount p2_freecount scan_free]. fold n.
  destruct (Z.eqb_spec (512 - Z.of_nat n) 0); [lia|]. cbn [negb].
  rewrite (M_bind_run (mret (Some O, None)) _ _ (Some O, None) (early_cache es) eq_refl).
  rewrite (M_bind_run (lift (unwrap (Some O))) _ _ O (early_cache es) eq_refl).
  run_step (take_free_run (early_cache es) 0 row ages _ 0 Ht ltac:(unfold in_width; lia)).
  set (v1 := put_table _ _ _ _ _ _).
  assert (find_slot 0 v1 = Ok (n, v1)) as Hfs.
  { unfold find_slot. change (vc_p1 v1 !! 0%nat) with (Some row). cbn [of_option mbind res_bind].
    unfold row. rewrite find_first_unused by done. cbn [fst fmap option_fmap option_map unwrap of_option mbind res_bind].
    fold n.
    assert (write2 (p1_age (vc_state v1)) 0 n 0 = Ok (p1_age (vc_state v1))) as ->.
    { unfold write2. change (p1_age (vc_state v1)) with (ages :: replicate 3 ages).
      cbn [lookup list_lookup of_option mbind res_bind]. unfold ages at 1. rewrite length_replicate.
      destruct (Nat.ltb_spec n 512); [|lia]. cbn [insert list_insert]. unfold mret, res_ret. do 2 f_equal.
      apply list_insert_id. by apply lookup_replicate_2. }
    done. }
  run_step Hfs. rewrite (M_bind_run get _ v1 v1 v1 eq_refl).
  run_step (lift_run _ v1 _ (f_equal (of_option Crate) He)).
  assert (write2 (vc_p1 v1) 0 n e = Ok [(es ++ [e]) ++ replicate (512 - length (es ++ [e])) 0]) as Hw.
  { unfold write2. change (vc_p1 v1) with [row]. cbn [lookup list_lookup of_option mbind res_bind].
    unfold row. rewrite length_app, length_replicate. fold n.
    destruct (Nat.ltb_spec n (n + (512 - n))); [|lia]. cbn [insert list_insert]. unfold mret, res_ret.
    do 2 f_equal. rewrite insert_app_r_alt by lia. fold n. rewrite Nat.sub_diag, <-app_assoc. f_equal.
    rewrite length_app. simpl. fold n. by replace (512 - n)%nat with (S (512 - (n + 1))) by lia. }
  run_step (lift_run _ v1 _ Hw). rewrite (M_bind_run (put _) _ v1 tt _ eq_refl).
  assert (slot_page 0 n = Ok (START_ADDR + PAGE_SIZE * Z.of_nat n)) as Hsp.
  { rewrite slot_page_run by lia. unfold page_of. f_equal. }
  run_step (lift_run _ (set_p1 [(es ++ [e]) ++ replicate (512 - length (es ++ [e])) 0] v1) _ Hsp).
  unfold mret, M_ret. do 2 f_equal. unfold early_cache at 1.
  assert (512 - Z.of_nat (length (es ++ [e])) = 512 - Z.of_nat n - 1) as ->
    by (rewrite length_app; cbn [length]; fold n; lia).
  reflexivity.
Qed.
End early_proofs.

Section tables_proofs.
Context {X : X86} {XO : X86Ok X} {P : Type} {FA : FrameAllocator P} {FAO : FrameAllocatorOk P}.
Variable cr3 : Z.
Implicit Types (s : Kmem P VCache) (mem : gmap Z (list Z)) (lv : Z → nat).

(** The state while the first [length es] tables from [f0] are mapped. *)
Definition early_state s (f0 : Z) (es : list Z) : Kmem P VCache :=
  set_vc (early_cache es) (set_mem (<[f0 := es ++ replicate (512 - length es) 0]> (k_mem s)) s).

(** Entry [i] of the first table shows the frame [i] after [f0]. *)
Definition self_entries (f0 : Z) (es : list Z) : Prop :=
  ∀ i e, es !! i = Some e → present e = true ∧ pte_frame e = Some (f0 + Z.of_nat i * PAGE_SIZE) ∧
    kernel_flags (pte_flags e).

Lemma self_entries_present f0 es : self_entries f0 es → Forall (λ e, present e = true) es.
Proof. intros He. apply Forall_lookup_2. intros i e Hi. by apply (He i e). Qed.

Lemma map_p1_run s f0 es :
  self_entries f0 es → (length es < 4)%nat → good_frame f0 → f0 + 4 * PAGE_SIZE ≤ 2 ^ 52 →
  ∃ e, map_p1 f0 (Z.of_nat (length es)) (early_state s f0 es) = Ok (tt, early_state s f0 (es ++ [e])) ∧
    self_entries f0 (es ++ [e]).
Proof.
  intros Hes Hlt [Ha [Hw0 Hw]] Hmax. set (n := length es) in *. unfold PAGE_SIZE in Hmax.
  assert (good_frame (f0 + Z.of_nat n * PAGE_SIZE)) as Hgf.
  { unfold good_frame, in_width, PAGE_SIZE. rewrite page_aligned_iff in *. split; [zlia|lia]. }
  destruct (early_cache_map es (f0 + Z.of_nat n * PAGE_SIZE)) as (e & Hrun & Hp & Hfr & Hfl);
    [by eapply self_entries_present|fold n; lia|done|].
  exists e. split.
  - unfold map_p1, sizeof_PageTableEntry.
    replace (Z.of_nat n * 512 * 8) with (Z.of_nat n * PAGE_SIZE) by (unfold PAGE_SIZE; lia).
    assert (of_option Crate (phys_add f0 (Z.of_nat n * PAGE_SIZE)) = Ok (f0 + Z.of_nat n * PAGE_SIZE)) as E1.
    { rewrite phys_add_spec by (unfold in_width, PAGE_SIZE; lia).
      destruct Hgf as [_ [_ ?]]. by destruct (Z.ltb_spec (f0 + Z.of_nat n * PAGE_SIZE) (2 ^ 52)); [|lia]. }
    run_step (lift_run _ (early_state s f0 es) _ E1).
    assert (unwrap (frame_from_start (f0 + Z.of_nat n * PAGE_SIZE)) = Ok (f0 + Z.of_nat n * PAGE_SIZE)) as E2.
    { rewrite frame_from_start_spec by apply Hgf. by rewrite (proj1 Hgf). }
    run_step (lift_run _ (early_state s f0 es) _ E2).
    assert (early_map f0 (f0 + Z.of_nat n * PAGE_SIZE) (early_state s f0 es) =
      Ok (Some (START_ADDR + PAGE_SIZE * Z.of_nat n), early_state s f0 (es ++ [e]))) as Em.
    { unfold early_map, on_vc. run_step (zoom_run k_vc set_vc _ (early_state s f0 es) _ _ Hrun).
      set (s1 := set_vc _ _).
      rewrite (M_bind_run (gets k_vc) _ s1 (early_cache (es ++ [e])) s1 eq_refl).
      run_step (lift_run _ s1 _ (f_equal (of_option Bounds) (early_cache_p1 (es ++ [e])))).
      unfold modify, mbind, M_bind, mret, M_ret, s1, early_state, set_vc, set_mem.
      cbn [k_pmm k_vc k_mem k_p4 k_tlb].
      by rewrite insert_insert_eq. }
    run_step Em.
    assert (of_option Crate (virt_add START_ADDR (PAGE_SIZE * Z.of_nat n)) =
      Ok (START_ADDR + PAGE_SIZE * Z.of_nat n)) as E3.
    { rewrite virt_add_spec by (done || unfold in_width, PAGE_SIZE; lia).
      replace (canonical (START_ADDR + PAGE_SIZE * Z.of_nat n)) with true; [done|]. symmetry.
      apply canonical_iff. unfold START_ADDR, KVMSPACE, PAGE_SIZE. lia. }
    run_step (lift_run _ (early_state s f0 (es ++ [e])) _ E3). by rewrite Z.eqb_refl.
  - intros i e' [Hi|[Hle Hi]]%lookup_app_Some; [by apply Hes|].
    apply list_lookup_singleton_Some in Hi as [Hi <-]. fold n in Hle, Hi.
    by replace i with n by lia.
Qed.

Lemma map_p1_loop m s f0 es :
  self_entries f0 es → (length es + m ≤ 4)%nat → good_frame f0 → f0 + 4 * PAGE_SIZE ≤ 2 ^ 52 →
  ∃ es', for_ (Z.of_nat <$> seq (length es) m) (map_p1 f0) (early_state s f0 es) =
      Ok (tt, early_state s f0 (es ++ es')) ∧ self_entries f0 (es ++ es') ∧ length es' = m.
Proof.
  revert es. induction m as [|m IH]; intros es Hes Hm Hgf Hmax.
  { exists []. rewrite !app_nil_r. by split_and!. }
  destruct (map_p1_run s f0 es Hes ltac:(lia) Hgf Hmax) as (e & Hr & Hes1).
  destruct (IH (es ++ [e]) Hes1) as (es' & Hr' & Hes' & Hl); [rewrite length_app; simpl; lia|done|done|].
  exists (e :: es'). rewrite <-app_assoc in Hr', Hes'. split_and!; [|done|simpl; lia].
  cbn [seq]. rewrite fmap_cons, for_cons. run_step Hr. rewrite length_app, Nat.add_1_r in Hr'. exact Hr'.
Qed.

(** ** Tables of the last level leave the memory *)

Lemma delete_leaf_inv free mem p4 lv f :
  pt_inv free mem p4 lv → lv f = 1%nat → pt_inv free (delete f mem) p4 lv.
Proof.
  intros [Hr Hl Ht Hc Htree] Hf.
  assert (∀ g i c, next (delete f mem) g i = Some c → next mem g i = Some c) as Hnext.
  { intros g i c (t & e & Hg & He & Hc' & [tc Htc])%next_Some.
    apply lookup_delete_Some in Hg as [_ Hg], Htc as [_ Htc]. apply next_Some. eauto 10. }
  split; try done.
  - rewrite lookup_delete_ne; [done|]. intros ->. lia.
  - intros g t [_ Hg]%lookup_delete_Some. by apply Ht.
  - intros g t i e c [_ Hg]%lookup_delete_Some Hlg Hi He. destruct (Hc g t i e c Hg Hlg Hi He) as [? Hlc].
    split; [done|]. intros [tc [_ Htc]%lookup_delete_Some]. apply Hlc. eauto.
  - intros g h i j c Hlg Hlh Hg%Hnext Hh%Hnext. by eapply Htree.
Qed.

Lemma delete_walk mem f g ix h :
  walk (delete f mem) g ix = Some h → walk mem g ix = Some h.
Proof.
  revert g. induction ix as [|i ix IH]; intros g; [done|]. cbn [walk].
  intros (c & (t & e & Hg & He & Hc & [tc Htc])%next_Some & Hw)%bind_Some.
  apply lookup_delete_Some in Hg as [_ Hg], Htc as [_ Htc].
  assert (next mem g i = Some c) as -> by (apply next_Some; eauto 10). by apply IH.
Qed.

Lemma delete_walk_other free mem p4 lv f ix g h :
  pt_inv free mem p4 lv → lv f = 1%nat → (length ix < lv g)%nat → h ≠ f →
  walk mem g ix = Some h → walk (delete f mem) g ix = Some h.
Proof.
  intros Hpt Hf. revert g. induction ix as [|i ix IH]; intros g Hlt Hne; [done|]. cbn [walk length] in *.
  intros (c & Hn & Hw)%bind_Some. pose proof Hn as (t & e & Hg & He & Hc & Hcm)%next_Some.
  destruct (pt_child _ _ _ _ Hpt _ _ _ _ _ Hg ltac:(lia) He Hc) as [_ Hl]. specialize (Hl Hcm).
  assert (c ≠ f).
  { intros ->. destruct ix as [|j ix]; [cbn in Hw; congruence|cbn [length] in *; lia]. }
  assert (next (delete f mem) g i = Some c) as ->; [|cbn [mbind option_bind]; apply IH; [lia|done|done]].
  apply next_Some. exists t, e. rewrite !lookup_delete_ne by (congruence || (intros ->; lia)). done.
Qed.

Lemma delete_clear free mem p4 lv f ix g :
  pt_inv free mem p4 lv → lv f = 1%nat → (length ix < lv g)%nat → walk mem g ix ≠ Some f →
  clear_path mem g ix = true → clear_path (delete f mem) g ix = true.
Proof.
  intros Hpt Hf. revert g. induction ix as [|i ix IH]; intros g Hlt Hw Hcl.
  - destruct (clear_table _ _ _ Hcl) as [t Ht]. cbn [clear_path].
    rewrite lookup_delete_ne by (intros ->; by apply Hw). by rewrite Ht.
  - destruct (clear_table _ _ _ Hcl) as [t Ht]. cbn [clear_path length walk] in *. rewrite Ht in Hcl.
    rewrite lookup_delete_ne by (intros ->; lia). rewrite Ht. destruct (t !! i) as [e|] eqn:He; [|done].
    destruct (pte_is_unused e); [done|]. destruct (pte_frame e) as [c|] eqn:Hc; [|done]. cbn [orb] in *.
    destruct (clear_table _ _ _ Hcl) as [tc Htc].
    destruct (pt_child _ _ _ _ Hpt _ _ _ _ _ Ht ltac:(lia) He Hc) as [_ Hl]. specialize (Hl ltac:(eauto)).
    assert (next mem g i = Some c) as Hn by (apply next_Some; eauto 10). rewrite Hn in Hw.
    apply IH; [lia|done|done].
Qed.

(** The memory without the tables in the frames [fs]. *)
Notation drop_tables mem fs := (foldr delete mem fs).

Lemma drop_inv free mem p4 lv fs :
  pt_inv free mem p4 lv → Forall (λ f, lv f = 1%nat) fs → pt_inv free (drop_tables mem fs) p4 lv.
Proof. intros Hpt. induction 1; simpl; [done|]. by apply delete_leaf_inv. Qed.

Lemma drop_lookup mem fs h : h ∉ fs → drop_tables mem fs !! h = mem !! h.
Proof.
  induction fs as [|f fs IH]; [done|]. rewrite not_elem_of_cons. intros [Hne Hni]. simpl.
  rewrite lookup_delete_ne by done. auto.
Qed.

Lemma drop_walk mem fs g ix h : walk (drop_tables mem fs) g ix = Some h → walk mem g ix = Some h.
Proof. induction fs as [|f fs IH]; [done|]. intros Hw. by apply IH, (delete_walk _ f). Qed.

Lemma drop_walk_other free mem p4 lv fs ix h :
  pt_inv free mem p4 lv → Forall (λ f, lv f = 1%nat) fs → (length ix ≤ 3)%nat → h ∉ fs →
  walk mem p4 ix = Some h → walk (drop_tables mem fs) p4 ix = Some h.
Proof.
  intros Hpt Hfs Hix. induction Hfs as [|f fs Hf Hfs IH]; [done|]. rewrite not_elem_of_cons.
  intros [Hne Hni] Hw. simpl. pose proof (drop_inv _ _ _ _ _ Hpt Hfs) as Hpt'.
  eapply delete_walk_other; [exact Hpt'|done| |done|by apply IH].
  rewrite (pt_root_level _ _ _ _ Hpt). lia.
Qed.

(** Pages of other tables translate as before, and stay mappable. *)
Lemma drop_translate free mem p4 lv fs q :
  pt_inv free mem p4 lv → Forall (λ f, lv f = 1%nat) fs →
  (∀ f, f ∈ fs → walk mem p4 (page_path q) ≠ Some f) →
  translate (drop_tables mem fs) p4 q = translate mem p4 q.
Proof.
  intros Hpt Hfs Hq. unfold translate, leaf_entry.
  destruct (walk mem p4 (page_path q)) as [h|] eqn:Hw.
  - assert (h ∉ fs) as Hh by (intros Hin; by apply (Hq h)).
    rewrite (drop_walk_other _ _ _ _ _ (page_path q) h Hpt Hfs ltac:(simpl; lia) Hh Hw). cbn [mbind option_bind].
    by rewrite drop_lookup.
  - destruct (walk (drop_tables mem fs) p4 (page_path q)) as [h|] eqn:Hw'; [|done].
    apply drop_walk in Hw'. congruence.
Qed.

Lemma drop_clear free mem p4 lv fs ix :
  pt_inv free mem p4 lv → Forall (λ f, lv f = 1%nat) fs → (length ix ≤ 3)%nat →
  (∀ f, f ∈ fs → walk mem p4 ix ≠ Some f) →
  clear_path mem p4 ix = true → clear_path (drop_tables mem fs) p4 ix = true.
Proof.
  intros Hpt Hfs Hix. induction Hfs as [|f fs Hf Hfs IH]; [done|]. intros Hq Hcl. simpl.
  pose proof (drop_inv _ _ _ _ _ Hpt Hfs) as Hpt'.
  eapply delete_clear; [exact Hpt'|done|rewrite (pt_root_level _ _ _ _ Hpt); lia| |].
  - intros Hw%drop_walk. apply (Hq f); [|done]. by apply elem_of_cons; left.
  - apply IH; [|done]. intros g Hg. apply Hq. by apply elem_of_cons; right.
Qed.

(** ** The cache that results *)

Definition new_cache (es : list Z) : VCache :=
  mkVCache ((es ++ replicate (512 - length es) 0) :: replicate 3 (replicate 512 0))
    (vc_state (early_cache es)).

Lemma fresh_table_inv (es : list Z) f0 :
  self_entries f0 es → (length es ≤ 512)%nat →
  table_inv (es ++ replicate (512 - length es) 0) (replicate 512 0) (512 - Z.of_nat (length es)) 0.
Proof.
  intros Hes Hlen. pose proof unused_not_present as Hu. rewrite pte_new_spec in Hu. split.
  - rewrite length_app, length_replicate. lia.
  - apply length_replicate.
  - rewrite countb_app, countb_replicate, Hu. cbn [negb].
    assert (countb (λ e, negb (present e)) es = 0) as ->; [|lia].
    apply countb_zero. intros i e Hi. by rewrite (proj1 (Hes i e Hi)).
  - by rewrite countb_replicate.
  - apply Forall_app. split; [|apply Forall_replicate; rewrite pte_flags_unused; apply kernel_flags_const].
    apply Forall_lookup_2. intros i e Hi. by apply (Hes i e).
  - apply Forall_app. split; [|apply Forall_replicate; congruence].
    apply Forall_lookup_2. intros i e Hi _. eexists. by apply (Hes i e).
  - intros i a e [-> _]%lookup_replicate. done.
Qed.

Lemma new_cache_inv es f0 : self_entries f0 es → (length es ≤ 512)%nat → vc_inv (new_cache es).
Proof.
  intros Hes Hlen. pose proof (fresh_table_inv es f0 Hes Hlen) as H0.
  assert (table_inv (replicate 512 0) (replicate 512 0) 512 0) as Hz.
  { apply (fresh_table_inv [] f0); [|simpl; lia]. intros i e. by rewrite lookup_nil. }
  split; [by split|]. intros t row ages fc lc Hr Ha Hf Hl.
  destruct t as [|[|[|[|t]]]]; cbn in Hr, Hf, Hl;
    try (rewrite lookup_nil in Hr; done); apply lookup_replicate in Ha as [-> _]; by simplify_eq.
Qed.

Lemma new_cache_shows es f0 p f :
  self_entries f0 es → (length es ≤ 512)%nat →
  shows (new_cache es) p f ↔ ∃ i, (i < length es)%nat ∧ p = START_ADDR + PAGE_SIZE * Z.of_nat i ∧
    f = f0 + Z.of_nat i * PAGE_SIZE.
Proof.
  intros Hes Hlen. pose proof unused_not_present as Hu. rewrite pte_new_spec in Hu. split.
  - intros (t & i & e & [(row & Hr & Hi) _] & -> & Hp & Hf).
    destruct t as [|t].
    + cbn in Hr. injection Hr as <-. apply lookup_app_Some in Hi as [Hi|[_ [-> _]%lookup_replicate]]; [|congruence].
      exists i. split_and!; [by eapply lookup_lt_Some|done|]. destruct (Hes i e Hi) as (_ & Hf' & _). congruence.
    + change (vc_p1 (new_cache es) !! S t) with (replicate 3 (replicate 512 0) !! t) in Hr.
      apply lookup_replicate in Hr as [-> _]. apply lookup_replicate in Hi as [-> _]. congruence.
  - intros (i & Hi & -> & ->). destruct (lookup_lt_is_Some_2 es i Hi) as [e He].
    destruct (Hes i e He) as (Hp & Hf & _). exists 0%nat, i, e. split_and!; [split|done|done|done].
    + exists (es ++ replicate (512 - length es) 0). split; [done|]. by rewrite lookup_app_l.
    + exists (replicate 512 0). split; [done|]. apply lookup_replicate_2. lia.
Qed.
End tables_proofs.

(** Four frames in a row. *)
Definition run_of (f0 : Z) : list Z := (λ i, f0 + i * PAGE_SIZE) <$> range P2PAGE_COUNT.
Definition in_cache (q : Z) : Prop := START_ADDR ≤ q < START_ADDR + VC_SIZE.

(** [s'] is [s] once the cache is set up on the tables in the frames from
    [f0], below the level two table [p2]. *)
Record cache_ready `{X86} {P} `{FrameAllocatorOk P} (cr3 p2 f0 : Z) (s s' : Kmem P VCache)
    (lv' : Z → nat) : Prop := {
  cr_inv : ident_inv cr3 s' lv';
  cr_cache : vc_inv (k_vc s');
  cr_windows p f : shows (k_vc s') p f ↔
    ∃ i, (i < 4)%nat ∧ p = START_ADDR + PAGE_SIZE * Z.of_nat i ∧ f = f0 + Z.of_nat i * PAGE_SIZE;
  (** The table the processor uses for part [i] of the cache is the frame the
      kernel reaches as part [i] of its slice. *)
  cr_coherent i : (i < 4)%nat → ∃ t d,
    walk (k_mem s') cr3 [p4_index START_ADDR; p3_index START_ADDR] = Some p2 ∧
    k_mem s' !! p2 = Some t ∧ t !! i = Some d ∧ pte_frame d = Some (f0 + Z.of_nat i * PAGE_SIZE) ∧
    vcache_frame (k_vc s') (START_ADDR + PAGE_SIZE * Z.of_nat i) = pte_frame d;
  cr_translate q : canonical q = true → ¬ in_cache q →
    translate (k_mem s') cr3 q = translate (k_mem s) cr3 q;
  cr_clear q : canonical q = true → ¬ in_cache q →
    clear_path (k_mem s) cr3 (page_path q) = true → clear_path (k_mem s') cr3 (page_path q) = true;
  cr_free : fa_free (k_pmm s') ⊆ fa_free (k_pmm s);
  cr_size : (base.size (fa_free (k_pmm s)) ≤ base.size (fa_free (k_pmm s')) + 6)%nat;
  cr_managed f : fa_managed (k_pmm s') f ↔ fa_managed (k_pmm s) f;
  cr_root : is_Some (k_mem s' !! cr3);
  cr_dom g : is_Some (k_mem s' !! g) →
    is_Some (k_mem s !! g) ∨ g ∈ fa_free (k_pmm s) ∖ fa_free (k_pmm s');
}.

Section init_proofs.
Context {X : X86} {XO : X86Ok X} {P : Type} {FA : FrameAllocator P} {FAO : FrameAllocatorOk P}.
Variable cr3 : Z.
Implicit Types (s : Kmem P VCache) (mem : gmap Z (list Z)) (lv : Z → nat).
Notation drop_tables mem fs := (foldr delete mem fs).

Lemma start_indices : p4_index START_ADDR = 256%nat ∧ p3_index START_ADDR = 0%nat.
Proof. rewrite p4_index_spec, p3_index_spec. done. Qed.

Lemma cache_page_indices i :
  (i < 512)%nat → page_path (START_ADDR + PAGE_SIZE * Z.of_nat i) = [256; 0; 0]%nat ∧
    p1_index (START_ADDR + PAGE_SIZE * Z.of_nat i) = i.
Proof.
  intros Hi. unfold page_path. rewrite p4_index_spec, p3_index_spec, p2_index_spec, p1_index_spec.
  unfold START_ADDR, KVMSPACE, PAGE_SIZE.
  split; [repeat f_equal; zlia|zlia].
Qed.

Lemma cache_path q i :
  canonical q = true → (i < 4)%nat → page_path q = [256; 0; i]%nat → in_cache q.
Proof.
  intros [Hc|Hc]%canonical_iff Hi; unfold page_path; rewrite p4_index_spec, p3_index_spec, p2_index_spec;
    intros E; injection E as E4 E3 E2; unfold in_cache, START_ADDR, KVMSPACE, VC_SIZE, P1PAGE_COUNT, PAGE_SIZE; zlia.
Qed.

Lemma leaf_table_walk free mem p4 lv f row g ix :
  pt_inv free mem p4 lv → lv f = 1%nat → is_Some (mem !! f) → is_Some (mem !! g) →
  (length ix < lv g)%nat → walk (<[f := row]> mem) g ix = walk mem g ix.
Proof.
  intros Hpt Hf Hfm. revert g. induction ix as [|i ix IH]; intros g Hg Hlt; [done|]. cbn [walk length] in *.
  assert (next (<[f := row]> mem) g i = next mem g i) as ->.
  { unfold next. rewrite lookup_insert_ne by (intros ->; lia). destruct (mem !! g) as [t|]; [|done].
    cbn [mbind option_bind]. destruct (t !! i) as [e|]; [|done]. cbn [mbind option_bind].
    destruct (pte_frame e) as [c|]; [|done]. cbn [mbind option_bind].
    destruct (decide (c = f)) as [->|]; [|by rewrite lookup_insert_ne].
    rewrite lookup_insert_eq. by destruct Hfm as [? ->]. }
  destruct (next mem g i) as [c|] eqn:Hn; [|done]. cbn [mbind option_bind].
  pose proof Hn as (t & e & Ht & He & Hc & Hcm)%next_Some.
  destruct (pt_child _ _ _ _ Hpt _ _ _ _ _ Ht ltac:(lia) He Hc) as [_ Hl]. specialize (Hl Hcm).
  apply IH; [done|lia].
Qed.

Lemma drop_insert mem fs f x : f ∈ fs → drop_tables (<[f := x]> mem) fs = drop_tables mem fs.
Proof.
  induction fs as [|g fs IH]; [by intros ?%elem_of_nil|]. simpl. intros Hin.
  destruct (decide (f ∈ fs)) as [Hf|Hf]; [by rewrite IH|].
  apply elem_of_cons in Hin as [<-|]; [|done]. apply map_eq. intros h.
  destruct (decide (h = f)) as [->|]; [by rewrite !lookup_delete_eq|]. rewrite !lookup_delete_ne by done.
  destruct (decide (h ∈ fs)) as [Hh|Hh].
  - clear -Hh. induction fs as [|g fs IH]; [by apply elem_of_nil in Hh|]. simpl.
    destruct (decide (h = g)) as [->|]; [by rewrite !lookup_delete_eq|]. rewrite !lookup_delete_ne by done.
    apply IH. apply elem_of_cons in Hh as [?|?]; done.
  - rewrite !drop_lookup by done. by rewrite lookup_insert_ne.
Qed.

(** The two tables above those of the cache. *)
Lemma upper_tables s lv t e0 g3 g2 fs p' :
  ident_inv cr3 s lv → k_mem s !! cr3 = Some t → t !! 256%nat = Some e0 → pte_is_unused e0 = true →
  next_frames (2 + length fs) (k_pmm s) = Some (g3 :: g2 :: fs, p') → ident_frames [cr3; g3; g2] →
  ∃ s' lv', (p3 ← entry_table cr3 (p4_index START_ADDR); entry_table p3 (p3_index START_ADDR)) s = Ok (g2, s') ∧
    next_frames (length fs) (k_pmm s') = Some (fs, p') ∧ p1_alloc cr3 s' lv' g2 [] [] ∧
    walk (k_mem s') cr3 [256; 0]%nat = Some g2 ∧ grows 2 cr3 s s' lv lv'.
Proof.
  intros Hinv Ht He Hun Hnext Hid. destruct start_indices as [-> ->].
  unfold ident_frames in Hid. rewrite !Forall_cons in Hid. destruct Hid as (Hidr & Hid3 & Hid2 & _).
  destruct (next_frames_cons _ _ _ _ Hnext) as (? & q1 & ? & [= <- <-] & Hal1 & Hnext1).
  destruct (next_frames_cons _ _ _ _ Hnext1) as (? & q2 & ? & [= <- <-] & Hal2 & Hnext2).
  assert (lv cr3 = 4)%nat as Hl4 by apply (pt_root_level _ _ _ _ (ii_pt _ _ _ Hinv)).
  destruct (entry_table_new cr3 s cr3 t 256 e0 g3 q1 lv Hinv Ht ltac:(lia) He Hun Hal1 Hidr Hid3)
    as (e3 & Hr1 & _ & Hf1 & Hn1 & Hinv1 & Hg1).
  set (s1 := set_mem _ _) in *. set (lv1 := add_level lv cr3 g3) in *.
  assert (k_mem s1 !! g3 = Some (replicate 512 0)) as Hz1 by apply lookup_insert_eq.
  assert (lv1 g3 = 3)%nat as Hl3 by (unfold lv1, add_level; rewrite decide_True by done; lia).
  assert (pte_is_unused 0 = true) as Hu0 by (by rewrite pte_is_unused_spec).
  destruct (entry_table_new cr3 s1 g3 (replicate 512 0) 0 0 g2 q2 lv1 Hinv1 Hz1 ltac:(lia) eq_refl Hu0 Hal2 Hid3 Hid2)
    as (e2 & Hr2 & _ & Hf2 & Hn2 & Hinv2 & Hg2).
  set (s2 := set_mem _ (set_pmm q2 s1)) in *. set (lv2 := add_level lv1 g3 g2) in *.
  exists s2, lv2. split_and!; [run_step Hr1; exact Hr2|done| | |by eapply (grows_trans 1 1)].
  - split; try done; [|apply lookup_insert_eq|simpl; lia|constructor].
    unfold lv2, add_level. rewrite decide_True by done. lia.
  - assert (walk (k_mem s2) cr3 [256%nat] = Some g3) as Hw.
    { apply (gr_walk _ _ _ _ _ _ Hg2); [simpl; lia|]. cbn [walk]. by rewrite Hn1. }
    change [256; 0]%nat with ([256] ++ [0])%nat. rewrite walk_app, Hw. cbn [mbind option_bind walk]. by rewrite Hn2.
Qed.

(** The frames the slice finds: four in a row, whatever was allocated. *)
Lemma slice_frames_run s lv p2 ds fs f0 es :
  p1_alloc cr3 s lv p2 ds fs → fs !! 0%nat = Some f0 → walk (k_mem s) cr3 [256; 0]%nat = Some p2 →
  self_entries f0 es → length es = 4%nat →
  slice_frames cr3 (k_mem (early_state s f0 es)) = Some (run_of f0).
Proof.
  intros [[Hp Hpt] Hlv Hrow Hfit Hnd Htabs] Hfs Hw Hes Hlen. set (row := es ++ replicate (512 - length es) 0).
  destruct (Forall2_lookup_r _ _ _ _ _ Htabs Hfs) as (d0 & Hd0 & Hf0 & _ & Hz0 & Hl0).
  assert (walk (k_mem s) cr3 [256; 0; 0]%nat = Some f0) as Hw0.
  { change [256; 0; 0]%nat with ([256; 0] ++ [0])%nat. rewrite walk_app, Hw. cbn [mbind option_bind walk].
    assert (next (k_mem s) p2 0 = Some f0) as ->; [|done]. apply next_Some. eexists _, d0.
    split_and!; [exact Hrow| |done|eauto]. rewrite lookup_app_l by (by eapply lookup_lt_Some). done. }
  change (k_mem (early_state s f0 es)) with (<[f0 := row]> (k_mem s)).
  assert (∀ i, (i < 4)%nat → fst <$> translate (<[f0 := row]> (k_mem s)) cr3 (START_ADDR + PAGE_SIZE * Z.of_nat i) =
    Some (f0 + Z.of_nat i * PAGE_SIZE)) as Htr.
  { intros i Hi. destruct (cache_page_indices i ltac:(lia)) as [Hpath Hp1].
    unfold translate, leaf_entry. rewrite Hpath, Hp1.
    rewrite (leaf_table_walk _ _ _ _ _ _ _ _ Hpt Hl0 ltac:(eauto) (pt_root _ _ _ _ Hpt))
      by (rewrite (pt_root_level _ _ _ _ Hpt); simpl; lia).
    rewrite Hw0. cbn [mbind option_bind]. rewrite lookup_insert_eq. cbn [mbind option_bind].
    destruct (lookup_lt_is_Some_2 es i ltac:(lia)) as [e He]. destruct (Hes i e He) as (_ & Hfr & _).
    unfold row. rewrite lookup_app_l, He by lia. cbn [mbind option_bind]. by rewrite Hfr. }
  apply mapM_Some. repeat apply Forall2_cons_2; [..|apply Forall2_nil_2];
    [exact (Htr 0%nat ltac:(lia))|exact (Htr 1%nat ltac:(lia))|exact (Htr 2%nat ltac:(lia))|
     exact (Htr 3%nat ltac:(lia))].
Qed.

Lemma run_of_lookup f0 i : (i < 4)%nat → run_of f0 !! i = Some (f0 + Z.of_nat i * PAGE_SIZE).
Proof.
  intros Hi. unfold run_of. rewrite list_lookup_fmap, lookup_range; [done|].
  change (Z.to_nat P2PAGE_COUNT) with 4%nat. lia.
Qed.

(** The tables there, when the allocated frames are in a row. *)
Lemma slice_tables_run s lv p2 ds f0 es :
  p1_alloc cr3 s lv p2 ds (run_of f0) →
  mapM (λ f, k_mem (early_state s f0 es) !! f) (run_of f0) =
    Some ((es ++ replicate (512 - length es) 0) :: replicate 3 (replicate 512 0)).
Proof.
  intros [_ _ _ _ _ Htabs]. set (row := es ++ replicate (512 - length es) 0).
  change (k_mem (early_state s f0 es)) with (<[f0 := row]> (k_mem s)).
  assert (∀ i, (0 < i < 4)%nat → <[f0 := row]> (k_mem s) !! (f0 + Z.of_nat i * PAGE_SIZE) = Some (replicate 512 0)) as Hz.
  { intros i Hi. destruct (Forall2_lookup_r _ _ _ _ _ Htabs (run_of_lookup f0 i ltac:(lia))) as (_ & _ & _ & _ & Hz & _).
    rewrite lookup_insert_ne by (unfold PAGE_SIZE; lia). done. }
  apply mapM_Some. repeat apply Forall2_cons_2; [..|apply Forall2_nil_2];
    [|exact (Hz 1%nat ltac:(lia))|exact (Hz 2%nat ltac:(lia))|exact (Hz 3%nat ltac:(lia))].
  rewrite Z.add_0_r. apply lookup_insert_eq.
Qed.

(** [vcache_init] up to the renewal, from the allocated tables on. *)
Lemma vcache_init_maps s lv p2 ds fs f0 :
  p1_alloc cr3 s lv p2 ds fs → fs !! 0%nat = Some f0 → f0 + 4 * PAGE_SIZE ≤ 2 ^ 52 → ident_ok f0 PAGE_SIZE →
  ∃ es, self_entries f0 es ∧ length es = 4%nat ∧
    (e ← read_place (Ident p2 0);
     p1_frame ← lift (unwrap (pte_frame e));
     _ ← ident_table p1_frame;
     p1 ← table_of p1_frame;
     _ ← modify (set_vc (mkVCache [p1] VCacheState_new));
     _ ← for_ (range P2PAGE_COUNT) (map_p1 p1_frame);
     renew cr3) s = renew cr3 (early_state s f0 es).
Proof.
  intros [_ Hlv Hrow Hfit Hnd Htabs] Hfs Hmax Hid.
  destruct (Forall2_lookup_r _ _ _ _ _ Htabs Hfs) as (d0 & Hd0 & Hf0 & Hgf & Hz & _).
  assert (self_entries f0 []) as Hnil by (intros i e; by rewrite lookup_nil).
  destruct (map_p1_loop 4 s f0 [] Hnil ltac:(simpl; lia) Hgf Hmax) as (es & Hloop & Hes & Hlen).
  cbn [app] in Hloop, Hes. exists es. split_and!; [done..|].
  assert ((ds ++ replicate (512 - length ds) 0) !! 0%nat = Some d0) as Hd
    by (rewrite lookup_app_l by (by eapply lookup_lt_Some); done).
  run_step (read_ident s p2 _ 0 d0 Hrow Hd). run_step (lift_run _ s _ (proj2 (unwrap_Ok _ _) Hf0)).
  assert (table_of f0 s = Ok (replicate 512 0, s)) as Ht.
  { unfold table_of. rewrite (M_bind_run get _ s s s eq_refl). apply lift_run. by rewrite Hz. }
  run_step (ident_table_ok s f0 Hid). run_step Ht.
  assert (set_vc (mkVCache [replicate 512 0] VCacheState_new) s = early_state s f0 []) as Eearly.
  { unfold early_state. change ([] ++ replicate (512 - length []) 0) with (replicate 512 0 : list Z).
    unfold set_mem. rewrite insert_id by done. by destruct s. }
  rewrite (M_bind_run (modify _) _ s tt _ eq_refl), Eearly.
  change (range P2PAGE_COUNT) with (Z.of_nat <$> seq (length ([] : list Z)) 4). by run_step Hloop.
Qed.

(** The state once the tables from [f0] belong to the cache. *)
Definition cached s (f0 : Z) (es : list Z) : Kmem P VCache :=
  set_vc (new_cache es) (set_mem (drop_tables (k_mem s) (run_of f0)) s).

Lemma renew_run s lv p2 ds f0 es :
  p1_alloc cr3 s lv p2 ds (run_of f0) → walk (k_mem s) cr3 [256; 0]%nat = Some p2 →
  self_entries f0 es → length es = 4%nat → renew cr3 (early_state s f0 es) = Ok (tt, cached s f0 es).
Proof.
  intros Hpa Hw Hes Hlen. assert (run_of f0 !! 0%nat = Some f0) as H0
    by (rewrite run_of_lookup by lia; by rewrite Z.add_0_r).
  pose proof (slice_frames_run s lv p2 ds _ f0 es Hpa H0 Hw Hes Hlen) as Hsl.
  pose proof (slice_tables_run s lv p2 ds f0 es Hpa) as Hmt.
  unfold renew. set (se := early_state s f0 es). rewrite (M_bind_run get _ se se se eq_refl).
  run_step (lift_run _ se _ (f_equal (of_option Undefined) Hsl)).
  run_step (lift_run _ se _ (f_equal (of_option Undefined) Hmt)).
  unfold put, cached, se, early_state, set_vc, set_mem. cbn [k_pmm k_vc k_mem k_p4 k_tlb].
  rewrite drop_insert; [done|]. by apply (list_elem_of_lookup_2 _ 0%nat).
Qed.

(** A page of another part of the address space does not use the tables of
    the cache. *)
Lemma cache_tables_walk s lv p2 ds f0 q f :
  p1_alloc cr3 s lv p2 ds (run_of f0) → walk (k_mem s) cr3 [256; 0]%nat = Some p2 →
  canonical q = true → ¬ in_cache q → f ∈ run_of f0 → walk (k_mem s) cr3 (page_path q) ≠ Some f.
Proof.
  intros [[_ Hpt] Hlv Hrow Hfit Hnd Htabs] Hw Hc Hout Hf Hwq.
  apply list_elem_of_lookup_1 in Hf as [i Hi]. destruct (Forall2_lookup_r _ _ _ _ _ Htabs Hi) as (d & Hd & Hfr & _ & Hz & _).
  assert (i < 4)%nat as Hi4 by (apply lookup_lt_Some in Hi; exact Hi).
  assert (walk (k_mem s) cr3 [256; 0; i]%nat = Some f) as Hwi.
  { change [256; 0; i]%nat with ([256; 0] ++ [i])%nat. rewrite walk_app, Hw. cbn [mbind option_bind walk].
    assert (next (k_mem s) p2 i = Some f) as ->; [|done]. apply next_Some. eexists _, d.
    split_and!; [exact Hrow| |done|eauto]. rewrite lookup_app_l by (by eapply lookup_lt_Some). done. }
  apply Hout, (cache_path q i); [done|done|].
  by eapply (walk_inj _ _ _ _ _ _ f Hpt); [..|exact Hwq|exact Hwi]; simpl; lia.
Qed.

Lemma cached_ready s s0 lv0 lv p2 ds f0 es :
  p1_alloc cr3 s lv p2 ds (run_of f0) → walk (k_mem s) cr3 [256; 0]%nat = Some p2 →
  grows 6 cr3 s0 s lv0 lv → self_entries f0 es → length es = 4%nat →
  cache_ready cr3 p2 f0 s0 (cached s f0 es) lv.
Proof.
  intros Hpa Hw Hg Hes Hlen. pose proof Hpa as [[Hp Hpt] Hlv Hrow Hfit Hnd Htabs].
  assert (Forall (λ f, lv f = 1%nat) (run_of f0)) as Hl1.
  { apply Forall_lookup_2. intros i f Hi. by destruct (Forall2_lookup_r _ _ _ _ _ Htabs Hi) as (? & _ & _ & _ & _ & ?). }
  assert (∀ h, (2 ≤ lv h)%nat → h ∉ run_of f0) as Hnot.
  { intros h Hh Hin. rewrite Forall_forall in Hl1. rewrite (Hl1 h Hin) in Hh. lia. }
  pose proof (pt_root_level _ _ _ _ Hpt) as Hl4.
  split; cbn [cached k_pmm k_vc k_mem set_vc set_mem].
  - split; [done|by apply drop_inv].
  - by apply (new_cache_inv es f0); [|lia].
  - intros p f. rewrite (new_cache_shows es f0) by (done || lia). by rewrite Hlen.
  - intros i Hi. destruct (Forall2_lookup_r _ _ _ _ _ Htabs (run_of_lookup f0 i Hi)) as (d & Hd & Hfr & _).
    exists (ds ++ replicate (512 - length ds) 0), d. destruct start_indices as [-> ->]. split_and!; try done.
    + eapply drop_walk_other; [exact Hpt|done|simpl; lia|apply Hnot; lia|done].
    + rewrite drop_lookup by (apply Hnot; lia). done.
    + rewrite lookup_app_l by (by eapply lookup_lt_Some). done.
    + rewrite Hfr. apply (shows_frame (new_cache es)); [by apply (new_cache_inv es f0); [|lia]|].
      apply (new_cache_shows es f0); [done|lia|]. exists i. by rewrite Hlen.
  - intros q Hc Hout. rewrite <-(gr_translate _ _ _ _ _ _ Hg q). eapply drop_translate; [done..|].
    intros f Hf. by eapply cache_tables_walk.
  - intros q Hc Hout Hcl. eapply drop_clear; [done|done|simpl; lia| |].
    + intros f Hf. by eapply cache_tables_walk.
    + apply (gr_clear _ _ _ _ _ _ Hg); [apply page_indices_lt|simpl; lia|done].
  - apply Hg.
  - apply Hg.
  - apply Hg.
  - rewrite drop_lookup by (apply Hnot; lia). apply (pt_root _ _ _ _ Hpt).
  - intros g [x Hx]. destruct (decide (g ∈ run_of f0)) as [Hin|Hin]; [|rewrite drop_lookup in Hx by done; apply Hg; eauto].
    apply Hg. apply list_elem_of_lookup_1 in Hin as [i Hi].
    destruct (Forall2_lookup_r _ _ _ _ _ Htabs Hi) as (_ & _ & _ & _ & -> & _). eauto.
Qed.

(** The allocations of [vcache_init], whatever frames they get. *)
Lemma vcache_init_allocs s lv t e0 g3 g2 fs f0 p' :
  ident_inv cr3 s lv → k_mem s !! cr3 = Some t → t !! 256%nat = Some e0 → pte_is_unused e0 = true →
  next_frames 6 (k_pmm s) = Some (g3 :: g2 :: fs, p') → length fs = 4%nat → fs !! 0%nat = Some f0 →
  f0 + 4 * PAGE_SIZE ≤ 2 ^ 52 → ident_frames (cr3 :: g3 :: g2 :: fs) →
  ∃ ds es s3 lv3, vcache_init cr3 s = renew cr3 (early_state s3 f0 es) ∧ k_pmm s3 = p' ∧
    self_entries f0 es ∧ length es = 4%nat ∧ p1_alloc cr3 s3 lv3 g2 ds fs ∧
    walk (k_mem s3) cr3 [256; 0]%nat = Some g2 ∧ grows 6 cr3 s s3 lv lv3.
Proof.
  intros Hinv Ht He Hun Hnext Hlen Hfs Hmax Hid. change 6%nat with (2 + 4)%nat in Hnext. rewrite <-Hlen in Hnext.
  change (ident_frames ([cr3; g3; g2] ++ fs)) in Hid. apply Forall_app in Hid as [Hidu Hidf].
  assert (ident_ok g2 PAGE_SIZE) as Hid2 by (exact (Forall_lookup_1 _ _ 2%nat g2 Hidu eq_refl)).
  assert (ident_ok f0 PAGE_SIZE) as Hid0 by (exact (Forall_lookup_1 _ _ 0%nat f0 Hidf Hfs)).
  destruct (upper_tables s lv t e0 g3 g2 fs p' Hinv Ht He Hun Hnext Hidu)
    as (s2 & lv2 & Hr2 & Hnext2 & Hpa2 & Hw2 & Hg2). rewrite Hlen in Hnext2.
  destruct (p1_alloc_loop cr3 4 s2 lv2 g2 [] [] fs p' Hpa2 ltac:(simpl; lia) Hnext2 Hidf)
    as (ds & s3 & lv3 & Hr3 & Hp3 & Hpa3 & Hg3). cbn [app] in Hpa3.
  pose proof (gr_walk _ _ _ _ _ _ Hg3 [256; 0]%nat g2 ltac:(simpl; lia) Hw2) as Hw3.
  destruct (vcache_init_maps s3 lv3 g2 ds fs f0 Hpa3 Hfs Hmax Hid0) as (es & Hes & Hl & Hr4).
  exists ds, es, s3, lv3. split_and!; try done; [|by eapply (grows_trans 2 4)].
  unfold vcache_init. rewrite <-M_bind_assoc. run_step Hr2. run_step (ident_table_ok s2 g2 Hid2).
  rewrite (M_bind_run _ _ _ _ _ Hr3). exact Hr4.
Qed.

Lemma vcache_init_run s lv t e0 g3 g2 f0 p' :
  ident_inv cr3 s lv → k_mem s !! cr3 = Some t → t !! 256%nat = Some e0 → pte_is_unused e0 = true →
  next_frames 6 (k_pmm s) = Some (g3 :: g2 :: run_of f0, p') → f0 + 4 * PAGE_SIZE ≤ 2 ^ 52 →
  ident_frames (cr3 :: g3 :: g2 :: run_of f0) →
  ∃ s' lv', vcache_init cr3 s = Ok (tt, s') ∧ k_pmm s' = p' ∧ cache_ready cr3 g2 f0 s s' lv'.
Proof.
  intros Hinv Ht He Hun Hnext Hmax Hid. assert (run_of f0 !! 0%nat = Some f0) as H0
    by (rewrite run_of_lookup by lia; by rewrite Z.add_0_r).
  destruct (vcache_init_allocs s lv t e0 g3 g2 _ f0 p' Hinv Ht He Hun Hnext eq_refl H0 Hmax Hid)
    as (ds & es & s3 & lv3 & Hr & Hp & Hes & Hlen & Hpa & Hw & Hg).
  exists (cached s3 f0 es), lv3. split_and!; [|done|by eapply cached_ready].
  rewrite Hr. by eapply renew_run.
Qed.

(** When the frame after the first table of the cache is none of its tables,
    the slice of the cache covers memory that is no page table. *)
Lemma vcache_init_scattered s lv t e0 g3 g2 fs f0 p' :
  ident_inv cr3 s lv → k_mem s !! cr3 = Some t → t !! 256%nat = Some e0 → pte_is_unused e0 = true →
  next_frames 6 (k_pmm s) = Some (g3 :: g2 :: fs, p') → length fs = 4%nat → fs !! 0%nat = Some f0 →
  f0 + 4 * PAGE_SIZE ≤ 2 ^ 52 → ident_frames (cr3 :: g3 :: g2 :: fs) → k_mem s !! (f0 + PAGE_SIZE) = None →
  f0 + PAGE_SIZE ∉ fa_free (k_pmm s) ∖ fa_free p' → vcache_init cr3 s = Panic Undefined.
Proof.
  intros Hinv Ht He Hun Hnext Hlf Hfs Hmax Hid Hnone Hnot.
  destruct (vcache_init_allocs s lv t e0 g3 g2 fs f0 p' Hinv Ht He Hun Hnext Hlf Hfs Hmax Hid)
    as (ds & es & s3 & lv3 & -> & <- & Hes & Hlen & Hpa & Hw & Hg).
  pose proof (slice_frames_run s3 lv3 g2 ds fs f0 es Hpa Hfs Hw Hes Hlen) as Hsl.
  assert (k_mem (early_state s3 f0 es) !! (f0 + PAGE_SIZE) = None) as Hn.
  { unfold early_state. cbn [k_mem set_vc set_mem]. rewrite lookup_insert_ne by (unfold PAGE_SIZE; lia).
    apply eq_None_not_Some. intros [Hs|Hs]%(gr_dom _ _ _ _ _ _ Hg); [|done]. rewrite Hnone in Hs. by destruct Hs. }
  unfold renew. set (se := early_state s3 f0 es) in *. rewrite (M_bind_run get _ se se se eq_refl).
  run_step (lift_run _ se _ (f_equal (of_option Undefined) Hsl)).
  assert (mapM (λ f, k_mem se !! f) (run_of f0) = None) as ->; [|done].
  apply mapM_None. change (run_of f0) with [f0 + 0 * PAGE_SIZE; f0 + 1 * PAGE_SIZE; f0 + 2 * PAGE_SIZE; f0 + 3 * PAGE_SIZE].
  apply Exists_cons_tl, Exists_cons_hd. by rewrite Z.mul_1_l.
Qed.
End init_proofs.

(** ** The allocator's headers *)

(** Where the header of a segment is, and its length. *)
Definition seg_place (g : Segment) : Z * Z := (seg_ptr g, seg_bytes g).

(** The headers are where they were, and as long as they were. *)
Definition same_layout (p p' : PhysicalFrameAllocator) : Prop :=
  (seg_place <$> segments p') = (seg_place <$> segments p) ∧
  pfa_size p' = pfa_size p ∧ phyframe p' = phyframe p.
#[global] Instance same_layout_preorder : PreOrder same_layout.
Proof.
  split; [by intros p|]. intros p1 p2 p3 (H1 & H2 & H3) (H4 & H5 & H6). split_and!; congruence.
Qed.

(** The headers lie in the [pfa_size] bytes from [phyframe]. *)
Record headers_in (p : PhysicalFrameAllocator) : Prop := {
  hi_size : 0 < pfa_size p ≤ 2 ^ 37;
  hi_frame : page_aligned (phyframe p) = true;
  hi_range : 0 ≤ phyframe p ∧ phyframe p + pfa_size p + PAGE_SIZE ≤ 2 ^ 47;
  hi_segments k s : segments p !! k = Some s →
    phyframe p ≤ seg_ptr s ∧ seg_ptr s + seg_bytes s ≤ phyframe p + pfa_size p;
}.

Section header_proofs.
Context {X : X86} {XO : X86Ok X}.
Notation K := (Kmem PhysicalFrameAllocator VCache).
Implicit Types (s : K) (p : PhysicalFrameAllocator).

Lemma alloc_loop_layout segs r segs' :
  alloc_loop segs = Ok (r, segs') →
  (seg_place <$> segs') = (seg_place <$> segs).
Proof.
  revert r segs'. induction segs as [|g segs IH]; intros r segs'; cbn [alloc_loop].
  { by intros [= <- <-]. }
  destruct (check _); [|done]. cbn [mbind res_bind]. destruct (bitmap g) as [bm|]; [|done].
  cbn [mbind res_bind]. destruct (list_find _ bm) as [[i w]|].
  - destruct (_ =? 64); [done|]. destruct (mul64 64 _) as [t|]; [|done]. cbn [mbind res_bind].
    destruct (add64 t _) as [pi|]; [|done]. cbn [mbind res_bind].
    destruct (mul64 pi _) as [off|]; [|done]. cbn [mbind res_bind].
    destruct (of_option _ _); [|done]. cbn [mbind res_bind]. intros [= <- <-].
    rewrite !fmap_cons. f_equal. unfold seg_place, seg_bytes, set_word. simpl. by rewrite length_insert.
  - destruct (alloc_loop segs) as [[o l]|] eqn:E; [|done]. cbn [mbind res_bind]. intros [= <- <-].
    rewrite !fmap_cons. f_equal. by eapply IH.
Qed.

Lemma alloc_layout : runs same_layout (fa_alloc (P:=PhysicalFrameAllocator)).
Proof.
  intros p r p' H. change (allocate_frame p = Ok (r, p')) in H. unfold allocate_frame in H.
  destruct (alloc_loop (segments p)) as [[o l]|] eqn:E; [|done]. injection H as <- <-.
  split_and!; [|done|done]. by eapply alloc_loop_layout.
Qed.

Lemma next_frames_layout n p fs p' : next_frames n p = Some (fs, p') → same_layout p p'.
Proof.
  revert p fs. induction n as [|n IH]; intros p fs; [by intros [= <- <-]|].
  intros (f & q & fs' & -> & Hal & Hn)%next_frames_cons.
  transitivity q; [by eapply alloc_layout|by eapply IH].
Qed.

Lemma headers_in_layout p p' : same_layout p p' → headers_in p → headers_in p'.
Proof.
  intros (Hs & Hsz & Hf) [H1 H2 H3 H4]. split; rewrite ?Hsz, ?Hf; try done.
  intros k g Hk. assert ((seg_place <$> segments p') !! k = Some (seg_ptr g, seg_bytes g)) as Hm
    by (by rewrite list_lookup_fmap, Hk).
  rewrite Hs, list_lookup_fmap in Hm. destruct (segments p !! k) as [g'|] eqn:E; [|done].
  injection Hm as <- <-. by apply (H4 k).
Qed.

Definition set_seg_ptr (ptr : Z) (g : Segment) : Segment := mkSegment ptr (seg_header g) (seg_words g).
(** The allocator once its headers are reached through the kernel's window. *)
Definition moved (p : PhysicalFrameAllocator) : PhysicalFrameAllocator :=
  mkPFA ((λ g, set_seg_ptr (PHYSHEADER_START + (seg_ptr g - phyframe p)) g) <$> segments p)
    (pfa_size p) (phyframe p).

(** Where the headers are does not matter to what is free. *)
Lemma moved_same p :
  (pfa_inv p → pfa_inv (moved p)) ∧ free_frames (moved p) = free_frames p ∧
  (∀ f, managed (moved p) f ↔ managed p f).
Proof.
  unfold pfa_inv, free_frames, managed, moved. cbn [segments]. split_and!.
  - intros [Hwf Hd]. split.
    + apply Forall_fmap. eapply Forall_impl; [exact Hwf|]. intros g [H1 H2 H3 H4]. by split.
    + by rewrite <-list_fmap_compose.
  - by rewrite <-list_fmap_compose.
  - intros f. by rewrite Exists_fmap.
Qed.

Lemma offset_segments p :
  headers_in p →
  mapM (offset_segment (PHYSHEADER_START - phyframe p)) (segments p) = Ok (segments (moved p)).
Proof.
  intros [H1 H2 H3 H4]. apply mapM_Ok. unfold moved. cbn [segments]. apply Forall2_fmap_r.
  apply Forall_Forall2_diag, Forall_lookup_2. intros k g Hk. destruct (H4 k g Hk).
  assert (0 ≤ seg_bytes g) by (unfold seg_bytes; lia). unfold offset_segment, add64.
  unfold PHYSHEADER_START, PAGE_SIZE in *.
  rewrite chk_in by (unfold in_width; lia). cbn [mbind res_bind].
  destruct (Z.eqb_spec (seg_ptr g + (0xFFFF804000000000 - phyframe p)) 0); [lia|].
  unfold mret, res_ret, set_seg_ptr. do 2 f_equal. lia.
Qed.
End header_proofs.

(** ** The mapper and the headers *)

Section virt_proofs.
Context {X : X86} {XO : X86Ok X}.
Notation K := (Kmem PhysicalFrameAllocator VCache).
Variable cr3 : Z.
Implicit Types (s : K).

Lemma four_windows_room (v : VCache) f0 n :
  (∀ p f, shows v p f ↔ ∃ i, (i < 4)%nat ∧ p = START_ADDR + PAGE_SIZE * Z.of_nat i ∧
    f = f0 + Z.of_nat i * PAGE_SIZE) → (n ≤ 508)%nat → has_room (shows v) n.
Proof.
  intros Hw Hn ps Hnd Hps.
  assert (ps ⊆+ ((λ i, START_ADDR + PAGE_SIZE * Z.of_nat i) <$> seq 0 4)) as Hsub.
  { apply NoDup_submseteq; [done|]. intros p Hp. rewrite Forall_forall in Hps.
    destruct (Hps p Hp) as [f (i & Hi & -> & _)%Hw]. apply list_elem_of_fmap. exists i.
    split; [done|]. apply elem_of_seq. lia. }
  apply submseteq_length in Hsub. rewrite length_fmap, length_seq in Hsub. lia.
Qed.

Lemma mapper_init_run s0 s lv p2 f0 :
  cache_ready cr3 p2 f0 s0 s lv →
  ∃ s', mapper_init cr3 s = Ok (tt, s') ∧ kmem_inv s' cr3 lv ∧ k_mem s' = k_mem s ∧
    k_pmm s' = k_pmm s ∧ has_room (shows (k_vc s')) 2 ∧
    ∀ p f, shows (k_vc s) p f → shows (k_vc s') p f.
Proof.
  intros Hcr. pose proof (cr_inv _ _ _ _ _ _ Hcr) as [Hp Hpt]. pose proof (cr_cache _ _ _ _ _ _ Hcr) as Hv.
  pose proof (cr_windows _ _ _ _ _ _ Hcr) as Hw.
  destruct (pt_root _ _ _ _ Hpt) as [t Ht]. destruct (pt_table _ _ _ _ Hpt _ _ Ht) as (_ & Hgf & _).
  destruct (@wc_map_ok VCache _ vcache_windows_ok (k_vc s) cr3 Hv Hgf) as (page & v' & Hr & Hv' & Hnew & Hshow & Hsame).
  { eapply four_windows_room; [exact Hw|lia]. }
  exists (mkKmem (k_pmm s) v' (k_mem s) page (k_tlb s)). split_and!; try done.
  - unfold mapper_init, on_vc. run_step (zoom_run k_vc set_vc _ s _ _ Hr). done.
  - cbn [k_vc]. eapply (has_room_take (shows (k_vc s)) _ page); [exact Hsame|].
    eapply four_windows_room; [exact Hw|lia].
  - intros p f Hs. apply Hsame; [|done]. intros ->%list_elem_of_singleton. by apply (Hnew f).
Qed.

Lemma remove_identity_pmm s s' : remove_identity s = Ok (tt, s') → k_pmm s' = k_pmm s.
Proof.
  unfold remove_identity. intros (? & ? & [= <- <-] & H)%M_bind_Ok.
  apply M_bind_Ok in H as (f & s1 & Hw & H). unfold win_frame in Hw.
  destruct (wc_frame (k_vc s) (k_p4 s)) as [f'|]; [|done]. injection Hw as <- <-.
  apply M_bind_Ok in H as (? & ? & [= <- <-] & H).
  apply M_bind_Ok in H as (t & ? & [_ ->]%lift_Ok & H).
  apply M_bind_Ok in H as (? & ? & [= <- <-] & H). unfold flush, modify in H. by injection H as <-.
Qed.

Lemma header_page i :
  0 ≤ i * PAGE_SIZE < 2 ^ 38 → good_page (PHYSHEADER_START + i * PAGE_SIZE) ∧
    START_ADDR + VC_SIZE ≤ PHYSHEADER_START + i * PAGE_SIZE ∧
    p4_index (PHYSHEADER_START + i * PAGE_SIZE) = 256%nat.
Proof.
  unfold good_page, PHYSHEADER_START, START_ADDR, KVMSPACE, VC_SIZE, P1PAGE_COUNT, PAGE_SIZE.
  rewrite canonical_iff, page_aligned_iff, p4_index_spec. intros. split_and!; zlia.
Qed.

(** Pages for the headers. *)
Definition header_pages (p : PhysicalFrameAllocator) : Z := pages_for (pfa_size p).

Lemma header_pages_bound p : headers_in p → 0 < header_pages p ∧ (header_pages p - 1) * PAGE_SIZE < pfa_size p.
Proof. intros [H _ _ _]. apply pages_for_bound. lia. Qed.

Lemma map_header_run s lv :
  kmem_inv s cr3 lv → headers_in (k_pmm s) → has_room (shows (k_vc s)) 2 →
  (∀ i, 0 ≤ i < header_pages (k_pmm s) →
    clear_path (k_mem s) cr3 (page_path (PHYSHEADER_START + i * PAGE_SIZE)) = true) →
  (3 * Z.to_nat (header_pages (k_pmm s)) ≤ base.size (fa_free (k_pmm s)))%nat →
  ∃ s' p1 lv', map_header s = Ok (tt, s') ∧ kmem_inv s' cr3 lv' ∧ same_layout (k_pmm s) p1 ∧
    k_pmm s' = moved p1 ∧
    (∀ i, 0 ≤ i < header_pages (k_pmm s) →
      translate (k_mem s') cr3 (PHYSHEADER_START + i * PAGE_SIZE) =
        Some (phyframe (k_pmm s) + i * PAGE_SIZE, leaf_flags PHYSHEADER_START WRITABLE)) ∧
    remaps (3 * Z.to_nat (header_pages (k_pmm s))) cr3
      (request_pages PHYSHEADER_START (range (header_pages (k_pmm s)))) s s' ∧
    has_room (shows (k_vc s')) 2.
Proof.
  intros Hinv Hin Hroom Hclear Hfree. pose proof (header_pages_bound _ Hin) as [Hn0 Hnb].
  pose proof Hin as [[H0 Hsz] Hfa [Hf0 Hf1] _]. unfold PAGE_SIZE in Hf1.
  destruct (kernel_map_ok s PHYSHEADER_START (phyframe (k_pmm s)) (pfa_size (k_pmm s)) WRITABLE cr3 lv)
    as (s1 & lv' & Hr & Hinv1 & Htr & Hrm & Hsw & _); try done.
  { unfold PAGE_SIZE. lia. }
  { apply kernel_flags_const. }
  { right. by vm_compute. }
  { intros i Hi. fold (header_pages (k_pmm s)) in Hi. unfold PAGE_SIZE in Hnb.
    destruct (header_page i ltac:(unfold PAGE_SIZE; lia)) as (Hgp & _). split_and!; [done| |by apply Hclear].
    apply page_aligned_iff in Hfa.
    split; [apply page_aligned_iff; unfold PAGE_SIZE; zlia|unfold in_width, PAGE_SIZE; lia]. }
  pose proof (kernel_map_pmm same_layout alloc_layout _ _ _ _ _ _ _ Hr) as Hlay.
  pose proof (headers_in_layout _ _ Hlay Hin) as Hin1.
  destruct (moved_same (k_pmm s1)) as (Hm1 & Hm2 & Hm3).
  exists (set_pmm (moved (k_pmm s1)) s1), (k_pmm s1), lv'. split_and!; try done.
  - unfold map_header. rewrite (M_bind_run (gets _) _ s _ s eq_refl), (M_bind_run (gets _) _ s _ s eq_refl).
    unfold vmap. run_step Hr. rewrite (M_bind_run (lift (unwrap_result (ROk tt))) _ s1 tt s1 eq_refl).
    assert (sub64 PHYSHEADER_START (phyframe (k_pmm s)) = Ok (PHYSHEADER_START - phyframe (k_pmm s))) as Es
      by (apply chk_in; unfold in_width, PHYSHEADER_START; lia).
    run_step (lift_run _ s1 _ Es). rewrite (M_bind_run get _ s1 s1 s1 eq_refl).
    destruct Hlay as (_ & _ & Hph). rewrite <-Hph.
    by run_step (lift_run _ s1 _ (offset_segments _ Hin1)).
  - destruct Hinv1 as [Hp1 Hv1 Hroot1 Hpt1]. split; cbn [k_pmm k_vc k_mem k_p4 set_pmm]; try done.
    + by apply Hm1.
    + change (pt_inv (free_frames (moved (k_pmm s1))) (k_mem s1) cr3 lv'). rewrite Hm2. exact Hpt1.
  - destruct Hrm as [R1 R2 R3 R4 R5 R6 R7 R8 R9].
    split; cbn [k_pmm k_mem set_pmm k_p4]; change (fa_free (moved (k_pmm s1))) with (free_frames (moved (k_pmm s1)));
      rewrite ?Hm2; try done.
    + intros f. change (managed (moved (k_pmm s1)) f ↔ managed (k_pmm s) f). rewrite Hm3. apply R6.
    + intros U HU Hs. specialize (R8 U HU Hs). unfold sealed in *. cbn [k_pmm k_mem set_pmm].
      change (fa_free (moved (k_pmm s1))) with (free_frames (moved (k_pmm s1))). by rewrite Hm2.
  - exact (same_windows_room s s1 2 Hsw Hroom).
Qed.

(** What [virt::init] does to the memory the loader left. *)
Record taken_over s s' (lv' : Z → nat) : Prop := {
  to_inv : kmem_inv s' cr3 lv';
  to_room : has_room (shows (k_vc s')) 2;
  to_low q : 0 ≤ q < 2 ^ 47 → translate (k_mem s') cr3 q = None;
  to_low_clear q : 0 ≤ q < 2 ^ 47 → clear_path (k_mem s') cr3 (page_path q) = true;
  to_clear q : canonical q = true → KVMSPACE ≤ q → ¬ in_cache q →
    clear_path (k_mem s) cr3 (page_path q) = true → clear_path (k_mem s') cr3 (page_path q) = true;
  to_headers k g : segments (k_pmm s) !! k = Some g → ∃ g', segments (k_pmm s') !! k = Some g' ∧
    ∀ i, 0 ≤ i < seg_bytes g →
      translate (k_mem s') cr3 (page_base (seg_ptr g' + i)) =
        Some (page_base (seg_ptr g + i), leaf_flags PHYSHEADER_START WRITABLE) ∧
      (seg_ptr g' + i) mod PAGE_SIZE = (seg_ptr g + i) mod PAGE_SIZE;
  to_other q : good_page q → KVMSPACE ≤ q → ¬ in_cache q →
    q ∉ request_pages PHYSHEADER_START (range (header_pages (k_pmm s))) →
    translate (k_mem s') cr3 q = translate (k_mem s) cr3 q;
  to_user q : good_page q → KVMSPACE < q → ¬ in_cache q → user_page (k_mem s') cr3 q → user_page (k_mem s) cr3 q;
  to_free : fa_free (k_pmm s') ⊆ fa_free (k_pmm s);
  to_size : (base.size (fa_free (k_pmm s)) ≤
    base.size (fa_free (k_pmm s')) + (6 + 3 * Z.to_nat (header_pages (k_pmm s))))%nat;
  to_dom g : is_Some (k_mem s' !! g) →
    is_Some (k_mem s !! g) ∨ g ∈ fa_free (k_pmm s) ∖ fa_free (k_pmm s');
}.

(** The headers after the move. *)
Lemma moved_headers s p1 s' :
  same_layout (k_pmm s) p1 → headers_in (k_pmm s) → k_pmm s' = moved p1 →
  (∀ i, 0 ≤ i < header_pages (k_pmm s) → translate (k_mem s') cr3 (PHYSHEADER_START + i * PAGE_SIZE) =
    Some (phyframe (k_pmm s) + i * PAGE_SIZE, leaf_flags PHYSHEADER_START WRITABLE)) →
  ∀ k g, segments (k_pmm s) !! k = Some g → ∃ g', segments (k_pmm s') !! k = Some g' ∧
    ∀ i, 0 ≤ i < seg_bytes g →
      translate (k_mem s') cr3 (page_base (seg_ptr g' + i)) =
        Some (page_base (seg_ptr g + i), leaf_flags PHYSHEADER_START WRITABLE) ∧
      (seg_ptr g' + i) mod PAGE_SIZE = (seg_ptr g + i) mod PAGE_SIZE.
Proof.
  intros (Hpl & _ & Hph) Hin Hp Htr k g Hk. rewrite Hp.
  assert ((seg_place <$> segments (k_pmm s)) !! k = Some (seg_place g)) as Hsk by (by rewrite list_lookup_fmap, Hk).
  rewrite <-Hpl, list_lookup_fmap in Hsk. destruct (segments p1 !! k) as [g1|] eqn:Hk1; [|done].
  injection Hsk as Hptr Hby. eexists. split; [unfold moved; cbn [segments]; by rewrite list_lookup_fmap, Hk1|].
  cbn [set_seg_ptr seg_ptr]. rewrite Hptr, Hph. intros i Hi.
  destruct (hi_segments _ Hin k g Hk) as [Hlo Hup]. pose proof (hi_frame _ Hin) as Hal.
  apply page_aligned_iff in Hal. set (ph := phyframe (k_pmm s)) in *.
  set (j := (seg_ptr g + i - ph) / PAGE_SIZE).
  assert (0 ≤ j < header_pages (k_pmm s)) as Hj.
  { unfold j, header_pages, pages_for, PAGE_SIZE in *. zlia. }
  assert (page_base (PHYSHEADER_START + (seg_ptr g - ph) + i) = PHYSHEADER_START + j * PAGE_SIZE) as ->.
  { unfold page_base, j, PHYSHEADER_START, PAGE_SIZE. zlia. }
  assert (page_base (seg_ptr g + i) = ph + j * PAGE_SIZE) as -> by (unfold page_base, j, PAGE_SIZE; zlia).
  split; [exact (Htr j Hj)|unfold PHYSHEADER_START, PAGE_SIZE; zlia].
Qed.

(** Removing the identity map keeps the clear paths of the upper half and
    clears those of the lower half. *)
Lemma remove_identity_clear s lv q s' :
  kmem_inv s cr3 lv → remove_identity s = Ok (tt, s') →
  0 ≤ q < 2 ^ 47 ∨ clear_path (k_mem s) cr3 (page_path q) = true → clear_path (k_mem s') cr3 (page_path q) = true.
Proof.
  intros Hinv Hr Hq. destruct (pt_root _ _ _ _ (ki_pt _ _ _ Hinv)) as [t Ht].
  rewrite (remove_identity_state _ _ _ _ Hinv Ht) in Hr. injection Hr as <-. cbn [k_mem].
  destruct (page_indices_lt q) as [Hix _]. unfold page_path in *. apply Forall_cons in Hix as [Hi _].
  eapply half_clear; [apply Hinv|done|done|simpl; lia|]. destruct Hq as [Hq|]; [left|by right].
  rewrite p4_index_spec. zlia.
Qed.

Lemma virt_init_run s lv t e0 g3 g2 f0 p' :
  ident_inv cr3 s lv → k_mem s !! cr3 = Some t → t !! 256%nat = Some e0 → pte_is_unused e0 = true →
  next_frames 6 (k_pmm s) = Some (g3 :: g2 :: run_of f0, p') → f0 + 4 * PAGE_SIZE ≤ 2 ^ 52 →
  ident_frames (cr3 :: g3 :: g2 :: run_of f0) →
  headers_in (k_pmm s) →
  (6 + 3 * Z.to_nat (header_pages (k_pmm s)) ≤ base.size (fa_free (k_pmm s)))%nat →
  ∃ s' lv', virt_init cr3 s = Ok (tt, s') ∧ taken_over s s' lv'.
Proof.
  intros Hinv Ht He Hun Hnext Hmax Hid Hin Hsz. pose proof (next_frames_layout _ _ _ _ Hnext) as Hlay.
  destruct (vcache_init_run cr3 s lv t e0 g3 g2 f0 p' Hinv Ht He Hun Hnext Hmax Hid) as (s1 & lv1 & Hr1 & Hp1 & Hcr).
  destruct (mapper_init_run s s1 lv1 g2 f0 Hcr) as (s2 & Hr2 & Hinv2 & Hm2 & Hp2 & Hroom & _).
  rewrite Hp1 in Hp2. pose proof (headers_in_layout _ _ Hlay Hin) as Hin2.
  pose proof Hlay as (Hplace & Hpsz & Hph).
  assert (header_pages p' = header_pages (k_pmm s)) as Hhp by (unfold header_pages; by rewrite Hpsz).
  pose proof (cr_size _ _ _ _ _ _ Hcr) as Hsz1. pose proof (cr_free _ _ _ _ _ _ Hcr) as Hfr1.
  pose proof (cr_dom _ _ _ _ _ _ Hcr) as Hdom1. rewrite Hp1 in Hsz1, Hfr1, Hdom1.
  assert (∀ i, 0 ≤ i < header_pages (k_pmm s) → 0 ≤ i * PAGE_SIZE < 2 ^ 38) as Hir.
  { intros i Hi. pose proof (hi_size _ Hin). pose proof (header_pages_bound _ Hin). unfold PAGE_SIZE in *. lia. }
  destruct (map_header_run s2 lv1) as (s3 & p1 & lv3 & Hr3 & Hinv3 & Hlay3 & Hp3 & Htr3 & Hrm3 & Hroom3);
    rewrite ?Hp2, ?Hhp in *; try done; [|lia|].
  { intros i Hi. destruct (header_page i (Hir i Hi)) as ([Hc Ha] & Hst & H4). rewrite Hm2.
    apply (cr_clear _ _ _ _ _ _ Hcr); [done|unfold in_cache; lia|]. unfold page_path.
    rewrite H4. cbn [clear_path]. by rewrite Ht, He, Hun. }
  destruct (remove_identity_run s3 cr3 lv3 Hinv3) as (s4 & Hr4 & Hinv4 & Hlow & Hhigh & _).
  destruct (pt_root _ _ _ _ (ki_pt _ _ _ Hinv3)) as [t3 Ht3].
  pose proof (remove_identity_state _ _ _ _ Hinv3 Ht3) as E4. rewrite Hr4 in E4. injection E4 as E4.
  assert (k_pmm s4 = k_pmm s3) as Hp4 by (by rewrite E4).
  pose proof (rm_free _ _ _ _ _ Hrm3) as Hfr3. pose proof (rm_size _ _ _ _ _ Hrm3) as Hsz3.
  pose proof (rm_dom _ _ _ _ _ Hrm3) as Hdom3. rewrite Hp2 in Hfr3, Hsz3, Hdom3. rewrite Hm2 in Hdom3.
  exists s4, lv3. split; [unfold virt_init; run_step Hr1; run_step Hr2; run_step Hr3; exact Hr4|].
  split; try done.
  - rewrite E4. exact Hroom3.
  - intros q Hq. eapply remove_identity_clear; [exact Hinv3|exact Hr4|by left].
  - intros q Hc Hk Hout Hcl. eapply remove_identity_clear; [exact Hinv3|exact Hr4|right].
    apply (rm_clear _ _ _ _ _ Hrm3); [apply page_indices_lt|simpl; lia|]. rewrite Hm2. by apply (cr_clear _ _ _ _ _ _ Hcr).
  - eapply (moved_headers s p1); [by etransitivity|done|congruence|]. intros i Hi.
    rewrite Hhigh; [rewrite (Htr3 i Hi), Hph; done|]. destruct (header_page i (Hir i Hi)) as ([Hc _] & Hst & _).
    apply canonical_iff in Hc. unfold START_ADDR, VC_SIZE, P1PAGE_COUNT, KVMSPACE, PAGE_SIZE in *. lia.
  - intros q Hgq Hk Hout Hnh. rewrite Hhigh; [|split; [done|]; destruct Hgq as [Hc _]; apply canonical_iff in Hc; lia].
    rewrite (rm_other _ _ _ _ _ Hrm3), Hm2 by (done || apply Hgq). apply (cr_translate _ _ _ _ _ _ Hcr); [apply Hgq|done].
  - intros q Hgq Hk Hout (f & fl & Htr & Hu).
    rewrite Hhigh in Htr by (split; [lia|]; destruct Hgq as [Hc _]; apply canonical_iff in Hc; lia).
    destruct (rm_user _ _ _ _ _ Hrm3 q) as (f' & fl' & Htr' & Hu'); [apply Hgq|apply Hgq|done|by exists f, fl|].
    exists f', fl'. split; [|done]. rewrite Hm2, (cr_translate _ _ _ _ _ _ Hcr) in Htr' by (done || apply Hgq). done.
  - rewrite Hp4. by etransitivity.
  - rewrite Hp4. lia.
  - intros g Hg. rewrite Hp4. rewrite E4 in Hg. cbn [k_mem] in Hg. apply (half_dom (k_mem s3) cr3 t3 Ht3) in Hg.
    destruct (Hdom3 g Hg) as [Hg1|Hg1]; [|set_solver]. destruct (Hdom1 g Hg1); [by left|set_solver].
Qed.
End virt_proofs.

(** ** What the initialisation promises *)

Section boot_claims.
Context {X : X86} {XO : X86Ok X}.
Notation K := (Kmem PhysicalFrameAllocator VCache).
Implicit Types (s : K).

(** When the loader left the first entry of kernel space unused and the
    allocator's next frames are two tables and four frames in a row,
    [vcache::init] succeeds: the cache is well formed, its first four pages
    show its own four tables and no other page is handed out, the table the
    processor uses for each quarter of the cache is the one the kernel writes
    through its slice, and no translation outside the cache changes. *)
Theorem vcache_init_correct cr3 s lv t e0 g3 g2 f0 p' :
  ident_inv cr3 s lv → k_mem s !! cr3 = Some t → t !! 256%nat = Some e0 → pte_is_unused e0 = true →
  next_frames 6 (k_pmm s) = Some (g3 :: g2 :: run_of f0, p') → f0 + 4 * PAGE_SIZE ≤ 2 ^ 52 →
  ident_frames (cr3 :: g3 :: g2 :: run_of f0) →
  ∃ s' lv', vcache_init cr3 s = Ok (tt, s') ∧ k_pmm s' = p' ∧ cache_ready cr3 g2 f0 s s' lv'.
Proof. apply vcache_init_run. Qed.

(** [vcache::init] assumes that the frames it allocates for the tables of
    the cache follow each other and never checks it: when the frame after the
    first one is none of them, the slice [p1] covers memory that is no page
    table. *)
Theorem vcache_init_needs_run cr3 s lv t e0 g3 g2 fs f0 p' :
  ident_inv cr3 s lv → k_mem s !! cr3 = Some t → t !! 256%nat = Some e0 → pte_is_unused e0 = true →
  next_frames 6 (k_pmm s) = Some (g3 :: g2 :: fs, p') → length fs = 4%nat → fs !! 0%nat = Some f0 →
  f0 + 4 * PAGE_SIZE ≤ 2 ^ 52 → ident_frames (cr3 :: g3 :: g2 :: fs) → k_mem s !! (f0 + PAGE_SIZE) = None →
  f0 + PAGE_SIZE ∉ fa_free (k_pmm s) ∖ fa_free p' → vcache_init cr3 s = Panic Undefined.
Proof. apply vcache_init_scattered. Qed.

(** C14. [virt::init] takes the memory over from the loader.  When the loader
    left the first entry of kernel space unused, the allocator's next six
    frames are two tables and, for the tables of the cache, four frames in a
    row, the root table and those six frames are in the identity map and not
    at address 0, and frames for the headers' mapping are left, it succeeds: the
    tables are a well-formed tree with their root in a window of the cache,
    no address of the lower half is mapped any more, every header of the
    frame allocator is reached at its new address in the frame it was written
    to, and every other page of kernel space outside the cache translates as
    before. *)
Theorem virt_init_correct cr3 s lv t e0 g3 g2 f0 p' :
  ident_inv cr3 s lv → k_mem s !! cr3 = Some t → t !! 256%nat = Some e0 → pte_is_unused e0 = true →
  next_frames 6 (k_pmm s) = Some (g3 :: g2 :: run_of f0, p') → f0 + 4 * PAGE_SIZE ≤ 2 ^ 52 →
  ident_frames (cr3 :: g3 :: g2 :: run_of f0) →
  headers_in (k_pmm s) →
  (6 + 3 * Z.to_nat (header_pages (k_pmm s)) ≤ base.size (fa_free (k_pmm s)))%nat →
  ∃ s' lv', virt_init cr3 s = Ok (tt, s') ∧ kmem_inv s' cr3 lv' ∧
    (∀ q, 0 ≤ q < 2 ^ 47 → translate (k_mem s') cr3 q = None) ∧
    (∀ k g, segments (k_pmm s) !! k = Some g → ∃ g', segments (k_pmm s') !! k = Some g' ∧
      ∀ i, 0 ≤ i < seg_bytes g →
        translate (k_mem s') cr3 (page_base (seg_ptr g' + i)) =
          Some (page_base (seg_ptr g + i), leaf_flags PHYSHEADER_START WRITABLE) ∧
        (seg_ptr g' + i) mod PAGE_SIZE = (seg_ptr g + i) mod PAGE_SIZE) ∧
    (∀ q, good_page q → KVMSPACE ≤ q → ¬ in_cache q →
      q ∉ request_pages PHYSHEADER_START (range (header_pages (k_pmm s))) →
      translate (k_mem s') cr3 q = translate (k_mem s) cr3 q).
Proof.
  intros Hinv Ht He Hun Hnext Hmax Hid Hin Hsz.
  destruct (virt_init_run cr3 s lv t e0 g3 g2 f0 p' Hinv Ht He Hun Hnext Hmax Hid Hin Hsz) as (s' & lv' & Hr & Hto).
  exists s', lv'. split_and!; [done|..]; apply Hto.
Qed.
End boot_claims.
