(* ===== verification/Handover.v ===== *)
(** * From the memory map to the kernel's memory

    [mem::init] ([kernel/src/mem/mod.rs]) builds the frame allocator from the
    loader's memory map and moves the kernel onto its own tables.  The files
    Phys and Boot have the two steps; here they are put together: what a
    freshly built allocator hands out first is what [vcache::init] needs, and
    the headers are where [map_header] expects them. *)

From S2P Require Import Prelude X86 FrameAlloc WindowCache VCache Bootboot Phys Mapper Mem Boot.

Section front.
Context {X : X86} {XO : X86Ok X}.
Implicit Types (p : PhysicalFrameAllocator) (s : Segment).

(** The first [i0] of the first [n] pages are used, the others free. *)
Definition front (i0 n : Z) s : Prop := ∀ j, 0 ≤ j < n → bit_at (seg_words s) j = (j <? i0).

(** Allocation from a list whose first segment has a free page at [i0]. *)
Lemma alloc_front p s rest i0 n :
  pfa_inv p → segments p = s :: rest → front i0 n s → 0 ≤ i0 < n → n ≤ npages (seg_header s) →
  ∃ p' s', allocate_frame p = Ok (Some (frame_of (seg_header s) i0), p') ∧ pfa_inv p' ∧
    segments p' = s' :: rest ∧ seg_header s' = seg_header s ∧ front (i0 + 1) n s'.
Proof.
  intros Hp Hs Hf Hi Hn. pose proof Hp as [Hall _]. rewrite Hs in Hall. apply Forall_cons in Hall as [Hwf _].
  assert (bit_at (seg_words s) i0 = false) as Hb0 by (rewrite Hf by lia; apply Z.ltb_ge; lia).
  assert (frame_of (seg_header s) i0 ∈ free_in s) as Hin by (apply elem_of_free_in; exists i0; split_and!; done || lia).
  destruct (allocate_frame_run p Hp) as [[_ He]|(k & t & i & Hk & Hit & Hb & Hlow & Hpre & E)].
  { exfalso. apply (not_elem_of_empty (C:=gset Z) (frame_of (seg_header s) i0)). rewrite <-He.
    apply elem_of_free_frames. exists s. rewrite Hs. split; [by left|done]. }
  assert (k = 0)%nat as ->.
  { destruct k as [|k]; [done|]. assert (segments p !! 0%nat = Some s) as H0 by (by rewrite Hs).
    rewrite (Hpre 0%nat s H0) in Hin by lia. by apply not_elem_of_empty in Hin. }
  rewrite Hs in Hk. injection Hk as <-.
  assert (i = i0) as ->.
  { destruct (Z.lt_trichotomy i i0) as [Hl|[->|Hl]]; [|done|].
    - rewrite Hf in Hb by lia. apply Z.ltb_ge in Hb. lia.
    - rewrite Hlow in Hb0 by lia. done. }
  destruct (allocate_frame_abs p Hp) as [[E' _]|(f & p' & E' & Hp' & _)]; rewrite E in E'; [done|].
  injection E' as <- <-. eexists _, (mark_used s i0). split_and!; [exact E|exact Hp'| | |].
  - cbn [set_segments segments]. by rewrite Hs.
  - apply seg_header_mark_used.
  - pose proof (seg_wf_index s i0 Hwf Hit). intros j Hj. rewrite bit_at_mark_used by (apply Hwf || lia). rewrite Hf by lia.
    destruct (Z.eqb_spec j i0), (Z.ltb_spec j i0), (Z.ltb_spec j (i0 + 1)); done || lia.
Qed.

(** The next frames of such a list are in a row. *)
Lemma next_frames_front m p s rest i0 n :
  pfa_inv p → segments p = s :: rest → front i0 n s → 0 ≤ i0 → i0 + Z.of_nat m ≤ n → n ≤ npages (seg_header s) →
  ∃ p', next_frames m p = Some ((λ j, frame_of (seg_header s) (i0 + Z.of_nat j)) <$> seq 0 m, p').
Proof.
  revert p s i0. induction m as [|m IH]; intros p s i0 Hp Hs Hf H0 Hm Hn; [by eexists|].
  destruct (alloc_front p s rest i0 n Hp Hs Hf ltac:(lia) Hn) as (p1 & s1 & E & Hp1 & Hs1 & Hh & Hf1).
  destruct (IH p1 s1 (i0 + 1) Hp1 Hs1 Hf1 ltac:(lia) ltac:(lia) ltac:(by rewrite Hh)) as (p2 & E2).
  exists p2. cbn [next_frames]. change (fa_alloc p) with (allocate_frame p). rewrite E, E2. cbn [mbind option_bind].
  cbn [seq]. rewrite fmap_cons, Z.add_0_r, <-fmap_S_seq, <-list_fmap_compose, Hh. do 3 f_equal.
  apply list_fmap_ext. intros _ j _. cbn. f_equal. lia.
Qed.
End front.

(** ** The loader's memory *)

Section handover.
Context {X : X86} {XO : X86Ok X}.
Notation K := (Kmem PhysicalFrameAllocator VCache).
Implicit Types (p : PhysicalFrameAllocator) (s : K).

(** A memory map the kernel can start on: some region has room for the headers
    ([h] is the first one), they are below 128 TiB and in the identity map, and
    the region listed first has six pages to give, in the identity map too. *)
Record map_ok (bb : BootBoot) (pre : list SegmentHeader) (h : SegmentHeader) (post : list SegmentHeader) : Prop := {
  mo_wf : bb_wf bb;
  mo_list : usable_headers bb = pre ++ h :: post;
  mo_pre : Forall (λ g, size g < round_page (headers_bytes (usable_headers bb))) pre;
  mo_room : round_page (headers_bytes (usable_headers bb)) < size h;
  mo_bytes : headers_bytes (usable_headers bb) ≤ 2 ^ 37;
  mo_low : address h + headers_bytes (usable_headers bb) + PAGE_SIZE ≤ 2 ^ 47;
  mo_first g : head (pre ++ shrink (round_page (headers_bytes (usable_headers bb))) h :: post) = Some g →
    6 ≤ fresh_pages g;
  mo_ident : ident_ok (address h) (headers_bytes (usable_headers bb));
  mo_first_ident g : head (pre ++ shrink (round_page (headers_bytes (usable_headers bb))) h :: post) = Some g →
    ident_ok (address g) (6 * PAGE_SIZE);
}.

Lemma header_bytes_min h : header_wf h → 24 ≤ header_bytes h.
Proof. intros Hh. pose proof (header_wf_size h Hh). unfold header_bytes, npages, PAGE_SIZE. zlia. Qed.

Lemma fresh_headers_in bb pre h post p :
  map_ok bb pre h post → phys_init bb = Ok p → headers_in p.
Proof.
  intros [Hwf Hl Hpre Hroom Hb Hlow _ Hid _] Hr.
  destruct (phys_init_run bb pre h post Hwf Hl Hpre Hroom Hid) as (p' & Hr' & _ & _ & Hf & Hs & _).
  rewrite Hr in Hr'. injection Hr' as <-.
  pose proof (usable_headers_wf bb Hwf) as Hall. rewrite Hl in Hall.
  assert (Forall header_wf (pre ++ h :: post)) as Hall' by (eapply Forall_impl; [exact Hall|]; by intros ? [? _]).
  assert (0 < headers_bytes (usable_headers bb)) as Hpos.
  { rewrite Hl, headers_bytes_app. simpl. rewrite Forall_app, Forall_cons in Hall'. destruct Hall' as (H1 & H2 & H3).
    pose proof (headers_bytes_nonneg _ H1). pose proof (headers_bytes_nonneg _ H3). pose proof (header_bytes_min h H2). lia. }
  assert (header_wf h) as Hh by (rewrite Forall_app, Forall_cons in Hall'; tauto).
  split; rewrite ?Hf, ?Hs; [lia|apply Hh|pose proof (hwf_addr h Hh); lia|].
  intros k g Hk. destruct (phys_init_headers_fit bb pre h post p Hwf Hl Hpre Hroom Hid Hr k g Hk) as (H1 & H2 & _).
  by rewrite Hf, Hs in *.
Qed.

Lemma run_of_front h i : (λ j, frame_of h (i + Z.of_nat j)) <$> seq 0 6 =
  frame_of h i :: frame_of h (i + 1) :: run_of (frame_of h (i + 2)).
Proof.
  cbn [seq fmap list_fmap]. change (run_of ?f) with [f + 0 * PAGE_SIZE; f + 1 * PAGE_SIZE; f + 2 * PAGE_SIZE; f + 3 * PAGE_SIZE].
  unfold frame_of. unfold PAGE_SIZE. repeat (apply f_equal2; [lia|]). done.
Qed.

(** The first six frames of a fresh allocator. *)
Lemma fresh_next_frames bb pre h post p :
  map_ok bb pre h post → phys_init bb = Ok p →
  ∃ g3 g2 f0 p', next_frames 6 p = Some (g3 :: g2 :: run_of f0, p') ∧ f0 + 4 * PAGE_SIZE ≤ 2 ^ 52 ∧
    ident_frames (g3 :: g2 :: run_of f0).
Proof.
  intros Hm Hr. pose proof Hm as [Hwf Hl Hpre Hroom _ _ Hfirst Hid Hfid].
  destruct (phys_init_run bb pre h post Hwf Hl Hpre Hroom Hid) as (p' & Hr' & Hp & Hh & _ & _ & Hfresh).
  rewrite Hr in Hr'. injection Hr' as <-.
  destruct (segments p) as [|s rest] eqn:Es; [by destruct pre|].
  rewrite fmap_cons in Hh. specialize (Hfirst (seg_header s)). specialize (Hfid (seg_header s)). rewrite <-Hh in Hfirst, Hfid.
  specialize (Hfirst eq_refl). specialize (Hfid eq_refl).
  destruct (Hfresh 0%nat s eq_refl) as (_ & _ & Hsw & Hbits).
  assert (fresh_pages (seg_header s) ≤ npages (seg_header s)) by (unfold fresh_pages; case_match; lia).
  destruct (next_frames_front 6 p s rest 0 (fresh_pages (seg_header s)) Hp Es) as (p2 & E); [|lia|lia|lia|].
  { intros j Hj. rewrite Hbits by lia. destruct (Z.leb_spec (fresh_pages (seg_header s)) j), (Z.ltb_spec j 0); lia || done. }
  rewrite run_of_front in E. do 4 eexists. split; [exact E|].
  split; [pose proof (hwf_end _ (wf_header _ Hsw)); unfold frame_of, npages, PAGE_SIZE in *; zlia|].
  rewrite <-run_of_front. apply Forall_fmap, Forall_forall. intros j [_ Hj]%elem_of_seq. destruct Hfid as [Hnull Hend].
  pose proof (hwf_addr _ (wf_header _ Hsw)) as [Ha _]. split; unfold frame_of, PAGE_SIZE in *; lia.
Qed.

(** [phys::init], then [virt::init], on the loader's tables, whose root leaves
    the first entry of kernel space unused. *)
Lemma handover_run bb pre h post p s lv cr3 t e0 :
  map_ok bb pre h post → phys_init bb = Ok p → pt_inv (fa_free p) (k_mem s) cr3 lv →
  k_mem s !! cr3 = Some t → t !! 256%nat = Some e0 → pte_is_unused e0 = true → ident_ok cr3 PAGE_SIZE →
  (6 + 3 * Z.to_nat (header_pages p) ≤ base.size (fa_free p))%nat →
  ∃ s' lv', virt_init cr3 (set_pmm p s) = Ok (tt, s') ∧ taken_over cr3 (set_pmm p s) s' lv'.
Proof.
  intros Hm Hr Hpt Ht He Hun Hidr Hsz. pose proof Hm as [Hwf Hl Hpre Hroom _ _ _ Hid _].
  destruct (phys_init_run bb pre h post Hwf Hl Hpre Hroom Hid) as (p' & Hr' & Hp & _).
  rewrite Hr in Hr'. injection Hr' as <-.
  destruct (fresh_next_frames bb pre h post p Hm Hr) as (g3 & g2 & f0 & q & Hnext & Hmax & Hidf).
  eapply (virt_init_run cr3 (set_pmm p s) lv t e0 g3 g2 f0 q); try done.
  - by apply Forall_cons_2.
  - by eapply fresh_headers_in.
Qed.
End handover.
