(* ===== verification/MemDemo.v ===== *)
(** * A concrete memory

    The theorems on the mapper, the memory services and the heap are proved
    against the interfaces of the frame allocator and of the virtual cache.
    Here both are the kernel's own: the allocator as [phys_init] leaves it on
    a small memory map and the cache with one window, on an empty root table.
    The theorems are applied to that memory. *)

From S2P Require Import Prelude X86 FrameAlloc WindowCache VCache Bootboot Phys Mapper Mem Heap Boot.

Definition demo_mem : gmap Z (list Z) := {[ 0x5000 := replicate 512 0 ]}.
Definition demo_kmem : Kmem PhysicalFrameAllocator VCache :=
  mkKmem demo_pfa demo_cache1 demo_mem START_ADDR [].
Definition demo_heap : Heap PhysicalFrameAllocator VCache := mkHeap demo_kmem HEAP_START 0.
Definition demo_level (f : Z) : nat := 4.

Lemma demo_lookup f t : demo_mem !! f = Some t → f = 0x5000 ∧ t = replicate 512 0.
Proof. unfold demo_mem. intros [<- <-]%lookup_singleton_Some. done. Qed.

Lemma demo_next f i : next demo_mem f i = None.
Proof.
  apply eq_None_not_Some. intros [c (t & e & Ht & He & Hc & _)%next_Some].
  apply demo_lookup in Ht as [_ ->]. apply lookup_replicate in He as [-> _]. done.
Qed.

Lemma demo_root : demo_mem !! 0x5000 = Some (replicate 512 0).
Proof. apply lookup_singleton_eq. Qed.

Lemma empty_pt_inv fr : 0x5000 ∉ fr → pt_inv fr demo_mem 0x5000 demo_level.
Proof.
  intros Hfr. split.
  - rewrite demo_root. eauto.
  - done.
  - intros f t [-> ->]%demo_lookup. split_and!; [done|apply good_frame_0x5000|exact Hfr|].
    unfold demo_level. lia.
  - intros f t i e c [_ ->]%demo_lookup _ [-> _]%lookup_replicate Hc. done.
  - intros f g i j c _ _ Hn. by rewrite demo_next in Hn.
Qed.

(** The empty root with any allocator that does not have its frame. *)
Lemma empty_kmem_inv p :
  pfa_inv p → 0x5000 ∉ fa_free p →
  kmem_inv (mkKmem p demo_cache1 demo_mem START_ADDR []) 0x5000 demo_level.
Proof.
  intros Hp Hfr. destruct demo_cache1_ok as (Hv & Hs & _). split; simpl; try done. by apply empty_pt_inv.
Qed.

Lemma demo_pt_inv : pt_inv (fa_free demo_pfa) demo_mem 0x5000 demo_level.
Proof. apply empty_pt_inv, (bool_decide_unpack _). vm_compute. done. Qed.

Lemma demo_kmem_inv : kmem_inv demo_kmem 0x5000 demo_level.
Proof. apply empty_kmem_inv; [exact demo_pfa_inv|]. apply (bool_decide_unpack _). vm_compute. done. Qed.

Lemma demo_clear q : clear_path demo_mem 0x5000 (page_path q) = true.
Proof.
  destruct (page_indices_lt q) as [Hix _]. unfold page_path in *.
  apply Forall_cons in Hix as [Hi _]. cbn [clear_path]. rewrite demo_root.
  by rewrite lookup_replicate_2 by done.
Qed.

Lemma demo_room : has_room (wc_shows (k_vc demo_kmem)) 2.
Proof. apply demo_cache1_ok. Qed.

Lemma demo_frames : base.size (fa_free (k_pmm demo_kmem)) = 574%nat.
Proof. vm_compute. reflexivity. Qed.

Lemma demo_flags : kernel_flags 2.
Proof. by vm_compute. Qed.

(** ** Witnesses for the mapper *)

Lemma kernel_map_correct_witness :
  ∃ s', kernel_map 0x400000 0x7000 0x1001 2 demo_kmem = Ok (ROk tt, s') ∧
    translate (k_mem s') 0x5000 0x401000 = Some (0x8000, 3).
Proof.
  destruct (kernel_map_correct demo_kmem 0x400000 0x7000 0x1001 2 0x5000 demo_level)
    as (s' & lv' & Hr & _ & Htr & _).
  - exact demo_kmem_inv.
  - lia.
  - unfold PAGE_SIZE. lia.
  - exact demo_flags.
  - left. unfold START_ADDR, KVMSPACE. lia.
  - intros i Hi. change (pages_for 0x1001) with 2 in Hi. unfold can_map_page, PAGE_SIZE.
    split_and!; [| |apply demo_clear]; assert (i = 0 ∨ i = 1) as [-> | ->] by lia; by vm_compute.
  - rewrite demo_frames. change (pages_for 0x1001) with 2. lia.
  - exact demo_room.
  - exists s'. split; [exact Hr|].
    assert (leaf_flags 0x400000 2 = 3) as E by (vm_compute; reflexivity). rewrite E in Htr.
    change (pages_for 0x1001) with 2 in Htr.
    specialize (Htr 1 ltac:(lia)). change (0x400000 + 1 * PAGE_SIZE) with 0x401000 in Htr.
    by change (0x7000 + 1 * PAGE_SIZE) with 0x8000 in Htr.
Defined.

Lemma leaf_flags_isolation_witness :
  fl_contains (leaf_flags HEAP_START USER_ACCESSIBLE) USER_ACCESSIBLE = false.
Proof. apply (leaf_flags_isolation HEAP_START USER_ACCESSIBLE). unfold HEAP_START, KVMSPACE. lia. Defined.

Lemma remove_identity_correct_witness :
  ∃ s', remove_identity demo_kmem = Ok (tt, s') ∧ translate (k_mem s') 0x5000 0x1000 = None.
Proof.
  destruct (remove_identity_correct demo_kmem 0x5000 demo_level demo_kmem_inv)
    as (s' & Hr & _ & Hlow & _).
  exists s'. split; [exact Hr|]. apply Hlow. lia.
Defined.

Lemma kernel_map_refused_witness :
  kernel_map START_ADDR 0x7000 1 2 demo_kmem = Ok (RErr Managed, demo_kmem).
Proof. apply (kernel_map_refused demo_kmem); [done|]. by vm_compute. Defined.

(** ** Witnesses for the services *)

Lemma valloc_correct_witness :
  ∃ (fs : list Z) s', valloc 0x400000 2 2 demo_kmem = Ok (tt, s') ∧ length fs = 2%nat ∧ NoDup fs.
Proof.
  destruct (valloc_correct demo_kmem 0x400000 2 2 0x5000 demo_level)
    as (fs & s' & lv' & Hr & _ & (Htr & Hnd & _) & _).
  - exact demo_kmem_inv.
  - by vm_compute.
  - exact demo_flags.
  - lia.
  - unfold PAGE_SIZE. lia.
  - intros i Hi. split_and!; [|left; unfold START_ADDR, KVMSPACE, PAGE_SIZE; lia|apply demo_clear].
    assert (i = 0 ∨ i = 1) as [-> | ->] by lia; by vm_compute.
  - rewrite demo_frames. lia.
  - exact demo_room.
  - exists fs, s'. split_and!; [exact Hr| |exact Hnd].
    rewrite <-(Forall2_length _ _ _ Htr). apply length_range.
Defined.

Lemma vmap_many_correct_witness :
  ∃ s', vmap_many 0x400000 [0x7000; 0x9000] 2 demo_kmem = Ok (tt, s') ∧
    translate (k_mem s') 0x5000 0x401000 = Some (0x9000, 3).
Proof.
  destruct (vmap_many_correct demo_kmem 0x400000 [0x7000; 0x9000] 2 0x5000 demo_level)
    as (s' & lv' & Hr & _ & Htr & _).
  - exact demo_kmem_inv.
  - by vm_compute.
  - repeat apply Forall_cons_2; [by vm_compute|by vm_compute|done].
  - exact demo_flags.
  - by vm_compute.
  - repeat apply Forall_cons_2; try done;
      (split_and!; [by vm_compute|left; by vm_compute|apply demo_clear]).
  - rewrite demo_frames. cbn [length]. lia.
  - exact demo_room.
  - exists s'. split; [exact Hr|].
    rewrite !pages_from_cons in Htr. apply Forall2_cons in Htr as [_ Htr]. apply Forall2_cons in Htr as [Htr _].
    change (0x400000 + (0 + 1) * PAGE_SIZE) with 0x401000 in Htr. rewrite Htr.
    assert (leaf_flags 0x401000 2 = 3) as -> by (vm_compute; reflexivity). reflexivity.
Defined.

(** ** Witnesses for the heap *)

Lemma demo_can_expand adr :
  HEAP_START ≤ adr < HEAP_START + HEAP_SIZE → can_expand demo_heap 0x5000 demo_level adr.
Proof.
  intros Hadr. split.
  - exact demo_kmem_inv.
  - exact Hadr.
  - unfold demo_heap, in_width. cbn [HEAP_HEAD]. lia.
  - unfold demo_heap. cbn [EXPAND_COUNT]. lia.
  - intros i _. apply demo_clear.
  - change (h_kmem demo_heap) with demo_kmem. rewrite demo_frames.
    change (expand_amount (EXPAND_COUNT demo_heap) / PAGE_SIZE) with 8. lia.
  - exact demo_room.
Qed.

Lemma heap_expand_correct_witness :
  ∃ h1, heap_expand 0xFFFF808000010123 demo_heap = Ok (tt, h1) ∧ EXPAND_COUNT h1 = 1.
Proof.
  destruct (heap_expand_correct demo_heap 0xFFFF808000010123 0x5000 demo_level)
    as (fs & f & k' & lv' & Hr & _).
  - apply demo_can_expand. unfold HEAP_START, HEAP_SIZE. lia.
  - unfold demo_heap, HEAP_START. cbn [HEAP_HEAD]. lia.
  - eexists. split; [exact Hr|]. reflexivity.
Defined.

Lemma heap_expand_twice_witness :
  ∃ h1 h2, heap_expand 0xFFFF808000010123 demo_heap = Ok (tt, h1) ∧
    heap_expand 0xFFFF808000010123 h1 = Ok (tt, h2) ∧
    translate (k_mem (h_kmem h1)) 0x5000 0xFFFF808000010000 ≠
    translate (k_mem (h_kmem h2)) 0x5000 0xFFFF808000010000.
Proof.
  destruct (heap_expand_twice demo_heap 0xFFFF808000010123 0x5000 demo_level)
    as (h1 & f1 & h2 & f2 & Hr1 & Hr2 & Ht1 & Ht2 & Hne).
  - apply demo_can_expand. unfold HEAP_START, HEAP_SIZE. lia.
  - change (expand_amount (EXPAND_COUNT demo_heap)) with 0x8000.
    unfold demo_heap, HEAP_START. cbn [HEAP_HEAD]. lia.
  - unfold demo_heap. cbn [EXPAND_COUNT]. lia.
  - intros i _. apply demo_clear.
  - change (h_kmem demo_heap) with demo_kmem. rewrite demo_frames.
    change (expand_amount (EXPAND_COUNT demo_heap) / PAGE_SIZE) with 8.
    change (expand_amount (EXPAND_COUNT demo_heap + 1) / PAGE_SIZE) with 16. lia.
  - exists h1, h2. split_and!; [exact Hr1|exact Hr2|].
    change 0xFFFF808000010000 with (page_base 0xFFFF808000010123). rewrite Ht1, Ht2. congruence.
Defined.

Lemma heap_expand_overruns_witness :
  ∃ h1 f, heap_expand 0xFFFF80807FFFF010 demo_heap = Ok (tt, h1) ∧
    translate (k_mem (h_kmem h1)) 0x5000 0xFFFF808080000000 =
      Some (f, leaf_flags 0xFFFF808080000000 2).
Proof.
  destruct (heap_expand_overruns demo_heap 0xFFFF80807FFFF010 0x5000 demo_level)
    as (h1 & f & Hr & _ & Htr).
  - apply demo_can_expand. unfold HEAP_START, HEAP_SIZE. lia.
  - unfold demo_heap, HEAP_START. cbn [HEAP_HEAD]. lia.
  - reflexivity.
  - exists h1, f. split; [exact Hr|]. change 0xFFFF808080000000 with (HEAP_START + HEAP_SIZE).
    exact Htr.
Defined.

(** ** Witnesses for the boot sequence *)

Lemma demo_ident : ident_inv 0x5000 demo_kmem demo_level.
Proof. split; [exact demo_pfa_inv|exact demo_pt_inv]. Qed.

Definition demo_after_six : PhysicalFrameAllocator :=
  match next_frames 6 demo_pfa with Some (_, p) => p | None => demo_pfa end.
Lemma demo_next_six :
  next_frames 6 demo_pfa = Some (0x401000 :: 0x402000 :: run_of 0x403000, demo_after_six).
Proof. vm_compute. reflexivity. Qed.

Lemma demo_six_ident : ident_frames (0x5000 :: 0x401000 :: 0x402000 :: run_of 0x403000).
Proof. repeat apply Forall_cons_2; [by apply ident_ok_ref..|apply Forall_nil_2]. Qed.

Lemma vcache_init_correct_witness :
  ∃ s', vcache_init 0x5000 demo_kmem = Ok (tt, s') ∧ shows (k_vc s') START_ADDR 0x403000.
Proof.
  destruct (vcache_init_correct 0x5000 demo_kmem demo_level (replicate 512 0) 0 0x401000 0x402000 0x403000
    demo_after_six demo_ident demo_root eq_refl eq_refl demo_next_six) as (s' & lv' & Hr & _ & Hcr).
  - unfold PAGE_SIZE. lia.
  - exact demo_six_ident.
  - exists s'. split; [exact Hr|]. apply (cr_windows _ _ _ _ _ _ Hcr). exists 0%nat.
    split_and!; [lia|reflexivity|reflexivity].
Defined.

Lemma demo_headers_in : headers_in demo_pfa.
Proof.
  split; [by vm_compute|by vm_compute|by vm_compute|].
  assert (forallb (λ g, (phyframe demo_pfa <=? seg_ptr g) &&
    (seg_ptr g + seg_bytes g <=? phyframe demo_pfa + pfa_size demo_pfa)) (segments demo_pfa) = true) as H
    by (vm_compute; reflexivity).
  rewrite forallb_forall in H. intros k g Hk. apply list_elem_of_lookup_2, list_elem_of_In, H in Hk.
  apply andb_true_iff in Hk as [H1 H2]. split; by apply Z.leb_le.
Qed.

Lemma virt_init_correct_witness :
  ∃ s', virt_init 0x5000 demo_kmem = Ok (tt, s') ∧ translate (k_mem s') 0x5000 0x1000 = None.
Proof.
  destruct (virt_init_correct 0x5000 demo_kmem demo_level (replicate 512 0) 0 0x401000 0x402000 0x403000
    demo_after_six demo_ident demo_root eq_refl eq_refl demo_next_six) as (s' & lv' & Hr & _ & Hlow & _).
  - unfold PAGE_SIZE. lia.
  - exact demo_six_ident.
  - exact demo_headers_in.
  - rewrite demo_frames. change (header_pages (k_pmm demo_kmem)) with 1. lia.
  - exists s'. split; [exact Hr|]. apply Hlow. lia.
Defined.

(** The same memory with 3 free pages above the region that is searched first. *)
Definition scattered_bb : BootBoot :=
  mkBootBoot (bb_magic demo_bb) (sizeof_BootBoot + 3 * sizeof_MMapEnt) 2 0 2 0 0 (bb_datetime demo_bb)
    0x8000 0x1000 0xE0000000 1228800 640 480 2560 (bb_arch demo_bb)
    (bb_mmap demo_bb ++ [mkMMapEnt 0x500000 0x4001]).
Definition scattered_pfa : PhysicalFrameAllocator :=
  match phys_init scattered_bb with Ok p => p | Panic _ => mkPFA [] 0 0 end.
Definition scattered_kmem : Kmem PhysicalFrameAllocator VCache :=
  mkKmem scattered_pfa demo_cache1 demo_mem START_ADDR [].

Lemma scattered_bb_wf : bb_wf scattered_bb.
Proof.
  split_and!; [done|done|vm_compute; split; [discriminate|done]| |].
  - simpl. repeat apply Forall_cons_2; [..|done];
      (split_and!; [split; [vm_compute; discriminate|reflexivity]..|vm_compute; discriminate|]);
      intros Hu; try (vm_compute in Hu; discriminate); split; reflexivity.
  - simpl. split_and!; repeat apply Forall_cons_2; try done;
      intros Hu Hu'; vm_compute in Hu, Hu'; try discriminate; left; vm_compute; discriminate.
Qed.

Lemma scattered_pfa_inv : pfa_inv scattered_pfa.
Proof.
  destruct (phys_init_run scattered_bb [] (mkSegmentHeader MAGIC 0x500000 0x4000)
    [mkSegmentHeader MAGIC 0x400000 0x40000; mkSegmentHeader MAGIC 0x200000 0x1FF000]) as (p & Hr & Hp & _).
  - exact scattered_bb_wf.
  - vm_compute. reflexivity.
  - constructor.
  - vm_compute. reflexivity.
  - by apply ident_ok_ref.
  - unfold scattered_pfa. by rewrite Hr.
Qed.

Lemma demo_pt_inv_free free :
  0x5000 ∉ free → pt_inv free demo_mem 0x5000 demo_level.
Proof.
  intros Hf. pose proof demo_pt_inv as [H1 H2 H3 _ H5]. split; try done.
  - intros f t Ht. destruct (H3 f t Ht) as (? & ? & _ & ?). apply demo_lookup in Ht as [-> _]. by split_and!.
  - intros f t i e c [_ ->]%demo_lookup _ [-> _]%lookup_replicate Hc. done.
Qed.

Lemma scattered_gap free : 0x503000 + PAGE_SIZE ∉ fa_free scattered_pfa ∖ free.
Proof.
  intros [H _]%elem_of_difference. revert H.
  change (0x503000 + PAGE_SIZE ∉ free_frames scattered_pfa).
  apply (bool_decide_unpack _). by vm_compute.
Qed.

Lemma vcache_init_needs_run_witness : vcache_init 0x5000 scattered_kmem = Panic Undefined.
Proof.
  assert (∃ p', next_frames 6 scattered_pfa =
    Some (0x501000 :: 0x502000 :: [0x503000; 0x200000; 0x201000; 0x202000], p')) as [p' Hn]
    by (eexists; vm_compute; reflexivity).
  apply (vcache_init_needs_run 0x5000 scattered_kmem demo_level (replicate 512 0) 0 0x501000 0x502000
    [0x503000; 0x200000; 0x201000; 0x202000] 0x503000 p').
  - split; [exact scattered_pfa_inv|]. apply demo_pt_inv_free. apply (bool_decide_unpack _). by vm_compute.
  - exact demo_root.
  - reflexivity.
  - reflexivity.
  - exact Hn.
  - reflexivity.
  - reflexivity.
  - unfold PAGE_SIZE. lia.
  - repeat apply Forall_cons_2; [by apply ident_ok_ref..|apply Forall_nil_2].
  - apply lookup_singleton_ne. done.
  - apply scattered_gap.
Defined.
