(* ===== verification/Elf.v ===== *)
(** * Executable files

    Models [kernel/src/elf.rs].  The source overlays structures on the bytes
    of the file; here a file is its bytes and the address they lie at, and a
    structure is decoded from the bytes at its offset.  Reading outside the
    bytes, forming a misaligned reference, or reading an enumeration whose
    byte is none of its discriminants has no defined value in the source and
    is the panic [Undefined].  The type and the machine of a file, which the
    kernel never looks at, are kept as the numbers they are. *)

From S2P Require Import Prelude X86.

Inductive Class := ClassNone | Class32 | Class64.
Inductive Endian := EndianNone | LeastSignificantByte | MostSignificantByte.
Inductive ProgramType := Null | Load | Dynamic | Interpreter | Note | ShLib | ProgHeader.

#[global] Instance Class_eq_dec : EqDecision Class.
Proof. solve_decision. Defined.
#[global] Instance Endian_eq_dec : EqDecision Endian.
Proof. solve_decision. Defined.
#[global] Instance ProgramType_eq_dec : EqDecision ProgramType.
Proof. solve_decision. Defined.

(** The discriminants the enumerations have. *)
Definition Class_of (b : Z) : res Class :=
  of_option Undefined ([ClassNone; Class32; Class64] !! Z.to_nat b).
Definition Endian_of (b : Z) : res Endian :=
  of_option Undefined ([EndianNone; LeastSignificantByte; MostSignificantByte] !! Z.to_nat b).
Definition ProgramType_of (b : Z) : res ProgramType :=
  of_option Undefined
    ([Null; Load; Dynamic; Interpreter; Note; ShLib; ProgHeader] !! Z.to_nat b).

Record Identification := mkIdentification {
  id_magic : list Z;
  id_class : Z;
  id_endian : Z;
  id_version : Z;
  id_osabi : Z;
  id_abiver : Z;
  id_pad : list Z;
}.

Definition ELF_MAGIC : list Z := [0x7f; 0x45; 0x4c; 0x46].

Definition Identification_verify (i : Identification) : res bool :=
  if negb (bool_decide (id_magic i = ELF_MAGIC)) then mret false else
  c ← Class_of (id_class i);
  if negb (bool_decide (c = Class64)) then mret false else
  e ← Endian_of (id_endian i);
  if negb (bool_decide (e = LeastSignificantByte)) then mret false else
  mret (id_version i =? 1).

Record FileHeader := mkFileHeader {
  fh_id : Identification;
  fh_ftype : Z;
  fh_machine : Z;
  fh_version : Z;
  fh_entry : Z;
  fh_phoff : Z;
  fh_shoff : Z;
  fh_flags : Z;
  fh_ehsize : Z;
  fh_phent_size : Z;
  fh_pht_len : Z;
  fh_shent_size : Z;
  fh_sht_len : Z;
  fh_shstridx : Z;
}.

Definition FILE_HEADER_SIZE : nat := 64.
Definition PROGRAM_HEADER_SIZE : nat := 56.

(** The reference to a [FileHeader] at the start of the bytes. *)
Definition read_file_header (content : list Z) : res FileHeader :=
  class ← read_field content 4 1;
  endian ← read_field content 5 1;
  iversion ← read_field content 6 1;
  osabi ← read_field content 7 1;
  abiver ← read_field content 8 1;
  ftype ← read_field content 16 2;
  machine ← read_field content 18 2;
  version ← read_field content 20 4;
  entry ← read_field content 24 8;
  phoff ← read_field content 32 8;
  shoff ← read_field content 40 8;
  flags ← read_field content 48 4;
  ehsize ← read_field content 52 2;
  phent_size ← read_field content 54 2;
  pht_len ← read_field content 56 2;
  shent_size ← read_field content 58 2;
  sht_len ← read_field content 60 2;
  shstridx ← read_field content 62 2;
  mret (mkFileHeader
    (mkIdentification (sub_bytes content 0 4) class endian iversion osabi abiver
       (sub_bytes content 9 7))
    ftype machine version entry phoff shoff flags ehsize phent_size pht_len shent_size
    sht_len shstridx).

Record ProgramHeader := mkProgramHeader {
  ph_ptype : Z;
  ph_flags : Z;
  ph_offset : Z;
  ph_vadr : Z;
  ph_padr : Z;
  ph_file_size : Z;
  ph_mem_size : Z;
  ph_align : Z;
}.

Definition read_program_header (l : list Z) (off : nat) : res ProgramHeader :=
  ptype ← read_field l off 4;
  flags ← read_field l (off + 4) 4;
  offset ← read_field l (off + 8) 8;
  vadr ← read_field l (off + 16) 8;
  padr ← read_field l (off + 24) 8;
  file_size ← read_field l (off + 32) 8;
  mem_size ← read_field l (off + 40) 8;
  align ← read_field l (off + 48) 8;
  mret (mkProgramHeader ptype flags offset vadr padr file_size mem_size align).

(** A file in memory; [ef_base] is the address of its first byte. *)
Record ElfFile := mkElfFile {
  ef_bytes : list Z;
  ef_base : Z;
  ef_header : FileHeader;
  ef_size : Z;
}.

Section elf.
Context {X : X86}.

(** [VirtAddr::try_new(a).is_ok()]: the address is canonical. *)
Definition FileHeader_verify (h : FileHeader) : res bool :=
  ok ← Identification_verify (fh_id h);
  if negb ok then mret false else
  if negb (fh_version h =? 1) then mret false else
  mret (match virt_new (fh_entry h) with Some _ => true | None => false end).

Definition entrypoint (h : FileHeader) : Z := virt_new_truncate (fh_entry h).

Definition ElfFile_parse (content : list Z) (base : Z) : res (option ElfFile) :=
  r ← read_file_header content;
  ok ← FileHeader_verify r;
  if negb ok then mret None
  else mret (Some (mkElfFile content base r (Z.of_nat (length content)))).

Definition ElfFile_slice (f : ElfFile) (offset sz : Z) : res (option (list Z)) :=
  e ← add64 offset sz;
  if ef_size f <? e then mret None
  else mret (Some (sub_bytes (ef_bytes f) (Z.to_nat offset) (Z.to_nat sz))).

(** [ProgramHeaderIterator::next] at [index]. *)
Definition progheader_next (f : ElfFile) (index : Z) : res (option (ProgramHeader * Z)) :=
  if fh_pht_len (ef_header f) <=? index then mret None else
  a ← add64 (ef_base f) (fh_phoff (ef_header f));
  b ← mul64 index (fh_phent_size (ef_header f));
  p ← add64 a b;
  if negb (p mod 8 =? 0) then Panic Undefined else
  current ← read_program_header (ef_bytes f) (Z.to_nat (p - ef_base f));
  index' ← add64 index 1;
  mret (Some (current, index')).

Definition writable (h : ProgramHeader) : bool := negb (Z.land (ph_flags h) 2 =? 0).
Definition memory_flags (h : ProgramHeader) : Z :=
  if writable h then fl_union 0 WRITABLE else 0.
End elf.

Section parse.
Context {X : X86}.
(** The bytes of a parsed file are those it was parsed from. *)
Lemma ElfFile_parse_bytes content base o :
  ElfFile_parse content base = Ok o → ∀ elf, o = Some elf → ef_bytes elf = content.
Proof.
  unfold ElfFile_parse. destruct (read_file_header content) as [h|]; cbn [mbind res_bind]; [|done].
  destruct (FileHeader_verify h) as [[]|]; cbn [mbind res_bind negb]; [| |done]; intros [= <-] elf; [by intros [= <-]|done].
Qed.
End parse.

(** ** Writing a file *)

Definition id_fields (i : Identification) : list (nat * Z) :=
  (1%nat,.) <$> [id_class i; id_endian i; id_version i; id_osabi i; id_abiver i].
Definition header_fields (h : FileHeader) : list (nat * Z) :=
  [(2%nat, fh_ftype h); (2%nat, fh_machine h); (4%nat, fh_version h); (8%nat, fh_entry h);
   (8%nat, fh_phoff h); (8%nat, fh_shoff h); (4%nat, fh_flags h); (2%nat, fh_ehsize h);
   (2%nat, fh_phent_size h); (2%nat, fh_pht_len h); (2%nat, fh_shent_size h);
   (2%nat, fh_sht_len h); (2%nat, fh_shstridx h)].
Definition progheader_fields (h : ProgramHeader) : list (nat * Z) :=
  [(4%nat, ph_ptype h); (4%nat, ph_flags h); (8%nat, ph_offset h); (8%nat, ph_vadr h);
   (8%nat, ph_padr h); (8%nat, ph_file_size h); (8%nat, ph_mem_size h); (8%nat, ph_align h)].

Definition encode_file_header (h : FileHeader) : list Z :=
  id_magic (fh_id h) ++ encode_fields (id_fields (fh_id h)) ++ id_pad (fh_id h) ++
  encode_fields (header_fields h).
Definition encode_program_header (h : ProgramHeader) : list Z :=
  encode_fields (progheader_fields h).

(** Every field fits its width. *)
Record header_wf (h : FileHeader) : Prop := {
  hw_magic : length (id_magic (fh_id h)) = 4%nat;
  hw_pad : length (id_pad (fh_id h)) = 7%nat;
  hw_id : Forall field_ok (id_fields (fh_id h));
  hw_fields : Forall field_ok (header_fields h);
}.
Definition progheader_wf (h : ProgramHeader) : Prop := Forall field_ok (progheader_fields h).

(** The headers the kernel accepts. *)
Definition header_ok (h : FileHeader) : bool :=
  bool_decide (id_magic (fh_id h) = ELF_MAGIC) && (id_class (fh_id h) =? 2) &&
  (id_endian (fh_id h) =? 1) && (id_version (fh_id h) =? 1) && (fh_version h =? 1) &&
  canonical (fh_entry h).

(** A whole file: header, then program headers at [fh_phoff], then the rest. *)
Definition encode_file (h : FileHeader) (phs : list ProgramHeader) (rest : list Z) : list Z :=
  encode_file_header h ++ (phs ≫= encode_program_header) ++ rest.

Section elf_proofs.
Context {X : X86} {XO : X86Ok X}.

Lemma length_file_header h : header_wf h → length (encode_file_header h) = 64%nat.
Proof.
  intros [H1 H2 _ _]. unfold encode_file_header. rewrite !length_app, H1, H2.
  by rewrite !length_encode_fields.
Qed.

Lemma read_header_id h rest k x off :
  header_wf h → id_fields (fh_id h) !! k = Some (1%nat, x) → off = (4 + k)%nat → (k < 5)%nat →
  read_field (encode_file_header h ++ rest) off 1 = Ok x.
Proof.
  intros Hwf Hk -> Hlt. unfold encode_file_header. rewrite <-!app_assoc.
  apply (read_encoded_field _ _ _ k); [done| |].
  - by apply (Forall_lookup_1 _ _ _ _ (hw_id _ Hwf) Hk).
  - rewrite (hw_magic _ Hwf). by destruct k as [|[|[|[|[|k]]]]]; [..|lia].
Qed.

Lemma read_header_field h rest k w x off :
  header_wf h → header_fields h !! k = Some (w, x) →
  off = (16 + field_offset (header_fields h) k)%nat →
  read_field (encode_file_header h ++ rest) off w = Ok x.
Proof.
  intros Hwf Hk ->. unfold encode_file_header. rewrite <-!app_assoc, app_assoc, app_assoc, <-!app_assoc.
  rewrite (app_assoc (id_magic _)), (app_assoc _ (id_pad _)).
  apply (read_encoded_field _ _ _ k); [done| |].
  - by apply (Forall_lookup_1 _ _ _ _ (hw_fields _ Hwf) Hk).
  - by rewrite !length_app, (hw_magic _ Hwf), (hw_pad _ Hwf), length_encode_fields.
Qed.

(** Decoding undoes encoding. *)
Lemma read_file_header_encode h rest :
  header_wf h → read_file_header (encode_file_header h ++ rest) = Ok h.
Proof.
  intros Hwf. unfold read_file_header.
  assert (sub_bytes (encode_file_header h ++ rest) 0 4 = id_magic (fh_id h)) as Em.
  { unfold sub_bytes, encode_file_header. rewrite drop_0, <-!app_assoc.
    by apply take_app_length'; rewrite (hw_magic _ Hwf). }
  assert (sub_bytes (encode_file_header h ++ rest) 9 7 = id_pad (fh_id h)) as Ep.
  { unfold sub_bytes, encode_file_header. rewrite <-!app_assoc, (app_assoc (id_magic _)).
    rewrite drop_app_length' by (by rewrite length_app, (hw_magic _ Hwf), length_encode_fields).
    by apply take_app_length'; rewrite (hw_pad _ Hwf). }
  rewrite Em, Ep.
  rewrite (read_header_id h rest 0 _ 4 Hwf eq_refl eq_refl ltac:(lia)).
  rewrite (read_header_id h rest 1 _ 5 Hwf eq_refl eq_refl ltac:(lia)).
  rewrite (read_header_id h rest 2 _ 6 Hwf eq_refl eq_refl ltac:(lia)).
  rewrite (read_header_id h rest 3 _ 7 Hwf eq_refl eq_refl ltac:(lia)).
  rewrite (read_header_id h rest 4 _ 8 Hwf eq_refl eq_refl ltac:(lia)).
  rewrite (read_header_field h rest 0 _ _ 16 Hwf eq_refl eq_refl).
  rewrite (read_header_field h rest 1 _ _ 18 Hwf eq_refl eq_refl).
  rewrite (read_header_field h rest 2 _ _ 20 Hwf eq_refl eq_refl).
  rewrite (read_header_field h rest 3 _ _ 24 Hwf eq_refl eq_refl).
  rewrite (read_header_field h rest 4 _ _ 32 Hwf eq_refl eq_refl).
  rewrite (read_header_field h rest 5 _ _ 40 Hwf eq_refl eq_refl).
  rewrite (read_header_field h rest 6 _ _ 48 Hwf eq_refl eq_refl).
  rewrite (read_header_field h rest 7 _ _ 52 Hwf eq_refl eq_refl).
  rewrite (read_header_field h rest 8 _ _ 54 Hwf eq_refl eq_refl).
  rewrite (read_header_field h rest 9 _ _ 56 Hwf eq_refl eq_refl).
  rewrite (read_header_field h rest 10 _ _ 58 Hwf eq_refl eq_refl).
  rewrite (read_header_field h rest 11 _ _ 60 Hwf eq_refl eq_refl).
  rewrite (read_header_field h rest 12 _ _ 62 Hwf eq_refl eq_refl).
  simpl. by destruct h as [[] ? ? ? ? ? ? ? ? ? ? ? ? ?].
Qed.

Lemma read_program_header_at pre h post :
  progheader_wf h → read_program_header (pre ++ encode_program_header h ++ post) (length pre) = Ok h.
Proof.
  intros Hwf. unfold read_program_header, encode_program_header.
  assert (∀ k w x off, progheader_fields h !! k = Some (w, x) →
    off = (length pre + field_offset (progheader_fields h) k)%nat →
    read_field (pre ++ encode_fields (progheader_fields h) ++ post) off w = Ok x) as Hrd.
  { intros k w x off Hk ->. apply (read_encoded_field _ _ _ k); [done| |done].
    by apply (Forall_lookup_1 _ _ _ _ Hwf Hk). }
  rewrite (Hrd 0%nat _ _ (length pre) eq_refl) by (unfold field_offset; simpl; lia).
  rewrite (Hrd 1%nat _ _ (length pre + 4)%nat eq_refl eq_refl).
  rewrite (Hrd 2%nat _ _ (length pre + 8)%nat eq_refl eq_refl).
  rewrite (Hrd 3%nat _ _ (length pre + 16)%nat eq_refl eq_refl).
  rewrite (Hrd 4%nat _ _ (length pre + 24)%nat eq_refl eq_refl).
  rewrite (Hrd 5%nat _ _ (length pre + 32)%nat eq_refl eq_refl).
  rewrite (Hrd 6%nat _ _ (length pre + 40)%nat eq_refl eq_refl).
  rewrite (Hrd 7%nat _ _ (length pre + 48)%nat eq_refl eq_refl).
  simpl. by destruct h.
Qed.

Lemma length_program_headers phs : length (phs ≫= encode_program_header) = (56 * length phs)%nat.
Proof.
  induction phs as [|h phs IH]; [done|].
  rewrite bind_cons, length_app, IH. unfold encode_program_header. rewrite length_encode_fields.
  simpl. lia.
Qed.

Lemma Identification_verify_spec i :
  in_width 8 (id_class i) → in_width 8 (id_endian i) → id_class i < 3 → id_endian i < 3 →
  Identification_verify i = Ok (bool_decide (id_magic i = ELF_MAGIC) && (id_class i =? 2) &&
    (id_endian i =? 1) && (id_version i =? 1)).
Proof.
  intros [Hc0 _] [He0 _] Hc He. unfold Identification_verify.
  case_bool_decide; simpl; [|done].
  assert (id_class i = 0 ∨ id_class i = 1 ∨ id_class i = 2) as [->|[->| ->]] by lia; simpl; [done|done|].
  assert (id_endian i = 0 ∨ id_endian i = 1 ∨ id_endian i = 2) as [->|[->| ->]] by lia; done.
Qed.

(** ** What the parser promises *)

(** C24. Parsing undoes writing: for a header whose fields fit their widths and
    whose class and byte order are values of the format, [parse] of the
    written header followed by anything returns the file with exactly that
    header when the header is one the kernel accepts (magic, 64-bit,
    little-endian, versions 1, canonical entry point), and [None] otherwise. *)
Theorem ElfFile_parse_roundtrip h rest base :
  header_wf h → id_class (fh_id h) < 3 → id_endian (fh_id h) < 3 →
  let content := encode_file_header h ++ rest in
  ElfFile_parse content base =
    Ok (if header_ok h then Some (mkElfFile content base h (Z.of_nat (length content))) else None).
Proof.
  intros Hwf Hc He content. unfold ElfFile_parse, content. rewrite read_file_header_encode by done.
  unfold mbind at 1, res_bind at 1. unfold FileHeader_verify, header_ok.
  pose proof (hw_id _ Hwf) as Hid. unfold id_fields in Hid. rewrite !fmap_cons, !Forall_cons in Hid.
  destruct Hid as (H1 & H2 & _).
  rewrite Identification_verify_spec by (done || (unfold field_ok in *; simpl in *; unfold in_width; lia)).
  unfold mbind at 1 2, res_bind at 1 2. destruct (_ && _ && _ && _) eqn:E; simpl; [|done].
  destruct (fh_version h =? 1); simpl; [|done].
  rewrite virt_new_spec; [by destruct (canonical (fh_entry h))|].
  pose proof (hw_fields _ Hwf) as Hf. 
  pose proof (Forall_lookup_1 _ _ 3 (8%nat, fh_entry h) Hf eq_refl) as Hent.
  unfold field_ok in Hent. simpl in Hent. unfold in_width. lia.
Qed.

(** The iterator over the program headers of a written file yields exactly
    the headers written, in order, and then stops. *)
Theorem progheader_next_roundtrip h phs rest base size index :
  header_wf h → Forall progheader_wf phs → fh_phoff h = 64 → fh_phent_size h = 56 →
  fh_pht_len h = Z.of_nat (length phs) → base mod 8 = 0 → 0 ≤ base →
  base + 64 + 56 * Z.of_nat (length phs) < 2 ^ 64 → 0 ≤ index →
  progheader_next (mkElfFile (encode_file h phs rest) base h size) index =
    Ok (p ← phs !! Z.to_nat index; Some (p, index + 1)).
Proof.
  intros Hwf Hps Hoff Hent Hlen Hal Hb0 Hb Hi. unfold progheader_next. simpl.
  rewrite Hlen, Hoff, Hent. destruct (Z.leb_spec (Z.of_nat (length phs)) index) as [Hge|Hlt].
  { by rewrite lookup_ge_None_2 by lia. }
  destruct (lookup_lt_is_Some_2 phs (Z.to_nat index)) as [p Hp]; [lia|]. rewrite Hp. simpl.
  unfold add64, mul64. do 4 (rewrite chk_in by (unfold in_width; lia); simpl).
  replace ((base + 64 + index * 56) mod 8 =? 0) with true by (symmetry; apply Z.eqb_eq; zlia). simpl.
  pose proof (Forall_lookup_1 _ _ _ _ Hps Hp) as Hwp.
  set (pre := encode_file_header h ++ (take (Z.to_nat index) phs ≫= encode_program_header)).
  assert (Z.to_nat (base + 64 + index * 56 - base) = length pre) as ->.
  { unfold pre. rewrite length_app, length_program_headers, length_file_header by done.
    rewrite length_take. lia. }
  assert (encode_file h phs rest = pre ++ encode_program_header p ++
    ((drop (S (Z.to_nat index)) phs ≫= encode_program_header) ++ rest)) as ->.
  { unfold encode_file, pre. rewrite <-(take_drop_middle _ _ _ Hp) at 1.
    by rewrite bind_app, bind_cons, <-!app_assoc. }
  by rewrite read_program_header_at by done.
Qed.

(** [slice] returns exactly the requested bytes of the file, when they lie
    inside it, and [None] otherwise; it panics only when the end of the request
    is not a 64-bit number. *)
Theorem ElfFile_slice_correct f offset sz :
  ef_size f = Z.of_nat (length (ef_bytes f)) → in_width 64 offset → in_width 64 sz →
  ElfFile_slice f offset sz =
    if offset + sz <? 2 ^ 64
    then Ok (if offset + sz <=? ef_size f
             then Some (sub_bytes (ef_bytes f) (Z.to_nat offset) (Z.to_nat sz)) else None)
    else Panic Overflow.
Proof.
  intros Hsz [Ho0 Ho] [Hs0 Hs]. unfold ElfFile_slice, add64.
  destruct (Z.ltb_spec (offset + sz) (2 ^ 64)); [|rewrite chk_out; [done|unfold in_width; lia]].
  rewrite chk_in by (unfold in_width; lia). simpl.
  destruct (Z.ltb_spec (ef_size f) (offset + sz)), (Z.leb_spec (offset + sz) (ef_size f)); done || lia.
Qed.
End elf_proofs.

(** ** Witnesses *)

Definition demo_header : FileHeader :=
  mkFileHeader (mkIdentification ELF_MAGIC 2 1 1 0 0 (replicate 7 0))
    2 62 1 0x401000 64 0 0 64 56 1 0 0 0.
Definition demo_progheader : ProgramHeader :=
  mkProgramHeader 1 6 0x1000 0x401000 0x401000 0x20 0x30 0x1000.

Lemma demo_header_wf : header_wf demo_header.
Proof. split; [done|done| |]; by repeat apply Forall_cons_2. Qed.

Lemma ElfFile_parse_roundtrip_witness :
  ElfFile_parse (encode_file_header demo_header ++ [1; 2; 3]) 0x1000 =
    Ok (Some (mkElfFile (encode_file_header demo_header ++ [1; 2; 3]) 0x1000 demo_header 67)).
Proof. apply (ElfFile_parse_roundtrip demo_header); [exact demo_header_wf|done|done]. Defined.

Lemma progheader_next_roundtrip_witness :
  progheader_next (mkElfFile (encode_file demo_header [demo_progheader] []) 0x1000 demo_header 120) 0 =
    Ok (Some (demo_progheader, 1)).
Proof.
  apply (progheader_next_roundtrip demo_header [demo_progheader] [] 0x1000 120 0);
    [exact demo_header_wf| |done..].
  apply Forall_cons_2; [|done]. by repeat apply Forall_cons_2.
Defined.

Lemma ElfFile_slice_correct_witness :
  ElfFile_slice (mkElfFile [1; 2; 3; 4] 0 demo_header 4) 1 2 = Ok (Some [2; 3]).
Proof. apply (ElfFile_slice_correct (mkElfFile [1; 2; 3; 4] 0 demo_header 4) 1 2); done. Defined.
