(* ===== verification/Tar.v ===== *)
(** * The initial ram disk

    Models [kernel/src/fs/tar.rs] (the header of a tar archive) and
    [kernel/src/fs/initrd.rs] (the index of the archive the boot loader left
    in memory).  The archive is a list of bytes at [INITRD_START]; a path is a
    list of bytes; the index, a [BTreeMap], is a finite map from paths to
    entries.  A file entry is the slice of the archive it refers to, given by
    its offset and its length. *)

From S2P Require Import Prelude X86 FrameAlloc WindowCache VCache Mapper Mem Bootboot.

Definition INITRD_START : Z := 0xFFFF810000000000.
Definition TAR_HEADER_SIZE : nat := 512.

Record TarHeader := mkTarHeader {
  th_name : list Z;
  th_mode : list Z;
  th_user : list Z;
  th_group : list Z;
  th_size : list Z;
  th_lmod : list Z;
  th_checksum : list Z;
  th_ftype : Z;
  th_link_name : list Z;
  th_ustar : list Z;
  th_version : list Z;
  th_user_name : list Z;
  th_group_name : list Z;
  th_dev_major : list Z;
  th_dev_minor : list Z;
  th_name_pref : list Z;
  th_res0 : list Z;
}.

Inductive TarEntryType := TarFile | TarDirectory.
Inductive InitrdEntry := InitrdFile (off len : Z) | InitrdDirectory.

(** ** Strings *)

Definition utf8_cont (lo hi b : Z) : bool := (lo <=? b) && (b <=? hi).

(** [core::str::from_utf8] succeeds. *)
Fixpoint utf8_valid (l : list Z) : bool :=
  match l with
  | [] => true
  | b :: l1 =>
    if b <? 0x80 then utf8_valid l1 else
    match l1 with
    | [] => false
    | c :: l2 =>
      if (0xC2 <=? b) && (b <=? 0xDF) then utf8_cont 0x80 0xBF c && utf8_valid l2 else
      match l2 with
      | [] => false
      | d :: l3 =>
        if b =? 0xE0 then utf8_cont 0xA0 0xBF c && utf8_cont 0x80 0xBF d && utf8_valid l3
        else if b =? 0xED then utf8_cont 0x80 0x9F c && utf8_cont 0x80 0xBF d && utf8_valid l3
        else if (0xE1 <=? b) && (b <=? 0xEF) then
          utf8_cont 0x80 0xBF c && utf8_cont 0x80 0xBF d && utf8_valid l3
        else
        match l3 with
        | [] => false
        | e :: l4 =>
          utf8_cont 0x80 0xBF d && utf8_cont 0x80 0xBF e && utf8_valid l4 &&
          (((b =? 0xF0) && utf8_cont 0x90 0xBF c) ||
           ((0xF1 <=? b) && (b <=? 0xF3) && utf8_cont 0x80 0xBF c) ||
           ((b =? 0xF4) && utf8_cont 0x80 0x8F c))
        end
      end
    end
  end.
Definition from_utf8 (l : list Z) : option (list Z) := if utf8_valid l then Some l else None.

(** The digits of [usize::from_str_radix(_, 8)]. *)
Fixpoint octal_digits (acc : Z) (l : list Z) : option Z :=
  match l with
  | [] => Some acc
  | b :: l' =>
    if (0x30 <=? b) && (b <=? 0x37) then
      let acc' := acc * 8 + (b - 0x30) in
      if acc' <? 2 ^ 64 then octal_digits acc' l' else None
    else None
  end.
Definition from_str_radix_8 (l : list Z) : option Z :=
  match l with
  | [] => None
  | b :: l' => if b =? 0x2B then match l' with [] => None | _ => octal_digits 0 l' end
               else octal_digits 0 l
  end.

(** [CStr::from_bytes_with_nul]: the only zero is the last byte. *)
Definition from_bytes_with_nul (l : list Z) : option (list Z) :=
  match list_find (λ b, b = 0) l with
  | Some (i, _) => if (S i =? length l)%nat then Some (take i l) else None
  | None => None
  end.

(** [iter().position(|b| *b == 0).unwrap_or(n)]. *)
Definition nul_position (l : list Z) (n : nat) : nat :=
  match list_find (λ b, b = 0) l with Some (i, _) => i | None => n end.

Definition ends_with (l suffix : list Z) : bool :=
  bool_decide (drop (length l - length suffix) l = suffix).

(** ** The header *)

Definition USTAR : list Z := [0x75; 0x73; 0x74; 0x61; 0x72; 0x20].

Definition TarEntryType_try_from (b : Z) : option TarEntryType :=
  if 0x80 <=? b then None
  else if b =? 0x30 then Some TarFile
  else if b =? 0x35 then Some TarDirectory
  else None.

Definition tar_check (h : TarHeader) : bool :=
  match from_utf8 (th_ustar h) with
  | None => false
  | Some signature => bool_decide (signature = USTAR)
  end.

Definition tar_name (h : TarHeader) : res (list Z) :=
  let pref_len := nul_position (th_name_pref h) 155 in
  let name_len := nul_position (th_name h) 100 in
  pref ← unwrap (from_utf8 (take pref_len (th_name_pref h)));
  name ← unwrap (from_utf8 (take name_len (th_name h)));
  mret ([0x2F] ++ pref ++ name).

Definition tar_size (h : TarHeader) : res Z :=
  s ← unwrap (from_bytes_with_nul (th_size h));
  s ← unwrap (from_utf8 s);
  unwrap (from_str_radix_8 s).

Definition entry_type (h : TarHeader) : option TarEntryType := TarEntryType_try_from (th_ftype h).

(** The reference to the header at offset [off] of the archive. *)
Definition read_tar_header (img : list Z) (off : nat) : res TarHeader :=
  if (length img <? off + TAR_HEADER_SIZE)%nat then Panic Undefined else
  let f o w := sub_bytes img (off + o) w in
  mret (mkTarHeader (f 0 100) (f 100 8) (f 108 8) (f 116 8) (f 124 12) (f 136 12) (f 148 8)
    (le_decode (f 156 1)) (f 157 100) (f 257 6) (f 263 2) (f 265 32) (f 297 32) (f 329 8)
    (f 337 8) (f 345 155) (f 500 12))%nat.

(** ** The index *)

Notation Initrd := (gmap (list Z) InitrdEntry).

Section initrd.
Context {X : X86}.

(** The body of [loop] at the address [cur]: [None] ends the loop, otherwise
    the next address and the index. *)
Definition init_map_step (img : list Z) (initrd_size cur : Z) (initrd : Initrd) :
    res (option (Z * Initrd)) :=
  e ← add64 cur (Z.of_nat TAR_HEADER_SIZE);
  limit ← add64 INITRD_START initrd_size;
  if limit <? e then mret None else
  ch ← read_tar_header img (Z.to_nat (cur - INITRD_START));
  if negb (tar_check ch) then mret None else
  entry_size ← tar_size ch;
  a ← of_option Crate (align_up entry_size 512);
  next ← add64 cur (Z.of_nat TAR_HEADER_SIZE);
  next ← add64 next a;
  match entry_type ch with
  | None => mret (Some (next, initrd))
  | Some ftype =>
    entry_name ← tar_name ch;
    if ends_with entry_name [0x2F; 0x2E] || ends_with entry_name [0x2F; 0x2E; 0x2E]
    then mret (Some (next, initrd))
    else
      entry ← match ftype with
              | TarFile =>
                len ← tar_size ch;
                mret (InitrdFile (cur - INITRD_START + Z.of_nat TAR_HEADER_SIZE) len)
              | TarDirectory => mret InitrdDirectory
              end;
      mret (Some (next, <[entry_name := entry]> initrd))
  end.

(** The loop; [None] when [fuel] turns were not enough. *)
Fixpoint init_map_loop (fuel : nat) (img : list Z) (initrd_size cur : Z) (initrd : Initrd) :
    option (res Initrd) :=
  match fuel with
  | O => None
  | S fuel' =>
    match init_map_step img initrd_size cur initrd with
    | Panic r => Some (Panic r)
    | Ok None => Some (Ok initrd)
    | Ok (Some (next, initrd')) => init_map_loop fuel' img initrd_size next initrd'
    end
  end.

(** A turn advances by at least one header. *)
Definition init_map_fuel (initrd_size : Z) : nat := S (Z.to_nat (initrd_size / 512)).
Definition init_map (img : list Z) (initrd_size : Z) : option (res Initrd) :=
  init_map_loop (init_map_fuel initrd_size) img initrd_size INITRD_START ∅.

(** [open]: [INITRD.get()] is [None] before [init]. *)
Definition initrd_open (initrd : option Initrd) (path : list Z) : res (option InitrdEntry) :=
  match initrd with
  | None => Panic Explicit
  | Some m => mret (m !! path)
  end.
Definition open_file (initrd : option Initrd) (path : list Z) : res (option (Z * Z)) :=
  o ← initrd_open initrd path;
  mret (match o with
        | None => None
        | Some (InitrdFile off len) => Some (off, len)
        | Some InitrdDirectory => None
        end).

(** [init] maps the archive; [img] is what the memory at [initrd_ptr] holds. *)
Context {P : Type} {FA : FrameAllocator P} {V : Type} {WC : WindowCache V}.

Definition initrd_init (bb : BootBoot) (img : list Z) : M (Kmem P V) (option (res Initrd)) :=
  a ← lift (of_option Crate (phys_new (bb_initrd_ptr bb)));
  initrd_frame ← lift (unwrap (frame_from_start a));
  r ← vmap INITRD_START initrd_frame (bb_initrd_size bb) 0;
  _ ← lift (unwrap_result r);
  mret (init_map img (bb_initrd_size bb)).
End initrd.

(** ** Writing an archive *)

Definition tar_pieces (h : TarHeader) : list (list Z) :=
  [th_name h; th_mode h; th_user h; th_group h; th_size h; th_lmod h; th_checksum h;
   [th_ftype h]; th_link_name h; th_ustar h; th_version h; th_user_name h; th_group_name h;
   th_dev_major h; th_dev_minor h; th_name_pref h; th_res0 h].
Definition TAR_WIDTHS : list nat :=
  [100; 8; 8; 8; 12; 12; 8; 1; 100; 6; 2; 32; 32; 8; 8; 155; 12]%nat.
Definition tar_wf (h : TarHeader) : Prop := length <$> tar_pieces h = TAR_WIDTHS.

(** Octal digits, [n] of them. *)
Fixpoint octal_encode (n : nat) (x : Z) : list Z :=
  match n with O => [] | S n' => octal_encode n' (x / 8) ++ [0x30 + x mod 8] end.

(** A header and the contents that follow it, filled up to 512 bytes. *)
Definition tar_padding (content : list Z) : nat :=
  Z.to_nat ((Z.of_nat (length content) + 511) / 512 * 512) - length content.
Definition encode_tar_entry (e : TarHeader * list Z) : list Z :=
  concat (tar_pieces e.1) ++ e.2 ++ replicate (tar_padding e.2) 0.
Definition encode_tar (es : list (TarHeader * list Z)) : list Z := es ≫= encode_tar_entry.

(** An entry as the archiver writes it. *)
Record tar_entry_ok (e : TarHeader * list Z) (name : list Z) : Prop := {
  te_wf : tar_wf e.1;
  te_ustar : th_ustar e.1 = USTAR;
  te_size : th_size e.1 = octal_encode 11 (Z.of_nat (length e.2)) ++ [0];
  te_len : Z.of_nat (length e.2) < 8 ^ 11;
  te_name : tar_name e.1 = Ok name;
}.

(** What an entry at offset [off] adds to the index. *)
Definition index_entry (off : Z) (e : TarHeader * list Z) (name : list Z) (m : Initrd) : Initrd :=
  match entry_type e.1 with
  | None => m
  | Some t =>
    if ends_with name [0x2F; 0x2E] || ends_with name [0x2F; 0x2E; 0x2E] then m
    else <[name := match t with
                   | TarFile => InitrdFile (off + 512) (Z.of_nat (length e.2))
                   | TarDirectory => InitrdDirectory
                   end]> m
  end.
Fixpoint index_archive (off : Z) (es : list ((TarHeader * list Z) * list Z)) (m : Initrd) : Initrd :=
  match es with
  | [] => m
  | (e, name) :: es' =>
    index_archive (off + Z.of_nat (length (encode_tar_entry e))) es' (index_entry off e name m)
  end.

(** ** Reading back what was written *)

Lemma sub_bytes_piece pre ps post k p off w :
  ps !! k = Some p → w = length p → off = (length pre + sum_list (length <$> take k ps))%nat →
  sub_bytes (pre ++ concat ps ++ post) off w = p.
Proof.
  intros Hk -> ->. rewrite <-(take_drop_middle _ _ _ Hk) at 1.
  rewrite concat_app, concat_cons, <-!app_assoc, app_assoc.
  replace (length pre + sum_list (length <$> take k ps))%nat with (length (pre ++ concat (take k ps))).
  - unfold sub_bytes. rewrite drop_app_length. by apply take_app_length'.
  - rewrite length_app. f_equal. clear. induction (take k ps) as [|x l IH]; [done|].
    rewrite concat_cons, length_app, IH. done.
Qed.

Lemma length_tar_header h : tar_wf h → length (concat (tar_pieces h)) = 512%nat.
Proof.
  intros Hwf. replace (length (concat (tar_pieces h))) with (sum_list (length <$> tar_pieces h)).
  - by rewrite Hwf.
  - induction (tar_pieces h) as [|x l IH]; [done|].
    rewrite concat_cons, length_app, <-IH. done.
Qed.

Lemma tar_piece_length h k p :
  tar_wf h → tar_pieces h !! k = Some p → TAR_WIDTHS !! k = Some (length p).
Proof. intros Hwf Hk. rewrite <-Hwf, list_lookup_fmap, Hk. done. Qed.

Lemma tar_piece_at pre h post k p off w :
  tar_wf h → tar_pieces h !! k = Some p → TAR_WIDTHS !! k = Some w →
  off = (length pre + sum_list (take k TAR_WIDTHS))%nat →
  sub_bytes (pre ++ concat (tar_pieces h) ++ post) off w = p.
Proof.
  intros Hwf Hk Hw ->. apply (sub_bytes_piece _ _ _ k); [done| |].
  - pose proof (tar_piece_length h k p Hwf Hk). congruence.
  - by rewrite fmap_take, Hwf.
Qed.

Lemma read_tar_header_at pre h post :
  tar_wf h → read_tar_header (pre ++ concat (tar_pieces h) ++ post) (length pre) = Ok h.
Proof.
  intros Hwf. unfold read_tar_header. rewrite !length_app, length_tar_header by done.
  destruct (Nat.ltb_spec (length pre + (512 + length post)) (length pre + TAR_HEADER_SIZE)) as [Hlt|_];
    [unfold TAR_HEADER_SIZE in Hlt; lia|]. cbv zeta. unfold mret, res_ret. f_equal.
  rewrite (tar_piece_at pre h post 0 _ (length pre + 0) 100 Hwf eq_refl eq_refl eq_refl).
  rewrite (tar_piece_at pre h post 1 _ (length pre + 100) 8 Hwf eq_refl eq_refl eq_refl).
  rewrite (tar_piece_at pre h post 2 _ (length pre + 108) 8 Hwf eq_refl eq_refl eq_refl).
  rewrite (tar_piece_at pre h post 3 _ (length pre + 116) 8 Hwf eq_refl eq_refl eq_refl).
  rewrite (tar_piece_at pre h post 4 _ (length pre + 124) 12 Hwf eq_refl eq_refl eq_refl).
  rewrite (tar_piece_at pre h post 5 _ (length pre + 136) 12 Hwf eq_refl eq_refl eq_refl).
  rewrite (tar_piece_at pre h post 6 _ (length pre + 148) 8 Hwf eq_refl eq_refl eq_refl).
  rewrite (tar_piece_at pre h post 7 _ (length pre + 156) 1 Hwf eq_refl eq_refl eq_refl).
  rewrite (tar_piece_at pre h post 8 _ (length pre + 157) 100 Hwf eq_refl eq_refl eq_refl).
  rewrite (tar_piece_at pre h post 9 _ (length pre + 257) 6 Hwf eq_refl eq_refl eq_refl).
  rewrite (tar_piece_at pre h post 10 _ (length pre + 263) 2 Hwf eq_refl eq_refl eq_refl).
  rewrite (tar_piece_at pre h post 11 _ (length pre + 265) 32 Hwf eq_refl eq_refl eq_refl).
  rewrite (tar_piece_at pre h post 12 _ (length pre + 297) 32 Hwf eq_refl eq_refl eq_refl).
  rewrite (tar_piece_at pre h post 13 _ (length pre + 329) 8 Hwf eq_refl eq_refl eq_refl).
  rewrite (tar_piece_at pre h post 14 _ (length pre + 337) 8 Hwf eq_refl eq_refl eq_refl).
  rewrite (tar_piece_at pre h post 15 _ (length pre + 345) 155 Hwf eq_refl eq_refl eq_refl).
  rewrite (tar_piece_at pre h post 16 _ (length pre + 500) 12 Hwf eq_refl eq_refl eq_refl).
  destruct h. cbn [le_decode th_ftype]. f_equal. lia.
Qed.

(** ** The size field *)

Lemma octal_digits_app acc l k :
  octal_digits acc (l ++ k) = x ← octal_digits acc l; octal_digits x k.
Proof.
  revert acc. induction l as [|b l IH]; intros acc; [done|]. simpl.
  destruct (_ && _); [|done]. destruct (_ <? _); [apply IH|done].
Qed.

Lemma octal_roundtrip n x :
  0 ≤ x < 8 ^ Z.of_nat n → 8 ^ Z.of_nat n ≤ 2 ^ 64 → octal_digits 0 (octal_encode n x) = Some x.
Proof.
  revert x. induction n as [|n IH]; intros x Hx Hn.
  { change (8 ^ Z.of_nat 0) with 1 in Hx. simpl. f_equal. lia. }
  rewrite Nat2Z.inj_succ, Z.pow_succ_r in Hx, Hn by lia. simpl.
  assert (0 ≤ x / 8 < 8 ^ Z.of_nat n) by (split; [apply Z.div_pos; lia|apply Z.div_lt_upper_bound; lia]).
  rewrite octal_digits_app, IH by lia. cbn [mbind option_bind octal_digits].
  pose proof (Z.mod_pos_bound x 8 ltac:(lia)). pose proof (Z.div_mod x 8 ltac:(lia)).
  replace ((0x30 <=? 0x30 + x mod 8) && (0x30 + x mod 8 <=? 0x37)) with true
    by (symmetry; apply andb_true_iff; lia).
  replace (x / 8 * 8 + (0x30 + x mod 8 - 0x30)) with x by lia.
  destruct (Z.ltb_spec x (2 ^ 64)); [done|lia].
Qed.

Lemma octal_encode_digits n x : Forall (λ b, 0x30 ≤ b ≤ 0x37) (octal_encode n x).
Proof.
  revert x. induction n as [|n IH]; intros x; simpl; [constructor|].
  apply Forall_app. split; [apply IH|]. constructor; [|constructor].
  pose proof (Z.mod_pos_bound x 8 ltac:(lia)). lia.
Qed.

Lemma length_octal_encode n x : length (octal_encode n x) = n.
Proof. revert x. induction n as [|n IH]; intros x; simpl; [done|]. rewrite length_app, IH. simpl. lia. Qed.

Lemma ascii_utf8 l : Forall (λ b, b < 0x80) l → utf8_valid l = true.
Proof.
  induction 1 as [|b l Hb _ IH]; [done|]. simpl. destruct (Z.ltb_spec b 0x80); [done|lia].
Qed.

Lemma tar_size_encode h x :
  th_size h = octal_encode 11 x ++ [0] → 0 ≤ x < 8 ^ 11 → tar_size h = Ok x.
Proof.
  intros Hs Hx. unfold tar_size. rewrite Hs. pose proof (octal_encode_digits 11 x) as Hd.
  assert (from_bytes_with_nul (octal_encode 11 x ++ [0]) = Some (octal_encode 11 x)) as ->.
  { unfold from_bytes_with_nul.
    rewrite list_find_app_r.
    - cbn [list_find]. rewrite decide_True by done. cbn [fmap option_fmap option_map prod_map fst].
      rewrite length_app, length_octal_encode. cbn [length Nat.add Nat.eqb].
      rewrite take_app_length'; [done|]. by rewrite length_octal_encode.
    - apply list_find_None. eapply Forall_impl; [exact Hd|]. simpl. lia. }
  cbn [unwrap of_option mbind res_bind]. unfold from_utf8. rewrite ascii_utf8
    by (eapply Forall_impl; [exact Hd|]; simpl; lia). cbn [unwrap of_option mbind res_bind].
  assert (from_str_radix_8 (octal_encode 11 x) = octal_digits 0 (octal_encode 11 x)) as ->.
  { unfold from_str_radix_8. pose proof (length_octal_encode 11 x) as Hl.
    destruct (octal_encode 11 x) as [|b l]; [done|]. apply Forall_cons in Hd as [Hb _].
    destruct (Z.eqb_spec b 0x2B); [lia|done]. }
  by rewrite (octal_roundtrip 11 x) by (simpl; lia).
Qed.

(** ** One turn of the loop *)

Section initrd_proofs.
Context {X : X86} {XO : X86Ok X}.

Lemma align_512 n : 0 ≤ n < 2 ^ 60 → align_up n 512 = Some ((n + 511) / 512 * 512).
Proof.
  intros Hn. change 512 with (2 ^ 9) at 1. rewrite align_up_spec by (done || unfold in_width; lia).
  change (2 ^ 9) with 512. replace (n + 512 - 1) with (n + 511) by lia. cbv zeta.
  destruct (Z.ltb_spec ((n + 511) / 512 * 512) (2 ^ 64)); [done|zlia].
Qed.

Lemma length_tar_entry e name :
  tar_entry_ok e name →
  Z.of_nat (length (encode_tar_entry e)) = 512 + (Z.of_nat (length e.2) + 511) / 512 * 512.
Proof.
  intros He. unfold encode_tar_entry, tar_padding.
  rewrite !length_app, length_replicate, length_tar_header by apply He. zlia.
Qed.

Lemma init_map_step_entry pre e name post m :
  tar_entry_ok e name →
  let img := pre ++ encode_tar_entry e ++ post in
  Z.of_nat (length img) < 2 ^ 40 →
  init_map_step img (Z.of_nat (length img)) (INITRD_START + Z.of_nat (length pre)) m =
    Ok (Some (INITRD_START + Z.of_nat (length (pre ++ encode_tar_entry e)),
              index_entry (Z.of_nat (length pre)) e name m)).
Proof.
  intros He img Hlen. pose proof (length_tar_entry e name He) as Hel.
  assert (Z.of_nat (length img) = Z.of_nat (length pre) + Z.of_nat (length (encode_tar_entry e)) +
    Z.of_nat (length post)) as Himg by (unfold img; rewrite !length_app; lia).
  assert (0 ≤ Z.of_nat (length e.2) < 2 ^ 60) as Hc by (pose proof (te_len _ _ He); lia).
  assert (512 ≤ Z.of_nat (length (encode_tar_entry e))) as Hge by (rewrite Hel; zlia).
  unfold init_map_step, add64, INITRD_START, TAR_HEADER_SIZE in *.
  rewrite chk_in by (unfold in_width; lia). cbn [mbind res_bind].
  rewrite chk_in by (unfold in_width; lia). cbn [mbind res_bind].
  destruct (Z.ltb_spec (0xFFFF810000000000 + Z.of_nat (length img))
    (0xFFFF810000000000 + Z.of_nat (length pre) + Z.of_nat 512)) as [Hlt|_]; [lia|].
  replace (Z.to_nat (0xFFFF810000000000 + Z.of_nat (length pre) - 0xFFFF810000000000))
    with (length pre) by lia.
  unfold img at 1, encode_tar_entry at 1. rewrite <-app_assoc, read_tar_header_at by apply He.
  cbn [mbind res_bind].
  assert (tar_check e.1 = true) as -> by (unfold tar_check; by rewrite (te_ustar _ _ He)).
  rewrite (tar_size_encode _ _ (te_size _ _ He)) by (pose proof (te_len _ _ He); lia).
  cbn [negb mbind res_bind]. rewrite align_512 by done. cbn [of_option mbind res_bind].
  rewrite chk_in by (unfold in_width; zlia). cbn [mbind res_bind]. rewrite length_app, Nat2Z.inj_add, Hel.
  replace (0xFFFF810000000000 + Z.of_nat (length pre) + Z.of_nat 512 +
    (Z.of_nat (length e.2) + 511) / 512 * 512) with (0xFFFF810000000000 + (Z.of_nat (length pre) +
    (512 + (Z.of_nat (length e.2) + 511) / 512 * 512))) by lia.
  unfold index_entry. destruct (entry_type e.1) as [t|]; [|done].
  rewrite (te_name _ _ He). cbn [mbind res_bind]. destruct (_ || _); [done|].
  replace (0xFFFF810000000000 + Z.of_nat (length pre) - 0xFFFF810000000000 + Z.of_nat 512)
    with (Z.of_nat (length pre) + 512) by lia.
  by destruct t.
Qed.

(** Zeros end the archive. *)
Lemma init_map_step_end pre n m :
  let img := pre ++ replicate n 0 in
  Z.of_nat (length img) < 2 ^ 40 →
  init_map_step img (Z.of_nat (length img)) (INITRD_START + Z.of_nat (length pre)) m = Ok None.
Proof.
  intros img Hlen. assert (Z.of_nat (length img) = Z.of_nat (length pre) + Z.of_nat n) as Himg
    by (unfold img; rewrite length_app, length_replicate; lia).
  unfold init_map_step, add64, INITRD_START, TAR_HEADER_SIZE in *.
  rewrite chk_in by (unfold in_width; lia). cbn [mbind res_bind].
  rewrite chk_in by (unfold in_width; lia). cbn [mbind res_bind].
  destruct (Z.ltb_spec (0xFFFF810000000000 + Z.of_nat (length img))
    (0xFFFF810000000000 + Z.of_nat (length pre) + Z.of_nat 512)) as [Hlt|Hge]; [done|].
  replace (Z.to_nat (0xFFFF810000000000 + Z.of_nat (length pre) - 0xFFFF810000000000))
    with (length pre) by lia.
  unfold read_tar_header, TAR_HEADER_SIZE.
  destruct (Nat.ltb_spec (length img) (length pre + 512)); [lia|]. cbn [mbind res_bind].
  unfold tar_check at 1. cbn [th_ustar mret res_ret].
  assert (sub_bytes img (length pre + 257) 6 = replicate 6 0) as ->; [|done].
  unfold sub_bytes, img. rewrite drop_app_ge by lia. rewrite drop_replicate, take_replicate.
  f_equal. lia.
Qed.

Lemma init_map_loop_archive es fuel pre n m :
  Forall (λ e, tar_entry_ok e.1 e.2) es →
  let img := pre ++ encode_tar es.*1 ++ replicate n 0 in
  Z.of_nat (length img) < 2 ^ 40 → (length es < fuel)%nat →
  init_map_loop fuel img (Z.of_nat (length img)) (INITRD_START + Z.of_nat (length pre)) m =
    Some (Ok (index_archive (Z.of_nat (length pre)) es m)).
Proof.
  intros Hes. revert fuel pre m. induction Hes as [|[e name] es He _ IH]; intros fuel pre m img Hlen Hfuel;
    (destruct fuel as [|fuel]; [simpl in Hfuel; lia|]); cbn [init_map_loop].
  - unfold img in *. cbn [encode_tar fmap list_fmap mbind list_bind app] in *.
    by rewrite init_map_step_end.
  - unfold img in *. rewrite fmap_cons in *.
    assert (encode_tar (e :: es.*1) = encode_tar_entry e ++ encode_tar es.*1) as E by done.
    cbn [fst] in *. rewrite E, <-app_assoc in *.
    rewrite (init_map_step_entry pre e name _ m He Hlen).
    rewrite app_assoc in Hlen |- *.
    rewrite (IH fuel (pre ++ encode_tar_entry e)); [|done|simpl in Hfuel; lia].
    cbn [index_archive]. by rewrite length_app, Nat2Z.inj_add.
Qed.

Lemma archive_length es :
  Forall (λ e, tar_entry_ok e.1 e.2) es →
  512 * Z.of_nat (length es) ≤ Z.of_nat (length (encode_tar es.*1)).
Proof.
  induction 1 as [|[e name] es He _ IH]; [done|]. rewrite fmap_cons.
  assert (encode_tar (e :: es.*1) = encode_tar_entry e ++ encode_tar es.*1) as E by done.
  cbn [fst] in *. rewrite E, length_app, Nat2Z.inj_add, (length_tar_entry e name He).
  cbn [length]. zlia.
Qed.

Lemma init_map_archive es n :
  Forall (λ e, tar_entry_ok e.1 e.2) es →
  let img := encode_tar es.*1 ++ replicate n 0 in
  Z.of_nat (length img) < 2 ^ 40 →
  init_map img (Z.of_nat (length img)) = Some (Ok (index_archive 0 es ∅)).
Proof.
  intros Hes img Hlen. unfold init_map.
  rewrite <-(Z.add_0_r INITRD_START) at 1. apply (init_map_loop_archive es _ [] n); [done|done|].
  pose proof (archive_length es Hes). unfold init_map_fuel, img. rewrite length_app. zlia.
Qed.

Lemma index_archive_app es1 es2 off m :
  index_archive off (es1 ++ es2) m =
    index_archive (off + Z.of_nat (length (encode_tar es1.*1))) es2 (index_archive off es1 m).
Proof.
  revert off m. induction es1 as [|[e name] es1 IH]; intros off m.
  - cbn [app index_archive fmap list_fmap]. by rewrite Z.add_0_r.
  - cbn [app index_archive]. rewrite IH. f_equal. rewrite fmap_cons. cbn [fst].
    assert (encode_tar (e :: es1.*1) = encode_tar_entry e ++ encode_tar es1.*1) as -> by done.
    rewrite length_app. lia.
Qed.

Lemma index_archive_other es off m name :
  name ∉ es.*2 → index_archive off es m !! name = m !! name.
Proof.
  revert off m. induction es as [|[e name'] es IH]; intros off m Hn; [done|].
  rewrite fmap_cons in Hn. apply not_elem_of_cons in Hn as [Hne Hn]. cbn [snd] in Hne.
  cbn [index_archive]. rewrite IH by done. unfold index_entry.
  destruct (entry_type e.1); [|done]. destruct (_ || _); [done|]. by rewrite lookup_insert_ne.
Qed.

(** A turn that goes on moves by at least a header, and was inside the archive. *)
Lemma init_map_step_progress img sz cur m next m' :
  INITRD_START ≤ cur → 0 ≤ sz < 2 ^ 46 →
  init_map_step img sz cur m = Ok (Some (next, m')) →
  cur + 512 ≤ next ∧ cur + 512 ≤ INITRD_START + sz.
Proof.
  intros Hcur Hsz. unfold init_map_step, add64, TAR_HEADER_SIZE.
  destruct (chk 64 (cur + Z.of_nat 512)) as [e|] eqn:E1; cbn [mbind res_bind]; [|done].
  apply chk_Ok in E1 as [-> Hw1].
  destruct (chk 64 (INITRD_START + sz)) as [lim|] eqn:E2; cbn [mbind res_bind]; [|done].
  apply chk_Ok in E2 as [-> _].
  destruct (Z.ltb_spec (INITRD_START + sz) (cur + Z.of_nat 512)) as [|Hle]; [done|].
  destruct (read_tar_header _ _) as [ch|]; cbn [mbind res_bind]; [|done].
  destruct (negb _); [done|]. destruct (tar_size ch) as [n|] eqn:Esz; cbn [mbind res_bind]; [|done].
  assert (in_width 64 n) as Hn.
  { unfold tar_size in Esz. destruct (from_bytes_with_nul _) as [l|]; [|done]. cbn in Esz.
    destruct (from_utf8 l) as [l'|]; [|done]. cbn in Esz. apply unwrap_Ok in Esz.
    unfold from_str_radix_8 in Esz. destruct l' as [|b l']; [done|].
    assert (∀ l acc x, in_width 64 acc → octal_digits acc l = Some x → in_width 64 x) as Hoct.
    { clear. induction l as [|b l IH]; intros acc x Hacc; cbn [octal_digits]; [by intros [= <-]|].
      destruct (Z.leb_spec 0x30 b), (Z.leb_spec b 0x37); cbn [andb]; try done.
      destruct (Z.ltb_spec (acc * 8 + (b - 0x30)) (2 ^ 64)); [|done].
      apply IH. unfold in_width in *. lia. }
    destruct (b =? 0x2B); [destruct l' as [|c l']; [done|]|]; eapply Hoct, Esz; unfold in_width; lia. }
  change 512 with (2 ^ 9) at 1. rewrite align_up_spec by (done || lia). cbv zeta. change (2 ^ 9) with 512.
  destruct (Z.ltb_spec ((n + 512 - 1) / 512 * 512) (2 ^ 64)) as [Ha|]; cbn [of_option mbind res_bind]; [|done].
  destruct (chk 64 _) as [nx|] eqn:E3; cbn [mbind res_bind]; [|done]. apply chk_Ok in E3 as [-> _].
  assert (0 ≤ (n + 512 - 1) / 512 * 512) by (destruct Hn; zlia).
  destruct (entry_type ch) as [t|]; [|intros [= <- <-]; lia].
  destruct (tar_name ch) as [nm|]; cbn [mbind res_bind]; [|done].
  destruct (_ || _); [intros [= <- <-]; lia|].
  destruct t; cbn [mbind res_bind mret res_ret]; intros [= <- <-]; lia.
Qed.

Lemma init_map_loop_total fuel img sz cur m :
  INITRD_START ≤ cur → 0 ≤ sz < 2 ^ 46 → INITRD_START + sz - cur < 512 * Z.of_nat fuel →
  (0 < fuel)%nat → ∃ r, init_map_loop fuel img sz cur m = Some r.
Proof.
  revert cur m. induction fuel as [|fuel IH]; intros cur m Hcur Hsz Hf Hpos; [lia|].
  cbn [init_map_loop]. destruct (init_map_step img sz cur m) as [[[next m']|]|r] eqn:E; eauto.
  destruct (init_map_step_progress _ _ _ _ _ _ Hcur Hsz E) as [H1 H2].
  apply IH; try done; lia.
Qed.

(** ** What the index promises *)

(** C32. [init_map] terminates on every archive, well-formed or not: a turn of
    the loop that goes on has a header inside the archive and moves past it,
    so one turn per 512 bytes is enough. *)
Theorem init_map_terminates img sz :
  0 ≤ sz < 2 ^ 46 → ∃ r, init_map img sz = Some r.
Proof.
  intros Hsz. apply init_map_loop_total; [lia|done| |]; unfold init_map_fuel; zlia.
Qed.

(** C18. Indexing undoes archiving: for an archive written entry by entry and
    ended by zeros, [init_map] builds exactly the index of its entries (later
    entries win, unsupported types and the names of dots are skipped), without
    a panic. *)
Theorem init_map_roundtrip es n :
  Forall (λ e, tar_entry_ok e.1 e.2) es →
  let img := encode_tar es.*1 ++ replicate n 0 in
  Z.of_nat (length img) < 2 ^ 40 →
  init_map img (Z.of_nat (length img)) = Some (Ok (index_archive 0 es ∅)).
Proof. apply init_map_archive. Qed.

(** A file of the archive is found under its name with exactly its
    contents: [open_file] returns a slice of the archive whose bytes are the
    bytes that were archived, unless a later entry has the same name. *)
Theorem open_file_correct es1 e name es2 n :
  Forall (λ e, tar_entry_ok e.1 e.2) (es1 ++ (e, name) :: es2) →
  entry_type e.1 = Some TarFile → name ∉ es2.*2 →
  ends_with name [0x2F; 0x2E] = false → ends_with name [0x2F; 0x2E; 0x2E] = false →
  let img := encode_tar (es1 ++ (e, name) :: es2).*1 ++ replicate n 0 in
  Z.of_nat (length img) < 2 ^ 40 →
  ∃ m off len, init_map img (Z.of_nat (length img)) = Some (Ok m) ∧
    open_file (Some m) name = Ok (Some (off, len)) ∧
    sub_bytes img (Z.to_nat off) (Z.to_nat len) = e.2.
Proof.
  intros Hes Ht Hn Hd1 Hd2 img Hlen.
  exists (index_archive 0 (es1 ++ (e, name) :: es2) ∅),
    (Z.of_nat (length (encode_tar es1.*1)) + 512), (Z.of_nat (length e.2)). split_and!.
  - by apply init_map_archive.
  - unfold open_file, initrd_open. cbn [mbind res_bind mret res_ret].
    rewrite index_archive_app. cbn [index_archive]. rewrite index_archive_other by done.
    unfold index_entry. rewrite Ht, Hd1, Hd2. cbn [orb]. rewrite lookup_insert_eq.
    by rewrite Z.add_0_l.
  - apply Forall_app in Hes as [_ He]. apply Forall_cons in He as [He _]. cbn [fst snd] in He.
    unfold img. rewrite fmap_app, fmap_cons. cbn [fst]. unfold encode_tar.
    rewrite bind_app, bind_cons. fold (encode_tar es1.*1). unfold encode_tar_entry at 1.
    rewrite <-!app_assoc. unfold sub_bytes.
    rewrite (app_assoc (encode_tar es1.*1)).
    rewrite drop_app_length' by (rewrite length_app, length_tar_header by apply He; lia).
    apply take_app_length'. lia.
Qed.
End initrd_proofs.

(** ** Witnesses *)

Definition demo_tar_header : TarHeader :=
  mkTarHeader (bytes_of_string "bin/init" ++ replicate 92 0) (replicate 8 0) (replicate 8 0)
    (replicate 8 0) (octal_encode 11 3 ++ [0]) (replicate 12 0) (replicate 8 0) 0x30
    (replicate 100 0) USTAR (replicate 2 0) (replicate 32 0) (replicate 32 0) (replicate 8 0)
    (replicate 8 0) (replicate 155 0) (replicate 12 0).
Definition demo_tar_entry : TarHeader * list Z := (demo_tar_header, [1; 2; 3]).
Definition demo_tar_name : list Z := bytes_of_string "/bin/init".

Lemma demo_tar_entry_ok : tar_entry_ok demo_tar_entry demo_tar_name.
Proof. split; done. Qed.

Lemma init_map_terminates_witness : ∃ r, init_map (replicate 700 7) 700 = Some r.
Proof. apply (init_map_terminates (replicate 700 7) 700). lia. Defined.

Lemma init_map_roundtrip_witness :
  init_map (encode_tar [demo_tar_entry] ++ replicate 1024 0) 2048 =
    Some (Ok (index_archive 0 [(demo_tar_entry, demo_tar_name)] ∅)).
Proof.
  apply (init_map_roundtrip [(demo_tar_entry, demo_tar_name)] 1024).
  - apply Forall_cons_2; [exact demo_tar_entry_ok|done].
  - by vm_compute.
Defined.

Lemma open_file_correct_witness :
  ∃ m off len, init_map (encode_tar [demo_tar_entry] ++ replicate 1024 0) 2048 = Some (Ok m) ∧
    open_file (Some m) demo_tar_name = Ok (Some (off, len)) ∧
    sub_bytes (encode_tar [demo_tar_entry] ++ replicate 1024 0) (Z.to_nat off) (Z.to_nat len) =
      [1; 2; 3].
Proof.
  apply (open_file_correct [] demo_tar_entry demo_tar_name [] 1024).
  - apply Forall_cons_2; [exact demo_tar_entry_ok|done].
  - done.
  - by apply not_elem_of_nil.
  - done.
  - done.
  - by vm_compute.
Defined.
