(* ===== verification/Task.v ===== *)
(** * Tasks and their memory

    Models the part of [kernel/src/proc/task.rs] that builds a task: memory
    maps ([MemoryMap], [MemoryMapping]), the loader ([Task::exec],
    [tmp_local_reserve]) and the processor state of a task.  The scheduler is
    modelled in the file that follows.

    The state is the kernel's memory with the contents of the frames, a map
    from physical addresses to bytes.  The kernel writes the frames of a new
    task through the translation of its own page tables.  Values that are
    dropped give their frames back: the code of [Drop for MemoryMapping] is
    called where the source drops a map. *)

From S2P Require Import Prelude X86 FrameAlloc WindowCache VCache Mapper Mem Elf Tar.

Definition USERSPACE_TOP : Z := 0x7fffffffffff.
Definition USERSTACK_SIZE : Z := 512 * 1024.
Definition USERSTACK_BOTTOM : Z := USERSPACE_TOP + 1 - 1024 * 1024.
Definition USERSTACK_TOP : Z := USERSTACK_BOTTOM - USERSTACK_SIZE.
Definition TMP_TASKLDMAP : Z := KVMSPACE + 9 * 1024 * 1024 * 1024 * 1024.
Definition TMP_TASK_SIZE_PER_PROC : Z := 32 * 1024 * 1024 * 1024.

Record TaskProcState := mkTaskProcState {
  rip : Z; rflags : Z; code_seg : Z; data_seg : Z; rsp : Z; rbp : Z; rsi : Z; rdi : Z;
  r8 : Z; r9 : Z; r10 : Z; r11 : Z; r12 : Z; r13 : Z; r14 : Z; r15 : Z;
  rax : Z; rbx : Z; rcx : Z; rdx : Z;
}.

Record MemoryMapping := mkMemoryMapping {
  mp_vadr : Z;
  mp_padr : Z;
  mp_n : Z;
  mp_flags : Z;
  mp_allocated : bool;
}.
Record MemoryMap := mkMemoryMap {
  mm_id : Z;
  mm_mappings : list MemoryMapping;
}.

Inductive TaskState := Running (since : Z) | Pending.
#[global] Instance TaskState_eq_dec : EqDecision TaskState.
Proof. solve_decision. Defined.

Inductive ExecResult :=
  | ExecSuccess (id : Z)
  | FileError
  | ParseError
  | InsecureLoad (vadr mem_size : Z)
  | AllocationError
  | LargeAlignment (align : Z)
  | LargeSize (mem_size : Z)
  | BinaryEnd (offset file_size : Z)
  | UnsupportedDirective (ptype : Z).

Record Machine (P V : Type) := mkMachine {
  mc_kmem : Kmem P V;
  mc_ram : gmap Z Z;
}.
Arguments mkMachine {P V}.
Arguments mc_kmem {P V}.
Arguments mc_ram {P V}.

(** [const ID_COUNT: AtomicUsize = AtomicUsize::new(0)]: a constant, so that
    every use is a counter of its own. *)
Definition ID_COUNT : Z := 0.
Definition fetch_add (counter n : Z) : Z * Z := (counter, wrap 64 (counter + n)).
Definition MemoryMap_new : MemoryMap := mkMemoryMap (fst (fetch_add ID_COUNT 1)) [].

(** [add_raw] pushes and returns the last mapping. *)
Definition add_raw (vadr padr n flags : Z) (allocated : bool) (mm : MemoryMap) :
    option MemoryMapping * MemoryMap :=
  let mappings := mm_mappings mm ++ [mkMemoryMapping vadr padr n flags allocated] in
  (last mappings, mkMemoryMap (mm_id mm) mappings).

Section task.
Context {X : X86} {P : Type} {FA : FrameAllocator P} {V : Type} {WC : WindowCache V}.

Definition on_mem {A} (m : M (Kmem P V) A) : M (Machine P V) A :=
  zoom mc_kmem (λ k s, mkMachine k (mc_ram s)) m.

(** The loop of [allocate] from page number [i] on. *)
Fixpoint allocate_loop (vadr flags : Z) (l : list Z) (allocated_frames : list Z) (mm : MemoryMap) :
    M (Kmem P V) (option (list Z) * MemoryMap) :=
  match l with
  | [] => mret (Some allocated_frames, mm)
  | i :: l' =>
    r ← palloc;
    match r with
    | Some frame =>
      let allocated_frames := allocated_frames ++ [frame] in
      page ← lift (of_option Crate (page_add vadr i));
      let '(o, mm) := add_raw page frame 1 flags true mm in
      match o with
      | None => _ ← pfree_all allocated_frames; mret (None, mm)
      | Some _ => allocate_loop vadr flags l' allocated_frames mm
      end
    | None => _ ← pfree_all allocated_frames; mret (None, mm)
    end
  end.
Definition allocate (vadr n flags : Z) (mm : MemoryMap) :
    M (Kmem P V) (option (list Z) * MemoryMap) :=
  allocate_loop vadr flags (range n) [] mm.

Definition MemoryMapping_apply (m : MemoryMapping) : M (Kmem P V) (result unit KernelMapError) :=
  nbytes ← lift (mul64 (mp_n m) PAGE_SIZE);
  vmap (mp_vadr m) (mp_padr m) nbytes (mp_flags m).

(** [MemoryMap::apply]; [active] is [pinfo.active_mapping], and so is the result. *)
Definition MemoryMap_apply (active : option Z) (mm : MemoryMap) : M (Kmem P V) (option Z) :=
  if bool_decide (active = Some (mm_id mm)) then mret active else
  _ ← for_ (mm_mappings mm) (λ m, r ← MemoryMapping_apply m; lift (unwrap_result r));
  mret (Some (mm_id mm)).

Definition MemoryMapping_drop (m : MemoryMapping) : M (Kmem P V) unit :=
  if mp_allocated m then pfree (mp_padr m) else mret tt.
Definition MemoryMap_drop (mm : MemoryMap) : M (Kmem P V) unit :=
  for_ (mm_mappings mm) MemoryMapping_drop.

(** ** Writing the memory of a new task *)

(** The byte address behind a virtual address. *)
Definition virt_to_phys (k : Kmem P V) (va : Z) : option Z :=
  p4 ← wc_frame (k_vc k) (k_p4 k);
  '(f, _) ← translate (k_mem k) p4 (va / PAGE_SIZE * PAGE_SIZE);
  Some (f + va mod PAGE_SIZE).

(** Storing bytes from a virtual address on; an unmapped page faults. *)
Fixpoint store_bytes (va : Z) (bs : list Z) : M (Machine P V) unit :=
  match bs with
  | [] => mret tt
  | b :: bs' =>
    s ← get;
    pa ← lift (of_option Undefined (virt_to_phys (mc_kmem s) va));
    _ ← put (mkMachine (mc_kmem s) (<[pa := b]> (mc_ram s)));
    store_bytes (va + 1) bs'
  end.

(** The start of the slice [tmp_local_reserve] returns; [id] is [apic::id()]. *)
Definition tmp_local_reserve (id offset : Z) (frames : list Z) : M (Machine P V) Z :=
  o ← lift (mul64 id TMP_TASK_SIZE_PER_PROC);
  a ← lift (of_option Crate (virt_add TMP_TASKLDMAP o));
  start_page ← lift (unwrap (page_from_start a));
  _ ← on_mem (vmap_many start_page frames WRITABLE);
  lift (add64 start_page offset).

(** One [Load] entry: an error with the map to drop, or the extended map. *)
Definition exec_load (id : Z) (elf : ElfFile) (entry : ProgramHeader) (mm : MemoryMap) :
    M (Machine P V) (result MemoryMap (ExecResult * MemoryMap)) :=
  if PAGE_SIZE <? ph_align entry then mret (RErr (LargeAlignment (ph_align entry), mm)) else
  e ← lift (add64 (ph_vadr entry) (ph_mem_size entry));
  if USERSPACE_TOP <=? e
  then mret (RErr (InsecureLoad (ph_vadr entry) (ph_mem_size entry), mm)) else
  if TMP_TASK_SIZE_PER_PROC <? ph_mem_size entry
  then mret (RErr (LargeSize (ph_mem_size entry), mm)) else
  c ← lift (ElfFile_slice elf (ph_offset entry) (ph_file_size entry));
  match c with
  | None => mret (RErr (BinaryEnd (ph_offset entry) (ph_file_size entry), mm))
  | Some content =>
    let flags := fl_union (memory_flags entry) USER_ACCESSIBLE in
    let page_start := page_containing (virt_new_truncate (ph_vadr entry)) in
    t ← lift (add64 (ph_mem_size entry) (ph_vadr entry));
    t ← lift (sub64 t page_start);
    a ← lift (of_option Crate (align_up t PAGE_SIZE));
    let pgn := a / PAGE_SIZE in
    r ← on_mem (allocate page_start pgn flags mm);
    let '(o, mm) := r in
    match o with
    | None => mret (RErr (AllocationError, mm))
    | Some frames =>
      off ← lift (sub64 (ph_vadr entry) page_start);
      data ← tmp_local_reserve id off frames;
      _ ← store_bytes data (replicate (Z.to_nat (ph_mem_size entry)) 0);
      if ph_mem_size entry <? Z.of_nat (length content) then fail Bounds else
      _ ← store_bytes data content;
      mret (ROk mm)
    end
  end.

(** The loop over the program headers, from [index] on; the number of headers
    bounds the number of turns. *)
Fixpoint exec_headers (fuel : nat) (id : Z) (elf : ElfFile) (index : Z) (mm : MemoryMap) :
    M (Machine P V) (result MemoryMap (ExecResult * MemoryMap)) :=
  n ← lift (progheader_next elf index);
  match n with
  | None => mret (ROk mm)
  | Some (entry, index') =>
    t ← lift (ProgramType_of (ph_ptype entry));
    r ← (if bool_decide (t = Load) then exec_load id elf entry mm else mret (ROk mm));
    match r with
    | RErr e => mret (RErr e)
    | ROk mm =>
      match fuel with
      | O => fail Undefined
      | S fuel' => exec_headers fuel' id elf index' mm
      end
    end
  end.

(** The user stack. *)
Definition exec_stack (id : Z) (mm : MemoryMap) :
    M (Machine P V) (result MemoryMap (ExecResult * MemoryMap)) :=
  page_start ← lift (unwrap (page_from_start USERSTACK_TOP));
  let pgn := USERSTACK_SIZE / PAGE_SIZE in
  r ← on_mem (allocate page_start pgn (fl_union USER_ACCESSIBLE WRITABLE) mm);
  let '(o, mm) := r in
  match o with
  | None => mret (RErr (AllocationError, mm))
  | Some frames =>
    data ← tmp_local_reserve id 0 frames;
    _ ← store_bytes data (replicate (Z.to_nat USERSTACK_SIZE) 0);
    mret (ROk mm)
  end.

(** The memory map of the new task; an early return drops the map. *)
Definition exec_map (id : Z) (elf : ElfFile) : M (Machine P V) (result MemoryMap ExecResult) :=
  r ← exec_headers (Z.to_nat (fh_pht_len (ef_header elf))) id elf 0 MemoryMap_new;
  r ← match r with RErr e => mret (RErr e) | ROk mm => exec_stack id mm end;
  match r with
  | RErr (e, mm) => _ ← on_mem (MemoryMap_drop mm); mret (RErr e)
  | ROk mm => mret (ROk mm)
  end.

(** [TaskProcState::new]; the selectors are those of the user segments. *)
Definition TaskProcState_new (ucode_seg udata_seg interrupt_flag entry : Z) : TaskProcState :=
  mkTaskProcState entry interrupt_flag ucode_seg udata_seg USERSTACK_BOTTOM
    0 0 0 0 0 0 0 0 0 0 0 0 0 0 0.
End task.

(** ** The registers in memory *)

(** [TaskProcState] is [repr(C, packed)]: its registers in the order of the
    structure, eight bytes each. *)
Definition procstate_fields (s : TaskProcState) : list (nat * Z) :=
  (8%nat,.) <$> [rip s; rflags s; code_seg s; data_seg s; rsp s; rbp s; rsi s; rdi s; r8 s; r9 s;
    r10 s; r11 s; r12 s; r13 s; r14 s; r15 s; rax s; rbx s; rcx s; rdx s].

(** The offsets [TaskProcState::apply] loads the registers from, with the two
    selectors and the five words of the [iretq] frame. *)
Definition procstate_apply (l : list Z) : res TaskProcState :=
  let r off := read_field l off 8 in
  data ← r 24%nat; code ← r 16%nat;
  sp ← r 32%nat; fl ← r 8%nat; ip ← r 0%nat;
  a ← r 128%nat; b ← r 136%nat; c ← r 144%nat; d ← r 152%nat; bp ← r 40%nat; si ← r 48%nat;
  x8 ← r 64%nat; x9 ← r 72%nat; x10 ← r 80%nat; x11 ← r 88%nat; x12 ← r 96%nat;
  x13 ← r 104%nat; x14 ← r 112%nat; x15 ← r 120%nat; di ← r 56%nat;
  mret (mkTaskProcState ip fl code data sp bp si di x8 x9 x10 x11 x12 x13 x14 x15 a b c d).

(** ** Memory maps *)

(** The mappings [allocate] adds: one page each, from page number [i] on. *)
Definition new_mappings (i vadr flags : Z) (fs : list Z) : list MemoryMapping :=
  imap (λ k f, mkMemoryMapping (vadr + (i + Z.of_nat k) * PAGE_SIZE) f 1 flags true) fs.
Definition extend (mm : MemoryMap) (ms : list MemoryMapping) : MemoryMap :=
  mkMemoryMap (mm_id mm) (mm_mappings mm ++ ms).

(** Byte [x] of the memory made of the frames [fs], one after the other. *)
Definition frame_byte (fs : list Z) (x : Z) : Z :=
  default 0 (fs !! Z.to_nat (x / PAGE_SIZE)) + x mod PAGE_SIZE.

(** The window of a processor for loading tasks. *)
Definition tmp_start (id : Z) : Z := TMP_TASKLDMAP + id * TMP_TASK_SIZE_PER_PROC.

Section task_proofs.
Context {X : X86} {XO : X86Ok X} {P : Type} {FA : FrameAllocator P} {FAO : FrameAllocatorOk P}.
Context {V : Type} {WC : WindowCache V} {WCO : WindowCacheOk V}.
Implicit Types (k : Kmem P V) (s : Machine P V).

Lemma new_mappings_cons i vadr flags f fs :
  new_mappings i vadr flags (f :: fs) =
    mkMemoryMapping (vadr + i * PAGE_SIZE) f 1 flags true :: new_mappings (i + 1) vadr flags fs.
Proof.
  unfold new_mappings. rewrite imap_cons. f_equal; [do 2 f_equal; lia|].
  apply imap_ext. intros j x _. simpl. do 2 f_equal. lia.
Qed.

(** Frames given back, all of them managed by the allocator. *)
Lemma pfree_all_ok fs k p4 lv :
  kmem_inv k p4 lv → Forall (λ f, fa_managed (k_pmm k) f ∧ good_frame f) fs →
  ∃ p', pfree_all fs k = Ok (tt, set_pmm p' k) ∧ fa_inv p' ∧
    fa_free p' = list_to_set fs ∪ fa_free (k_pmm k) ∧
    (∀ g, fa_managed p' g ↔ fa_managed (k_pmm k) g).
Proof.
  intros Hinv. pose proof (ki_pmm _ _ _ Hinv) as Hp. clear Hinv. revert k Hp.
  induction fs as [|f fs IH]; intros k Hp Hfs.
  { exists (k_pmm k). split_and!; try done; [by destruct k|set_solver]. }
  apply Forall_cons in Hfs as [[Hm Hg] Hfs].
  destruct (fa_dealloc_ok (k_pmm k) f Hp Hg) as (p1 & Hr & Hp1 & Hman & Hfree & _).
  destruct (IH (set_pmm p1 k)) as (p' & Hr' & Hp' & Hfree' & Hman').
  - done.
  - eapply Forall_impl; [exact Hfs|]. intros g [Hgm ?]. split; [|done]. by apply Hman.
  - exists p'. split_and!; [|done| |].
    + unfold pfree_all. rewrite for_cons.
      rewrite (M_bind_run _ _ k tt (set_pmm p1 k)); [exact Hr'|].
      by apply (zoom_run k_pmm set_pmm).
    + rewrite Hfree', list_to_set_cons. simpl. rewrite (Hfree Hm). set_solver.
    + intros g. rewrite Hman'. apply Hman.
Qed.

(** [allocate] with enough free frames. *)
Lemma allocate_loop_ok l i vadr flags acc mm k p4 lv :
  l = (λ j, i + Z.of_nat j) <$> seq 0 (length l) → 0 ≤ i →
  (i + Z.of_nat (length l)) * PAGE_SIZE < 2 ^ 64 → good_page vadr →
  (∀ j, i ≤ j < i + Z.of_nat (length l) → canonical (vadr + j * PAGE_SIZE) = true) →
  kmem_inv k p4 lv → (length l ≤ size (fa_free (k_pmm k)))%nat →
  ∃ fs p', allocate_loop vadr flags l acc mm k =
      Ok ((Some (acc ++ fs), extend mm (new_mappings i vadr flags fs)), set_pmm p' k) ∧
    length fs = length l ∧ NoDup fs ∧ list_to_set fs ⊆ fa_free (k_pmm k) ∧
    fa_free p' = fa_free (k_pmm k) ∖ list_to_set fs ∧ fa_inv p' ∧
    (∀ g, fa_managed p' g ↔ fa_managed (k_pmm k) g) ∧ kmem_inv (set_pmm p' k) p4 lv.
Proof.
  revert i acc mm k. induction l as [|x l IH]; intros i acc mm k Hl Hi Hb Hp Hcan Hinv Hsz.
  { exists [], (k_pmm k). rewrite app_nil_r. unfold extend, new_mappings. simpl.
    rewrite app_nil_r. destruct Hinv. split_and!; try done; try set_solver;
      [by destruct mm, k|constructor]. }
  simpl in Hl. injection Hl as -> Hl. rewrite Z.add_0_r. simpl length in *.
  destruct (palloc_run k p4 lv Hinv ltac:(lia)) as (f & p1 & Hal & Hinv1 & Hf & Hgf & Hfree & Hrm).
  pose proof (rm_size _ _ _ _ _ Hrm) as Hsz1. simpl in Hsz1.
  destruct (IH (i + 1) (acc ++ [f]) (extend mm [mkMemoryMapping (vadr + i * PAGE_SIZE) f 1 flags true])
    (set_pmm p1 k)) as (fs & p' & Hr & Hlen & Hnd & Hsub & Hfr & Hp' & Hman & Hinv'); try done; try lia.
  { rewrite Hl at 1. rewrite <-fmap_S_seq, <-list_fmap_compose. apply list_fmap_ext.
    intros j y _. simpl. lia. }
  { intros j Hj. apply Hcan. lia. }
  { simpl. lia. }
  simpl in Hsub, Hfr, Hman.
  exists (f :: fs), p'. split_and!.
  - cbn [allocate_loop]. run_step Hal.
    assert (of_option Crate (page_add vadr i) = Ok (vadr + i * PAGE_SIZE)) as E.
    { destruct Hp as [Hpc Hpa]. rewrite page_add_spec by (done || (unfold PAGE_SIZE in *; lia)).
      by rewrite Hcan by lia. }
    run_step (lift_run _ (set_pmm p1 k) _ E). unfold add_raw. rewrite last_snoc.
    unfold extend in Hr at 1. rewrite Hr. rewrite new_mappings_cons, <-app_assoc.
    unfold extend. simpl. by rewrite <-app_assoc.
  - simpl. lia.
  - constructor; [|done]. set_solver.
  - set_solver.
  - rewrite Hfr, Hfree, list_to_set_cons. set_solver.
  - done.
  - intros g. rewrite Hman. apply (rm_managed _ _ _ _ _ Hrm).
  - done.
Qed.

Lemma allocate_ok n vadr flags mm k p4 lv :
  0 ≤ n → n * PAGE_SIZE < 2 ^ 64 → good_page vadr →
  (∀ j, 0 ≤ j < n → canonical (vadr + j * PAGE_SIZE) = true) →
  kmem_inv k p4 lv → (Z.to_nat n ≤ size (fa_free (k_pmm k)))%nat →
  ∃ fs p', allocate vadr n flags mm k =
      Ok ((Some fs, extend mm (new_mappings 0 vadr flags fs)), set_pmm p' k) ∧
    length fs = Z.to_nat n ∧ NoDup fs ∧ list_to_set fs ⊆ fa_free (k_pmm k) ∧
    fa_free p' = fa_free (k_pmm k) ∖ list_to_set fs ∧ fa_inv p' ∧
    (∀ g, fa_managed p' g ↔ fa_managed (k_pmm k) g) ∧ kmem_inv (set_pmm p' k) p4 lv.
Proof.
  intros Hn Hb Hp Hcan Hinv Hsz.
  destruct (allocate_loop_ok (range n) 0 vadr flags [] mm k p4 lv) as (fs & p' & Hr & Hrest);
    rewrite ?length_range; try done; try lia.
  - intros j Hj. apply Hcan. lia.
  - exists fs, p'. rewrite length_range in Hrest. split; [exact Hr|exact Hrest].
Qed.

Lemma palloc_none k p4 lv :
  kmem_inv k p4 lv → fa_free (k_pmm k) = ∅ → palloc k = Ok (None, k).
Proof.
  intros Hinv He. destruct (fa_alloc_ok (k_pmm k) (ki_pmm _ _ _ Hinv))
    as [[Hr _]|(f & p' & _ & _ & Hf & _)]; [|set_solver].
  unfold palloc. rewrite (zoom_run k_pmm set_pmm _ k _ _ Hr). by destruct k.
Qed.

(** [allocate] with too few free frames gives back what it took; the map keeps
    the mappings of those frames. *)
Lemma allocate_loop_fail l i vadr flags acc mm k p4 lv :
  l = (λ j, i + Z.of_nat j) <$> seq 0 (length l) → 0 ≤ i →
  (i + Z.of_nat (length l)) * PAGE_SIZE < 2 ^ 64 → good_page vadr →
  (∀ j, i ≤ j < i + Z.of_nat (length l) → canonical (vadr + j * PAGE_SIZE) = true) →
  kmem_inv k p4 lv → (size (fa_free (k_pmm k)) < length l)%nat →
  Forall (λ f, fa_managed (k_pmm k) f ∧ good_frame f) acc →
  ∃ fs p', allocate_loop vadr flags l acc mm k =
      Ok ((None, extend mm (new_mappings i vadr flags fs)), set_pmm p' k) ∧
    list_to_set fs ⊆ fa_free (k_pmm k) ∧ fa_inv p' ∧
    fa_free p' = list_to_set acc ∪ fa_free (k_pmm k) ∧
    (∀ g, fa_managed p' g ↔ fa_managed (k_pmm k) g).
Proof.
  revert i acc mm k. induction l as [|x l IH]; intros i acc mm k Hl Hi Hb Hp Hcan Hinv Hsz Hacc;
    [simpl in Hsz; lia|].
  simpl in Hl. injection Hl as -> Hl. rewrite Z.add_0_r. simpl length in *.
  destruct (decide (fa_free (k_pmm k) = ∅)) as [He|Hne].
  { destruct (pfree_all_ok acc k p4 lv Hinv Hacc) as (p' & Hr & Hp' & Hfree & Hman).
    exists [], p'. split_and!; [|apply empty_subseteq|done..]. cbn [allocate_loop].
    run_step (palloc_none k p4 lv Hinv He). run_step Hr. unfold extend, new_mappings. simpl.
    rewrite app_nil_r. by destruct mm. }
  assert (1 ≤ size (fa_free (k_pmm k)))%nat as H1.
  { assert (size (fa_free (k_pmm k)) ≠ 0%nat) by (rewrite size_non_empty_iff; set_solver). lia. }
  destruct (palloc_run k p4 lv Hinv H1) as (f & p1 & Hal & Hinv1 & Hf & Hgf & Hfree & Hrm).
  pose proof (rm_managed _ _ _ _ _ Hrm) as Hman1. simpl in Hman1.
  destruct (fa_free_managed _ _ (ki_pmm _ _ _ Hinv) Hf) as [Hfm _].
  destruct (IH (i + 1) (acc ++ [f]) (extend mm [mkMemoryMapping (vadr + i * PAGE_SIZE) f 1 flags true])
    (set_pmm p1 k)) as (fs & p' & Hr & Hsub & Hp' & Hfr & Hman); try done; try lia.
  { rewrite Hl at 1. rewrite <-fmap_S_seq, <-list_fmap_compose. apply list_fmap_ext.
    intros j y _. simpl. lia. }
  { intros j Hj. apply Hcan. lia. }
  { simpl. rewrite Hfree, size_difference, size_singleton by set_solver. lia. }
  { apply Forall_app. split; [|constructor; [|constructor]; split; [by apply Hman1|done]].
    eapply Forall_impl; [exact Hacc|]. intros g [? ?]. split; [by apply Hman1|done]. }
  simpl in Hsub, Hfr, Hman. exists (f :: fs), p'. split_and!.
  - cbn [allocate_loop]. run_step Hal.
    assert (of_option Crate (page_add vadr i) = Ok (vadr + i * PAGE_SIZE)) as E.
    { destruct Hp as [Hpc Hpa]. rewrite page_add_spec by (done || (unfold PAGE_SIZE in *; lia)).
      by rewrite Hcan by lia. }
    run_step (lift_run _ (set_pmm p1 k) _ E). unfold add_raw. rewrite last_snoc.
    unfold extend in Hr at 1. rewrite Hr. rewrite new_mappings_cons.
    unfold extend. simpl. by rewrite <-app_assoc.
  - rewrite Hfree in Hsub. set_solver.
  - done.
  - rewrite Hfr, Hfree. apply set_eq. intros g.
    rewrite !elem_of_union, elem_of_difference, elem_of_singleton, !elem_of_list_to_set,
      elem_of_app, list_elem_of_singleton.
    destruct (decide (g = f)) as [->|]; tauto.
  - intros g. rewrite Hman. apply Hman1.
Qed.

(** Dropping a map gives back the frames it allocated. *)
Lemma MemoryMap_drop_frees ms k :
  Forall (λ m, mp_allocated m = true) ms →
  for_ ms MemoryMapping_drop k = pfree_all (mp_padr <$> ms) k.
Proof.
  intros Hms. revert k. induction Hms as [|m ms Ha _ IH]; intros k; [done|].
  assert (MemoryMapping_drop m k = pfree (mp_padr m) k) as E by (unfold MemoryMapping_drop; by rewrite Ha).
  unfold pfree_all. rewrite fmap_cons, !for_cons. unfold mbind, M_bind. rewrite E. destruct (pfree (mp_padr m) k) as [[[] k1]|r]; [apply IH|done].
Qed.

Lemma MemoryMap_drop_ok mm k p4 lv :
  kmem_inv k p4 lv →
  Forall (λ m, mp_allocated m = true ∧ fa_managed (k_pmm k) (mp_padr m) ∧ good_frame (mp_padr m))
    (mm_mappings mm) →
  ∃ p', MemoryMap_drop mm k = Ok (tt, set_pmm p' k) ∧ fa_inv p' ∧
    fa_free p' = list_to_set (mp_padr <$> mm_mappings mm) ∪ fa_free (k_pmm k) ∧
    (∀ g, fa_managed p' g ↔ fa_managed (k_pmm k) g).
Proof.
  intros Hinv Hms. destruct (pfree_all_ok (mp_padr <$> mm_mappings mm) k p4 lv Hinv)
    as (p' & Hr & Hrest).
  { apply Forall_fmap. eapply Forall_impl; [exact Hms|]. intros m (_ & ? & ?). done. }
  exists p'. split; [|exact Hrest]. rewrite <-Hr. apply MemoryMap_drop_frees.
  eapply Forall_impl; [exact Hms|]. by intros m (? & _).
Qed.

(** ** Writing through the page tables *)

Lemma store_bytes_run bs va s (pa : nat → Z) :
  (∀ i, (i < length bs)%nat → virt_to_phys (mc_kmem s) (va + Z.of_nat i) = Some (pa i)) →
  (∀ i j, (i < length bs)%nat → (j < length bs)%nat → pa i = pa j → i = j) →
  ∃ ram', store_bytes va bs s = Ok (tt, mkMachine (mc_kmem s) ram') ∧
    (∀ i b, bs !! i = Some b → ram' !! pa i = Some b) ∧
    (∀ x, (∀ i, (i < length bs)%nat → pa i ≠ x) → ram' !! x = mc_ram s !! x).
Proof.
  revert va s pa. induction bs as [|b bs IH]; intros va s pa Hpa Hinj.
  { exists (mc_ram s). split_and!; try done. by destruct s. }
  pose proof (Hpa 0%nat ltac:(simpl; lia)) as H0. rewrite Z.add_0_r in H0.
  destruct (IH (va + 1) (mkMachine (mc_kmem s) (<[pa 0%nat := b]> (mc_ram s))) (λ i, pa (S i)))
    as (ram' & Hr & Hin & Hout).
  { intros i Hi. simpl. replace (va + 1 + Z.of_nat i) with (va + Z.of_nat (S i)) by lia.
    apply Hpa. simpl. lia. }
  { intros i j Hi Hj E. apply Hinj in E; simpl; lia. }
  exists ram'. split_and!.
  - cbn [store_bytes]. rewrite (M_bind_run get _ s s s eq_refl).
    rewrite (M_bind_run _ _ s (pa 0%nat) s (lift_run _ _ _ (f_equal (of_option Undefined) H0))).
    exact Hr.
  - intros [|i] x Hx; simpl in Hx; [|by apply Hin]. injection Hx as ->.
    rewrite Hout; [apply lookup_insert_eq|]. intros i Hi E. apply Hinj in E; simpl; lia.
  - intros x Hx. rewrite Hout; [simpl; apply lookup_insert_ne; apply (Hx 0%nat); simpl; lia|].
    intros i Hi. apply (Hx (S i)). simpl. lia.
Qed.

Lemma frame_byte_lookup fs x :
  0 ≤ x < PAGE_SIZE * Z.of_nat (length fs) →
  ∃ f, fs !! Z.to_nat (x / PAGE_SIZE) = Some f ∧ frame_byte fs x = f + x mod PAGE_SIZE.
Proof.
  intros Hx. destruct (lookup_lt_is_Some_2 fs (Z.to_nat (x / PAGE_SIZE))) as [f Hf].
  { unfold PAGE_SIZE in *. zlia. }
  exists f. split; [done|]. unfold frame_byte. by rewrite Hf.
Qed.

Lemma frame_byte_inj fs x y :
  NoDup fs → Forall good_frame fs → 0 ≤ x < PAGE_SIZE * Z.of_nat (length fs) →
  0 ≤ y < PAGE_SIZE * Z.of_nat (length fs) → frame_byte fs x = frame_byte fs y → x = y.
Proof.
  intros Hnd Hgf Hx Hy E.
  destruct (frame_byte_lookup fs x Hx) as (f & Hf & Ef), (frame_byte_lookup fs y Hy) as (g & Hg & Eg).
  rewrite Ef, Eg in E.
  pose proof (Forall_lookup_1 _ _ _ _ Hgf Hf) as [Haf _].
  pose proof (Forall_lookup_1 _ _ _ _ Hgf Hg) as [Hag _].
  apply page_aligned_iff in Haf, Hag. unfold PAGE_SIZE in *.
  assert (f = g) as -> by zlia.
  assert (Z.to_nat (x / 4096) = Z.to_nat (y / 4096)) by (by eapply NoDup_lookup).
  zlia.
Qed.

(** The bytes behind a window that shows the frames [fs]. *)
Lemma virt_to_phys_window k p4 lv start fs flags x :
  kmem_inv k p4 lv → page_aligned start = true →
  Forall2 (λ q f, translate (k_mem k) p4 q = Some (f, leaf_flags q flags)) (pages_from 0 start fs) fs →
  0 ≤ x < PAGE_SIZE * Z.of_nat (length fs) →
  virt_to_phys k (start + x) = Some (frame_byte fs x).
Proof.
  intros Hinv Ha Htr Hx. apply page_aligned_iff in Ha. unfold virt_to_phys.
  rewrite (wc_frame_shows _ _ _ (ki_vc _ _ _ Hinv) (ki_root _ _ _ Hinv)). cbn [mbind option_bind].
  destruct (frame_byte_lookup fs x Hx) as (f & Hf & ->).
  destruct (Forall2_lookup_r _ _ _ _ _ Htr Hf) as (q & Hq & Hqf).
  unfold pages_from in Hq. rewrite list_lookup_imap, Hf in Hq. simpl in Hq. injection Hq as <-.
  assert ((start + x) / PAGE_SIZE * PAGE_SIZE =
    start + (0 + Z.of_nat (Z.to_nat (x / PAGE_SIZE))) * PAGE_SIZE) as -> by (unfold PAGE_SIZE in *; zlia).
  rewrite Hqf. cbn [mbind option_bind]. do 2 f_equal. unfold PAGE_SIZE in *. zlia.
Qed.

(** Filling a window with zeros and then the contents of a file. *)
Lemma fill_and_copy s p4 lv start fs flags off nbytes content :
  kmem_inv (mc_kmem s) p4 lv → page_aligned start = true → NoDup fs → Forall good_frame fs →
  Forall2 (λ q f, translate (k_mem (mc_kmem s)) p4 q = Some (f, leaf_flags q flags))
    (pages_from 0 start fs) fs →
  0 ≤ off → 0 ≤ nbytes → off + nbytes ≤ PAGE_SIZE * Z.of_nat (length fs) →
  Z.of_nat (length content) ≤ nbytes →
  ∃ ram1 ram', store_bytes (start + off) (replicate (Z.to_nat nbytes) 0) s =
      Ok (tt, mkMachine (mc_kmem s) ram1) ∧
    store_bytes (start + off) content (mkMachine (mc_kmem s) ram1) =
      Ok (tt, mkMachine (mc_kmem s) ram') ∧
    (∀ i, 0 ≤ i < nbytes →
      ram' !! frame_byte fs (off + i) = Some (default 0 (content !! Z.to_nat i))) ∧
    (∀ x, (∀ i, 0 ≤ i < nbytes → frame_byte fs (off + i) ≠ x) → ram' !! x = mc_ram s !! x).
Proof.
  intros Hinv Ha Hnd Hgf Htr Ho Hn Hlen Hcl.
  assert (∀ i, 0 ≤ i < nbytes →
    virt_to_phys (mc_kmem s) (start + off + i) = Some (frame_byte fs (off + i))) as Hv.
  { intros i Hi. rewrite <-Z.add_assoc. eapply virt_to_phys_window; try done. lia. }
  assert (∀ i j, 0 ≤ i < nbytes → 0 ≤ j < nbytes →
    frame_byte fs (off + i) = frame_byte fs (off + j) → i = j) as Hinj.
  { intros i j Hi Hj E. apply frame_byte_inj in E; try done; lia. }
  destruct (store_bytes_run (replicate (Z.to_nat nbytes) 0) (start + off) s
    (λ i, frame_byte fs (off + Z.of_nat i))) as (ram1 & Hr1 & Hin1 & Hout1);
    [intros i Hi|intros i j Hi Hj E|]; rewrite ?length_replicate in *.
  { apply Hv. lia. }
  { apply Hinj in E; lia. }
  destruct (store_bytes_run content (start + off) (mkMachine (mc_kmem s) ram1)
    (λ i, frame_byte fs (off + Z.of_nat i))) as (ram' & Hr2 & Hin2 & Hout2).
  { intros i Hi. apply Hv. lia. }
  { intros i j Hi Hj E. apply Hinj in E; lia. }
  exists ram1, ram'. split_and!; [exact Hr1|exact Hr2| |].
  - intros i Hi. replace (off + i) with (off + Z.of_nat (Z.to_nat i)) by lia.
    destruct (content !! Z.to_nat i) as [b|] eqn:Hb; [by apply Hin2|]. simpl.
    apply lookup_ge_None in Hb. rewrite Hout2.
    + apply Hin1. apply lookup_replicate_2. lia.
    + intros j Hj E. apply Hinj in E; lia.
  - intros x Hx. rewrite Hout2; [apply Hout1|]; intros i Hi; apply Hx; lia.
Qed.

(** ** Loading *)

(** The window of the processor has clear paths for [n] pages. *)
Definition tmp_clear k (p4 id n : Z) : Prop :=
  ∀ j, 0 ≤ j < n → clear_path (k_mem k) p4 (page_path (tmp_start id + j * PAGE_SIZE)) = true.

Lemma tmp_page_good id j :
  0 ≤ id < 256 → 0 ≤ j → j * PAGE_SIZE ≤ TMP_TASK_SIZE_PER_PROC →
  good_page (tmp_start id + j * PAGE_SIZE) ∧ START_ADDR + VC_SIZE ≤ tmp_start id + j * PAGE_SIZE.
Proof.
  unfold good_page, tmp_start, TMP_TASKLDMAP, TMP_TASK_SIZE_PER_PROC, START_ADDR, VC_SIZE,
    P1PAGE_COUNT, KVMSPACE, PAGE_SIZE.
  rewrite canonical_iff, page_aligned_iff. intros. split; [split|]; zlia.
Qed.

Lemma tmp_local_reserve_ok s id off fs p4 lv :
  kmem_inv (mc_kmem s) p4 lv → 0 ≤ id < 256 → 0 ≤ off < 2 ^ 40 → Forall good_frame fs →
  Z.of_nat (length fs) * PAGE_SIZE ≤ TMP_TASK_SIZE_PER_PROC →
  tmp_clear (mc_kmem s) p4 id (Z.of_nat (length fs)) →
  (3 * length fs ≤ size (fa_free (k_pmm (mc_kmem s))))%nat →
  has_room (wc_shows (k_vc (mc_kmem s))) 2 →
  ∃ k' lv', tmp_local_reserve id off fs s = Ok (tmp_start id + off, mkMachine k' (mc_ram s)) ∧
    kmem_inv k' p4 lv' ∧
    Forall2 (λ q f, translate (k_mem k') p4 q = Some (f, leaf_flags q WRITABLE))
      (pages_from 0 (tmp_start id) fs) fs ∧
    remaps (3 * length fs) p4 (pages_from 0 (tmp_start id) fs) (mc_kmem s) k' ∧
    same_windows (wc_shows (k_vc (mc_kmem s))) (wc_shows (k_vc k')) [].
Proof.
  intros Hinv Hid Hoff Hfs Hlen Hcl Hsz Hroom.
  destruct (tmp_page_good id 0 Hid) as [Hgp _]; [lia|unfold TMP_TASK_SIZE_PER_PROC; lia|].
  rewrite Z.add_0_r in Hgp. pose proof kernel_flags_const as (_ & _ & Hkw & _).
  destruct (vmap_many_ok fs 0 (mc_kmem s) (tmp_start id) WRITABLE p4 lv)
    as (k' & lv' & Hr & Hinv' & Htr & Hrm & Hsw); try done.
  { unfold TMP_TASK_SIZE_PER_PROC in *. lia. }
  { apply Forall_forall. intros q (j & Hj & ->)%elem_of_pages_from. rewrite Z.add_0_l.
    destruct (tmp_page_good id (Z.of_nat j) Hid) as [? ?]; [lia|unfold PAGE_SIZE in *; lia|].
    split_and!; [done|by right|]. apply Hcl. lia. }
  exists k', lv'. split_and!; try done. unfold tmp_local_reserve.
  assert (mul64 id TMP_TASK_SIZE_PER_PROC = Ok (id * TMP_TASK_SIZE_PER_PROC)) as E1
    by (apply chk_in; unfold in_width, TMP_TASK_SIZE_PER_PROC; lia).
  assert (of_option Crate (virt_add TMP_TASKLDMAP (id * TMP_TASK_SIZE_PER_PROC)) = Ok (tmp_start id)) as E2.
  { rewrite virt_add_spec by (done || (unfold in_width, TMP_TASK_SIZE_PER_PROC; lia)).
    fold (tmp_start id). by rewrite (proj1 Hgp). }
  assert (unwrap (page_from_start (tmp_start id)) = Ok (tmp_start id)) as E3.
  { rewrite page_from_start_spec by apply Hgp. by rewrite (proj2 Hgp). }
  run_step (lift_run _ s _ E1). run_step (lift_run _ s _ E2). run_step (lift_run _ s _ E3).
  unfold on_mem. run_step (zoom_run mc_kmem (λ k s, mkMachine k (mc_ram s)) _ s _ _ Hr).
  apply lift_run, chk_in.
  unfold in_width, tmp_start, TMP_TASKLDMAP, TMP_TASK_SIZE_PER_PROC, KVMSPACE in *. lia.
Qed.

(** The pages of a segment. *)
Definition seg_page (entry : ProgramHeader) : Z := ph_vadr entry / PAGE_SIZE * PAGE_SIZE.
Definition seg_off (entry : ProgramHeader) : Z := ph_vadr entry mod PAGE_SIZE.
Definition seg_pages (entry : ProgramHeader) : Z :=
  pages_for (ph_mem_size entry + ph_vadr entry - seg_page entry).
Definition seg_flags (entry : ProgramHeader) : Z := fl_union (memory_flags entry) USER_ACCESSIBLE.

(** A segment the loader accepts, whose bytes in the file are [content]. *)
Record seg_ok (elf : ElfFile) (entry : ProgramHeader) (content : list Z) : Prop := {
  so_align : ph_align entry ≤ PAGE_SIZE;
  so_vadr : 0 ≤ ph_vadr entry;
  so_size : 0 ≤ ph_mem_size entry;
  so_user : ph_vadr entry + ph_mem_size entry < USERSPACE_TOP;
  so_large : seg_pages entry * PAGE_SIZE ≤ TMP_TASK_SIZE_PER_PROC;
  so_slice : ElfFile_slice elf (ph_offset entry) (ph_file_size entry) = Ok (Some content);
}.

Lemma seg_bounds elf entry content :
  seg_ok elf entry content →
  0 ≤ seg_pages entry ∧ 0 ≤ seg_off entry < PAGE_SIZE ∧
  seg_off entry + ph_mem_size entry ≤ PAGE_SIZE * seg_pages entry ∧
  ph_vadr entry = seg_page entry + seg_off entry ∧
  ph_mem_size entry ≤ TMP_TASK_SIZE_PER_PROC ∧
  ∀ j, 0 ≤ j < seg_pages entry → good_page (seg_page entry + j * PAGE_SIZE).
Proof.
  intros [_ H1 H2 H3 H4 _]. unfold seg_pages, pages_for, seg_off, seg_page in *.
  unfold good_page. setoid_rewrite canonical_iff. setoid_rewrite page_aligned_iff.
  unfold USERSPACE_TOP, TMP_TASK_SIZE_PER_PROC, PAGE_SIZE in *. split_and!; try zlia.
  intros j Hj. split; zlia.
Qed.

Lemma seg_page_good elf entry content : seg_ok elf entry content → good_page (seg_page entry).
Proof.
  intros [_ H1 H2 H3 _ _]. unfold good_page, seg_page. rewrite canonical_iff, page_aligned_iff.
  unfold USERSPACE_TOP, PAGE_SIZE in *. split; zlia.
Qed.

(** The checks of [exec] pass, and its arithmetic does not overflow. *)
Lemma exec_load_guards id elf entry content mm s :
  ph_align entry ≤ PAGE_SIZE → 0 ≤ ph_vadr entry → 0 ≤ ph_mem_size entry →
  ph_vadr entry + ph_mem_size entry < USERSPACE_TOP → ph_mem_size entry ≤ TMP_TASK_SIZE_PER_PROC →
  ElfFile_slice elf (ph_offset entry) (ph_file_size entry) = Ok (Some content) →
  exec_load id elf entry mm s =
    (r ← on_mem (allocate (seg_page entry) (seg_pages entry) (seg_flags entry) mm);
     let '(o, mm) := r in
     match o with
     | None => mret (RErr (AllocationError, mm))
     | Some frames =>
       data ← tmp_local_reserve id (seg_off entry) frames;
       _ ← store_bytes data (replicate (Z.to_nat (ph_mem_size entry)) 0);
       if ph_mem_size entry <? Z.of_nat (length content) then fail Bounds else
       _ ← store_bytes data content;
       mret (ROk mm)
     end) s.
Proof.
  intros Hal Hv0 Hs0 Hu Hlarge Hsl.
  assert (0 ≤ seg_off entry < PAGE_SIZE ∧ ph_vadr entry = seg_page entry + seg_off entry) as [Hoff Hv]
    by (unfold seg_off, seg_page, PAGE_SIZE; split; zlia).
  unfold exec_load.
  destruct (Z.ltb_spec PAGE_SIZE (ph_align entry)); [lia|].
  assert (add64 (ph_vadr entry) (ph_mem_size entry) = Ok (ph_vadr entry + ph_mem_size entry)) as E
    by (apply chk_in; unfold in_width, USERSPACE_TOP in *; lia).
  run_step (lift_run _ s _ E). clear E.
  destruct (Z.leb_spec USERSPACE_TOP (ph_vadr entry + ph_mem_size entry)); [lia|].
  destruct (Z.ltb_spec TMP_TASK_SIZE_PER_PROC (ph_mem_size entry)); [lia|].
  run_step (lift_run _ s _ Hsl). cbv zeta.
  assert (page_containing (virt_new_truncate (ph_vadr entry)) = seg_page entry) as ->.
  { assert (canonical (ph_vadr entry) = true) as Hcan
      by (apply canonical_iff; unfold USERSPACE_TOP in *; lia).
    rewrite virt_new_truncate_id; [|unfold in_width, USERSPACE_TOP in *; lia|done].
    by apply page_containing_spec. }
  assert (add64 (ph_mem_size entry) (ph_vadr entry) = Ok (ph_mem_size entry + ph_vadr entry)) as E
    by (apply chk_in; unfold in_width, USERSPACE_TOP in *; lia).
  run_step (lift_run _ s _ E). clear E.
  assert (0 ≤ seg_page entry) as Hsp by (unfold seg_page, PAGE_SIZE; zlia).
  assert (sub64 (ph_mem_size entry + ph_vadr entry) (seg_page entry) =
    Ok (ph_mem_size entry + ph_vadr entry - seg_page entry)) as E
    by (apply chk_in; unfold in_width, USERSPACE_TOP in *; lia).
  run_step (lift_run _ s _ E). clear E.
  assert (of_option Crate (align_up (ph_mem_size entry + ph_vadr entry - seg_page entry) PAGE_SIZE) =
    Ok (seg_pages entry * PAGE_SIZE)) as E.
  { rewrite align_up_page_spec by (unfold in_width, USERSPACE_TOP in *; lia). unfold seg_pages, pages_for, PAGE_SIZE.
    replace (ph_mem_size entry + ph_vadr entry - seg_page entry + 4096 - 1) with
      (ph_mem_size entry + ph_vadr entry - seg_page entry + 4095) by lia. cbv zeta.
    destruct (Z.ltb_spec ((ph_mem_size entry + ph_vadr entry - seg_page entry + 4095) / 4096 * 4096)
      (2 ^ 64)); [done|]. unfold USERSPACE_TOP in *. zlia. }
  run_step (lift_run _ s _ E). clear E. rewrite Z.div_mul by done. fold (seg_flags entry).
  apply M_bind_ext. intros [[frames|] mm'] s1; [|done].
  assert (sub64 (ph_vadr entry) (seg_page entry) = Ok (seg_off entry)) as E.
  { unfold sub64. rewrite chk_in; [f_equal; lia|]. unfold in_width, PAGE_SIZE in *. lia. }
  by run_step (lift_run _ s1 _ E).
Qed.

Lemma exec_load_checks id elf entry content mm s :
  seg_ok elf entry content →
  exec_load id elf entry mm s =
    (r ← on_mem (allocate (seg_page entry) (seg_pages entry) (seg_flags entry) mm);
     let '(o, mm) := r in
     match o with
     | None => mret (RErr (AllocationError, mm))
     | Some frames =>
       data ← tmp_local_reserve id (seg_off entry) frames;
       _ ← store_bytes data (replicate (Z.to_nat (ph_mem_size entry)) 0);
       if ph_mem_size entry <? Z.of_nat (length content) then fail Bounds else
       _ ← store_bytes data content;
       mret (ROk mm)
     end) s.
Proof.
  intros Hok. destruct (seg_bounds _ _ _ Hok) as (_ & _ & _ & _ & Hlarge & _).
  by apply exec_load_guards; try apply Hok.
Qed.

(** What loading leaves behind: [n] fresh frames [fs] that hold [content] and
    then zeros in the [nbytes] bytes from [off] on. *)
Record loaded (s s' : Machine P V) (n off nbytes : Z) (content fs : list Z) : Prop := {
  ld_length : length fs = Z.to_nat n;
  ld_nodup : NoDup fs;
  ld_good : Forall good_frame fs;
  ld_fresh : Forall (λ f, f ∈ fa_free (k_pmm (mc_kmem s)) ∧ f ∉ fa_free (k_pmm (mc_kmem s')) ∧
    k_mem (mc_kmem s') !! f = None) fs;
  ld_bytes i : 0 ≤ i < nbytes →
    mc_ram s' !! frame_byte fs (off + i) = Some (default 0 (content !! Z.to_nat i));
  ld_other x : (∀ i, 0 ≤ i < nbytes → frame_byte fs (off + i) ≠ x) → mc_ram s' !! x = mc_ram s !! x;
}.

(** Frames for [n] pages, mapped in the loading window. *)
Lemma reserve_ok id page n off flags mm s p4 lv :
  kmem_inv (mc_kmem s) p4 lv → 0 ≤ id < 256 → 0 ≤ n → n * PAGE_SIZE ≤ TMP_TASK_SIZE_PER_PROC →
  good_page page → (∀ j, 0 ≤ j < n → canonical (page + j * PAGE_SIZE) = true) →
  0 ≤ off < PAGE_SIZE → (4 * Z.to_nat n ≤ size (fa_free (k_pmm (mc_kmem s))))%nat →
  tmp_clear (mc_kmem s) p4 id n → has_room (wc_shows (k_vc (mc_kmem s))) 2 →
  ∃ fs p1 k' lv',
    on_mem (allocate page n flags mm) s =
      Ok ((Some fs, extend mm (new_mappings 0 page flags fs)), mkMachine (set_pmm p1 (mc_kmem s)) (mc_ram s)) ∧
    tmp_local_reserve id off fs (mkMachine (set_pmm p1 (mc_kmem s)) (mc_ram s)) =
      Ok (tmp_start id + off, mkMachine k' (mc_ram s)) ∧
    kmem_inv k' p4 lv' ∧ length fs = Z.to_nat n ∧ NoDup fs ∧ Forall good_frame fs ∧
    Forall (λ f, f ∈ fa_free (k_pmm (mc_kmem s)) ∧ f ∉ fa_free (k_pmm k') ∧ k_mem k' !! f = None) fs ∧
    Forall2 (λ q f, translate (k_mem k') p4 q = Some (f, leaf_flags q WRITABLE))
      (pages_from 0 (tmp_start id) fs) fs ∧
    remaps (4 * Z.to_nat n) p4 (pages_from 0 (tmp_start id) fs) (mc_kmem s) k' ∧
    same_windows (wc_shows (k_vc (mc_kmem s))) (wc_shows (k_vc k')) [].
Proof.
  intros Hinv Hid Hn0 Hl Hgp Hcan Hoff Hsz Hcl Hroom.
  destruct (allocate_ok n page flags mm (mc_kmem s) p4 lv)
    as (fs & p1 & Hal & Hlen & Hnd & Hsub & Hfree & Hp1 & Hman & Hinv1); try done; try lia.
  { unfold TMP_TASK_SIZE_PER_PROC in *. lia. }
  assert (Forall good_frame fs) as Hgf.
  { apply Forall_forall. intros f Hf.
    by apply (fa_free_managed (k_pmm (mc_kmem s)) f (ki_pmm _ _ _ Hinv)), Hsub, elem_of_list_to_set. }
  set (s1 := mkMachine (set_pmm p1 (mc_kmem s)) (mc_ram s)).
  assert (size (fa_free p1) + Z.to_nat n = size (fa_free (k_pmm (mc_kmem s))))%nat as Hsz1.
  { rewrite Hfree, size_difference by done. rewrite size_list_to_set by done.
    pose proof (subseteq_size _ _ Hsub) as Hle. rewrite size_list_to_set in Hle by done. lia. }
  destruct (tmp_local_reserve_ok s1 id off fs p4 lv)
    as (k2 & lv2 & Hrv & Hinv2 & Htr & Hrm & Hsw); try done.
  { unfold PAGE_SIZE in *. lia. }
  { by rewrite Hlen, Z2Nat.id by done. }
  { intros j Hj. apply Hcl. lia. }
  { simpl. lia. }
  exists fs, p1, k2, lv2. split_and!; try done.
  - exact (zoom_run mc_kmem (λ k s, mkMachine k (mc_ram s)) _ s _ _ Hal).
  - pose proof (rm_free _ _ _ _ _ Hrm) as Hfr. apply Forall_forall. intros f Hf.
    assert (f ∈ fa_free (k_pmm (mc_kmem s))) as Hff by (by apply Hsub, elem_of_list_to_set).
    assert (f ∉ fa_free p1) as Hf1 by (rewrite Hfree; set_solver).
    split_and!; [done|set_solver|]. apply eq_None_not_Some.
    intros [[t Ht]|Hs]%(rm_dom _ _ _ _ _ Hrm); [|simpl in Hs; set_solver].
    by destruct (pt_table _ _ _ _ (ki_pt _ _ _ Hinv) _ _ Ht) as (_ & _ & ? & _).
  - destruct Hrm as [R1 R2 R3 R4 R5 R6 R7 R8 R9]. cbn [mc_kmem s1 set_pmm k_pmm] in R4, R5, R6, R7.
    split; try done.
    + transitivity (fa_free p1); [done|]. rewrite Hfree. set_solver.
    + lia.
    + intros f. by rewrite R6.
    + intros g Hg. apply R7 in Hg as [?|Hg]; [by left|right]. rewrite Hfree in Hg. set_solver.
    + assert (fa_free p1 ⊆ fa_free (k_pmm (mc_kmem s))) as Hp1s by (rewrite Hfree; set_solver).
      apply (seals_trans p4 _ (mc_kmem s1)); [exact Hp1s|exact R4|by apply seals_shrink|exact R8].
Qed.

(** [exec] up to the point where the frames are mapped in the window. *)
Lemma exec_load_reserved id elf entry content mm s p4 lv :
  kmem_inv (mc_kmem s) p4 lv → 0 ≤ id < 256 → seg_ok elf entry content →
  (4 * Z.to_nat (seg_pages entry) ≤ size (fa_free (k_pmm (mc_kmem s))))%nat →
  tmp_clear (mc_kmem s) p4 id (seg_pages entry) → has_room (wc_shows (k_vc (mc_kmem s))) 2 →
  ∃ fs k' lv', exec_load id elf entry mm s =
      (_ ← store_bytes (tmp_start id + seg_off entry) (replicate (Z.to_nat (ph_mem_size entry)) 0);
       if ph_mem_size entry <? Z.of_nat (length content) then fail Bounds else
       _ ← store_bytes (tmp_start id + seg_off entry) content;
       mret (ROk (extend mm (new_mappings 0 (seg_page entry) (seg_flags entry) fs))))
        (mkMachine k' (mc_ram s)) ∧
    kmem_inv k' p4 lv' ∧ length fs = Z.to_nat (seg_pages entry) ∧ NoDup fs ∧ Forall good_frame fs ∧
    Forall (λ f, f ∈ fa_free (k_pmm (mc_kmem s)) ∧ f ∉ fa_free (k_pmm k') ∧ k_mem k' !! f = None) fs ∧
    Forall2 (λ q f, translate (k_mem k') p4 q = Some (f, leaf_flags q WRITABLE))
      (pages_from 0 (tmp_start id) fs) fs ∧
    remaps (4 * Z.to_nat (seg_pages entry)) p4 (pages_from 0 (tmp_start id) fs) (mc_kmem s) k' ∧
    same_windows (wc_shows (k_vc (mc_kmem s))) (wc_shows (k_vc k')) [].
Proof.
  intros Hinv Hid Hok Hsz Hcl Hroom.
  destruct (seg_bounds _ _ _ Hok) as (Hn0 & Hoff & Hfit & Hv & Hlarge & Hgp).
  destruct (reserve_ok id (seg_page entry) (seg_pages entry) (seg_off entry) (seg_flags entry) mm s p4 lv)
    as (fs & p1 & k' & lv' & Hal & Hrv & Hrest); try done.
  - apply (so_large _ _ _ Hok).
  - by eapply seg_page_good.
  - intros j Hj. by apply Hgp.
  - exists fs, k', lv'. split; [|exact Hrest].
    rewrite (exec_load_checks id elf entry content mm s Hok). run_step Hal. by run_step Hrv.
Qed.

Lemma tmp_start_aligned id : 0 ≤ id < 256 → page_aligned (tmp_start id) = true.
Proof.
  intros Hid. destruct (tmp_page_good id 0 Hid) as [[_ Ha] _]; [lia|unfold TMP_TASK_SIZE_PER_PROC; lia|].
  by rewrite Z.add_0_r in Ha.
Qed.

(** ** What loading keeps of a map

    The loader only adds mappings of one page that are freed with the map: a
    property such mappings keep holds of every map it builds. *)

Section keeps_map.
Context (Q : MemoryMap → Prop).
Context (HQ : ∀ mm vadr f flags, Q mm → Q (extend mm [mkMemoryMapping vadr f 1 flags true])).

Definition result_map (r : result MemoryMap (ExecResult * MemoryMap)) : MemoryMap :=
  match r with ROk mm => mm | RErr (_, mm) => mm end.

Lemma allocate_loop_keeps vadr flags l acc mm k o mm' k' :
  allocate_loop vadr flags l acc mm k = Ok ((o, mm'), k') → Q mm → Q mm'.
Proof.
  revert acc mm k. induction l as [|i l IH]; intros acc mm k Hr Hq; cbn [allocate_loop] in Hr; [by inv_ok|].
  apply M_bind_Ok in Hr as ([f|] & k1 & _ & Hr); [|by inv_ok].
  apply M_bind_Ok in Hr as (page & k2 & _ & Hr). unfold add_raw in Hr. rewrite last_snoc in Hr.
  eapply IH; [exact Hr|]. by apply HQ.
Qed.

Lemma on_mem_allocate_keeps vadr n flags mm s o mm' s' :
  on_mem (allocate vadr n flags mm) s = Ok ((o, mm'), s') → Q mm → Q mm'.
Proof. intros Hr. unfold on_mem in Hr. inv_ok. by eapply allocate_loop_keeps. Qed.

Lemma exec_load_keeps id elf entry mm s r s' :
  exec_load id elf entry mm s = Ok (r, s') → Q mm → Q (result_map r).
Proof.
  unfold exec_load. destruct (_ <? _); [intros; by inv_ok|]. intros Hr Hq.
  apply M_bind_Ok in Hr as (e & s1 & _ & Hr). destruct (_ <=? _); [by inv_ok|].
  destruct (_ <? _); [by inv_ok|]. apply M_bind_Ok in Hr as ([content|] & s2 & _ & Hr); [|by inv_ok].
  do 3 apply M_bind_Ok in Hr as (? & ? & _ & Hr).
  apply M_bind_Ok in Hr as ([[frames|] mm'] & s3 & Hal & Hr); apply on_mem_allocate_keeps in Hal; try done; [|by inv_ok].
  do 3 apply M_bind_Ok in Hr as (? & ? & _ & Hr). destruct (_ <? _); [by inv_ok|]. by inv_ok.
Qed.

Lemma exec_headers_keeps fuel id elf index mm s r s' :
  exec_headers fuel id elf index mm s = Ok (r, s') → Q mm → Q (result_map r).
Proof.
  revert index mm s. induction fuel as [|fuel IH]; intros index mm s Hr Hq; cbn [exec_headers] in Hr;
    (apply M_bind_Ok in Hr as ([[entry index']|] & s1 & _ & Hr); [|by inv_ok]);
    apply M_bind_Ok in Hr as (t & s2 & _ & Hr); apply M_bind_Ok in Hr as (r1 & s3 & H1 & Hr);
    assert (Q (result_map r1)) as Hq1 by (case_bool_decide; [by eapply exec_load_keeps|by inv_ok]);
    (destruct r1 as [mm1|[e mm1]]; [|by inv_ok]); [by inv_ok|]. by eapply IH.
Qed.

Lemma exec_map_keeps id elf s mm s' : exec_map id elf s = Ok (ROk mm, s') → Q MemoryMap_new → Q mm.
Proof.
  unfold exec_map. intros Hr Hq. apply M_bind_Ok in Hr as (r1 & s1 & H1 & Hr). apply exec_headers_keeps in H1; [|done].
  apply M_bind_Ok in Hr as (r2 & s2 & H2 & Hr).
  assert (Q (result_map r2)) as Hq2.
  { destruct r1 as [mm1|[e mm1]]; [|by inv_ok]. unfold exec_stack in H2. apply M_bind_Ok in H2 as (pg & s3 & _ & H2).
    apply M_bind_Ok in H2 as ([[frames|] mm2] & s4 & Hal & H2); apply on_mem_allocate_keeps in Hal; try done; [|by inv_ok].
    do 2 apply M_bind_Ok in H2 as (? & ? & _ & H2). by inv_ok. }
  destruct r2 as [mm2|[e mm2]]; [by inv_ok|]. apply M_bind_Ok in Hr as (? & ? & _ & Hr). by inv_ok.
Qed.
End keeps_map.

(** The identifier of a map, and how its frames are released. *)
Lemma exec_map_id id elf s mm s' : exec_map id elf s = Ok (ROk mm, s') → mm_id mm = mm_id MemoryMap_new.
Proof. intros Hr. by apply (exec_map_keeps (λ m, mm_id m = mm_id MemoryMap_new)) in Hr. Qed.
Lemma exec_map_allocated id elf s mm s' :
  exec_map id elf s = Ok (ROk mm, s') → Forall (λ e, mp_allocated e = true) (mm_mappings mm).
Proof.
  intros Hr. apply (exec_map_keeps (λ m, Forall (λ e, mp_allocated e = true) (mm_mappings m))) in Hr; [done| |done].
  intros m vadr f flags Hm. apply Forall_app. split; [done|]. by apply Forall_singleton.
Qed.

Lemma progheader_next_index elf index entry index' :
  progheader_next elf index = Ok (Some (entry, index')) →
  index' = index + 1 ∧ index < fh_pht_len (ef_header elf).
Proof.
  unfold progheader_next. destruct (Z.leb_spec (fh_pht_len (ef_header elf)) index); [done|].
  destruct (add64 (ef_base elf) _) as [a|]; cbn [mbind res_bind]; [|done].
  destruct (mul64 index _) as [b|]; cbn [mbind res_bind]; [|done].
  destruct (add64 a b) as [p|]; cbn [mbind res_bind]; [|done]. destruct (negb _); [done|].
  destruct (read_program_header _ _) as [h|]; cbn [mbind res_bind]; [|done].
  destruct (add64 index 1) as [i'|] eqn:E; cbn [mbind res_bind]; [|done].
  apply chk_Ok in E as [-> _]. intros [= <- <-]. done.
Qed.

(** The number of program headers bounds the turns of the loop. *)
Lemma exec_headers_fuel fuel n id elf index mm s :
  fh_pht_len (ef_header elf) ≤ index + Z.of_nat fuel →
  exec_headers (fuel + n) id elf index mm s = exec_headers fuel id elf index mm s.
Proof.
  revert index mm s. induction fuel as [|fuel IH]; intros index mm s Hle.
  - assert (progheader_next elf index = Ok None) as E.
    { unfold progheader_next. destruct (Z.leb_spec (fh_pht_len (ef_header elf)) index); [done|lia]. }
    destruct n; [done|]. cbn [Nat.add exec_headers]. unfold lift. rewrite E. done.
  - cbn [Nat.add exec_headers]. destruct (progheader_next elf index) as [[[entry index']|]|r] eqn:E; try done.
    destruct (progheader_next_index _ _ _ _ E) as [-> _].
    rewrite !(M_bind_run (lift (Ok (Some (entry, index + 1)))) _ s (Some (entry, index + 1)) s eq_refl).
    apply M_bind_ext. intros t s2. apply M_bind_ext. intros [mm1|e] s3; [|done]. apply IH. lia.
Qed.

(** ** What the loader promises *)

Lemma exec_load_ok id elf entry content mm s p4 lv :
  kmem_inv (mc_kmem s) p4 lv → 0 ≤ id < 256 → seg_ok elf entry content →
  Z.of_nat (length content) ≤ ph_mem_size entry →
  (4 * Z.to_nat (seg_pages entry) ≤ size (fa_free (k_pmm (mc_kmem s))))%nat →
  tmp_clear (mc_kmem s) p4 id (seg_pages entry) → has_room (wc_shows (k_vc (mc_kmem s))) 2 →
  ∃ fs s' lv', exec_load id elf entry mm s =
      Ok (ROk (extend mm (new_mappings 0 (seg_page entry) (seg_flags entry) fs)), s') ∧
    kmem_inv (mc_kmem s') p4 lv' ∧ loaded s s' (seg_pages entry) (seg_off entry) (ph_mem_size entry) content fs ∧
    remaps (4 * Z.to_nat (seg_pages entry)) p4 (pages_from 0 (tmp_start id) fs) (mc_kmem s) (mc_kmem s') ∧
    same_windows (wc_shows (k_vc (mc_kmem s))) (wc_shows (k_vc (mc_kmem s'))) [].
Proof.
  intros Hinv Hid Hok Hc Hsz Hcl Hroom.
  destruct (seg_bounds _ _ _ Hok) as (Hn0 & Hoff & Hfit & _). pose proof (so_size _ _ _ Hok) as Hs0.
  destruct (exec_load_reserved id elf entry content mm s p4 lv)
    as (fs & k2 & lv2 & Hrun & Hinv2 & Hlen & Hnd & Hgf & Hfr & Htr & Hrm & Hsw); try done.
  destruct (fill_and_copy (mkMachine k2 (mc_ram s)) p4 lv2 (tmp_start id) fs WRITABLE (seg_off entry)
    (ph_mem_size entry) content) as (ram1 & ram' & Hr1 & Hr2 & Hin & Hout); try done; try lia.
  { by apply tmp_start_aligned. }
  { by rewrite Hlen, Z2Nat.id by done. }
  exists fs, (mkMachine k2 ram'), lv2. split_and!; try done.
  rewrite Hrun. run_step Hr1. destruct (Z.ltb_spec (ph_mem_size entry) (Z.of_nat (length content))); [lia|].
  by run_step Hr2.
Qed.

(** C9. Loading a segment that passes the checks and has no more bytes in the
    file than in memory, with enough free frames, succeeds ([exec_load] does
    not check the first and panics: [exec_load_overlong_panics]).  The task's map gains one mapping per page, with the segment's
    flags and accessible to the user, on different frames that were free and
    hold no page table.  Byte [i] of the segment holds byte [i] of the file's
    contents, or zero beyond them; no other byte of memory changes, and no
    page outside the loading window changes its translation. *)
Theorem exec_load_correct id elf entry content mm s p4 lv :
  kmem_inv (mc_kmem s) p4 lv → 0 ≤ id < 256 → seg_ok elf entry content →
  Z.of_nat (length content) ≤ ph_mem_size entry →
  (4 * Z.to_nat (seg_pages entry) ≤ size (fa_free (k_pmm (mc_kmem s))))%nat →
  tmp_clear (mc_kmem s) p4 id (seg_pages entry) → has_room (wc_shows (k_vc (mc_kmem s))) 2 →
  ∃ fs s' lv', exec_load id elf entry mm s =
      Ok (ROk (extend mm (new_mappings 0 (seg_page entry) (seg_flags entry) fs)), s') ∧
    kmem_inv (mc_kmem s') p4 lv' ∧ loaded s s' (seg_pages entry) (seg_off entry) (ph_mem_size entry) content fs ∧
    remaps (4 * Z.to_nat (seg_pages entry)) p4 (pages_from 0 (tmp_start id) fs) (mc_kmem s) (mc_kmem s') ∧
    same_windows (wc_shows (k_vc (mc_kmem s))) (wc_shows (k_vc (mc_kmem s'))) [].
Proof. apply exec_load_ok. Qed.

(** A program header whose file size exceeds its memory size passes every
    check of the loader and then stops the kernel: the copy into the segment
    panics on its bounds. *)
Theorem exec_load_overlong_panics id elf entry content mm s p4 lv :
  kmem_inv (mc_kmem s) p4 lv → 0 ≤ id < 256 → seg_ok elf entry content →
  ph_mem_size entry < Z.of_nat (length content) →
  (4 * Z.to_nat (seg_pages entry) ≤ size (fa_free (k_pmm (mc_kmem s))))%nat →
  tmp_clear (mc_kmem s) p4 id (seg_pages entry) → has_room (wc_shows (k_vc (mc_kmem s))) 2 →
  exec_load id elf entry mm s = Panic Bounds.
Proof.
  intros Hinv Hid Hok Hc Hsz Hcl Hroom.
  destruct (seg_bounds _ _ _ Hok) as (Hn0 & Hoff & Hfit & _). pose proof (so_size _ _ _ Hok) as Hs0.
  destruct (exec_load_reserved id elf entry content mm s p4 lv)
    as (fs & k2 & lv2 & Hrun & Hinv2 & Hlen & Hnd & Hgf & Hfr & Htr & Hrm & Hsw); try done.
  destruct (fill_and_copy (mkMachine k2 (mc_ram s)) p4 lv2 (tmp_start id) fs WRITABLE (seg_off entry)
    (ph_mem_size entry) []) as (ram1 & ram' & Hr1 & _); try done; try lia.
  { by apply tmp_start_aligned. }
  { by rewrite Hlen, Z2Nat.id by done. }
  rewrite Hrun. run_step Hr1.
  destruct (Z.ltb_spec (ph_mem_size entry) (Z.of_nat (length content))); [done|lia].
Qed.

(** [allocate] with fewer than [n] free frames. *)
Lemma allocate_fails n vadr flags mm k p4 lv :
  0 ≤ n → n * PAGE_SIZE < 2 ^ 64 → good_page vadr →
  (∀ j, 0 ≤ j < n → canonical (vadr + j * PAGE_SIZE) = true) → kmem_inv k p4 lv →
  (size (fa_free (k_pmm k)) < Z.to_nat n)%nat →
  ∃ fs p', allocate vadr n flags mm k = Ok ((None, extend mm (new_mappings 0 vadr flags fs)), set_pmm p' k) ∧
    list_to_set fs ⊆ fa_free (k_pmm k) ∧ fa_inv p' ∧ fa_free p' = fa_free (k_pmm k).
Proof.
  intros Hn Hb Hp Hcan Hinv Hsz.
  destruct (allocate_loop_fail (range n) 0 vadr flags [] mm k p4 lv) as (fs & p' & Hr & Hsub & Hp' & Hfr & _);
    rewrite ?length_range; try done; try lia.
  - intros j Hj. apply Hcan. lia.
  - exists fs, p'. split_and!; try done. rewrite Hfr. set_solver.
Qed.

(** The refusal of a segment there are no frames for. *)
Lemma exec_load_no_frames id elf entry content mm s p4 lv :
  ph_align entry ≤ PAGE_SIZE → 0 ≤ ph_vadr entry → 0 ≤ ph_mem_size entry →
  ph_vadr entry + ph_mem_size entry < USERSPACE_TOP → ph_mem_size entry ≤ TMP_TASK_SIZE_PER_PROC →
  ElfFile_slice elf (ph_offset entry) (ph_file_size entry) = Ok (Some content) →
  kmem_inv (mc_kmem s) p4 lv → (size (fa_free (k_pmm (mc_kmem s))) < Z.to_nat (seg_pages entry))%nat →
  ∃ fs p', exec_load id elf entry mm s =
      Ok (RErr (AllocationError, extend mm (new_mappings 0 (seg_page entry) (seg_flags entry) fs)),
        mkMachine (set_pmm p' (mc_kmem s)) (mc_ram s)) ∧
    list_to_set fs ⊆ fa_free (k_pmm (mc_kmem s)) ∧ fa_inv p' ∧ fa_free p' = fa_free (k_pmm (mc_kmem s)).
Proof.
  intros Hal Hv0 Hs0 Hu Hl Hsl Hinv Hsz.
  destruct (allocate_fails (seg_pages entry) (seg_page entry) (seg_flags entry) mm (mc_kmem s) p4 lv)
    as (fs & p' & Hr & Hrest); try done.
  - lia.
  - unfold seg_pages, pages_for, seg_page, USERSPACE_TOP, TMP_TASK_SIZE_PER_PROC, PAGE_SIZE in *. zlia.
  - unfold good_page, seg_page. rewrite canonical_iff, page_aligned_iff. unfold USERSPACE_TOP, PAGE_SIZE in *. split; zlia.
  - intros j Hj. apply canonical_iff. unfold seg_pages, pages_for, seg_page, USERSPACE_TOP, PAGE_SIZE in *. zlia.
  - exists fs, p'. split; [|exact Hrest]. rewrite (exec_load_guards id elf entry content) by done.
    assert (on_mem (allocate (seg_page entry) (seg_pages entry) (seg_flags entry) mm) s =
      Ok ((None, extend mm (new_mappings 0 (seg_page entry) (seg_flags entry) fs)),
        mkMachine (set_pmm p' (mc_kmem s)) (mc_ram s))) as Ho by (unfold on_mem, zoom; by rewrite Hr).
    by run_step Ho.
Qed.

(** C37. The refusals of the loader of a segment.  Without changing the machine or
    the map it refuses a segment aligned to more than a page, one that reaches
    the top of user space, one larger than the loading window and one whose
    bytes are not in the file.  It refuses a segment that passes these checks
    and that there are too few frames for: every frame is free then as before,
    and only the map is changed, which lists frames that were given back.  A
    segment whose end is not a 64-bit number stops the kernel. *)
Theorem exec_load_refuses id elf entry mm s :
  in_width 64 (ph_vadr entry) → in_width 64 (ph_mem_size entry) →
  (PAGE_SIZE < ph_align entry →
    exec_load id elf entry mm s = Ok (RErr (LargeAlignment (ph_align entry), mm), s)) ∧
  (ph_align entry ≤ PAGE_SIZE → 2 ^ 64 ≤ ph_vadr entry + ph_mem_size entry →
    exec_load id elf entry mm s = Panic Overflow) ∧
  (ph_align entry ≤ PAGE_SIZE → USERSPACE_TOP ≤ ph_vadr entry + ph_mem_size entry < 2 ^ 64 →
    exec_load id elf entry mm s =
      Ok (RErr (InsecureLoad (ph_vadr entry) (ph_mem_size entry), mm), s)) ∧
  (ph_align entry ≤ PAGE_SIZE → ph_vadr entry + ph_mem_size entry < USERSPACE_TOP →
    TMP_TASK_SIZE_PER_PROC < ph_mem_size entry →
    exec_load id elf entry mm s = Ok (RErr (LargeSize (ph_mem_size entry), mm), s)) ∧
  (ph_align entry ≤ PAGE_SIZE → ph_vadr entry + ph_mem_size entry < USERSPACE_TOP →
    ph_mem_size entry ≤ TMP_TASK_SIZE_PER_PROC →
    ElfFile_slice elf (ph_offset entry) (ph_file_size entry) = Ok None →
    exec_load id elf entry mm s =
      Ok (RErr (BinaryEnd (ph_offset entry) (ph_file_size entry), mm), s)) ∧
  (∀ content p4 lv, ph_align entry ≤ PAGE_SIZE → ph_vadr entry + ph_mem_size entry < USERSPACE_TOP →
    ph_mem_size entry ≤ TMP_TASK_SIZE_PER_PROC →
    ElfFile_slice elf (ph_offset entry) (ph_file_size entry) = Ok (Some content) →
    kmem_inv (mc_kmem s) p4 lv → (size (fa_free (k_pmm (mc_kmem s))) < Z.to_nat (seg_pages entry))%nat →
    ∃ fs p', exec_load id elf entry mm s =
        Ok (RErr (AllocationError, extend mm (new_mappings 0 (seg_page entry) (seg_flags entry) fs)),
          mkMachine (set_pmm p' (mc_kmem s)) (mc_ram s)) ∧
      list_to_set fs ⊆ fa_free (k_pmm (mc_kmem s)) ∧ fa_inv p' ∧ fa_free p' = fa_free (k_pmm (mc_kmem s))).
Proof.
  intros [Hv0 Hv] [Hs0 Hs].
  assert (ph_vadr entry + ph_mem_size entry < 2 ^ 64 →
    add64 (ph_vadr entry) (ph_mem_size entry) = Ok (ph_vadr entry + ph_mem_size entry)) as Hadd
    by (intros; apply chk_in; unfold in_width; lia).
  split_and!; [..|intros; by eapply exec_load_no_frames]; unfold exec_load.
  - intros Ha. by destruct (Z.ltb_spec PAGE_SIZE (ph_align entry)); [|lia].
  - intros Ha Ho. destruct (Z.ltb_spec PAGE_SIZE (ph_align entry)); [lia|].
    apply M_bind_panic. unfold add64. rewrite chk_out by (unfold in_width; lia). done.
  - intros Ha Ho. destruct (Z.ltb_spec PAGE_SIZE (ph_align entry)); [lia|].
    run_step (lift_run _ s _ (Hadd ltac:(lia))).
    by destruct (Z.leb_spec USERSPACE_TOP (ph_vadr entry + ph_mem_size entry)); [|lia].
  - intros Ha Hu Hl. destruct (Z.ltb_spec PAGE_SIZE (ph_align entry)); [lia|].
    run_step (lift_run _ s _ (Hadd ltac:(unfold USERSPACE_TOP in *; lia))).
    destruct (Z.leb_spec USERSPACE_TOP (ph_vadr entry + ph_mem_size entry)); [lia|].
    by destruct (Z.ltb_spec TMP_TASK_SIZE_PER_PROC (ph_mem_size entry)); [|lia].
  - intros Ha Hu Hl Hsl. destruct (Z.ltb_spec PAGE_SIZE (ph_align entry)); [lia|].
    run_step (lift_run _ s _ (Hadd ltac:(unfold USERSPACE_TOP in *; lia))).
    destruct (Z.leb_spec USERSPACE_TOP (ph_vadr entry + ph_mem_size entry)); [lia|].
    destruct (Z.ltb_spec TMP_TASK_SIZE_PER_PROC (ph_mem_size entry)); [lia|].
    by run_step (lift_run _ s _ Hsl).
Qed.

(** C36. [allocate] takes exactly [n] different free frames and adds one mapping
    for each when [n] frames are free; otherwise it returns [None] and every
    frame it took is free again (the map still lists them, so that dropping it
    releases them a second time). *)
Theorem allocate_correct n vadr flags mm k p4 lv :
  0 ≤ n → n * PAGE_SIZE < 2 ^ 64 → good_page vadr →
  (∀ j, 0 ≤ j < n → canonical (vadr + j * PAGE_SIZE) = true) → kmem_inv k p4 lv →
  ∃ fs p' o, allocate vadr n flags mm k =
      Ok ((o, extend mm (new_mappings 0 vadr flags fs)), set_pmm p' k) ∧
    fa_inv p' ∧ list_to_set fs ⊆ fa_free (k_pmm k) ∧
    if bool_decide (Z.to_nat n ≤ size (fa_free (k_pmm k)))%nat
    then o = Some fs ∧ length fs = Z.to_nat n ∧ NoDup fs ∧
      fa_free p' = fa_free (k_pmm k) ∖ list_to_set fs
    else o = None ∧ fa_free p' = fa_free (k_pmm k).
Proof.
  intros Hn Hb Hp Hcan Hinv. case_bool_decide as Hsz.
  - destruct (allocate_ok n vadr flags mm k p4 lv) as (fs & p' & Hr & ? & ? & ? & ? & ? & _); try done.
    exists fs, p', (Some fs). done.
  - destruct (allocate_fails n vadr flags mm k p4 lv) as (fs & p' & Hr & ? & ? & ?); try done; [lia|].
    exists fs, p', None. by split_and!.
Qed.

(** Every memory map the loader builds is the empty map extended, with the
    same identifier, because the counter it is drawn from is a constant.  A
    core compares identifiers to decide whether a map is already installed:
    after one task's map was applied, applying the map of any other task
    installs nothing. *)
Theorem memory_map_switch_skipped :
  (∀ id elf s mm s', exec_map id elf s = Ok (ROk mm, s') →
    mm = extend MemoryMap_new (mm_mappings mm)) ∧
  (∀ active ms1 ms2 k a k', MemoryMap_apply active (extend MemoryMap_new ms1) k = Ok (a, k') →
    MemoryMap_apply a (extend MemoryMap_new ms2) k' = Ok (a, k')).
Proof.
  split.
  - intros id elf s [i ms] s' Hr. apply exec_map_id in Hr. simpl in Hr. by rewrite Hr.
  - intros active ms1 ms2 k a k' Ha. assert (a = Some 0) as ->.
    { unfold MemoryMap_apply in Ha. case_bool_decide as E; [inv_ok; done|].
      apply M_bind_Ok in Ha as (? & ? & _ & Ha). by inv_ok. }
    unfold MemoryMap_apply. by rewrite bool_decide_eq_true_2.
Qed.

(** Loading terminates within the number of program headers: more turns
    than that never change the result of the loop. *)
Theorem exec_headers_terminates n id elf mm s :
  exec_headers (Z.to_nat (fh_pht_len (ef_header elf)) + n) id elf 0 mm s =
    exec_headers (Z.to_nat (fh_pht_len (ef_header elf))) id elf 0 mm s.
Proof. apply exec_headers_fuel. lia. Qed.

(** The offsets [TaskProcState::apply] loads the registers from are those
    of the structure: whatever 64-bit values the structure holds, the task
    continues with exactly these. *)
Theorem procstate_apply_roundtrip st post :
  Forall field_ok (procstate_fields st) →
  procstate_apply (encode_fields (procstate_fields st) ++ post) = Ok st.
Proof.
  intros Hwf. unfold procstate_apply.
  assert (∀ j x off, procstate_fields st !! j = Some (8%nat, x) →
    off = field_offset (procstate_fields st) j →
    read_field (encode_fields (procstate_fields st) ++ post) off 8 = Ok x) as Hrd.
  { intros j x off Hj ->. apply (read_encoded_field [] _ _ j); [done| |done].
    by apply (Forall_lookup_1 _ _ _ _ Hwf Hj). }
  rewrite (Hrd 3%nat _ 24%nat eq_refl eq_refl), (Hrd 2%nat _ 16%nat eq_refl eq_refl),
    (Hrd 4%nat _ 32%nat eq_refl eq_refl), (Hrd 1%nat _ 8%nat eq_refl eq_refl), (Hrd 0%nat _ 0%nat eq_refl eq_refl),
    (Hrd 16%nat _ 128%nat eq_refl eq_refl), (Hrd 17%nat _ 136%nat eq_refl eq_refl),
    (Hrd 18%nat _ 144%nat eq_refl eq_refl), (Hrd 19%nat _ 152%nat eq_refl eq_refl),
    (Hrd 5%nat _ 40%nat eq_refl eq_refl), (Hrd 6%nat _ 48%nat eq_refl eq_refl), (Hrd 8%nat _ 64%nat eq_refl eq_refl),
    (Hrd 9%nat _ 72%nat eq_refl eq_refl), (Hrd 10%nat _ 80%nat eq_refl eq_refl),
    (Hrd 11%nat _ 88%nat eq_refl eq_refl), (Hrd 12%nat _ 96%nat eq_refl eq_refl),
    (Hrd 13%nat _ 104%nat eq_refl eq_refl), (Hrd 14%nat _ 112%nat eq_refl eq_refl),
    (Hrd 15%nat _ 120%nat eq_refl eq_refl), (Hrd 7%nat _ 56%nat eq_refl eq_refl).
  by destruct st.
Qed.
End task_proofs.
