(* ===== verification/Exec.v ===== *)
(** * Loading a whole program

    [Task::exec] ([kernel/src/proc/task.rs]) loads the segments of a file one
    after the other through the same window, and then a stack.  The lemmas of
    [Task] on one segment are put together here: what was loaded first is still
    there at the end. *)

From S2P Require Import Prelude X86 FrameAlloc WindowCache VCache Mapper Mem Elf Tar Task.

(** The program headers from [index] on: those to load, with their bytes; the
    others are skipped. *)
Inductive headers `{X86} (elf : ElfFile) : Z → list (ProgramHeader * list Z) → Prop :=
  | headers_end index : progheader_next elf index = Ok None → headers elf index []
  | headers_skip index entry index' t l :
      progheader_next elf index = Ok (Some (entry, index')) →
      ProgramType_of (ph_ptype entry) = Ok t → t ≠ Load →
      headers elf index' l → headers elf index l
  | headers_load index entry index' content l :
      progheader_next elf index = Ok (Some (entry, index')) →
      ProgramType_of (ph_ptype entry) = Ok Load → seg_ok elf entry content →
      Z.of_nat (length content) ≤ ph_mem_size entry →
      headers elf index' l → headers elf index ((entry, content) :: l).

Definition STACK_PAGES : Z := USERSTACK_SIZE / PAGE_SIZE.
Definition stack_flags `{X86} : Z := fl_union USER_ACCESSIBLE WRITABLE.

(** The frames a program needs: four per page in the worst case. *)
Definition frames_for (l : list (ProgramHeader * list Z)) : nat :=
  sum_list ((λ e, 4 * Z.to_nat (seg_pages e.1))%nat <$> l).

(** The memory map of a program with the frames of its segments. *)
Definition seg_mappings `{X86} (l : list (ProgramHeader * list Z)) (fss : list (list Z)) : list MemoryMapping :=
  mjoin (zip_with (λ e fs, new_mappings 0 (seg_page e.1) (seg_flags e.1) fs) l fss).

(** Memory that holds the bytes of a segment in the frames [fs]. *)
Definition holds (ram : gmap Z Z) (off nbytes : Z) (content fs : list Z) : Prop :=
  ∀ i, 0 ≤ i < nbytes → ram !! frame_byte fs (off + i) = Some (default 0 (content !! Z.to_nat i)).

(** The segments of a file are accepted ones. *)
Lemma headers_seg_ok `{X86} elf index l e : headers elf index l → e ∈ l → seg_ok elf e.1 e.2.
Proof.
  induction 1 as [|? ? ? ? ? ? ? ? _ IH|? entry ? content l ? ? Hok ? _ IH]; [by intros ?%elem_of_nil|done|].
  intros [->|Hin]%elem_of_cons; [exact Hok|by apply IH].
Qed.

(** They fit the loading window of a core. *)
Lemma headers_pages `{X86} elf index l :
  headers elf index l → Forall (λ e, seg_pages e.1 ≤ TMP_TASK_SIZE_PER_PROC / PAGE_SIZE) l.
Proof.
  intros Hh. apply Forall_forall. intros e He. pose proof (so_large _ _ _ (headers_seg_ok _ _ _ _ Hh He)) as Hl.
  unfold TMP_TASK_SIZE_PER_PROC, PAGE_SIZE in *. zlia.
Qed.

Section exec.
Context {X : X86} {XO : X86Ok X} {P : Type} {FA : FrameAllocator P} {FAO : FrameAllocatorOk P}.
Context {V : Type} {WC : WindowCache V} {WCO : WindowCacheOk V}.
Implicit Types (s : Machine P V).

(** What any part of loading keeps of the machine. *)
Record keeps (n : nat) (id p4 : Z) s s' : Prop := {
  kp_free : fa_free (k_pmm (mc_kmem s')) ⊆ fa_free (k_pmm (mc_kmem s));
  kp_size : (size (fa_free (k_pmm (mc_kmem s))) ≤ size (fa_free (k_pmm (mc_kmem s'))) + n)%nat;
  kp_clear m : tmp_clear (mc_kmem s) p4 id m → tmp_clear (mc_kmem s') p4 id m;
  kp_path ix : Forall (λ j, j < 512)%nat ix → (length ix ≤ 3)%nat →
    clear_path (k_mem (mc_kmem s)) p4 ix = true → clear_path (k_mem (mc_kmem s')) p4 ix = true;
  kp_room m : has_room (wc_shows (k_vc (mc_kmem s))) m → has_room (wc_shows (k_vc (mc_kmem s'))) m;
  kp_other q : good_page q → q < tmp_start id ∨ tmp_start id + TMP_TASK_SIZE_PER_PROC ≤ q →
    translate (k_mem (mc_kmem s')) p4 q = translate (k_mem (mc_kmem s)) p4 q;
  kp_ram f i : page_aligned f = true → 0 ≤ i < PAGE_SIZE → f ∉ fa_free (k_pmm (mc_kmem s)) →
    mc_ram s' !! (f + i) = mc_ram s !! (f + i);
}.

Lemma keeps_refl n id p4 s : keeps n id p4 s s.
Proof. split; try done. lia. Qed.

Lemma keeps_trans n m id p4 s1 s2 s3 :
  keeps n id p4 s1 s2 → keeps m id p4 s2 s3 → keeps (n + m) id p4 s1 s3.
Proof.
  intros [A1 A2 A3 A7 A4 A5 A6] [B1 B2 B3 B7 B4 B5 B6]. split; auto.
  - by transitivity (fa_free (k_pmm (mc_kmem s2))).
  - lia.
  - intros q Hq Hr. rewrite B5, A5 by done. done.
  - intros f i Hf Hi Hn. rewrite B6, A6 by (done || (intros ?%A1; done)). done.
Qed.

(** Loading one piece keeps the rest. *)
Lemma loaded_keeps s s' n off nbytes content fs id p4 :
  loaded s s' n off nbytes content fs → 0 ≤ id < 256 → 0 ≤ n → n * PAGE_SIZE ≤ TMP_TASK_SIZE_PER_PROC →
  0 ≤ off → off + nbytes ≤ PAGE_SIZE * n →
  remaps (4 * Z.to_nat n) p4 (pages_from 0 (tmp_start id) fs) (mc_kmem s) (mc_kmem s') →
  same_windows (wc_shows (k_vc (mc_kmem s))) (wc_shows (k_vc (mc_kmem s'))) [] →
  keeps (4 * Z.to_nat n) id p4 s s'.
Proof.
  intros [Hlen Hnd Hgf Hfr Hb Ho] Hid Hn Hsz Hoff Hfit Hrm Hsw. split.
  - apply (rm_free _ _ _ _ _ Hrm).
  - apply (rm_size _ _ _ _ _ Hrm).
  - intros m Hm j Hj. apply (rm_clear _ _ _ _ _ Hrm); [apply page_indices_lt|done|by apply Hm].
  - intros ix. apply (rm_clear _ _ _ _ _ Hrm).
  - intros m. by apply same_windows_room.
  - intros q [Hq1 Hq2] Hr. apply (rm_other _ _ _ _ _ Hrm); try done.
    intros (j & Hj & ->)%elem_of_pages_from. unfold PAGE_SIZE in *. lia.
  - intros f i Hf Hi Hnf. apply Ho. intros j Hj E. apply Hnf.
    destruct (frame_byte_lookup fs (off + j)) as (g & Hg & Eg); [rewrite Hlen; unfold PAGE_SIZE in *; lia|].
    rewrite Eg in E. pose proof (Forall_lookup_1 _ _ _ _ Hgf Hg) as [Hag _].
    assert (g = f) as <-; [|by apply (Forall_lookup_1 _ _ _ _ Hfr Hg)].
    apply page_aligned_iff in Hag, Hf. unfold PAGE_SIZE in *. zlia.
Qed.

(** What was loaded before is not touched by what keeps the machine. *)
Lemma keeps_holds n id p4 s s' off nbytes content fs m :
  keeps n id p4 s s' → Forall good_frame fs → Forall (λ f, f ∉ fa_free (k_pmm (mc_kmem s))) fs →
  length fs = Z.to_nat m → 0 ≤ off → off + nbytes ≤ PAGE_SIZE * m →
  holds (mc_ram s) off nbytes content fs → holds (mc_ram s') off nbytes content fs.
Proof.
  intros Hk Hgf Hnf Hlen Hoff Hfit Hh i Hi.
  destruct (frame_byte_lookup fs (off + i)) as (g & Hg & Eg); [rewrite Hlen; unfold PAGE_SIZE in *; lia|].
  rewrite <-(Hh i Hi), Eg. apply (kp_ram _ _ _ _ _ Hk).
  - apply (Forall_lookup_1 _ _ _ _ Hgf Hg).
  - apply Z.mod_pos_bound. unfold PAGE_SIZE. lia.
  - apply (Forall_lookup_1 _ _ _ _ Hnf Hg).
Qed.

(** The stack is one more piece, all zeros. *)
Lemma exec_stack_ok id mm s p4 lv :
  kmem_inv (mc_kmem s) p4 lv → 0 ≤ id < 256 →
  (4 * Z.to_nat STACK_PAGES ≤ size (fa_free (k_pmm (mc_kmem s))))%nat →
  tmp_clear (mc_kmem s) p4 id STACK_PAGES → has_room (wc_shows (k_vc (mc_kmem s))) 2 →
  ∃ fs s' lv', exec_stack id mm s =
      Ok (ROk (extend mm (new_mappings 0 USERSTACK_TOP stack_flags fs)), s') ∧
    kmem_inv (mc_kmem s') p4 lv' ∧ loaded s s' STACK_PAGES 0 USERSTACK_SIZE [] fs ∧
    keeps (4 * Z.to_nat STACK_PAGES) id p4 s s'.
Proof.
  intros Hinv Hid Hsz Hcl Hroom.
  assert (good_page USERSTACK_TOP) as Hgp by (split; vm_compute; done).
  destruct (reserve_ok id USERSTACK_TOP STACK_PAGES 0 stack_flags mm s p4 lv)
    as (fs & p1 & k' & lv' & Hal & Hrv & Hinv' & Hlen & Hnd & Hgf & Hfr & Htr & Hrm & Hsw); try done.
  { intros j Hj. rewrite canonical_iff. change STACK_PAGES with 128 in Hj.
    change USERSTACK_TOP with 0x7FFFFFE80000. unfold PAGE_SIZE. lia. }
  destruct (fill_and_copy (mkMachine k' (mc_ram s)) p4 lv' (tmp_start id) fs WRITABLE 0 USERSTACK_SIZE [])
    as (ram1 & ram' & Hr1 & Hr2 & Hin & Hout); try done.
  { by apply tmp_start_aligned. }
  { by rewrite Hlen. }
  simpl in Hr2. injection Hr2 as <-. rewrite Z.add_0_r in Hrv, Hr1.
  assert (loaded s (mkMachine k' ram1) STACK_PAGES 0 USERSTACK_SIZE [] fs) as Hld by (by split).
  exists fs, (mkMachine k' ram1), lv'. split_and!; try done.
  - unfold exec_stack. assert (unwrap (page_from_start USERSTACK_TOP) = Ok USERSTACK_TOP) as Hp.
    { apply unwrap_Ok. destruct Hgp as [Hc Ha]. by rewrite page_from_start_spec, Ha. }
    run_step (lift_run _ s _ Hp). run_step Hal. run_step Hrv. by run_step Hr1.
  - eapply loaded_keeps; try done.
Qed.

(** Segment [e] is in the frames [fs]. *)
Definition seg_in s (e : ProgramHeader * list Z) (fs : list Z) : Prop :=
  length fs = Z.to_nat (seg_pages e.1) ∧ Forall good_frame fs ∧
  holds (mc_ram s) (seg_off e.1) (ph_mem_size e.1) e.2 fs.

(** Frames taken while the machine went from [s] to [s']. *)
Definition taken s s' (fs : list Z) : Prop :=
  NoDup fs ∧ Forall (λ f, f ∈ fa_free (k_pmm (mc_kmem s)) ∧ f ∉ fa_free (k_pmm (mc_kmem s'))) fs.

Lemma taken_app s1 s2 s3 fs gs n id p4 m :
  keeps n id p4 s1 s2 → keeps m id p4 s2 s3 → taken s1 s2 fs → taken s2 s3 gs → taken s1 s3 (fs ++ gs).
Proof.
  intros K1 K2 [Hf1 Hf2] [Hg1 Hg2]. rewrite Forall_forall in Hf2, Hg2. split.
  - apply NoDup_app. split_and!; try done. intros f Hf Hg. by apply (Hf2 f Hf), Hg2.
  - apply Forall_forall. intros f [Hf|Hg]%elem_of_app.
    + destruct (Hf2 f Hf) as [? Hn]. split; [done|]. intros ?%(kp_free _ _ _ _ _ K2). done.
    + destruct (Hg2 f Hg) as [? ?]. split; [|done]. by apply (kp_free _ _ _ _ _ K1).
Qed.

Lemma loaded_taken s s' n off nbytes content fs : loaded s s' n off nbytes content fs → taken s s' fs.
Proof.
  intros Hl. split; [apply Hl|]. eapply Forall_impl; [apply (ld_fresh _ _ _ _ _ _ _ Hl)|].
  by intros f (? & ? & _).
Qed.

Lemma keeps_seg_in n id p4 s s' elf e fs :
  keeps n id p4 s s' → seg_ok elf e.1 e.2 → Forall (λ f, f ∉ fa_free (k_pmm (mc_kmem s))) fs →
  seg_in s e fs → seg_in s' e fs.
Proof.
  intros Hk Hok Hnf (Hlen & Hgf & Hh). destruct (seg_bounds _ _ _ Hok) as (H0 & Ho & Hfit & _).
  split_and!; try done. eapply keeps_holds; try done. lia.
Qed.

(** One turn of the loop over the headers. *)
Lemma exec_headers_turn fuel id elf index entry index' t mm s :
  progheader_next elf index = Ok (Some (entry, index')) → ProgramType_of (ph_ptype entry) = Ok t →
  fh_pht_len (ef_header elf) ≤ index + Z.of_nat fuel →
  ∃ fuel', fuel = S fuel' ∧ index' = index + 1 ∧
    exec_headers fuel id elf index mm s =
      (r ← (if bool_decide (t = Load) then exec_load id elf entry mm else mret (ROk mm));
       match r with RErr e => mret (RErr e) | ROk mm => exec_headers fuel' id elf index' mm end) s.
Proof.
  intros Hn Ht Hfuel. destruct (progheader_next_index _ _ _ _ Hn) as [-> Hlt].
  destruct fuel as [|fuel]; [lia|]. exists fuel. split_and!; try done. cbn [exec_headers].
  run_step (lift_run _ s _ Hn). by run_step (lift_run _ s _ Ht).
Qed.

Lemma exec_headers_ok elf index l : headers elf index l →
  ∀ fuel id mm s p4 lv n, fh_pht_len (ef_header elf) ≤ index + Z.of_nat fuel →
  kmem_inv (mc_kmem s) p4 lv → 0 ≤ id < 256 →
  (frames_for l ≤ size (fa_free (k_pmm (mc_kmem s))))%nat →
  tmp_clear (mc_kmem s) p4 id n → Forall (λ e, seg_pages e.1 ≤ n) l →
  has_room (wc_shows (k_vc (mc_kmem s))) 2 →
  ∃ fss s' lv', exec_headers fuel id elf index mm s = Ok (ROk (extend mm (seg_mappings l fss)), s') ∧
    kmem_inv (mc_kmem s') p4 lv' ∧ keeps (frames_for l) id p4 s s' ∧
    Forall2 (seg_in s') l fss ∧ taken s s' (mjoin fss).
Proof.
  induction 1 as [index Hn|index entry index' t l Hn Ht Hne _ IH|index entry index' content l Hn Ht Hok Hc _ IH];
    intros fuel id mm s p4 lv n Hfuel Hinv Hid Hsz Hcl Hall Hroom.
  - exists [], s, lv. split_and!; try done; [|apply keeps_refl|split; constructor].
    assert (exec_headers fuel id elf index mm s = Ok (ROk mm, s)) as ->.
    { destruct fuel; cbn [exec_headers]; by run_step (lift_run _ s _ Hn). }
    unfold extend, seg_mappings. simpl. rewrite app_nil_r. by destruct mm.
  - destruct (exec_headers_turn fuel id elf index entry index' t mm s Hn Ht Hfuel) as (fuel' & -> & -> & ->).
    rewrite bool_decide_eq_false_2 by done. apply (IH fuel' id mm s p4 lv n); try done. lia.
  - destruct (exec_headers_turn fuel id elf index entry index' Load mm s Hn Ht Hfuel) as (fuel' & -> & -> & ->).
    rewrite bool_decide_eq_true_2 by done. apply Forall_cons in Hall as [Hpn Hall]. simpl in Hpn.
    change (frames_for ((entry, content) :: l)) with (4 * Z.to_nat (seg_pages entry) + frames_for l)%nat in *.
    destruct (seg_bounds _ _ _ Hok) as (Hn0 & Hoff & Hfit & _).
    destruct (exec_load_ok id elf entry content mm s p4 lv) as (fs & s1 & lv1 & Hr & Hinv1 & Hld & Hrm & Hsw); try done.
    { lia. }
    { intros j Hj. apply Hcl. lia. }
    assert (keeps (4 * Z.to_nat (seg_pages entry)) id p4 s s1) as Hk1.
    { eapply loaded_keeps; try done; [apply (so_large _ _ _ Hok)|lia]. }
    destruct (IH fuel' id (extend mm (new_mappings 0 (seg_page entry) (seg_flags entry) fs)) s1 p4 lv1 n)
      as (fss & s' & lv' & Hr' & Hinv' & Hk' & Hin & Htk); try done.
    { lia. }
    { pose proof (kp_size _ _ _ _ _ Hk1). lia. }
    { by apply Hk1. }
    { by apply Hk1. }
    exists (fs :: fss), s', lv'. split_and!; try done.
    + run_step Hr. rewrite Hr'. unfold extend, seg_mappings. simpl. by rewrite <-app_assoc.
    + by eapply keeps_trans.
    + constructor; [|done]. eapply (keeps_seg_in _ _ _ s1 s' elf (entry, content)); try done.
      * eapply Forall_impl; [apply (ld_fresh _ _ _ _ _ _ _ Hld)|]. by intros f (_ & ? & _).
      * split_and!; [apply Hld..|]. exact (ld_bytes _ _ _ _ _ _ _ Hld).
    + eapply taken_app; try done. by eapply loaded_taken.
Qed.

Lemma exec_map_ok id elf l s p4 lv n :
  headers elf 0 l → kmem_inv (mc_kmem s) p4 lv → 0 ≤ id < 256 →
  (frames_for l + 4 * Z.to_nat STACK_PAGES ≤ size (fa_free (k_pmm (mc_kmem s))))%nat →
  tmp_clear (mc_kmem s) p4 id n → Forall (λ e, seg_pages e.1 ≤ n) l → STACK_PAGES ≤ n →
  has_room (wc_shows (k_vc (mc_kmem s))) 2 →
  ∃ fss stack s' lv', exec_map id elf s =
      Ok (ROk (extend MemoryMap_new
        (seg_mappings l fss ++ new_mappings 0 USERSTACK_TOP stack_flags stack)), s') ∧
    kmem_inv (mc_kmem s') p4 lv' ∧ Forall2 (seg_in s') l fss ∧
    length stack = Z.to_nat STACK_PAGES ∧ holds (mc_ram s') 0 USERSTACK_SIZE [] stack ∧
    taken s s' (mjoin fss ++ stack) ∧ keeps (frames_for l + 4 * Z.to_nat STACK_PAGES) id p4 s s'.
Proof.
  intros Hh Hinv Hid Hsz Hcl Hall Hst Hroom.
  destruct (exec_headers_ok elf 0 l Hh (Z.to_nat (fh_pht_len (ef_header elf))) id MemoryMap_new s p4 lv n)
    as (fss & s1 & lv1 & Hr1 & Hinv1 & Hk1 & Hin1 & Htk1); try done; try lia.
  destruct (exec_stack_ok id (extend MemoryMap_new (seg_mappings l fss)) s1 p4 lv1)
    as (stack & s2 & lv2 & Hr2 & Hinv2 & Hld & Hk2); try done.
  { pose proof (kp_size _ _ _ _ _ Hk1). lia. }
  { intros j Hj. apply (kp_clear _ _ _ _ _ Hk1 n Hcl). lia. }
  { by apply Hk1. }
  exists fss, stack, s2, lv2. split_and!; try done; [| |apply Hld|exact (ld_bytes _ _ _ _ _ _ _ Hld)| |].
  - unfold exec_map. run_step Hr1. run_step Hr2. unfold extend. simpl. by rewrite <-?app_assoc.
  - assert (Forall (λ f, f ∉ fa_free (k_pmm (mc_kmem s1))) (mjoin fss)) as Hnf.
    { eapply Forall_impl; [apply Htk1|]. by intros f [_ ?]. }
    clear -Hh Hin1 Hk2 Hnf XO FAO WCO. revert fss Hin1 Hnf.
    induction Hh as [|? ? ? ? ? ? ? ? _ IH|? entry ? content l ? ? Hok ? _ IH]; intros fss Hin Hnf; [..|].
    + by apply Forall2_nil_inv_l in Hin as ->.
    + by apply IH.
    + apply Forall2_cons_inv_l in Hin as (fs & fss' & Hfs & Hin & ->). simpl in Hnf.
      apply Forall_app in Hnf as [Hnf1 Hnf2]. constructor; [|by apply IH].
      by eapply (keeps_seg_in _ _ _ s1 s2 elf (entry, content)).
  - eapply taken_app; try done. by eapply loaded_taken.
  - by eapply keeps_trans.
Qed.

(** C8. Loading a program whose segments pass the checks and have no more bytes
    in the file than in memory ([headers]; see [exec_load_overlong_panics]),
    with enough free frames, succeeds.  The map of the new task has the pages of every segment
    and of the stack, on frames that are all different, were free and are not
    free any more.  Every segment holds its bytes of the file followed by
    zeros, also after the segments that were loaded later; the stack is
    zeroed; no page outside the loading window changes its translation. *)
Theorem exec_map_correct id elf l s p4 lv n :
  headers elf 0 l → kmem_inv (mc_kmem s) p4 lv → 0 ≤ id < 256 →
  (frames_for l + 4 * Z.to_nat STACK_PAGES ≤ size (fa_free (k_pmm (mc_kmem s))))%nat →
  tmp_clear (mc_kmem s) p4 id n → Forall (λ e, seg_pages e.1 ≤ n) l → STACK_PAGES ≤ n →
  has_room (wc_shows (k_vc (mc_kmem s))) 2 →
  ∃ fss stack s' lv', exec_map id elf s =
      Ok (ROk (extend MemoryMap_new
        (seg_mappings l fss ++ new_mappings 0 USERSTACK_TOP stack_flags stack)), s') ∧
    kmem_inv (mc_kmem s') p4 lv' ∧ Forall2 (seg_in s') l fss ∧
    length stack = Z.to_nat STACK_PAGES ∧ holds (mc_ram s') 0 USERSTACK_SIZE [] stack ∧
    taken s s' (mjoin fss ++ stack) ∧ keeps (frames_for l + 4 * Z.to_nat STACK_PAGES) id p4 s s'.
Proof. apply exec_map_ok. Qed.
End exec.
