(* ===== verification/Sched.v ===== *)
(** * The scheduler

    Models the rest of [kernel/src/proc/task.rs]: the task list, the clock
    tick, the end of a task and [exec_initrd], with the part of [ProcInfo]
    ([kernel/src/proc/mod.rs]) they use.  Tasks are shared ([Arc]): the list
    and the processors hold references into a store of tasks, and a task is
    dropped with its last reference.

    An operation of a processor is one step.  What the other processors do
    meanwhile is visible to the code only through locks it fails to take, and
    that is a parameter of [tick]: whether the task list is busy, and which
    tasks are locked. *)

From S2P Require Import Prelude X86 FrameAlloc WindowCache VCache Mapper Mem Elf Tar Task.

Definition MAX_TICK_MISS : Z := 10.

Record Task := mkTask {
  t_id : Z;
  t_priority : Z;
  t_procstate : TaskProcState;
  t_memory_map : MemoryMap;
  t_state : TaskState;
}.

Record ProcInfo := mkProcInfo {
  pi_tick_miss : Z;
  pi_current : option nat;
  pi_quantum : Z;
  pi_active : option Z;
}.

Record Sched (P V : Type) := mkSched {
  sc_machine : Machine P V;
  sc_tasks : list nat;
  sc_heap : gmap nat Task;
  sc_next : nat;
  sc_idcount : Z;
  sc_clock : Z;
  sc_procs : gmap Z ProcInfo;
}.
Arguments mkSched {P V}.
Arguments sc_machine {P V}.
Arguments sc_tasks {P V}.
Arguments sc_heap {P V}.
Arguments sc_next {P V}.
Arguments sc_idcount {P V}.
Arguments sc_clock {P V}.
Arguments sc_procs {P V}.

Definition set_state (st : TaskState) (t : Task) : Task :=
  mkTask (t_id t) (t_priority t) (t_procstate t) (t_memory_map t) st.
Definition set_procstate (ps : TaskProcState) (t : Task) : Task :=
  mkTask (t_id t) (t_priority t) ps (t_memory_map t) (t_state t).
Definition set_current (c : option nat) (p : ProcInfo) : ProcInfo :=
  mkProcInfo (pi_tick_miss p) c (pi_quantum p) (pi_active p).
Definition set_tick_miss (n : Z) (p : ProcInfo) : ProcInfo :=
  mkProcInfo n (pi_current p) (pi_quantum p) (pi_active p).
Definition set_active (a : option Z) (p : ProcInfo) : ProcInfo :=
  mkProcInfo (pi_tick_miss p) (pi_current p) (pi_quantum p) a.

(** The parts of the kernel the scheduler reads and never changes. *)
Record Env := mkEnv {
  env_numcores : Z;
  env_initrd : option Initrd;
  env_image : list Z;
  env_ucode_seg : Z;
  env_udata_seg : Z;
  env_interrupt_flag : Z;
}.

Definition INIT_PATH : list Z := bytes_of_string "/bin/init".

Section sched.
Context {X : X86} {P : Type} {FA : FrameAllocator P} {V : Type} {WC : WindowCache V}.
Context (env : Env).
Implicit Types (s : Sched P V).

Definition set_heap h s :=
  mkSched (sc_machine s) (sc_tasks s) h (sc_next s) (sc_idcount s) (sc_clock s) (sc_procs s).
Definition set_tasks l s :=
  mkSched (sc_machine s) l (sc_heap s) (sc_next s) (sc_idcount s) (sc_clock s) (sc_procs s).
Definition set_clock c s :=
  mkSched (sc_machine s) (sc_tasks s) (sc_heap s) (sc_next s) (sc_idcount s) c (sc_procs s).
Definition set_procs ps s :=
  mkSched (sc_machine s) (sc_tasks s) (sc_heap s) (sc_next s) (sc_idcount s) (sc_clock s) ps.
Definition on_machine {A} (m : M (Machine P V) A) : M (Sched P V) A :=
  zoom sc_machine
    (λ k s, mkSched k (sc_tasks s) (sc_heap s) (sc_next s) (sc_idcount s) (sc_clock s) (sc_procs s)) m.

(** [ProcInfo::instance()]. *)
Definition pinfo (core : Z) : M (Sched P V) ProcInfo := λ s,
  p ← unwrap (sc_procs s !! core); mret (p, s).
Definition put_pinfo (core : Z) (p : ProcInfo) : M (Sched P V) unit :=
  modify (λ s, set_procs (<[core := p]> (sc_procs s)) s).

(** Taking the lock of a task. *)
Definition task_at (r : nat) : M (Sched P V) Task := λ s,
  t ← of_option Undefined (sc_heap s !! r); mret (t, s).
Definition put_task (r : nat) (t : Task) : M (Sched P V) unit :=
  modify (λ s, set_heap (<[r := t]> (sc_heap s)) s).

Definition life_expectancy (t : Task) : res Z :=
  a ← add64 (t_priority t) 10; mul64 a (env_numcores env).

(** [Task::new_locked]. *)
Definition new_locked (procstate : TaskProcState) (mm : MemoryMap) : M (Sched P V) Z := λ s,
  id ← add64 (sc_idcount s) 1;
  mret (id, mkSched (sc_machine s) (sc_tasks s ++ [sc_next s])
    (<[sc_next s := mkTask id 0 procstate mm Pending]> (sc_heap s)) (S (sc_next s)) id
    (sc_clock s) (sc_procs s)).

Definition exec (core : Z) (elf : ElfFile) : M (Sched P V) ExecResult :=
  r ← on_machine (exec_map core elf);
  match r with
  | RErr e => mret e
  | ROk mm =>
    let state := TaskProcState_new (env_ucode_seg env) (env_udata_seg env)
                   (env_interrupt_flag env) (entrypoint (ef_header elf)) in
    id ← new_locked state mm;
    mret (ExecSuccess id)
  end.

Definition exec_raw (core : Z) (content : list Z) (base : Z) : M (Sched P V) ExecResult :=
  o ← lift (ElfFile_parse content base);
  match o with Some elf => exec core elf | None => mret ParseError end.

Definition exec_initrd (core : Z) (path : list Z) : M (Sched P V) ExecResult :=
  o ← lift (open_file (env_initrd env) path);
  match o with
  | Some (off, len) =>
    exec_raw core (sub_bytes (env_image env) (Z.to_nat off) (Z.to_nat len)) (INITRD_START + off)
  | None => mret FileError
  end.

(** The task whose guard is kept, with the index that was recorded for it. *)
Fixpoint best_task (heap : gmap nat Task) (locked : nat → bool) (i : nat) (l : list nat)
    (best : option (nat * nat)) : res (option (nat * nat)) :=
  match l with
  | [] => mret best
  | r :: l' =>
    if locked r then best_task heap locked (S i) l' best else
    t ← of_option Undefined (heap !! r);
    if bool_decide (t_state t ≠ Pending) then best_task heap locked (S i) l' best else
    match best with
    | Some (index, b) =>
      bt ← of_option Undefined (heap !! b);
      best_task heap locked (S i) l'
        (if t_priority bt <? t_priority t then Some (index, r) else best)
    | None => best_task heap locked (S i) l' (Some (i, r))
    end
  end.

(** Saving the state of the interrupted task. *)
Definition save_current (p : ProcInfo) (proc_state : TaskProcState) : M (Sched P V) unit :=
  match pi_current p with
  | Some r => t ← task_at r; put_task r (set_procstate proc_state t)
  | None => mret tt
  end.

(** Running [/bin/init] when there is no task. *)
Definition ensure_init (core : Z) : M (Sched P V) unit :=
  l ← gets sc_tasks;
  match l with
  | [] => r ← exec_initrd core INIT_PATH;
          match r with ExecSuccess _ => mret tt | _ => fail Explicit end
  | _ => mret tt
  end.

(** [take_if]: the current task is released when its time is over. *)
Definition release_current (core : Z) : M (Sched P V) unit :=
  p ← pinfo core;
  match pi_current p with
  | None => mret tt
  | Some r =>
    t ← task_at r;
    match t_state t with
    | Pending => fail Unreachable
    | Running since =>
      clock ← gets sc_clock;
      d ← lift (sub64 clock since);
      life ← lift (life_expectancy t);
      if life <=? d
      then _ ← put_pinfo core (set_current None p); put_task r (set_state Pending t)
      else mret tt
    end
  end.

(** Looking for a task to run. *)
Definition pick_task (core : Z) (clock : Z) (locked : nat → bool) : M (Sched P V) unit :=
  p ← pinfo core;
  match pi_current p with
  | Some _ => mret tt
  | None =>
    s ← get;
    best ← lift (best_task (sc_heap s) locked 0 (sc_tasks s) None);
    match best with
    | None => mret tt
    | Some (index, b) =>
      t ← task_at b;
      _ ← put_task b (set_state (Running clock) t);
      r ← lift (of_option Bounds (sc_tasks s !! index));
      put_pinfo core (set_current (Some r) p)
    end
  end.

Definition tick (core : Z) (proc_state : TaskProcState) (busy : bool) (locked : nat → bool) :
    M (Sched P V) unit :=
  p ← pinfo core;
  if negb (MAX_TICK_MISS <? pi_tick_miss p) && busy then
    n ← lift (add64 (pi_tick_miss p) 1);
    put_pinfo core (set_tick_miss n p)
  else
  let p := set_tick_miss 0 p in
  _ ← put_pinfo core p;
  clock ← gets sc_clock;
  _ ← modify (set_clock (wrap 64 (clock + 1)));
  _ ← save_current p proc_state;
  _ ← ensure_init core;
  _ ← release_current core;
  pick_task core clock locked.

(** Dropping a reference: the task goes with its last one. *)
Definition is_current (ps : gmap Z ProcInfo) (r : nat) : bool :=
  negb (bool_decide (map_Forall (λ _ p, pi_current p ≠ Some r) ps)).
Definition drop_ref (r : nat) : M (Sched P V) unit :=
  s ← get;
  if bool_decide (r ∈ sc_tasks s) || is_current (sc_procs s) r then mret tt else
  match sc_heap s !! r with
  | None => mret tt
  | Some t =>
    _ ← on_machine (on_mem (MemoryMap_drop (t_memory_map t)));
    modify (λ s, set_heap (delete r (sc_heap s)) s)
  end.

(** The position of the first task with the identifier. *)
Definition find_id (heap : gmap nat Task) (id : Z) (l : list nat) : option nat :=
  fst <$> list_find (λ r, (t_id <$> heap !! r) = Some id) l.

Definition exit_current (core : Z) (exit_code : Z) : M (Sched P V) unit :=
  p ← pinfo core;
  match pi_current p with
  | None => mret tt
  | Some r =>
    _ ← put_pinfo core (set_current None p);
    t ← task_at r;
    s ← get;
    match find_id (sc_heap s) (t_id t) (sc_tasks s) with
    | None => drop_ref r
    | Some index =>
      _ ← put (set_tasks (delete index (sc_tasks s)) s);
      drop_ref r
    end
  end.

(** [continue_current] up to the jump: the map of the current task is applied
    and its registers are the result; [None] is the event loop.  The timer is
    reset, when the caller asks for it, by the caller's model. *)
Definition continue_current (core : Z) : M (Sched P V) (option TaskProcState) :=
  p ← pinfo core;
  match pi_current p with
  | None => mret None
  | Some r =>
    t ← task_at r;
    a ← on_machine (on_mem (MemoryMap_apply (pi_active p) (t_memory_map t)));
    _ ← put_pinfo core (set_active a p);
    mret (Some (t_procstate t))
  end.
End sched.

(** ** The invariant

    Scheduling reads only part of the state: who is in the list, the
    identifier, priority and state of each task, and the current task of each
    processor.  States that agree on that part are equivalent. *)

Definition task_view (t : Task) : Z * Z * TaskState := (t_id t, t_priority t, t_state t).
Definition heap_view (h : gmap nat Task) : gmap nat (Z * Z * TaskState) := task_view <$> h.
Definition procs_view (ps : gmap Z ProcInfo) : gmap Z (option nat) := pi_current <$> ps.

Definition sched_equiv {P V} (s1 s2 : Sched P V) : Prop :=
  sc_tasks s1 = sc_tasks s2 ∧ sc_next s1 = sc_next s2 ∧ sc_idcount s1 = sc_idcount s2 ∧
  sc_clock s1 = sc_clock s2 ∧ heap_view (sc_heap s1) = heap_view (sc_heap s2) ∧
  procs_view (sc_procs s1) = procs_view (sc_procs s2).

#[global] Instance sched_equiv_equivalence {P V} : Equivalence (@sched_equiv P V).
Proof.
  unfold sched_equiv. split; [done|intros ???; naive_solver|].
  intros s1 s2 s3 (?&?&?&?&?&?) (?&?&?&?&?&?). split_and!; congruence.
Qed.

(** Task [r] is current on core [c]. *)
Definition current_on {P V} (s : Sched P V) (c : Z) (r : nat) : Prop :=
  procs_view (sc_procs s) !! c = Some (Some r).
Definition has_view {P V} (s : Sched P V) (r : nat) (v : Z * Z * TaskState) : Prop :=
  heap_view (sc_heap s) !! r = Some v.

Record sched_inv {P V} (s : Sched P V) : Prop := {
  si_nodup : NoDup (sc_tasks s);
  si_dom r : r ∈ sc_tasks s ↔ is_Some (heap_view (sc_heap s) !! r);
  si_next r : r ∈ sc_tasks s → (r < sc_next s)%nat;
  si_clock : 0 ≤ sc_clock s;
  si_idcount : 0 ≤ sc_idcount s;
  si_ids r i p st : has_view s r (i, p, st) → 0 < i ≤ sc_idcount s;
  si_unique r1 r2 i p1 p2 st1 st2 :
    has_view s r1 (i, p1, st1) → has_view s r2 (i, p2, st2) → r1 = r2;
  si_priority r i p st : has_view s r (i, p, st) → p = 0;
  si_current c r : current_on s c r →
    ∃ i p since, has_view s r (i, p, Running since) ∧ 0 ≤ since < sc_clock s;
  si_running r i p since : has_view s r (i, p, Running since) → ∃ c, current_on s c r;
  si_exclusive c1 c2 r : current_on s c1 r → current_on s c2 r → c1 = c2;
}.

#[global] Instance sched_inv_proper {P V} : Proper (sched_equiv ==> iff) (@sched_inv P V).
Proof.
  assert (∀ s1 s2 : Sched P V, sched_equiv s1 s2 → sched_inv s1 → sched_inv s2) as Himp.
  { intros s1 s2 (Ht & Hn & Hi & Hc & Hh & Hp) []. unfold has_view, current_on in *.
    split; unfold has_view, current_on; rewrite <-?Ht, <-?Hn, <-?Hi, <-?Hc, <-?Hh; try done;
      setoid_rewrite <-Hp; done. }
  intros s1 s2 He. split; apply Himp; [done|by symmetry].
Qed.

(** Missed ticks stay within one of the limit. *)
Definition miss_ok {P V} (s : Sched P V) : Prop :=
  map_Forall (λ _ p, 0 ≤ pi_tick_miss p ≤ MAX_TICK_MISS + 1) (sc_procs s).

(** The state before the first tick. *)
Definition sched_start {P V} (s : Sched P V) : Prop :=
  sc_tasks s = [] ∧ sc_heap s = ∅ ∧ sc_idcount s = 0 ∧ 0 ≤ sc_clock s ∧
  map_Forall (λ _ p, pi_current p = None ∧ pi_tick_miss p = 0) (sc_procs s).

Section sched_proofs.
Context {X : X86} {P : Type} {FA : FrameAllocator P} {V : Type} {WC : WindowCache V}.
Context (env : Env).
Implicit Types (s : Sched P V).

Lemma current_on_iff s c r :
  current_on s c r ↔ ∃ p, sc_procs s !! c = Some p ∧ pi_current p = Some r.
Proof.
  unfold current_on, procs_view. rewrite lookup_fmap_Some. naive_solver.
Qed.

Lemma has_view_iff s r v : has_view s r v ↔ ∃ t, sc_heap s !! r = Some t ∧ task_view t = v.
Proof. unfold has_view, heap_view. rewrite lookup_fmap_Some. naive_solver. Qed.

Lemma sched_start_inv s : sched_start s → sched_inv s.
Proof.
  intros (Ht & Hh & Hi & Hc & Hp).
  assert (∀ c r, ¬ current_on s c r) as Hno.
  { intros c r (p & Hl & Hr)%current_on_iff. apply Hp in Hl as [? _]. congruence. }
  assert (∀ r v, ¬ has_view s r v) as Hnh.
  { intros r v (t & Hl & _)%has_view_iff. rewrite Hh in Hl. done. }
  split; rewrite ?Ht, ?Hi; try done; try lia; [constructor|..]; intros.
  - rewrite Hh. unfold heap_view. rewrite fmap_empty, lookup_empty, is_Some_alt. set_solver.
  - set_solver.
  - by edestruct Hnh.
  - by edestruct Hnh.
  - by edestruct Hnh.
  - by edestruct Hno.
  - by edestruct Hnh.
  - by edestruct Hno.
Qed.

(** ** The basic changes of state *)

(** A task whose view stays the same is the same for the scheduler. *)
Lemma put_task_equiv s r t t' :
  sc_heap s !! r = Some t → task_view t' = task_view t →
  sched_equiv (set_heap (<[r := t']> (sc_heap s)) s) s.
Proof.
  intros Hr Hv. unfold sched_equiv, heap_view. simpl. split_and!; try done.
  rewrite fmap_insert, Hv. rewrite insert_id; [done|]. rewrite lookup_fmap, Hr. done.
Qed.

Lemma put_pinfo_equiv s c p p' :
  sc_procs s !! c = Some p → pi_current p' = pi_current p →
  sched_equiv (set_procs (<[c := p']> (sc_procs s)) s) s.
Proof.
  intros Hc Hv. unfold sched_equiv, procs_view. simpl. split_and!; try done.
  rewrite fmap_insert, Hv. rewrite insert_id; [done|]. rewrite lookup_fmap, Hc. done.
Qed.

Lemma set_clock_inv s c : sc_clock s ≤ c → sched_inv s → sched_inv (set_clock c s).
Proof.
  intros Hc []. split; unfold has_view, current_on in *; simpl; try done; [lia|].
  intros c' r Hcur. destruct (si_current0 _ _ Hcur) as (i & p & since & Hv & ?).
  exists i, p, since. split; [done|lia].
Qed.

Lemma lookup_heap_view_insert h r t r' v :
  heap_view (<[r := t]> h) !! r' = Some v ↔
    (r' = r ∧ v = task_view t) ∨ (r' ≠ r ∧ heap_view h !! r' = Some v).
Proof.
  unfold heap_view. rewrite fmap_insert, lookup_insert_Some. naive_solver.
Qed.

Lemma lookup_procs_view_insert ps c p c' v :
  procs_view (<[c := p]> ps) !! c' = Some v ↔
    (c' = c ∧ v = pi_current p) ∨ (c' ≠ c ∧ procs_view ps !! c' = Some v).
Proof.
  unfold procs_view. rewrite fmap_insert, lookup_insert_Some. naive_solver.
Qed.

(** The state with a new task at the end of the list. *)
Definition with_task t s :=
  mkSched (sc_machine s) (sc_tasks s ++ [sc_next s]) (<[sc_next s := t]> (sc_heap s))
    (S (sc_next s)) (t_id t) (sc_clock s) (sc_procs s).

Lemma with_task_inv s t :
  sched_inv s → t_id t = sc_idcount s + 1 → t_priority t = 0 → t_state t = Pending →
  sched_inv (with_task t s).
Proof.
  intros Hinv Hid Hpr Hst. pose proof Hinv as [].
  assert (sc_next s ∉ sc_tasks s) as Hfresh by (intros ?%si_next0; lia).
  assert (∀ r v, has_view (with_task t s) r v ↔
    (r = sc_next s ∧ v = task_view t) ∨ (r ≠ sc_next s ∧ has_view s r v)) as Hhv.
  { intros r v. apply lookup_heap_view_insert. }
  assert (∀ v, ¬ has_view s (sc_next s) v) as Hnone.
  { intros v Hv. apply Hfresh, si_dom0. eauto. }
  assert (task_view t = (sc_idcount s + 1, 0, Pending)) as Htv
    by (unfold task_view; by rewrite Hid, Hpr, Hst).
  split; cbn [sc_tasks sc_next sc_clock sc_idcount with_task]; try done.
  - apply NoDup_app. split_and!; [done|set_solver|apply NoDup_singleton].
  - intros r. rewrite elem_of_app, list_elem_of_singleton, si_dom0.
    split.
    + intros [[v Hv]| ->]; eexists; apply Hhv; [right|by left]. split; [|exact Hv].
      intros ->. by eapply Hnone.
    + intros [v [[-> _]|[_ Hv]]%Hhv]; [by right|left; by eexists].
  - intros r [Hr|Hr%list_elem_of_singleton]%elem_of_app; [apply si_next0 in Hr; lia|lia].
  - lia.
  - intros r i p st. rewrite Hhv, Htv, Hid. intros [[_ [= -> _ _]]|[_ Hv]]; [lia|].
    apply si_ids0 in Hv. lia.
  - intros r1 r2 i p1 p2 st1 st2. rewrite !Hhv, Htv.
    intros [[-> [= -> -> ->]]|[_ H1]] [[-> E2]|[_ H2]]; [done| | |by eapply si_unique0].
    + apply si_ids0 in H2. lia.
    + injection E2 as -> -> ->. apply si_ids0 in H1. lia.
  - intros r i p st. rewrite Hhv, Htv. intros [[_ [= _ -> _]]|[_ Hv]]; [done|by eapply si_priority0].
  - intros c r Hcur. destruct (si_current0 c r Hcur) as (i & p & since & Hv & ?).
    exists i, p, since. split; [|done]. apply Hhv. right. split; [|done]. intros ->. by eapply Hnone.
  - intros r i p since. rewrite Hhv, Htv. intros [[_ [=]]|[_ Hv]]. by eapply si_running0.
Qed.

(** The state in which core [c] runs [o] and task [r] is in state [st]. *)
Definition with_state (c : Z) p (o : option nat) (r : nat) t st s : Sched P V :=
  set_heap (<[r := set_state st t]> (sc_heap s))
    (set_procs (<[c := set_current o p]> (sc_procs s)) s).

Lemma with_state_view s c p o r t st r' v :
  has_view (with_state c p o r t st s) r' v ↔
    (r' = r ∧ v = (t_id t, t_priority t, st)) ∨ (r' ≠ r ∧ has_view s r' v).
Proof. apply lookup_heap_view_insert. Qed.

Lemma with_state_current s c p o r t st c' r' :
  current_on (with_state c p o r t st s) c' r' ↔
    (c' = c ∧ o = Some r') ∨ (c' ≠ c ∧ current_on s c' r').
Proof. unfold current_on. simpl. rewrite lookup_procs_view_insert. simpl. naive_solver. Qed.

(** What every change of one task's state keeps. *)
Lemma with_state_inv s c p o r t st :
  sched_inv s → sc_heap s !! r = Some t →
  (∀ c' r', current_on (with_state c p o r t st s) c' r' →
    if bool_decide (r' = r) then ∃ since, st = Running since ∧ 0 ≤ since < sc_clock s
    else ∃ c'', current_on s c'' r') →
  (∀ since, st = Running since → o = Some r) →
  (∀ c' r', r' ≠ r → current_on s c' r' → current_on (with_state c p o r t st s) c' r') →
  (∀ c1 c2 r', current_on (with_state c p o r t st s) c1 r' →
    current_on (with_state c p o r t st s) c2 r' → c1 = c2) →
  sched_inv (with_state c p o r t st s).
Proof.
  intros [] Hr Hcur Hrun Hkeep Hex.
  assert (has_view s r (task_view t)) as Hv by (apply has_view_iff; eauto).
  split; cbn [sc_tasks sc_next sc_clock sc_idcount with_state set_heap set_procs]; try done.
  - intros r'. rewrite si_dom0. split.
    + intros [v Hv']. destruct (decide (r' = r)) as [->|]; eexists; apply with_state_view; [by left|].
      right. split; [done|exact Hv'].
    + intros [v [[-> _]|[_ Hv']]%with_state_view]; [by eexists|by eexists].
  - intros r' i pr st' [[_ [= -> _ _]]|[_ Hv']]%with_state_view; by eapply si_ids0.
  - intros r1 r2 i p1 p2 st1 st2 H1%with_state_view H2%with_state_view.
    destruct H1 as [[-> [= -> -> ->]]|[? H1]], H2 as [[-> E]|[? H2]]; try done;
      [|injection E as -> -> ->|]; by eapply si_unique0.
  - intros r' i pr st' [[_ [= _ -> _]]|[_ Hv']]%with_state_view; by eapply si_priority0.
  - intros c' r' Hc'. specialize (Hcur c' r' Hc'). case_bool_decide as Hd.
    + subst r'. destruct Hcur as (since & -> & ?). exists (t_id t), (t_priority t), since.
      split; [|done]. apply with_state_view. by left.
    + destruct Hcur as [c'' Hc'']. destruct (si_current0 _ _ Hc'') as (i & pr & since & Hv' & ?).
      exists i, pr, since. split; [|done]. apply with_state_view. by right.
  - intros r' i pr since [[-> [= -> -> <-]]|[Hne Hv']]%with_state_view.
    + exists c. apply with_state_current. left. split; [done|]. by eapply Hrun.
    + destruct (si_running0 _ _ _ _ Hv') as [c' Hc']. exists c'. by apply Hkeep.
Qed.

Lemma release_inv s c p r t :
  sched_inv s → sc_procs s !! c = Some p → pi_current p = Some r → sc_heap s !! r = Some t →
  sched_inv (with_state c p None r t Pending s).
Proof.
  intros Hinv Hc Hp Hr.
  assert (current_on s c r) as Hcur by (apply current_on_iff; eauto).
  apply with_state_inv; try done.
  - intros c' r' [[_ ?]|[Hne Hc']]%with_state_current; [done|]. case_bool_decide; [|eauto].
    subst r'. by destruct Hne; eapply si_exclusive.
  - intros c' r' Hne Hc'. apply with_state_current. right. split; [|done].
    intros ->. unfold current_on in *. congruence.
  - intros c1 c2 r' [[_ ?]|[_ H1]]%with_state_current [[_ ?]|[_ H2]]%with_state_current; try done.
    by eapply si_exclusive.
Qed.

Lemma pick_inv s c p b t since :
  sched_inv s → sc_procs s !! c = Some p → pi_current p = None → sc_heap s !! b = Some t →
  t_state t = Pending → 0 ≤ since < sc_clock s →
  sched_inv (with_state c p (Some b) b t (Running since) s).
Proof.
  intros Hinv Hc Hp Hr Hst Hs.
  assert (∀ c', ¬ current_on s c' b) as Hno.
  { intros c' (i & pr & s0 & Hv & _)%(si_current _ Hinv). apply has_view_iff in Hv as (t' & Ht' & Hv).
    unfold task_view in Hv. rewrite Hr in Ht'. injection Ht' as <-. rewrite Hst in Hv. done. }
  apply with_state_inv; try done.
  - intros c' r' [[-> [= <-]]|[Hne Hc']]%with_state_current.
    + rewrite bool_decide_eq_true_2 by done. eauto.
    + case_bool_decide; [|eauto]. subst r'. by destruct (Hno c').
  - intros c' r' Hne Hc'. apply with_state_current. right. split; [|done].
    intros ->. apply current_on_iff in Hc' as (p' & ? & ?). congruence.
  - intros c1 c2 r' [[-> H1]|[_ H1]]%with_state_current [[-> H2]|[_ H2]]%with_state_current; try done.
    + injection H1 as ->. by destruct (Hno c2).
    + injection H2 as ->. by destruct (Hno c1).
    + by eapply si_exclusive.
Qed.

(** The state after the current task [r] of core [c] has gone. *)
Definition without_task (c : Z) p (r : nat) (m : Machine P V) s : Sched P V :=
  mkSched m (filter (.≠ r) (sc_tasks s)) (delete r (sc_heap s)) (sc_next s) (sc_idcount s)
    (sc_clock s) (<[c := set_current None p]> (sc_procs s)).

Lemma without_task_inv s c p r m :
  sched_inv s → sc_procs s !! c = Some p → pi_current p = Some r →
  sched_inv (without_task c p r m s).
Proof.
  intros Hinv Hc Hp. assert (current_on s c r) as Hcur by (apply current_on_iff; eauto).
  assert (∀ r' v, has_view (without_task c p r m s) r' v ↔ r' ≠ r ∧ has_view s r' v) as Hhv.
  { intros r' v. unfold has_view, heap_view. simpl. rewrite fmap_delete, lookup_delete_Some. naive_solver. }
  assert (∀ c' r', current_on (without_task c p r m s) c' r' ↔ c' ≠ c ∧ current_on s c' r') as Hco.
  { intros c' r'. unfold current_on. simpl. rewrite lookup_procs_view_insert. simpl. naive_solver. }
  pose proof Hinv as []. split; cbn [sc_tasks sc_next sc_clock sc_idcount without_task]; try done.
  - by apply NoDup_filter.
  - intros r'. rewrite list_elem_of_filter, si_dom0. split.
    + intros [Hne [v Hv]]. eexists. apply Hhv. by split.
    + intros [v [? Hv]%Hhv]. split; [done|by eexists].
  - intros r' [_ ?]%list_elem_of_filter. by apply si_next0.
  - intros r' i pr st [_ Hv]%Hhv. by eapply si_ids0.
  - intros r1 r2 i p1 p2 st1 st2 [_ H1]%Hhv [_ H2]%Hhv. by eapply si_unique0.
  - intros r' i pr st [_ Hv]%Hhv. by eapply si_priority0.
  - intros c' r' [Hne Hc']%Hco. destruct (si_current0 _ _ Hc') as (i & pr & since & Hv & ?).
    exists i, pr, since. split; [|done]. apply Hhv. split; [|done].
    intros ->. by destruct Hne; eapply si_exclusive0.
  - intros r' i pr since [Hne Hv]%Hhv. destruct (si_running0 _ _ _ _ Hv) as [c' Hc'].
    exists c'. apply Hco. split; [|done]. intros ->. unfold current_on in *. congruence.
  - intros c1 c2 r' [_ H1]%Hco [_ H2]%Hco. by eapply si_exclusive0.
Qed.

(** ** The stages of the operations *)

Definition set_machine (m : Machine P V) s : Sched P V :=
  mkSched m (sc_tasks s) (sc_heap s) (sc_next s) (sc_idcount s) (sc_clock s) (sc_procs s).

Lemma set_machine_equiv m s : sched_equiv (set_machine m s) s.
Proof. done. Qed.

Lemma on_machine_Ok {A} (f : M (Machine P V) A) s a s' :
  on_machine f s = Ok (a, s') → ∃ m, f (sc_machine s) = Ok (a, m) ∧ s' = set_machine m s.
Proof. unfold on_machine. intros (m & ? & ->)%zoom_Ok. by exists m. Qed.

(** [exec_initrd] changes the machine and, when it succeeds, adds one task. *)
Definition spawned (s s' : Sched P V) (r : ExecResult) : Prop :=
  ∃ m, match r with
  | ExecSuccess id => ∃ t, s' = with_task t (set_machine m s) ∧ id = t_id t ∧
      t_id t = sc_idcount s + 1 ∧ t_priority t = 0 ∧ t_state t = Pending
  | _ => s' = set_machine m s
  end.

Lemma exec_map_error core elf (m m' : Machine P V) e :
  exec_map core elf m = Ok (RErr e, m') → ∀ id : Z, e ≠ ExecSuccess id.
Proof.
  assert (∀ entry mm (m m' : Machine P V) e mm', exec_load core elf entry mm m = Ok (RErr (e, mm'), m') →
    ∀ id : Z, e ≠ ExecSuccess id) as Hload.
  { clear. intros entry mm m m' e mm' Hr id. unfold exec_load in Hr. destruct (_ <? _); [by inv_ok|].
    apply M_bind_Ok in Hr as (? & ? & _ & Hr). destruct (_ <=? _); [by inv_ok|].
    destruct (_ <? _); [by inv_ok|]. apply M_bind_Ok in Hr as ([c|] & ? & _ & Hr); [|by inv_ok].
    do 3 apply M_bind_Ok in Hr as (? & ? & _ & Hr).
    apply M_bind_Ok in Hr as ([[f|] mm1] & ? & _ & Hr); [|by inv_ok].
    do 3 apply M_bind_Ok in Hr as (? & ? & _ & Hr). destruct (_ <? _); by inv_ok. }
  assert (∀ fuel index mm (m m' : Machine P V) e mm', exec_headers fuel core elf index mm m = Ok (RErr (e, mm'), m') →
    ∀ id : Z, e ≠ ExecSuccess id) as Hheaders.
  { clear -Hload. intros fuel. induction fuel as [|fuel IH]; intros index mm m m' e mm' Hr id;
      cbn [exec_headers] in Hr;
      (apply M_bind_Ok in Hr as ([[entry index']|] & s1 & _ & Hr); [|by inv_ok]);
      apply M_bind_Ok in Hr as (t & s2 & _ & Hr); apply M_bind_Ok in Hr as ([mm1|[e1 mm1]] & s3 & H1 & Hr).
    - by inv_ok.
    - case_bool_decide; inv_ok. by eapply Hload.
    - by eapply IH.
    - case_bool_decide; inv_ok. by eapply Hload. }
  unfold exec_map. intros Hr id. apply M_bind_Ok in Hr as ([mm1|[e1 mm1]] & s1 & H1 & Hr);
    apply M_bind_Ok in Hr as ([mm2|[e2 mm2]] & s2 & H2 & Hr); try (by inv_ok).
  - unfold exec_stack in H2. apply M_bind_Ok in H2 as (? & ? & _ & H2).
    apply M_bind_Ok in H2 as ([[f|] mm3] & ? & _ & H2); [|by inv_ok].
    do 2 apply M_bind_Ok in H2 as (? & ? & _ & H2). by inv_ok.
  - inv_ok. by eapply Hheaders.
Qed.

Lemma exec_initrd_spawned core path s r s' :
  exec_initrd env core path s = Ok (r, s') → spawned s s' r.
Proof.
  unfold exec_initrd. intros Hr. apply M_bind_Ok in Hr as ([[off len]|] & s1 & Ho & Hr);
    apply lift_Ok in Ho as [_ ->]; [|inv_ok; exists (sc_machine s'); by destruct s'].
  unfold exec_raw in Hr. apply M_bind_Ok in Hr as ([elf|] & s1 & Ho & Hr);
    apply lift_Ok in Ho as [_ ->]; [|inv_ok; exists (sc_machine s'); by destruct s'].
  unfold exec in Hr. apply M_bind_Ok in Hr as ([mm|e] & s1 & Hm & Hr);
    apply on_machine_Ok in Hm as (m & Hm & ->).
  - apply M_bind_Ok in Hr as (id & s2 & Hn & Hr). inv_ok. unfold new_locked in Hn.
    destruct (add64 (sc_idcount (set_machine m s)) 1) as [i|] eqn:E; [|done].
    apply chk_Ok in E as [-> _]. cbn [mbind res_bind] in Hn. injection Hn as <- <-.
    exists m, (mkTask (sc_idcount s + 1) 0 (TaskProcState_new (env_ucode_seg env) (env_udata_seg env)
      (env_interrupt_flag env) (entrypoint (ef_header elf))) mm Pending). done.
  - inv_ok. exists m. pose proof (exec_map_error _ _ _ _ _ Hm) as He. destruct r; try done.
    by destruct (He id).
Qed.

Lemma spawned_inv s s' r : sched_inv s → spawned s s' r → sched_inv s'.
Proof.
  intros Hinv (m & Hr). assert (sched_inv (set_machine m s)) as Hm by (by rewrite set_machine_equiv).
  destruct r; try by rewrite Hr. destruct Hr as (t & -> & _ & ? & ? & ?). by apply with_task_inv.
Qed.

Lemma spawned_procs s s' r :
  spawned s s' r → sc_procs s' = sc_procs s ∧ sc_clock s' = sc_clock s.
Proof. intros (m & Hr). destruct r; try by rewrite Hr. by destruct Hr as (t & -> & _). Qed.

(** Saving the registers of the interrupted task. *)
Definition saved (p : ProcInfo) (ps : TaskProcState) (h : gmap nat Task) : gmap nat Task :=
  match pi_current p with Some r => alter (set_procstate ps) r h | None => h end.

Lemma heap_current s c p r :
  sched_inv s → sc_procs s !! c = Some p → pi_current p = Some r →
  ∃ t since, sc_heap s !! r = Some t ∧ t_state t = Running since ∧ 0 ≤ since < sc_clock s ∧
    t_priority t = 0.
Proof.
  intros Hinv Hc Hp. destruct (si_current s Hinv c r) as (i & pr & since & Hv & Hs);
    [apply current_on_iff; eauto|].
  pose proof (si_priority s Hinv _ _ _ _ Hv) as ->.
  apply has_view_iff in Hv as (t & Ht & [= _ Hpr Hst]). eauto 7.
Qed.

Lemma save_current_run s c p0 p ps :
  sched_inv s → sc_procs s !! c = Some p0 → pi_current p0 = pi_current p →
  save_current p ps s = Ok (tt, set_heap (saved p ps (sc_heap s)) s) ∧
  sched_equiv (set_heap (saved p ps (sc_heap s)) s) s.
Proof.
  intros Hinv Hc Hcur. unfold save_current, saved. destruct (pi_current p) as [r|] eqn:Hp.
  - destruct (heap_current s c p0 r Hinv Hc Hcur) as (t & since & Ht & _).
    assert (alter (set_procstate ps) r (sc_heap s) = <[r := set_procstate ps t]> (sc_heap s)) as ->.
    { apply map_eq. intros r'. destruct (decide (r' = r)) as [->|].
      - rewrite lookup_alter_eq, lookup_insert_eq, Ht. done.
      - by rewrite lookup_alter_ne, lookup_insert_ne. }
    split; [|by eapply put_task_equiv].
    assert (task_at r s = Ok (t, s)) as Hta by (unfold task_at; rewrite Ht; done).
    by run_step Hta.
  - split; [by destruct s|]. unfold sched_equiv. done.
Qed.

(** A task that a processor may take. *)
Definition takable (h : gmap nat Task) (locked : nat → bool) (r : nat) : Prop :=
  locked r = false ∧ (t_state <$> h !! r) = Some Pending.
#[global] Instance takable_dec h locked r : Decision (takable h locked r).
Proof. unfold takable. apply _. Defined.

(** Among tasks of one priority the search stops at the first it may take. *)
Lemma best_task_kept h locked i l index b :
  (∀ r, r ∈ b :: l → t_priority <$> h !! r = Some 0) →
  best_task h locked i l (Some (index, b)) = Ok (Some (index, b)).
Proof.
  revert i. induction l as [|r l IH]; intros i Hh; [done|]. cbn [best_task].
  assert (∀ r', r' ∈ b :: l → t_priority <$> h !! r' = Some 0) as Hh' by (intros; apply Hh; set_solver).
  destruct (locked r); [by apply IH|].
  pose proof (Hh r ltac:(set_solver)) as Hr. destruct (h !! r) as [t|]; [|done].
  cbn [of_option mbind res_bind]. case_bool_decide; [by apply IH|].
  pose proof (Hh b ltac:(set_solver)) as Hb. destruct (h !! b) as [bt|]; [|done].
  cbn [of_option mbind res_bind]. injection Hr as ->. injection Hb as ->. simpl. by apply IH.
Qed.

Lemma best_task_find h locked i l :
  (∀ r, r ∈ l → t_priority <$> h !! r = Some 0) →
  best_task h locked i l None = Ok ((λ '(j, r), ((i + j)%nat, r)) <$> list_find (takable h locked) l).
Proof.
  revert i. induction l as [|r l IH]; intros i Hh; [done|]. cbn [best_task].
  assert (∀ r', r' ∈ l → t_priority <$> h !! r' = Some 0) as Hh' by (intros; apply Hh; set_solver).
  assert (¬ takable h locked r → Ok ((λ '(j, r0), ((i + j)%nat, r0)) <$> list_find (takable h locked) (r :: l))
    = best_task h locked (S i) l None) as Hskip.
  { intros Hn. cbn [list_find]. rewrite decide_False by done. rewrite IH by done.
    rewrite <-option_fmap_compose. f_equal. apply option_fmap_ext. intros [j x]. simpl. f_equal. lia. }
  pose proof (Hh r ltac:(set_solver)) as Hr. destruct (locked r) eqn:El.
  { rewrite Hskip; [done|]. intros [Hl _]. congruence. }
  destruct (h !! r) as [t|] eqn:Et; [|done]. cbn [of_option mbind res_bind]. case_bool_decide as Hst.
  { rewrite Hskip; [done|]. intros [_ Ht]. rewrite Et in Ht. by injection Ht. }
  rewrite best_task_kept by done. cbn [list_find]. rewrite decide_True; [simpl; by rewrite Nat.add_0_r|].
  split; [done|]. rewrite Et. simpl. f_equal. destruct (decide (t_state t = Pending)); tauto.
Qed.

(** The tick's verdict on the current task. *)
Definition expired (numcores clock : Z) (t : Task) : bool :=
  match t_state t with Running since => 10 * numcores <=? clock - since | Pending => false end.

Lemma release_current_run s c p :
  sched_inv s → sc_procs s !! c = Some p → in_width 64 (10 * env_numcores env) → sc_clock s < 2 ^ 64 →
  release_current env c s = Ok (tt,
    match pi_current p ≫= λ r, (r,.) <$> sc_heap s !! r with
    | Some (r, t) => if expired (env_numcores env) (sc_clock s) t
                     then with_state c p None r t Pending s else s
    | None => s
    end).
Proof.
  intros Hinv Hc Hn Hck. unfold release_current.
  assert (pinfo c s = Ok (p, s)) as Hpi by (unfold pinfo; by rewrite Hc). run_step Hpi.
  destruct (pi_current p) as [r|] eqn:Hp; [|done].
  destruct (heap_current s c p r Hinv Hc Hp) as (t & since & Ht & Hst & Hs & Hpr).
  assert (task_at r s = Ok (t, s)) as Hta by (unfold task_at; rewrite Ht; done). run_step Hta.
  rewrite Hst. cbn [mbind option_bind]. rewrite Ht. cbn [fmap option_fmap option_map].
  assert (gets sc_clock s = Ok (sc_clock s, s)) as Hg by done. run_step Hg.
  assert (sub64 (sc_clock s) since = Ok (sc_clock s - since)) as Hsub
    by (apply chk_in; unfold in_width; lia).
  run_step (lift_run _ s _ Hsub).
  assert (life_expectancy env t = Ok (10 * env_numcores env)) as Hlife.
  { unfold life_expectancy. rewrite Hpr. assert (add64 0 10 = Ok 10) as -> by done. by apply chk_in. }
  run_step (lift_run _ s _ Hlife). unfold expired. rewrite Hst. by destruct (_ <=? _).
Qed.

Lemma pick_task_run s c p clock locked :
  sched_inv s → sc_procs s !! c = Some p →
  pick_task c clock locked s = Ok (tt,
    match pi_current p, list_find (takable (sc_heap s) locked) (sc_tasks s) ≫= λ '(_, b), (b,.) <$> sc_heap s !! b with
    | None, Some (b, t) => with_state c p (Some b) b t (Running clock) s
    | _, _ => s
    end).
Proof.
  intros Hinv Hc. unfold pick_task.
  assert (pinfo c s = Ok (p, s)) as Hpi by (unfold pinfo; by rewrite Hc). run_step Hpi.
  destruct (pi_current p) as [r|] eqn:Hp; [done|].
  assert (get s = Ok (s, s)) as Hg by done. run_step Hg.
  assert (∀ r, r ∈ sc_tasks s → t_priority <$> sc_heap s !! r = Some 0) as Hpr.
  { intros r [v Hv]%(si_dom s Hinv). destruct v as [[i pr] st].
    pose proof (si_priority s Hinv _ _ _ _ Hv) as ->. apply has_view_iff in Hv as (t & Ht & [= _ Hpr _]).
    rewrite Ht. simpl. by f_equal. }
  run_step (lift_run _ s _ (best_task_find (sc_heap s) locked 0 (sc_tasks s) Hpr)).
  destruct (list_find _ _) as [[j b]|] eqn:Ef; [|done].
  apply list_find_Some in Ef as (Hj & [Hl Ht] & _). cbn [fmap option_fmap option_map].
  destruct (sc_heap s !! b) as [t|] eqn:Eb; [|done].
  assert (task_at b s = Ok (t, s)) as Hta by (unfold task_at; by rewrite Eb). run_step Hta.
  set (s1 := set_heap (<[b := set_state (Running clock) t]> (sc_heap s)) s).
  assert (put_task b (set_state (Running clock) t) s = Ok (tt, s1)) as Hpt by done. run_step Hpt.
  assert (of_option Bounds (sc_tasks s !! (0 + j)%nat) = Ok b) as Ho by (simpl; by rewrite Hj).
  run_step (lift_run _ s1 _ Ho). cbn [mbind option_bind fmap option_fmap option_map]. by rewrite Eb.
Qed.

(** ** The tick *)

(** The state after the bookkeeping at the start of a tick. *)
Definition tick_start (c : Z) (p : ProcInfo) (ps : TaskProcState) s : Sched P V :=
  mkSched (sc_machine s) (sc_tasks s) (saved p ps (sc_heap s)) (sc_next s) (sc_idcount s)
    (sc_clock s + 1) (<[c := set_tick_miss 0 p]> (sc_procs s)).

Lemma tick_start_inv c p ps s :
  sched_inv s → sc_procs s !! c = Some p → sched_inv (tick_start c p ps s).
Proof.
  intros Hinv Hc. assert (sched_inv (set_clock (sc_clock s + 1) s)) as H1 by (apply set_clock_inv; [lia|done]).
  rewrite <-(put_pinfo_equiv _ c p (set_tick_miss 0 p)) in H1 by done.
  destruct (save_current_run _ c (set_tick_miss 0 p) p ps H1) as [_ He]; [apply lookup_insert_eq|done|].
  by rewrite <-He in H1.
Qed.

Lemma tick_unfold c p ps busy locked s :
  sched_inv s → sc_procs s !! c = Some p → sc_clock s + 1 < 2 ^ 64 →
  (busy = true → MAX_TICK_MISS < pi_tick_miss p) →
  tick env c ps busy locked s =
    (_ ← ensure_init env c; _ ← release_current env c; pick_task c (sc_clock s) locked)
    (tick_start c p ps s).
Proof.
  intros Hinv Hc Hck Hb. unfold tick.
  assert (pinfo c s = Ok (p, s)) as Hpi by (unfold pinfo; by rewrite Hc). run_step Hpi.
  assert (negb (MAX_TICK_MISS <? pi_tick_miss p) && busy = false) as ->.
  { destruct (Z.ltb_spec MAX_TICK_MISS (pi_tick_miss p)); [done|]. destruct busy; [|done].
    specialize (Hb eq_refl). lia. }
  set (s1 := set_procs (<[c := set_tick_miss 0 p]> (sc_procs s)) s).
  assert (put_pinfo c (set_tick_miss 0 p) s = Ok (tt, s1)) as H1 by done. run_step H1.
  assert (gets sc_clock s1 = Ok (sc_clock s, s1)) as H2 by done. run_step H2.
  assert (wrap 64 (sc_clock s + 1) = sc_clock s + 1) as ->.
  { apply wrap_id. pose proof (si_clock s Hinv). unfold in_width. lia. }
  set (s2 := set_clock (sc_clock s + 1) s1).
  assert (modify (set_clock (sc_clock s + 1)) s1 = Ok (tt, s2)) as H3 by done. run_step H3.
  assert (sched_inv s2) as Hinv2.
  { apply set_clock_inv; [simpl; lia|]. unfold s1. by rewrite (put_pinfo_equiv s c p). }
  destruct (save_current_run s2 c (set_tick_miss 0 p) (set_tick_miss 0 p) ps Hinv2) as [Hs _];
    [apply lookup_insert_eq|done|].
  by run_step Hs.
Qed.

(** The task that core [c] runs after a tick. *)
Definition next_current (locked : nat → bool) p s : option nat :=
  match pi_current p ≫= λ r, (r,.) <$> sc_heap s !! r with
  | Some (r, t) =>
    if expired (env_numcores env) (sc_clock s + 1) t
    then snd <$> list_find (takable (<[r := set_state Pending t]> (sc_heap s)) locked) (sc_tasks s)
    else Some r
  | None => snd <$> list_find (takable (sc_heap s) locked) (sc_tasks s)
  end.

Lemma list_find_takable_ext h1 h2 locked l :
  t_state <$> h1 = t_state <$> h2 →
  list_find (takable h1 locked) l = list_find (takable h2 locked) l.
Proof.
  intros Hh. apply list_find_ext. intros r. unfold takable.
  assert (t_state <$> h1 !! r = t_state <$> h2 !! r) as ->; [|done].
  rewrite <-!lookup_fmap. by rewrite Hh.
Qed.

Lemma saved_states p ps h : t_state <$> saved p ps h = t_state <$> h.
Proof.
  unfold saved. destruct (pi_current p) as [r|]; [|done]. apply map_eq. intros r'.
  rewrite !lookup_fmap. destruct (decide (r' = r)) as [->|];
    [rewrite lookup_alter_eq|by rewrite lookup_alter_ne]. by destruct (h !! r).
Qed.

(** The parts of the state a scheduling decision does not touch. *)
Record tick_frame (c : Z) (p : ProcInfo) (ps : TaskProcState) (o : option nat) s s' : Prop := {
  tf_inv : sched_inv s';
  tf_machine : sc_machine s' = sc_machine s;
  tf_tasks : sc_tasks s' = sc_tasks s;
  tf_clock : sc_clock s' = sc_clock s + 1;
  tf_others c' : c' ≠ c → sc_procs s' !! c' = sc_procs s !! c';
  tf_core : sc_procs s' !! c = Some (mkProcInfo 0 o (pi_quantum p) (pi_active p));
  tf_saved r : pi_current p = Some r → t_procstate <$> sc_heap s' !! r = Some ps;
  tf_started r : o = Some r →
    t_state <$> sc_heap s' !! r = Some (Running (sc_clock s)) ∨
    pi_current p = Some r ∧ t_state <$> sc_heap s' !! r = t_state <$> sc_heap s !! r;
  tf_regs r : pi_current p ≠ Some r → t_procstate <$> sc_heap s' !! r = t_procstate <$> sc_heap s !! r;
  tf_map r : t_memory_map <$> sc_heap s' !! r = t_memory_map <$> sc_heap s !! r;
  tf_rest r : pi_current p ≠ Some r → o ≠ Some r → sc_heap s' !! r = sc_heap s !! r;
}.

Lemma ensure_init_skip c s : sc_tasks s ≠ [] → ensure_init env c s = Ok (tt, s).
Proof. unfold ensure_init, mbind, M_bind, gets. by destruct (sc_tasks s). Qed.

(** What an idle core takes. *)
Lemma pick_idle c p clock locked s :
  sched_inv s → sc_procs s !! c = Some p → pi_current p = None → 0 ≤ clock < sc_clock s →
  ∃ s' (o := snd <$> list_find (takable (sc_heap s) locked) (sc_tasks s)),
    pick_task c clock locked s = Ok (tt, s') ∧ sched_inv s' ∧ sc_machine s' = sc_machine s ∧
    sc_tasks s' = sc_tasks s ∧ sc_clock s' = sc_clock s ∧
    sc_procs s' = <[c := set_current o p]> (sc_procs s) ∧
    (∀ r, o = Some r → t_state <$> sc_heap s' !! r = Some (Running clock)) ∧
    (∀ r, t_procstate <$> sc_heap s' !! r = t_procstate <$> sc_heap s !! r) ∧
    (∀ r, t_memory_map <$> sc_heap s' !! r = t_memory_map <$> sc_heap s !! r) ∧
    (∀ r, o ≠ Some r → sc_heap s' !! r = sc_heap s !! r).
Proof.
  intros Hinv Hc Hp Hck. rewrite (pick_task_run s c p) by done. rewrite Hp.
  destruct (list_find _ _) as [[j b]|] eqn:Ef; cbn [mbind option_bind fmap option_fmap option_map snd].
  - apply list_find_Some in Ef as (Hj & [Hl Ht] & _). destruct (sc_heap s !! b) as [t|] eqn:Eb; [|done].
    cbn [fmap option_fmap option_map] in *. injection Ht as Ht.
    eexists. split; [reflexivity|]. split_and!; try done.
    + by apply pick_inv.
    + intros r [= <-]. simpl. by rewrite lookup_insert_eq.
    + intros r. simpl. destruct (decide (r = b)) as [->|]; [|by rewrite lookup_insert_ne].
      by rewrite lookup_insert_eq, Eb.
    + intros r. simpl. destruct (decide (r = b)) as [->|]; [|by rewrite lookup_insert_ne].
      by rewrite lookup_insert_eq, Eb.
    + intros r Hr. simpl. rewrite lookup_insert_ne; [done|]. congruence.
  - exists s. split_and!; try done. rewrite insert_id; [done|]. rewrite Hc. destruct p. simpl in *.
    by rewrite Hp.
Qed.

Lemma saved_lookup p ps h r :
  saved p ps h !! r = (if bool_decide (pi_current p = Some r) then set_procstate ps else id) <$> h !! r.
Proof.
  unfold saved. destruct (pi_current p) as [r0|]; case_bool_decide as E; simplify_eq.
  - apply lookup_alter_eq.
  - rewrite lookup_alter_ne by congruence. by rewrite option_fmap_id.
  - by rewrite option_fmap_id.
Qed.

Lemma saved_map p ps h r : t_memory_map <$> saved p ps h !! r = t_memory_map <$> h !! r.
Proof. rewrite saved_lookup. case_bool_decide; by destruct (h !! r). Qed.

(** The three cases of a tick: the current task keeps the core, its time is
    over, or the core had none. *)
Lemma tick_kept c p ps locked r t s :
  sched_inv s → sc_procs s !! c = Some p → pi_current p = Some r → sc_heap s !! r = Some t →
  let s1 := tick_start c p ps s in
  pick_task c (sc_clock s) locked s1 = Ok (tt, s1) ∧ tick_frame c p ps (Some r) s s1.
Proof.
  intros Hinv Hc Hp Ht s1. pose proof (tick_start_inv c p ps s Hinv Hc) as Hinv1.
  assert (sc_procs s1 !! c = Some (set_tick_miss 0 p)) as Hc1 by apply lookup_insert_eq. split.
  { rewrite (pick_task_run s1 c (set_tick_miss 0 p)) by done.
    change (pi_current (set_tick_miss 0 p)) with (pi_current p). by rewrite Hp. }
  split; try done.
  - intros c' Hne'. simpl. by rewrite !lookup_insert_ne.
  - rewrite Hc1. by destruct p; simpl in *; subst.
  - intros r' Hr'. assert (r' = r) as -> by congruence. simpl. by rewrite saved_lookup, bool_decide_eq_true_2, Ht.
  - intros r' [= <-]. right. split; [done|]. simpl. by rewrite saved_lookup, bool_decide_eq_true_2, Ht.
  - intros r' Hr1. simpl. by rewrite saved_lookup, bool_decide_eq_false_2, option_fmap_id by congruence.
  - intros r'. apply saved_map.
  - intros r' Hr1 Hr2. simpl. by rewrite saved_lookup, bool_decide_eq_false_2, option_fmap_id by congruence.
Qed.

Lemma tick_released c p ps locked r t since s :
  sched_inv s → sc_procs s !! c = Some p → pi_current p = Some r → sc_heap s !! r = Some t →
  t_state t = Running since → t_priority t = 0 →
  let s2 := with_state c (set_tick_miss 0 p) None r (set_procstate ps t) Pending (tick_start c p ps s) in
  ∃ s', pick_task c (sc_clock s) locked s2 = Ok (tt, s') ∧
    tick_frame c p ps
      (snd <$> list_find (takable (<[r := set_state Pending t]> (sc_heap s)) locked) (sc_tasks s)) s s'.
Proof.
  intros Hinv Hc Hp Ht Hst Hpr s2. pose proof (tick_start_inv c p ps s Hinv Hc) as Hinv1. pose proof (si_clock s Hinv).
  set (p1 := set_tick_miss 0 p) in *.
  assert (sc_procs s2 !! c = Some (set_current None p1)) as Hc2 by apply lookup_insert_eq.
  assert (sc_procs (tick_start c p ps s) !! c = Some p1) as Hc1 by apply lookup_insert_eq.
  destruct (pick_idle c (set_current None p1) (sc_clock s) locked s2)
    as (s' & Hr & Hinv' & Hm & Htk & Hcl & Hpr' & Hrun & Hps & Hmm & Hrest); try done.
  { apply release_inv; try done. simpl. by rewrite saved_lookup, bool_decide_eq_true_2, Ht. }
  { simpl. lia. }
  assert (list_find (takable (sc_heap s2) locked) (sc_tasks s2) =
    list_find (takable (<[r := set_state Pending t]> (sc_heap s)) locked) (sc_tasks s)) as Ef.
  { apply list_find_takable_ext. simpl. rewrite !fmap_insert, saved_states. done. }
  rewrite Ef in *. exists s'. split; [done|]. split; try done.
  - intros c' Hne'. rewrite Hpr'. simpl. by rewrite !lookup_insert_ne.
  - rewrite Hpr'. by rewrite lookup_insert_eq.
  - intros r' Hr'. assert (r' = r) as -> by congruence. rewrite Hps. simpl. by rewrite lookup_insert_eq.
  - intros r' Ho. left. by apply Hrun.
  - intros r' Hr1. rewrite Hps. simpl. rewrite lookup_insert_ne by congruence.
    by rewrite saved_lookup, bool_decide_eq_false_2, option_fmap_id by congruence.
  - intros r'. rewrite Hmm. simpl. destruct (decide (r' = r)) as [->|];
      [by rewrite lookup_insert_eq, Ht|rewrite lookup_insert_ne by done; apply saved_map].
  - intros r' Hr1 Hr2. rewrite Hrest by done. simpl. rewrite lookup_insert_ne by congruence.
    rewrite saved_lookup, bool_decide_eq_false_2 by congruence. by rewrite option_fmap_id.
Qed.

Lemma tick_idle c p ps locked s :
  sched_inv s → sc_procs s !! c = Some p → pi_current p = None →
  ∃ s', pick_task c (sc_clock s) locked (tick_start c p ps s) = Ok (tt, s') ∧
    tick_frame c p ps (snd <$> list_find (takable (sc_heap s) locked) (sc_tasks s)) s s'.
Proof.
  intros Hinv Hc Hp. pose proof (tick_start_inv c p ps s Hinv Hc) as Hinv1. pose proof (si_clock s Hinv).
  set (s1 := tick_start c p ps s) in *.
  assert (sc_procs s1 !! c = Some (set_tick_miss 0 p)) as Hc1 by apply lookup_insert_eq.
  destruct (pick_idle c (set_tick_miss 0 p) (sc_clock s) locked s1)
    as (s' & Hr & Hinv' & Hm & Htk & Hcl & Hpr' & Hrun & Hps & Hmm & Hrest); try done.
  { simpl. lia. }
  assert (saved p ps (sc_heap s) = sc_heap s) as Esv by (unfold saved; by rewrite Hp).
  change (sc_heap s1) with (saved p ps (sc_heap s)) in *. rewrite Esv in *.
  exists s'. split; [done|]. split; try done.
  - intros c' Hne'. rewrite Hpr'. simpl. by rewrite !lookup_insert_ne.
  - rewrite Hpr'. by rewrite lookup_insert_eq.
  - congruence.
  - intros r' Ho. left. by apply Hrun.
  - intros r' _ Hr2. by rewrite Hrest.
Qed.

Lemma tick_run c p ps busy locked s :
  sched_inv s → sc_procs s !! c = Some p → sc_tasks s ≠ [] → sc_clock s + 1 < 2 ^ 64 →
  in_width 64 (10 * env_numcores env) → (busy = true → MAX_TICK_MISS < pi_tick_miss p) →
  ∃ s', tick env c ps busy locked s = Ok (tt, s') ∧ tick_frame c p ps (next_current locked p s) s s'.
Proof.
  intros Hinv Hc Hne Hck Hn Hb. rewrite (tick_unfold c p) by done.
  pose proof (tick_start_inv c p ps s Hinv Hc) as Hinv1. set (p1 := set_tick_miss 0 p).
  assert (sc_procs (tick_start c p ps s) !! c = Some p1) as Hc1 by apply lookup_insert_eq.
  run_step (ensure_init_skip c (tick_start c p ps s) Hne).
  run_step (release_current_run (tick_start c p ps s) c p1 Hinv1 Hc1 Hn Hck). unfold next_current.
  change (pi_current p1) with (pi_current p). change (sc_clock (tick_start c p ps s)) with (sc_clock s + 1).
  change (sc_heap (tick_start c p ps s)) with (saved p ps (sc_heap s)).
  destruct (pi_current p) as [r|] eqn:Hp; cbn [mbind option_bind]; [|by apply tick_idle].
  destruct (heap_current s c p r Hinv Hc Hp) as (t & since & Ht & Hst & Hs & Hpr).
  rewrite Ht, saved_lookup, bool_decide_eq_true_2, Ht by done. cbn [fmap option_fmap option_map].
  change (expired _ _ (set_procstate ps t)) with (expired (env_numcores env) (sc_clock s + 1) t).
  destruct (expired _ _ t); [by eapply tick_released|].
  exists (tick_start c p ps s). by eapply tick_kept.
Qed.

(** ** The end of a task *)

Lemma delete_filter_ne (l : list nat) i r :
  NoDup l → l !! i = Some r → delete i l = filter (.≠ r) l.
Proof.
  revert i. induction l as [|x l IH]; intros i; [done|]. intros [Hx Hnd]%NoDup_cons Hi.
  destruct i as [|i]; simpl in *; simplify_eq.
  - rewrite filter_cons, decide_False by auto. clear IH Hnd.
    induction l as [|y l IH]; [done|]. apply not_elem_of_cons in Hx as [Hy Hx].
    rewrite filter_cons, decide_True by auto. f_equal. by apply IH.
  - rewrite filter_cons, decide_True; [by rewrite (IH i)|]. intros ->.
    by apply list_elem_of_lookup_2 in Hi.
Qed.

Lemma find_id_self s r t :
  sched_inv s → sc_heap s !! r = Some t →
  ∃ i, find_id (sc_heap s) (t_id t) (sc_tasks s) = Some i ∧ sc_tasks s !! i = Some r.
Proof.
  intros Hinv Hr. assert (has_view s r (task_view t)) as Hv by (apply has_view_iff; eauto).
  assert (r ∈ sc_tasks s) as Hin by (apply (si_dom s Hinv); by eexists).
  unfold find_id. destruct (list_find _ _) as [[i r']|] eqn:Ef.
  - apply list_find_Some in Ef as (Hi & He & _). exists i. split; [done|]. rewrite Hi. f_equal.
    apply fmap_Some in He as (t' & Ht' & Hid). eapply (si_unique s Hinv r' r); [|exact Hv].
    apply has_view_iff. exists t'. split; [done|]. unfold task_view. by rewrite Hid.
  - apply list_find_None in Ef. rewrite Forall_forall in Ef. destruct (Ef r Hin). by rewrite Hr.
Qed.

Lemma exit_current_run c p r t code s :
  sched_inv s → sc_procs s !! c = Some p → pi_current p = Some r → sc_heap s !! r = Some t →
  exit_current c code s =
    match on_mem (MemoryMap_drop (t_memory_map t)) (sc_machine s) with
    | Ok (_, m) => Ok (tt, without_task c p r m s)
    | Panic e => Panic e
    end.
Proof.
  intros Hinv Hc Hp Hr. unfold exit_current.
  assert (pinfo c s = Ok (p, s)) as Hpi by (unfold pinfo; by rewrite Hc). run_step Hpi. rewrite Hp.
  set (s1 := set_procs (<[c := set_current None p]> (sc_procs s)) s).
  assert (put_pinfo c (set_current None p) s = Ok (tt, s1)) as H1 by done. run_step H1.
  assert (task_at r s1 = Ok (t, s1)) as H2 by (unfold task_at; simpl; by rewrite Hr). run_step H2.
  assert (get s1 = Ok (s1, s1)) as H3 by done. run_step H3.
  destruct (find_id_self s r t Hinv Hr) as (i & Hi & Hti). simpl. rewrite Hi.
  rewrite (delete_filter_ne _ _ r) by (done || apply Hinv).
  set (s2 := set_tasks (filter (.≠ r) (sc_tasks s)) s1).
  assert (put s2 s1 = Ok (tt, s2)) as H4 by done. run_step H4. unfold drop_ref.
  assert (get s2 = Ok (s2, s2)) as H5 by done. run_step H5.
  rewrite bool_decide_eq_false_2 by (simpl; intros [? _]%list_elem_of_filter; done).
  assert (is_current (sc_procs s2) r = false) as ->.
  { unfold is_current. rewrite bool_decide_eq_true_2; [done|]. intros c' p' Hl Hcur. simpl in Hl.
    apply lookup_insert_Some in Hl as [[<- <-]|[Hne Hl]]; [done|]. destruct Hne.
    eapply (si_exclusive s Hinv); apply current_on_iff; eauto. }
  simpl. rewrite Hr. unfold on_machine, mbind, M_bind, zoom. simpl.
  by destruct (on_mem _ _) as [[[] m]|e].
Qed.

(** Every entry keeps the invariant. *)
Lemma exit_current_inv c code s s' : sched_inv s → exit_current c code s = Ok (tt, s') → sched_inv s'.
Proof.
  intros Hinv Hr. destruct (sc_procs s !! c) as [p|] eqn:Hc.
  2: { unfold exit_current, mbind, M_bind, pinfo in Hr. by rewrite Hc in Hr. }
  destruct (pi_current p) as [r|] eqn:Hp.
  - destruct (heap_current s c p r Hinv Hc Hp) as (t & since & Ht & _).
    rewrite (exit_current_run c p r t) in Hr by done. destruct (on_mem _ _) as [[[] m]|]; [|done].
    injection Hr as <-. by apply without_task_inv.
  - unfold exit_current, mbind, M_bind, pinfo in Hr. rewrite Hc in Hr. simpl in Hr. rewrite Hp in Hr.
    by injection Hr as <-.
Qed.

Lemma ensure_init_inv c s s' :
  sched_inv s → ensure_init env c s = Ok (tt, s') →
  sched_inv s' ∧ sc_procs s' = sc_procs s ∧ sc_clock s' = sc_clock s.
Proof.
  intros Hinv Hr. unfold ensure_init in Hr. apply M_bind_Ok in Hr as (l & s1 & Hg & Hr).
  inv_ok. destruct (sc_tasks s1) as [|r l]; [|by inv_ok].
  apply M_bind_Ok in Hr as (o & s2 & Hx & Hr). apply exec_initrd_spawned in Hx.
  pose proof (spawned_inv _ _ _ Hinv Hx) as Hinv'. apply spawned_procs in Hx as [? ?].
  destruct o; inv_ok; done.
Qed.

Lemma tick_inv c ps busy locked s s' :
  sched_inv s → sc_clock s + 1 < 2 ^ 64 → in_width 64 (10 * env_numcores env) →
  tick env c ps busy locked s = Ok (tt, s') → sched_inv s'.
Proof.
  intros Hinv Hck Hn Hr. destruct (sc_procs s !! c) as [p|] eqn:Hc.
  2: { unfold tick, mbind, M_bind, pinfo in Hr. by rewrite Hc in Hr. }
  destruct (negb (MAX_TICK_MISS <? pi_tick_miss p) && busy) eqn:Hb.
  { unfold tick in Hr. apply M_bind_Ok in Hr as (p' & s1 & Hpi & Hr). unfold pinfo in Hpi. rewrite Hc in Hpi.
    injection Hpi as <- <-. rewrite Hb in Hr. apply M_bind_Ok in Hr as (n & s2 & Hl & Hr).
    apply lift_Ok in Hl as [_ ->]. unfold put_pinfo, modify in Hr. injection Hr as <-.
    by rewrite (put_pinfo_equiv s c p). }
  rewrite (tick_unfold c p) in Hr; try done.
  2: { intros ->. destruct (Z.ltb_spec MAX_TICK_MISS (pi_tick_miss p)); done. }
  pose proof (tick_start_inv c p ps s Hinv Hc) as Hinv1.
  apply M_bind_Ok in Hr as ([] & s2 & Hi & Hr). apply ensure_init_inv in Hi as (Hinv2 & Hps & Hcl); [|done].
  set (p1 := set_tick_miss 0 p). assert (sc_procs s2 !! c = Some p1) as Hc2 by (rewrite Hps; apply lookup_insert_eq).
  rewrite (M_bind_run _ _ _ _ _ (release_current_run s2 c p1 Hinv2 Hc2 Hn ltac:(by rewrite Hcl))) in Hr.
  pose proof (si_clock s Hinv) as H0. set (s3 := match _ with Some _ => _ | None => _ end) in Hr.
  assert (∃ p3, sc_procs s3 !! c = Some p3 ∧ sched_inv s3 ∧ sc_clock s3 = sc_clock s + 1) as (p3 & Hc3 & Hinv3 & Hcl3).
  { unfold s3. change (sc_clock (tick_start c p ps s)) with (sc_clock s + 1) in Hcl.
    destruct (pi_current p1) as [r|] eqn:Hp1; cbn [mbind option_bind]; [|eauto].
    destruct (sc_heap s2 !! r) as [t|] eqn:Ht; cbn [fmap option_fmap option_map]; [|eauto].
    destruct (expired _ _ _); [|eauto]. exists (set_current None p1).
    split_and!; [apply lookup_insert_eq|by apply release_inv|done]. }
  destruct (pi_current p3) as [r|] eqn:Hp3.
  - rewrite (pick_task_run s3 c p3) in Hr by done. rewrite Hp3 in Hr. by injection Hr as <-.
  - destruct (pick_idle c p3 (sc_clock s) locked s3) as (s4 & Hr4 & Hinv4 & _); try done; [lia|].
    rewrite Hr4 in Hr. by injection Hr as <-.
Qed.

Lemma continue_current_inv c s o s' :
  sched_inv s → continue_current c s = Ok (o, s') → sched_inv s'.
Proof.
  intros Hinv Hr. unfold continue_current in Hr. apply M_bind_Ok in Hr as (p & s1 & Hpi & Hr).
  unfold pinfo in Hpi. destruct (sc_procs s !! c) as [p'|] eqn:Hc; [|done]. injection Hpi as <- <-.
  destruct (pi_current p') as [r|] eqn:Hp; [|by inv_ok].
  apply M_bind_Ok in Hr as (t & s1 & Ht & Hr). unfold task_at in Ht.
  destruct (sc_heap s !! r) as [t'|]; [|done]. injection Ht as <- <-.
  apply M_bind_Ok in Hr as (a & s1 & Ha & Hr). apply on_machine_Ok in Ha as (m & _ & ->).
  apply M_bind_Ok in Hr as ([] & s2 & Hput & Hr). inv_ok. unfold put_pinfo, modify in Hput.
  injection Hput as <-. rewrite (put_pinfo_equiv (set_machine m s) c p') by done.
  by rewrite set_machine_equiv.
Qed.

(** ** What the scheduler promises *)

(** C16. A tick that takes the task list never stops the kernel when there is a
    task.  The clock advances by one, the registers of the interrupted task
    are saved, the other processors are left alone, and the processor runs
    next the task it ran before unless its time (ten ticks per core) is over;
    otherwise it runs the first task of the list that is pending and not
    locked, running since this tick.  No other task changes. *)
Theorem tick_correct c p ps busy locked s :
  sched_inv s → sc_procs s !! c = Some p → sc_tasks s ≠ [] → sc_clock s + 1 < 2 ^ 64 →
  in_width 64 (10 * env_numcores env) → (busy = true → MAX_TICK_MISS < pi_tick_miss p) →
  ∃ s', tick env c ps busy locked s = Ok (tt, s') ∧ tick_frame c p ps (next_current locked p s) s s'.
Proof. apply tick_run. Qed.

Lemma tick_busy c p ps locked s :
  sc_procs s !! c = Some p → 0 ≤ pi_tick_miss p ≤ MAX_TICK_MISS →
  tick env c ps true locked s =
    Ok (tt, set_procs (<[c := set_tick_miss (pi_tick_miss p + 1) p]> (sc_procs s)) s).
Proof.
  unfold MAX_TICK_MISS. intros Hc Hp. unfold tick.
  assert (pinfo c s = Ok (p, s)) as Hpi by (unfold pinfo; by rewrite Hc). run_step Hpi.
  unfold MAX_TICK_MISS. destruct (Z.ltb_spec 10 (pi_tick_miss p)); [lia|]. cbn [negb andb].
  assert (add64 (pi_tick_miss p) 1 = Ok (pi_tick_miss p + 1)) as Ha by (apply chk_in; unfold in_width; lia).
  by run_step (lift_run _ s _ Ha).
Qed.

(** The task list cannot be missed for ever: however often it is busy, one
    of any twelve ticks in a row on a core takes it and advances the clock. *)
Theorem tick_miss_bounded c s (l : list (TaskProcState * bool)) locked :
  sched_inv s → miss_ok s → is_Some (sc_procs s !! c) → sc_tasks s ≠ [] →
  sc_clock s + 1 < 2 ^ 64 → in_width 64 (10 * env_numcores env) → length l = 12%nat →
  ∃ l1 x l2 s1 s2, l = l1 ++ x :: l2 ∧
    for_ l1 (λ '(ps, busy), tick env c ps busy locked) s = Ok (tt, s1) ∧
    tick env c (fst x) (snd x) locked s1 = Ok (tt, s2) ∧ sc_clock s2 = sc_clock s + 1.
Proof.
  intros Hinv Hm [p Hc] Hne Hck Hn Hlen.
  pose proof (Hm c p Hc) as Hp. simpl in Hp. unfold MAX_TICK_MISS in Hp.
  assert (11 - pi_tick_miss p < Z.of_nat (length l)) as Hl by lia. clear Hlen Hm.
  revert s p Hinv Hc Hne Hck Hp Hl. induction l as [|[ps busy] l IH]; intros s p Hinv Hc Hne Hck Hp Hl;
    cbn [length] in Hl; [lia|].
  destruct (decide (busy = true ∧ pi_tick_miss p ≤ MAX_TICK_MISS)) as [[-> Hmp]|Hnb].
  - unfold MAX_TICK_MISS in Hmp. pose proof (tick_busy c p ps locked s Hc ltac:(unfold MAX_TICK_MISS; lia)) as Hr.
    set (s1 := set_procs (<[c := set_tick_miss (pi_tick_miss p + 1) p]> (sc_procs s)) s) in Hr.
    destruct (IH s1 (set_tick_miss (pi_tick_miss p + 1) p)) as (l1 & x & l2 & s2 & s3 & -> & H1 & H2 & H3);
      try done.
    + unfold s1. by rewrite (put_pinfo_equiv s c p).
    + apply lookup_insert_eq.
    + simpl. lia.
    + simpl. lia.
    + exists ((ps, true) :: l1), x, l2, s2, s3. split_and!; try done.
      rewrite for_cons. run_step Hr. exact H1.
  - destruct (tick_run c p ps busy locked s) as (s' & Hr & Hf); try done.
    { intros ->. destruct (Z.lt_ge_cases MAX_TICK_MISS (pi_tick_miss p)); [done|]. by destruct Hnb. }
    exists [], (ps, busy), l, s, s'. split_and!; try done. apply Hf.
Qed.

(** One tick of any core, while the first task of the list is current on [c]. *)
Lemma tick_first c r l c' ps busy locked s :
  sched_inv s → miss_ok s → current_on s c r → sc_tasks s = r :: l → sc_clock s + 1 < 2 ^ 64 →
  in_width 64 (10 * env_numcores env) → is_Some (sc_procs s !! c') → (c' = c → locked r = false) →
  ∃ s', tick env c' ps busy locked s = Ok (tt, s') ∧ sched_inv s' ∧ miss_ok s' ∧ current_on s' c r ∧
    sc_tasks s' = r :: l ∧ sc_clock s' ≤ sc_clock s + 1 ∧ dom (sc_procs s') = dom (sc_procs s) ∧
    (c' = c → ∀ r', r' ≠ r → sc_heap s' !! r' = sc_heap s !! r').
Proof.
  intros Hinv Hm Hcur Ht Hck Hn [q Hq] Hlk. pose proof (Hm c' q Hq) as Hmq. simpl in Hmq.
  destruct (decide (busy = true ∧ pi_tick_miss q ≤ MAX_TICK_MISS)) as [[-> Hmp]|Hnb].
  - eexists. split; [apply (tick_busy c' q); [done|lia]|].
    set (q' := set_tick_miss (pi_tick_miss q + 1) q). pose proof (put_pinfo_equiv s c' q q' Hq eq_refl) as Heq.
    split_and!; try done.
    + by rewrite Heq.
    + apply map_Forall_insert_2; [simpl; lia|done].
    + unfold current_on, procs_view in *. cbn [sc_procs set_procs]. rewrite fmap_insert, insert_id; [done|].
      by rewrite lookup_fmap, Hq.
    + cbn. lia.
    + cbn [sc_procs set_procs]. rewrite dom_insert_lookup_L; [done|]. by eexists.
  - destruct (tick_run c' q ps busy locked s) as (s' & Hr & Hf); try done; [by rewrite Ht|..].
    { intros ->. destruct (Z.lt_ge_cases MAX_TICK_MISS (pi_tick_miss q)); [done|]. by destruct Hnb. }
    exists s'. split; [done|]. assert (∀ d, d ≠ c' → sc_procs s' !! d = sc_procs s !! d) as Hoth by apply Hf.
    assert (c' = c → next_current locked q s = Some r ∧ pi_current q = Some r) as Hnext.
    { intros ->. apply current_on_iff in Hcur as (p & Hc & Hp). rewrite Hq in Hc. injection Hc as ->. split; [|done].
      unfold next_current. rewrite Hp. destruct (heap_current s c p r Hinv Hq Hp) as (t & since & Hh & _).
      cbn [mbind option_bind]. rewrite Hh. cbn [fmap option_fmap option_map].
      destruct (expired _ _ _); [|done]. rewrite Ht. cbn [list_find]. rewrite decide_True; [done|].
      split; [by apply Hlk|]. by rewrite lookup_insert_eq. }
    split_and!; [apply Hf| | |by rewrite (tf_tasks _ _ _ _ _ _ Hf)|by rewrite (tf_clock _ _ _ _ _ _ Hf)| |].
    + intros d p Hd. destruct (decide (d = c')) as [->|Hne].
      * rewrite (tf_core _ _ _ _ _ _ Hf) in Hd. injection Hd as <-. cbn. unfold MAX_TICK_MISS. lia.
      * rewrite Hoth in Hd by done. by apply (Hm d).
    + apply current_on_iff. destruct (decide (c = c')) as [<-|Hne].
      * eexists. split; [apply Hf|]. by apply Hnext.
      * rewrite Hoth by done. by apply current_on_iff.
    + apply set_eq. intros d. rewrite !elem_of_dom. destruct (decide (d = c')) as [->|Hne]; [|by rewrite Hoth].
      rewrite (tf_core _ _ _ _ _ _ Hf), Hq. by split.
    + intros -> r' Hne. destruct (Hnext eq_refl) as [E Hp]. apply Hf; congruence.
Qed.

(** C38. The scheduler is not fair: when the first task of the list is current
    on a core, it keeps the core through any ticks of this and the other
    cores, whether the list is busy or not, as long as its own lock is free at
    the ticks of the core: a task whose time is over is pending again before
    the search, and the search takes the first one.  When only this core
    ticks, no other task changes, so that none of them ever runs. *)
Theorem first_task_keeps_core c r l s (ticks : list (Z * TaskProcState * bool * (nat → bool))) :
  sched_inv s → miss_ok s → current_on s c r → sc_tasks s = r :: l →
  sc_clock s + Z.of_nat (length ticks) < 2 ^ 64 → in_width 64 (10 * env_numcores env) →
  Forall (λ '(c', _, _, locked), is_Some (sc_procs s !! c') ∧ (c' = c → locked r = false)) ticks →
  ∃ s', for_ ticks (λ '(c', ps, busy, locked), tick env c' ps busy locked) s = Ok (tt, s') ∧
    current_on s' c r ∧ sc_tasks s' = r :: l ∧
    (Forall (λ t, t.1.1.1 = c) ticks → ∀ r', r' ≠ r → sc_heap s' !! r' = sc_heap s !! r').
Proof.
  intros Hinv Hm Hcur Ht Hck Hn Hticks. revert s Hinv Hm Hcur Ht Hck Hticks.
  induction ticks as [|[[[c' ps] busy] locked] ticks IH]; intros s Hinv Hm Hcur Ht Hck Hticks; cbn [length] in *.
  { by exists s. }
  apply Forall_cons in Hticks as [[Hc' Hlk] Hticks].
  destruct (tick_first c r l c' ps busy locked s) as (s1 & Hr & Hinv1 & Hm1 & Hcur1 & Ht1 & Hcl & Hdom & Hrest); try done; [lia|].
  destruct (IH s1) as (s' & Hr' & Hcur' & Ht' & Hrest'); try done; [lia| |].
  { eapply Forall_impl; [exact Hticks|]. intros [[[d ?] ?] lk] [Hd ?]. split; [|done].
    apply elem_of_dom. rewrite Hdom. by apply elem_of_dom. }
  exists s'. split_and!; try done.
  - rewrite for_cons. by run_step Hr.
  - intros [E Hall]%Forall_cons r' Hne. rewrite Hrest' by done. by apply Hrest.
Qed.

(** When priorities differ, the search keeps the index of the first
    candidate with the lock of the best one: the core is given the first task,
    which stays pending, and the better task is marked running while no core
    runs it. *)
Theorem best_task_wrong_index c p clock r1 r2 t1 t2 s :
  sc_procs s !! c = Some p → pi_current p = None → sc_tasks s = [r1; r2] →
  sc_heap s !! r1 = Some t1 → sc_heap s !! r2 = Some t2 → r1 ≠ r2 →
  t_state t1 = Pending → t_state t2 = Pending → t_priority t1 < t_priority t2 →
  ∃ s', pick_task c clock (λ _, false) s = Ok (tt, s') ∧
    pi_current <$> sc_procs s' !! c = Some (Some r1) ∧
    t_state <$> sc_heap s' !! r1 = Some Pending ∧
    t_state <$> sc_heap s' !! r2 = Some (Running clock).
Proof.
  intros Hc Hp Ht H1 H2 Hne Hs1 Hs2 Hlt. eexists. unfold pick_task.
  assert (pinfo c s = Ok (p, s)) as Hpi by (unfold pinfo; by rewrite Hc). run_step Hpi. rewrite Hp.
  assert (get s = Ok (s, s)) as Hg by done. run_step Hg.
  assert (best_task (sc_heap s) (λ _, false) 0 (sc_tasks s) None = Ok (Some (0%nat, r2))) as Hb.
  { rewrite Ht. cbn [best_task]. rewrite H1. cbn [of_option mbind res_bind].
    rewrite bool_decide_eq_false_2 by tauto. rewrite H2. cbn [of_option mbind res_bind].
    rewrite bool_decide_eq_false_2 by tauto.
    by destruct (Z.ltb_spec (t_priority t1) (t_priority t2)); [|lia]. }
  run_step (lift_run _ s _ Hb).
  assert (task_at r2 s = Ok (t2, s)) as Hta by (unfold task_at; by rewrite H2). run_step Hta.
  set (s1 := set_heap (<[r2 := set_state (Running clock) t2]> (sc_heap s)) s).
  assert (put_task r2 (set_state (Running clock) t2) s = Ok (tt, s1)) as Hpt by done. run_step Hpt.
  assert (of_option Bounds (sc_tasks s !! 0%nat) = Ok r1) as Ho by (by rewrite Ht).
  run_step (lift_run _ s1 _ Ho). split; [reflexivity|]. simpl.
  rewrite !lookup_insert_eq, lookup_insert_ne, H1 by done. simpl. by rewrite Hs1.
Qed.
End sched_proofs.

Section sched_memory.
Context {X : X86} {XO : X86Ok X} {P : Type} {FA : FrameAllocator P} {FAO : FrameAllocatorOk P}.
Context {V : Type} {WC : WindowCache V} {WCO : WindowCacheOk V}.
Implicit Types (s : Sched P V).

(** C25. Exit ends exactly the current task of the core: it leaves the list and
    the store, its identifier is gone, the core is idle and every frame of its
    memory map is free again.  The page tables are not touched, so that the
    freed frames stay mapped where the task had them. *)
Theorem exit_current_correct c p r t code s p4 lv :
  sched_inv s → sc_procs s !! c = Some p → pi_current p = Some r → sc_heap s !! r = Some t →
  kmem_inv (mc_kmem (sc_machine s)) p4 lv →
  Forall (λ m, mp_allocated m = true ∧ fa_managed (k_pmm (mc_kmem (sc_machine s))) (mp_padr m) ∧
    good_frame (mp_padr m)) (mm_mappings (t_memory_map t)) →
  ∃ s', exit_current c code s = Ok (tt, s') ∧ sched_inv s' ∧
    sc_tasks s' = filter (.≠ r) (sc_tasks s) ∧ sc_heap s' = delete r (sc_heap s) ∧
    (∀ r' t', sc_heap s' !! r' = Some t' → t_id t' ≠ t_id t) ∧
    sc_procs s' = <[c := set_current None p]> (sc_procs s) ∧
    fa_free (k_pmm (mc_kmem (sc_machine s'))) =
      list_to_set (mp_padr <$> mm_mappings (t_memory_map t)) ∪ fa_free (k_pmm (mc_kmem (sc_machine s))) ∧
    k_mem (mc_kmem (sc_machine s')) = k_mem (mc_kmem (sc_machine s)) ∧
    mc_ram (sc_machine s') = mc_ram (sc_machine s).
Proof.
  intros Hinv Hc Hp Hr Hk Hms.
  destruct (MemoryMap_drop_ok (t_memory_map t) _ p4 lv Hk Hms) as (p' & Hdrop & _ & Hfree & _).
  rewrite (exit_current_run c p r t) by done. unfold on_mem, zoom. rewrite Hdrop.
  eexists. split; [reflexivity|]. split_and!; try done; [by apply without_task_inv|].
  intros r' t'. simpl. intros [Hne Hr']%lookup_delete_Some Hid. destruct Hne. symmetry.
  apply (si_unique s Hinv r' r (t_id t) (t_priority t') (t_priority t) (t_state t') (t_state t));
    apply has_view_iff; [exists t'|exists t]; (split; [done|]); unfold task_view; by rewrite ?Hid.
Qed.
End sched_memory.
