(* ===== verification/Init.v ===== *)
(** * From boot to the first task

    The first tick of the kernel finds no task and runs [/bin/init] from the
    initial ramdisk.  This file puts the ramdisk, the ELF parser, the loader
    and the scheduler together. *)

From S2P Require Import Prelude X86 FrameAlloc WindowCache VCache Mapper Mem Elf Tar Task Exec Sched.

Section init.
Context {X : X86} {XO : X86Ok X} {P : Type} {FA : FrameAllocator P} {FAO : FrameAllocatorOk P}.
Context {V : Type} {WC : WindowCache V} {WCO : WindowCacheOk V}.
Context (env : Env).
Implicit Types (s : Sched P V).

(** A machine with room for the program [l]. *)
Record fits (m : Machine P V) (core p4 : Z) (lv : Z → nat) (l : list (ProgramHeader * list Z)) : Prop := {
  ft_inv : kmem_inv (mc_kmem m) p4 lv;
  ft_core : 0 ≤ core < 256;
  ft_free : (frames_for l + 4 * Z.to_nat STACK_PAGES ≤ size (fa_free (k_pmm (mc_kmem m))))%nat;
  ft_clear : tmp_clear (mc_kmem m) p4 core (TMP_TASK_SIZE_PER_PROC / PAGE_SIZE);
  ft_room : has_room (wc_shows (k_vc (mc_kmem m))) 2;
}.

(** The memory of a new task: its segments and its stack, in frames of [m']. *)
Definition program_in (m' : Machine P V) (l : list (ProgramHeader * list Z)) (mm : MemoryMap) : Prop :=
  ∃ fss stack, mm = extend MemoryMap_new
      (seg_mappings l fss ++ new_mappings 0 USERSTACK_TOP stack_flags stack) ∧
    Forall2 (seg_in m') l fss ∧ length stack = Z.to_nat STACK_PAGES ∧ Forall good_frame stack ∧
    holds (mc_ram m') 0 USERSTACK_SIZE [] stack ∧ NoDup (mjoin fss ++ stack) ∧
    Forall (λ f, f ∉ fa_free (k_pmm (mc_kmem m'))) (mjoin fss ++ stack).

(** What loading the program leaves of the machine. *)
Definition loaded_from (m m' : Machine P V) (core p4 : Z) (l : list (ProgramHeader * list Z)) : Prop :=
  (∃ lv', kmem_inv (mc_kmem m') p4 lv') ∧ keeps (frames_for l + 4 * Z.to_nat STACK_PAGES) core p4 m m'.

(** The registers a task starts with: the entry point, interrupts enabled, the
    user's segments, the highest address of the stack, and zeros. *)
Definition start_state (elf : ElfFile) : TaskProcState := {|
  rip := entrypoint (ef_header elf); rflags := env_interrupt_flag env;
  code_seg := env_ucode_seg env; data_seg := env_udata_seg env;
  rsp := USERSTACK_TOP + USERSTACK_SIZE; rbp := 0; rsi := 0; rdi := 0;
  r8 := 0; r9 := 0; r10 := 0; r11 := 0; r12 := 0; r13 := 0; r14 := 0; r15 := 0;
  rax := 0; rbx := 0; rcx := 0; rdx := 0;
|}.

(** Spawning a program of the ramdisk succeeds. *)
Lemma exec_initrd_ok core path off len elf l s p4 lv :
  open_file (env_initrd env) path = Ok (Some (off, len)) →
  ElfFile_parse (sub_bytes (env_image env) (Z.to_nat off) (Z.to_nat len)) (INITRD_START + off) = Ok (Some elf) →
  headers elf 0 l → fits (sc_machine s) core p4 lv l → in_width 64 (sc_idcount s + 1) →
  ∃ mm m', exec_initrd env core path s =
      Ok (ExecSuccess (sc_idcount s + 1),
        with_task (mkTask (sc_idcount s + 1) 0 (start_state elf) mm Pending) (set_machine m' s)) ∧
    program_in m' l mm ∧ loaded_from (sc_machine s) m' core p4 l.
Proof.
  intros Hopen Hparse Hh [Hinv Hc Hfree Hcl Hroom] Hid. pose proof (headers_pages _ _ _ Hh) as Hn.
  destruct (exec_map_ok core elf l (sc_machine s) p4 lv (TMP_TASK_SIZE_PER_PROC / PAGE_SIZE))
    as (fss & stack & m' & lv' & Hr & Hinv' & Hin & Hlen & Hst & [Hnd Htk] & Hk); try done.
  assert (Forall good_frame stack) as Hgs.
  { apply Forall_app in Htk as [_ Htk]. eapply Forall_impl; [exact Htk|]. intros f [Hf _].
    by apply (fa_free_managed _ f (ki_pmm _ _ _ Hinv)). }
  assert (Forall (λ f, f ∉ fa_free (k_pmm (mc_kmem m'))) (mjoin fss ++ stack)) as Hnf
    by (eapply Forall_impl; [exact Htk|]; by intros f [_ ?]).
  eexists _, m'. split_and!; [|by exists fss, stack|by split; [exists lv'|]].
  unfold exec_initrd. run_step (lift_run _ s _ Hopen). unfold exec_raw. run_step (lift_run _ s _ Hparse).
  unfold exec, on_machine.
  rewrite (M_bind_run _ _ s _ _ (zoom_run sc_machine _ _ s _ _ Hr)).
  unfold new_locked, mbind, M_bind, add64. cbn [sc_idcount]. rewrite chk_in by done. reflexivity.
Qed.

(** The first tick of an idle core, with the state it leaves. *)
Lemma first_tick_run c p regs off len elf l s p4 lv :
  sched_start s → sc_procs s !! c = Some p → sc_clock s + 1 < 2 ^ 64 →
  in_width 64 (10 * env_numcores env) →
  open_file (env_initrd env) INIT_PATH = Ok (Some (off, len)) →
  ElfFile_parse (sub_bytes (env_image env) (Z.to_nat off) (Z.to_nat len)) (INITRD_START + off) = Ok (Some elf) →
  headers elf 0 l → fits (sc_machine s) c p4 lv l →
  ∃ s' r t, tick env c regs false (λ _, false) s = Ok (tt, s') ∧ sched_inv s' ∧ sc_idcount s' = 1 ∧
    sc_clock s' = sc_clock s + 1 ∧ sc_tasks s' = [r] ∧ sc_procs s' = <[c := set_current (Some r) (set_tick_miss 0 p)]> (sc_procs s) ∧
    sc_heap s' !! r = Some t ∧
    t_id t = 1 ∧ t_state t = Running (sc_clock s) ∧ t_procstate t = start_state elf ∧
    program_in (sc_machine s') l (t_memory_map t) ∧ loaded_from (sc_machine s) (sc_machine s') c p4 l.
Proof.
  intros Hstart Hc Hck Hn Hopen Hparse Hh Hfits. pose proof (sched_start_inv s Hstart) as Hinv.
  destruct Hstart as (Ht & Hheap & Hidc & H0 & Hps). destruct (Hps c p Hc) as [Hp _].
  rewrite (tick_unfold env c p) by done. pose proof (tick_start_inv c p regs s Hinv Hc) as Hinv1.
  set (s1 := tick_start c p regs s) in *.
  destruct (exec_initrd_ok c INIT_PATH off len elf l s1 p4 lv) as (mm & m' & Hr & Hprog & Hfrom); try done.
  { simpl. by rewrite Hidc. }
  change (sc_idcount s1) with (sc_idcount s) in Hr. rewrite Hidc in Hr. change (0 + 1) with 1 in Hr.
  set (t := mkTask 1 0 (start_state elf) mm Pending) in Hr. set (s2 := with_task t (set_machine m' s1)) in Hr.
  assert (ensure_init env c s1 = Ok (tt, s2)) as Hens.
  { unfold ensure_init. rewrite (M_bind_run (gets sc_tasks) _ s1 [] s1) by (unfold gets; by rewrite <-Ht).
    by run_step Hr. }
  run_step Hens.
  assert (sched_inv s2) as Hinv2.
  { apply with_task_inv; try done; [by rewrite set_machine_equiv|]. simpl. by rewrite Hidc. }
  set (p1 := set_tick_miss 0 p). assert (sc_procs s2 !! c = Some p1) as Hc2 by apply lookup_insert_eq.
  run_step (release_current_run env s2 c p1 Hinv2 Hc2 Hn Hck).
  change (pi_current p1) with (pi_current p). rewrite Hp. cbn [mbind option_bind].
  rewrite (pick_task_run s2 c p1) by done. change (pi_current p1) with (pi_current p). rewrite Hp.
  assert (sc_heap s2 !! sc_next s = Some t) as Hlk by apply lookup_insert_eq.
  assert (list_find (takable (sc_heap s2) (λ _, false)) (sc_tasks s2) = Some (0%nat, sc_next s)) as Hfind.
  { simpl. rewrite Ht. cbn [app list_find]. rewrite decide_True; [done|].
    split; [done|]. change (<[sc_next s := t]> _) with (sc_heap s2). by rewrite Hlk. }
  rewrite Hfind. cbn [mbind option_bind]. rewrite Hlk. cbn [fmap option_fmap option_map].
  exists (with_state c p1 (Some (sc_next s)) (sc_next s) t (Running (sc_clock s)) s2), (sc_next s),
    (set_state (Running (sc_clock s)) t). split_and!; try done.
  - apply pick_inv; try done. simpl. lia.
  - simpl. by rewrite Ht.
  - simpl. by rewrite insert_insert_eq.
  - apply lookup_insert_eq.
Qed.

(** The first tick of an idle core starts [/bin/init].  When the ramdisk
    holds an ELF file under that name whose segments the loader accepts, and
    memory is free, the tick succeeds: the core runs a task with identifier 1
    that starts at the entry point of the file with the user's segments and
    the top of its stack, and whose memory holds the file's segments; it is
    the only task. *)
Theorem first_tick_runs_init c p regs off len elf l s p4 lv :
  sched_start s → sc_procs s !! c = Some p → sc_clock s + 1 < 2 ^ 64 →
  in_width 64 (10 * env_numcores env) →
  open_file (env_initrd env) INIT_PATH = Ok (Some (off, len)) →
  ElfFile_parse (sub_bytes (env_image env) (Z.to_nat off) (Z.to_nat len)) (INITRD_START + off) = Ok (Some elf) →
  headers elf 0 l → fits (sc_machine s) c p4 lv l →
  ∃ s' r t, tick env c regs false (λ _, false) s = Ok (tt, s') ∧ sched_inv s' ∧
    sc_tasks s' = [r] ∧ current_on s' c r ∧ sc_heap s' !! r = Some t ∧
    t_id t = 1 ∧ t_state t = Running (sc_clock s) ∧ t_procstate t = start_state elf ∧
    program_in (sc_machine s') l (t_memory_map t).
Proof.
  intros Hstart Hc Hck Hn Hopen Hparse Hh Hfits.
  destruct (first_tick_run c p regs off len elf l s p4 lv) as (s' & r & t & Hr & Hinv & _ & _ & Ht & Hps & Hrest); try done.
  exists s', r, t. destruct Hrest as (Hlk & Hid & Hst & Hreg & Hprog & _). split_and!; try done.
  apply current_on_iff. eexists. rewrite Hps. split; [apply lookup_insert_eq|done].
Qed.
End init.
