(* ===== verification/Framebuffer.v ===== *)
(** * The framebuffer

    Models [kernel/src/dev/framebuffer.rs].  The screen is memory that starts
    at [ptr]: a map from addresses to bytes.  With double buffering pixels go
    to a vector of bytes of the kernel's heap, and a store outside it has no
    defined effect. *)

From S2P Require Import Prelude.

Inductive FramebufferFormat := Argb | Idk1 | Idk2 | Bgra.
#[global] Instance FramebufferFormat_eq_dec : EqDecision FramebufferFormat.
Proof. solve_decision. Defined.

Record Framebuffer := mkFramebuffer {
  fb_format : FramebufferFormat;
  fb_width : Z;
  fb_height : Z;
  fb_scanline : Z;
  fb_ptr : Z;
  lowest_offset : option Z;
  highest_offset : option Z;
  double_buffer : option (list Z);
}.

Record PixelColor := mkPixelColor { red : Z; green : Z; blue : Z; alpha : Z }.

Record Video := mkVideo {
  v_fb : Framebuffer;
  v_mem : gmap Z Z;
}.

(** [TryInto<FramebufferFormat> for u8]. *)
Definition FramebufferFormat_try_from (x : Z) : option FramebufferFormat :=
  if x =? 0 then Some Argb else if x =? 1 then Some Idk1 else
  if x =? 2 then Some Idk2 else if x =? 3 then Some Bgra else None.

Definition from_bootboot (fb_type width height scanline fb_virt : Z) : res Framebuffer :=
  format ← unwrap (FramebufferFormat_try_from fb_type);
  mret (mkFramebuffer format width height scanline fb_virt None None None).

(** [From<(u8, u8, u8, u8)>] and [From<(u8, u8, u8)>]. *)
Definition PixelColor_from4 (r g b a : Z) : PixelColor := mkPixelColor r g b a.
Definition PixelColor_from3 (r g b : Z) : PixelColor := mkPixelColor r g b 255.

(** [PixelColor::word]; two formats are [todo!()]. *)
Definition word (format : FramebufferFormat) (c : PixelColor) : res Z :=
  let part x n := Z.shiftl (Z.land x 0xff) n in
  match format with
  | Argb => mret (Z.lor (Z.lor (Z.lor (part (alpha c) 24) (part (red c) 16)) (part (green c) 8))
      (Z.land (blue c) 0xff))
  | Idk1 | Idk2 => Panic Unreachable
  | Bgra => mret (Z.lor (Z.lor (Z.lor (part (blue c) 24) (part (green c) 16)) (part (red c) 8))
      (Z.land (alpha c) 0xff))
  end.

(** Stores of bytes, into the screen and into a vector. *)
Fixpoint store_mem (a : Z) (bs : list Z) (m : gmap Z Z) : gmap Z Z :=
  match bs with [] => m | b :: bs' => store_mem (a + 1) bs' (<[a := b]> m) end.
Definition store_vec (off : Z) (bs : list Z) (l : list Z) : res (list Z) :=
  if (0 <=? off) && (off + Z.of_nat (length bs) <=? Z.of_nat (length l))
  then Ok (list_inserts (Z.to_nat off) bs l) else Panic Undefined.

Definition init_dfb : M Video unit := λ v,
  let fb := v_fb v in
  n ← mul64 (fb_scanline fb) (fb_height fb);
  mret (tt, mkVideo (mkFramebuffer (fb_format fb) (fb_width fb) (fb_height fb) (fb_scanline fb)
    (fb_ptr fb) None None (Some (replicate (Z.to_nat n) 0))) (v_mem v)).

(** The range of offsets written since the last refresh: [get_or_insert]
    stores its argument when there is no value. *)
Definition note_lowest (offset : Z) (o : option Z) : option Z :=
  let cur := default offset o in
  Some (if offset <? cur then offset else cur).
Definition note_highest (offset : Z) (o : option Z) : option Z :=
  let cur := default (offset + 4) o in
  Some (if cur <? offset then offset + 4 else cur).

(** [final_ptr.add(offset)] on a pointer to [u32] moves by four times the offset. *)
Definition set_pixel (x y : Z) (pixel : PixelColor) : M Video unit := λ v,
  let fb := v_fb v in
  a ← mul64 y (fb_scanline fb);
  b ← mul64 x 4;
  offset ← add64 a b;
  w ← word (fb_format fb) pixel;
  if negb (x <? fb_width fb) then Panic Assert else
  if negb (y <? fb_height fb) then Panic Assert else
  buffer_len ← mul64 (fb_scanline fb) (fb_height fb);
  if negb (offset <? buffer_len) then Panic Assert else
  _ ← add64 offset 4;
  let lo := note_lowest offset (lowest_offset fb) in
  let hi := note_highest offset (highest_offset fb) in
  let fb' db := mkFramebuffer (fb_format fb) (fb_width fb) (fb_height fb) (fb_scanline fb)
    (fb_ptr fb) lo hi db in
  match double_buffer fb with
  | Some db =>
    db' ← store_vec (4 * offset) (le_encode 4 w) db;
    mret (tt, mkVideo (fb' (Some db')) (v_mem v))
  | None => mret (tt, mkVideo (fb' None) (store_mem (fb_ptr fb + 4 * offset) (le_encode 4 w) (v_mem v)))
  end.

Definition refresh : M Video unit := λ v,
  let fb := v_fb v in
  let lo := default 0 (lowest_offset fb) in
  let hi := default 0 (highest_offset fb) in
  copy_len ← sub64 hi lo;
  let fb' := mkFramebuffer (fb_format fb) (fb_width fb) (fb_height fb) (fb_scanline fb) (fb_ptr fb)
    None None (double_buffer fb) in
  match double_buffer fb with
  | Some db =>
    if Z.of_nat (length db) <? hi then Panic Undefined else
    mret (tt, mkVideo fb' (store_mem (fb_ptr fb + lo)
      (sub_bytes db (Z.to_nat lo) (Z.to_nat copy_len)) (v_mem v)))
  | None => mret (tt, mkVideo fb' (v_mem v))
  end.

Definition debug_set_pixel (x y : Z) (pixel : PixelColor) : M Video unit := set_pixel x y pixel.

Definition debug_printbin (x y val : Z) : M Video unit :=
  for_ (range 64) (λ bitindex,
    t ← lift (add64 x 64); t ← lift (sub64 t bitindex); xindex ← lift (sub64 t 1);
    let bitval := Z.land (Z.shiftr val bitindex) 1 =? 1 in
    let color := if bitval then PixelColor_from3 255 0 0 else PixelColor_from3 0 0 255 in
    set_pixel xindex y color).

(** ** Pixels as words *)

Definition color_ok (c : PixelColor) : Prop :=
  in_width 8 (red c) ∧ in_width 8 (green c) ∧ in_width 8 (blue c) ∧ in_width 8 (alpha c).

(** The bytes of a pixel in memory, from the lowest address. *)
Definition pixel_bytes (format : FramebufferFormat) (c : PixelColor) : list Z :=
  match format with
  | Argb => [blue c; green c; red c; alpha c]
  | _ => [alpha c; red c; green c; blue c]
  end.

Definition supported (format : FramebufferFormat) : Prop := format = Argb ∨ format = Bgra.

Lemma lor_shiftl_add a n b : 0 ≤ n → in_width n b → Z.lor (Z.shiftl a n) b = a * 2 ^ n + b.
Proof.
  intros Hn Hb. rewrite <-Z.shiftl_mul_pow2 by done. symmetry.
  rewrite <-(Z.lxor_lor (Z.shiftl a n) b); [apply Z.add_nocarry_lxor|]; apply Z.bits_inj'; intros i Hi;
    rewrite Z.land_spec, Z.bits_0, Z.shiftl_spec by done;
    (destruct (Z.lt_ge_cases i n);
      [by rewrite (Z.testbit_neg_r a (i - n)) by lia|rewrite (testbit_high n b) by (done || lia);
       apply andb_false_r]).
Qed.

Lemma pack_bytes a b c d :
  in_width 8 a → in_width 8 b → in_width 8 c → in_width 8 d →
  Z.lor (Z.lor (Z.lor (Z.shiftl (Z.land a 0xff) 24) (Z.shiftl (Z.land b 0xff) 16))
    (Z.shiftl (Z.land c 0xff) 8)) (Z.land d 0xff) = ((a * 256 + b) * 256 + c) * 256 + d.
Proof.
  intros Ha Hb Hc Hd. assert (∀ x, in_width 8 x → Z.land x 0xff = x) as Hl.
  { intros x Hx. change 0xff with (Z.ones 8). rewrite Z.land_ones by lia. by apply Z.mod_small. }
  rewrite !Hl by done. unfold in_width in *.
  replace (Z.shiftl a 24) with (Z.shiftl (Z.shiftl (Z.shiftl a 8) 8) 8) by (rewrite !Z.shiftl_shiftl by lia; done).
  replace (Z.shiftl b 16) with (Z.shiftl (Z.shiftl b 8) 8) by (rewrite !Z.shiftl_shiftl by lia; done).
  rewrite <-!Z.shiftl_lor. rewrite !lor_shiftl_add by (unfold in_width; lia). lia.
Qed.

Lemma encode_packed a b c d :
  in_width 8 a → in_width 8 b → in_width 8 c → in_width 8 d →
  le_encode 4 (((a * 256 + b) * 256 + c) * 256 + d) = [d; c; b; a].
Proof.
  intros Ha Hb Hc Hd. pose proof (le_encode_decode [d; c; b; a]) as He.
  rewrite <-He by (repeat constructor; apply Ha || apply Hb || apply Hc || apply Hd).
  cbn [length le_decode]. f_equal. lia.
Qed.

Lemma word_bytes format c :
  supported format → color_ok c →
  ∃ w, word format c = Ok w ∧ le_encode 4 w = pixel_bytes format c.
Proof.
  intros [-> | ->] (Hr & Hg & Hb & Ha); eexists; (split; [unfold word; cbv zeta beta; reflexivity|]); rewrite pack_bytes by done;
    by apply encode_packed.
Qed.

(** ** Stores *)

Lemma store_mem_out a bs m x :
  x < a ∨ a + Z.of_nat (length bs) ≤ x → store_mem a bs m !! x = m !! x.
Proof.
  revert a m. induction bs as [|b bs IH]; intros a m Hx; [done|]. cbn [store_mem length] in *.
  rewrite IH by lia. rewrite lookup_insert_ne by lia. done.
Qed.

Lemma store_mem_in a bs m i b :
  bs !! i = Some b → store_mem a bs m !! (a + Z.of_nat i) = Some b.
Proof.
  revert a m i. induction bs as [|b' bs IH]; intros a m [|i] Hi; [done|done|..]; cbn [store_mem].
  - rewrite store_mem_out by lia. injection Hi as ->. rewrite Z.add_0_r. apply lookup_insert_eq.
  - replace (a + Z.of_nat (S i)) with (a + 1 + Z.of_nat i) by lia. by apply IH.
Qed.

(** A framebuffer whose geometry fits its memory and the machine. *)
Record geometry (fb : Framebuffer) : Prop := {
  ge_width : 0 ≤ fb_width fb;
  ge_height : 0 ≤ fb_height fb;
  ge_line : 4 * fb_width fb ≤ fb_scanline fb;
  ge_size : fb_scanline fb * fb_height fb + 4 < 2 ^ 64;
  ge_format : supported (fb_format fb);
}.

Definition pixel_offset (fb : Framebuffer) (x y : Z) : Z := y * fb_scanline fb + x * 4.
Definition on_screen (fb : Framebuffer) (x y : Z) : Prop := 0 ≤ x < fb_width fb ∧ 0 ≤ y < fb_height fb.

Lemma pixel_offset_bounds fb x y :
  geometry fb → on_screen fb x y →
  0 ≤ y * fb_scanline fb ∧ 0 ≤ pixel_offset fb x y ∧
  pixel_offset fb x y + 4 ≤ fb_scanline fb * fb_height fb.
Proof. intros [] [[? ?] [? ?]]. unfold pixel_offset. split_and!; nia. Qed.

Lemma pixel_offset_disjoint fb x1 y1 x2 y2 :
  geometry fb → on_screen fb x1 y1 → on_screen fb x2 y2 → (x1, y1) ≠ (x2, y2) →
  pixel_offset fb x1 y1 + 4 ≤ pixel_offset fb x2 y2 ∨ pixel_offset fb x2 y2 + 4 ≤ pixel_offset fb x1 y1.
Proof.
  intros [] [[? ?] [? ?]] [[? ?] [? ?]] Hne. unfold pixel_offset.
  destruct (Z.lt_total y1 y2) as [|[->|]]; [left; nia| |right; nia].
  destruct (Z.lt_total x1 x2) as [|[->|]]; [left; lia|done|right; lia].
Qed.

(** The result of [set_pixel] on a pixel of the screen. *)
Definition noted (fb : Framebuffer) (offset : Z) (db : option (list Z)) : Framebuffer :=
  mkFramebuffer (fb_format fb) (fb_width fb) (fb_height fb) (fb_scanline fb) (fb_ptr fb)
    (note_lowest offset (lowest_offset fb)) (note_highest offset (highest_offset fb)) db.

Lemma set_pixel_run x y c v :
  geometry (v_fb v) → on_screen (v_fb v) x y → color_ok c →
  set_pixel x y c v =
    let fb := v_fb v in
    let offset := pixel_offset fb x y in
    let bs := pixel_bytes (fb_format fb) c in
    match double_buffer fb with
    | Some db => db' ← store_vec (4 * offset) bs db; mret (tt, mkVideo (noted fb offset (Some db')) (v_mem v))
    | None => Ok (tt, mkVideo (noted fb offset None) (store_mem (fb_ptr fb + 4 * offset) bs (v_mem v)))
    end.
Proof.
  intros Hg Hs Hc. destruct (pixel_offset_bounds _ _ _ Hg Hs) as (H1 & H2 & H3).
  destruct Hg as [Hw Hh Hl Hsz Hf], Hs as [[Hx0 Hx] [Hy0 Hy]].
  destruct (word_bytes _ _ Hf Hc) as (w & Hword & Hbytes). unfold set_pixel. set (fb := v_fb v) in *.
  unfold pixel_offset in *. unfold mul64, add64.
  rewrite (chk_in 64 (y * fb_scanline fb)) by (unfold in_width; lia). cbn [mbind res_bind].
  rewrite (chk_in 64 (x * 4)) by (unfold in_width; lia). cbn [mbind res_bind].
  rewrite (chk_in 64 (y * fb_scanline fb + x * 4)) by (unfold in_width; lia). cbn [mbind res_bind].
  rewrite Hword. cbn [mbind res_bind].
  destruct (Z.ltb_spec x (fb_width fb)); [|lia]. destruct (Z.ltb_spec y (fb_height fb)); [|lia].
  cbn [negb]. rewrite (chk_in 64 (fb_scanline fb * fb_height fb)) by (unfold in_width; lia).
  cbn [mbind res_bind]. destruct (Z.ltb_spec (y * fb_scanline fb + x * 4) (fb_scanline fb * fb_height fb)); [|lia].
  cbn [negb]. rewrite (chk_in 64 (y * fb_scanline fb + x * 4 + 4)) by (unfold in_width; lia).
  cbn [mbind res_bind]. rewrite Hbytes. by destruct (double_buffer fb).
Qed.

Lemma noted_geometry fb offset db : geometry fb → geometry (noted fb offset db).
Proof. intros []. by split. Qed.

Lemma length_pixel_bytes format c : length (pixel_bytes format c) = 4%nat.
Proof. by destruct format. Qed.

(** ** What drawing promises *)

(** Drawing a pixel of the screen succeeds and stores the four bytes of its
    colour in the order of the format, four times the pixel's offset after the
    start of the screen memory; no other byte changes.  The bytes of a pixel
    drawn before at another place stay as they are. *)
Theorem set_pixel_correct x y c v :
  geometry (v_fb v) → double_buffer (v_fb v) = None → on_screen (v_fb v) x y → color_ok c →
  ∃ v', set_pixel x y c v = Ok (tt, v') ∧ geometry (v_fb v') ∧
    (∀ i, (i < 4)%nat → v_mem v' !! (fb_ptr (v_fb v) + 4 * pixel_offset (v_fb v) x y + Z.of_nat i) =
      pixel_bytes (fb_format (v_fb v)) c !! i) ∧
    (∀ a, a < fb_ptr (v_fb v) + 4 * pixel_offset (v_fb v) x y ∨
      fb_ptr (v_fb v) + 4 * pixel_offset (v_fb v) x y + 4 ≤ a → v_mem v' !! a = v_mem v !! a) ∧
    (∀ x' y' i, on_screen (v_fb v) x' y' → (x', y') ≠ (x, y) → 0 ≤ i < 4 →
      let a := fb_ptr (v_fb v) + 4 * pixel_offset (v_fb v) x' y' + i in v_mem v' !! a = v_mem v !! a).
Proof.
  intros Hg Hdb Hs Hc. rewrite set_pixel_run by done. cbv zeta. rewrite Hdb. eexists. split; [reflexivity|].
  split; [by apply noted_geometry|]. split_and!; simpl.
  - intros i Hi. destruct (lookup_lt_is_Some_2 (pixel_bytes (fb_format (v_fb v)) c) i) as [b Hb];
      [by rewrite length_pixel_bytes|]. rewrite Hb. by apply store_mem_in.
  - intros a Ha. apply store_mem_out. rewrite length_pixel_bytes. lia.
  - intros x' y' i Hs' Hne Hi. apply store_mem_out. rewrite length_pixel_bytes.
    destruct (pixel_offset_disjoint _ _ _ _ _ Hg Hs Hs'); [congruence|lia|lia].
Qed.

(** Because the offset of a pixel counts bytes and the pointer it moves
    counts words, every pixel below the first quarter of the screen is stored
    outside the memory of the screen; with double buffering that is a store
    past the end of a heap vector. *)
Theorem set_pixel_outside x y c v :
  geometry (v_fb v) → on_screen (v_fb v) x y → color_ok c → fb_height (v_fb v) ≤ 4 * y →
  let len := fb_scanline (v_fb v) * fb_height (v_fb v) in
  len ≤ 4 * pixel_offset (v_fb v) x y ∧
  (∀ db, double_buffer (v_fb v) = Some db → length db = Z.to_nat len →
    set_pixel x y c v = Panic Undefined).
Proof.
  intros Hg Hs Hc Hy len. destruct (pixel_offset_bounds _ _ _ Hg Hs) as (_ & H2 & _).
  assert (len ≤ 4 * pixel_offset (v_fb v) x y) as Hle.
  { unfold len, pixel_offset in *. destruct Hg, Hs as [? ?]. nia. }
  split; [done|]. intros db Hdb Hlen. rewrite set_pixel_run by done. cbv zeta. rewrite Hdb. cbv zeta.
  unfold store_vec. rewrite length_pixel_bytes, Hlen. destruct Hg.
  destruct (Z.leb_spec 0 (4 * pixel_offset (v_fb v) x y)); [|lia].
  destruct (Z.leb_spec (4 * pixel_offset (v_fb v) x y + Z.of_nat 4) (Z.of_nat (Z.to_nat len))); [|done].
  unfold len in *. nia.
Qed.

Definition demo_fb : Framebuffer := mkFramebuffer Argb 4 8 16 0x1000 None None None.
Lemma demo_fb_geometry : geometry demo_fb.
Proof. split; simpl; try lia. by left. Qed.

Lemma set_pixel_correct_witness :
  ∃ v', set_pixel 2 1 (PixelColor_from3 1 2 3) (mkVideo demo_fb ∅) = Ok (tt, v') ∧
    v_mem v' !! 0x1060 = Some 3.
Proof.
  destruct (set_pixel_correct 2 1 (PixelColor_from3 1 2 3) (mkVideo demo_fb ∅))
    as (v' & Hr & _ & Hb & _).
  - apply demo_fb_geometry.
  - reflexivity.
  - split; simpl; lia.
  - unfold color_ok, in_width. simpl. lia.
  - exists v'. split; [exact Hr|]. apply (Hb 0%nat). lia.
Defined.

Lemma set_pixel_outside_witness : 128 ≤ 4 * pixel_offset demo_fb 0 2.
Proof.
  destruct (set_pixel_outside 0 2 (PixelColor_from3 1 2 3) (mkVideo demo_fb ∅)) as [H _].
  - apply demo_fb_geometry.
  - split; simpl; lia.
  - unfold color_ok, in_width. simpl. lia.
  - simpl. lia.
  - exact H.
Defined.
