(* ===== verification/Apic.v ===== *)
(** * The local interrupt controller and its timer

    Models [kernel/src/proc/apic/regmap.rs], the set-up of a core in
    [kernel/src/proc/apic/mod.rs] ([init]) and the calibration against the PIT
    in [kernel/src/interrupts/pic.rs].  The registers the kernel writes are a
    record; what the hardware answers (the counters it reads) is a list of
    values.  The progress pixels of the set-up are left out. *)

From S2P Require Import Prelude.

(** The registers of [LocalApicRegisterMap] that are written. *)
Record Lapic := mkLapic {
  eoireg : Z;
  sivreg : Z;
  lvt_timerreg : Z;
  lvt_lint0reg : Z;
  lvt_lint1reg : Z;
  lvt_errreg : Z;
  initcountreg : Z;
  divcfgreg : Z;
}.

Inductive TimerMode := OneShot | Periodic | TSCDeadline.
Definition TimerMode_as (m : TimerMode) : Z :=
  match m with OneShot => 0 | Periodic => 1 | TSCDeadline => 2 end.

(** Where a register is in the page: one per sixteen bytes, in the order of
    the structure. *)
Definition register_layout : list (string * nat) :=
  [("res0", 1); ("res1", 1); ("idreg", 1); ("verreg", 1); ("res2", 4); ("taskprreg", 1);
   ("arbprreg", 1); ("procprreg", 1); ("eoireg", 1); ("remoterreg", 1); ("logdestreg", 1);
   ("destfmtreg", 1); ("sivreg", 1); ("isr", 8); ("tmr", 8); ("irr", 8); ("errstatereg", 1);
   ("res3", 6); ("lvt_cmcireg", 1); ("icr", 2); ("lvt_timerreg", 1); ("lvt_thermalreg", 1);
   ("lvt_perfmonreg", 1); ("lvt_lint0reg", 1); ("lvt_lint1reg", 1); ("lvt_errreg", 1);
   ("initcountreg", 1); ("currcountreg", 1); ("res4", 4); ("divcfgreg", 1); ("res5", 193)]%string%nat.
Fixpoint register_offset (l : list (string * nat)) (name : string) : option nat :=
  match l with
  | [] => None
  | (n, k) :: l' => if String.eqb n name then Some O else Nat.add (16 * k) <$> register_offset l' name
  end.

Definition timer_setup (vector : Z) (mode : TimerMode) (divpow : Z) : M Lapic unit := λ l,
  let timer := Z.lor vector (Z.shiftl (TimerMode_as mode) 17) in
  div ← (if divpow =? 0 then mret 0xb else
         if divpow <=? 7
         then mret (Z.lor (Z.land (divpow - 1) (Z.shiftl 4 3)) (Z.land (divpow - 1) 3))
         else Panic Explicit);
  mret (tt, mkLapic (eoireg l) (sivreg l) timer (lvt_lint0reg l) (lvt_lint1reg l) (lvt_errreg l)
    (initcountreg l) div).

(** [init as u32]. *)
Definition timer_reset (init : Z) : M Lapic unit := modify (λ l,
  mkLapic (eoireg l) (sivreg l) (lvt_timerreg l) (lvt_lint0reg l) (lvt_lint1reg l) (lvt_errreg l)
    (wrap 32 init) (divcfgreg l)).
Definition spurious_setup (vector : Z) : M Lapic unit := modify (λ l,
  mkLapic (eoireg l) (Z.lor vector (Z.shiftl 1 8)) (lvt_timerreg l) (lvt_lint0reg l)
    (lvt_lint1reg l) (lvt_errreg l) (initcountreg l) (divcfgreg l)).
Definition error_setup (vector : Z) : M Lapic unit := modify (λ l,
  mkLapic (eoireg l) (sivreg l) (lvt_timerreg l) (lvt_lint0reg l) (lvt_lint1reg l) vector
    (initcountreg l) (divcfgreg l)).
Definition lint_setup (lint flags : Z) : M Lapic unit :=
  if lint =? 0 then modify (λ l,
    mkLapic (eoireg l) (sivreg l) (lvt_timerreg l) flags (lvt_lint1reg l) (lvt_errreg l)
      (initcountreg l) (divcfgreg l))
  else if lint =? 1 then modify (λ l,
    mkLapic (eoireg l) (sivreg l) (lvt_timerreg l) (lvt_lint0reg l) flags (lvt_errreg l)
      (initcountreg l) (divcfgreg l))
  else fail Explicit.
Definition eoi : M Lapic unit := modify (λ l,
  mkLapic 0 (sivreg l) (lvt_timerreg l) (lvt_lint0reg l) (lvt_lint1reg l) (lvt_errreg l)
    (initcountreg l) (divcfgreg l)).

Inductive LocalApicNmiConfig :=
  | All (lint flags : Z)
  | Specific (id lint flags : Z).

(** [Vectors]. *)
Definition LocalApicError : Z := 0xFD.
Definition LocalApicSpurious : Z := 0xFF.
Definition LocalApicTimer : Z := 0xF0.

(** ** Calibration *)

Definition PIT_DELAY : Z := 11933.

(** [lo as u16 | (hi as u16) << 8]. *)
Definition pit_word (r : Z * Z) : Z := Z.lor (fst r) (Z.shiftl (snd r) 8).

(** The loop of [pit_calib_sleep] on the values the PIT answers, one pair of
    bytes per turn; [None] when it is still waiting at the end of the list.
    [timer_end] is what the measurer answers after the loop. *)
Fixpoint pit_wait (isvm : bool) (ref_timer_start timer_start timer_end : Z) (reads : list (Z * Z)) :
    res (option (Z * Z)) :=
  match reads with
  | [] => mret None
  | r :: reads' =>
    let ref_timer_now := pit_word r in
    if isvm && (ref_timer_start <? ref_timer_now)
    then (e ← sub64 timer_start 884248; mret (Some (timer_start, e)))
    else
      d ← chk 16 (ref_timer_start - ref_timer_now);
      if PIT_DELAY <=? d
      then mret (Some (timer_start, timer_end))
      else pit_wait isvm ref_timer_start timer_start timer_end reads'
  end.

Definition QUANTUM_MS : Z := 100000.

(** [apic::init] once the registers are mapped; [pit_calib] is the answer of
    the calibration. *)
Definition quantum_of (pit_calib : Z * Z) : res Z :=
  apic_10ms ← sub64 (fst pit_calib) (snd pit_calib);
  t ← mul64 apic_10ms QUANTUM_MS;
  mret (t / 10).

Definition apic_init (id : Z) (pit_calib : Z * Z) (config : list LocalApicNmiConfig) : M Lapic Z :=
  _ ← error_setup LocalApicError;
  _ ← spurious_setup LocalApicSpurious;
  _ ← timer_setup LocalApicTimer Periodic 0;
  _ ← timer_reset u64_max;
  quantum ← lift (quantum_of pit_calib);
  _ ← timer_reset quantum;
  _ ← for_ config (λ cfg,
    match cfg with
    | All lint flags => lint_setup lint flags
    | Specific cid lint flags => if cid =? id then lint_setup lint flags else mret tt
    end);
  mret quantum.

(** ** Theorems *)

(** The divisor a value of the divide configuration register selects: its
    bits 3, 1 and 0 count powers of two from 2, and 111 is one. *)
Definition divisor (r : Z) : Z :=
  let k := 4 * Z.land (Z.shiftr r 3) 1 + Z.land r 3 in
  if k =? 7 then 1 else 2 ^ (k + 1).

(** The register offsets of the structure are those of the controller. *)
Lemma register_offsets :
  register_offset register_layout "eoireg" = Some 0xB0%nat ∧
  register_offset register_layout "sivreg" = Some 0xF0%nat ∧
  register_offset register_layout "lvt_timerreg" = Some 0x320%nat ∧
  register_offset register_layout "lvt_lint0reg" = Some 0x350%nat ∧
  register_offset register_layout "lvt_lint1reg" = Some 0x360%nat ∧
  register_offset register_layout "lvt_errreg" = Some 0x370%nat ∧
  register_offset register_layout "initcountreg" = Some 0x380%nat ∧
  register_offset register_layout "currcountreg" = Some 0x390%nat ∧
  register_offset register_layout "divcfgreg" = Some 0x3E0%nat ∧
  sum_list (snd <$> register_layout) = 256%nat.
Proof. split_and!; vm_compute; reflexivity. Qed.

(** [timer_setup] selects the divisor it is asked for up to sixteen; for
    the powers five to seven the third bit of the power is lost, because the
    shift binds tighter than the mask, and the divisor is sixteen times too
    small.  Larger powers stop the kernel. *)
Theorem timer_setup_divisor vector mode divpow l :
  0 ≤ divpow →
  (divpow ≤ 7 → ∃ l', timer_setup vector mode divpow l = Ok (tt, l') ∧
    lvt_timerreg l' = Z.lor vector (Z.shiftl (TimerMode_as mode) 17) ∧
    divisor (divcfgreg l') = if divpow <=? 4 then 2 ^ divpow else 2 ^ (divpow - 4)) ∧
  (7 < divpow → timer_setup vector mode divpow l = Panic Explicit).
Proof.
  intros H0. split; intros H.
  - assert (divpow = 0 ∨ divpow = 1 ∨ divpow = 2 ∨ divpow = 3 ∨ divpow = 4 ∨ divpow = 5 ∨ divpow = 6 ∨ divpow = 7)
      as Hc by lia.
    destruct Hc as [->|[->|[->|[->|[->|[->|[->| ->]]]]]]]; eexists; split_and!; reflexivity.
  - unfold timer_setup. destruct (Z.eqb_spec divpow 0); [lia|]. destruct (Z.leb_spec divpow 7); [lia|done].
Qed.

Lemma pit_wait_wraps isvm start t0 t1 r reads :
  start < pit_word r → in_width 16 start → in_width 16 (pit_word r) → in_width 64 t0 → 884248 ≤ t0 →
  pit_wait isvm start t0 t1 (r :: reads) =
    if isvm then Ok (Some (t0, t0 - 884248)) else Panic Overflow.
Proof.
  intros Hr Hs Hw Ht Hle. cbn [pit_wait]. destruct isvm; cbn [andb].
  - destruct (Z.ltb_spec start (pit_word r)); [|lia]. unfold sub64.
    rewrite chk_in by (unfold in_width in *; lia). done.
  - rewrite chk_out by (unfold in_width in *; lia). done.
Qed.

(** The calibration ends at the first answer of the PIT at least the delay
    below the start, with the two measures, as long as the counter does not
    pass below zero before.  Once it does, a virtual machine gets a fixed
    difference, and any other machine stops with an overflow. *)
Theorem pit_wait_correct isvm start t0 t1 before r after :
  in_width 16 start → in_width 64 t0 → 884248 ≤ t0 → in_width 16 (pit_word r) →
  Forall (λ q, 0 ≤ start - pit_word q < PIT_DELAY) before →
  (PIT_DELAY ≤ start - pit_word r →
    pit_wait isvm start t0 t1 (before ++ r :: after) = Ok (Some (t0, t1))) ∧
  (start < pit_word r →
    pit_wait isvm start t0 t1 (before ++ r :: after) =
      if isvm then Ok (Some (t0, t0 - 884248)) else Panic Overflow).
Proof.
  intros Hs Ht Hle Hw Hb. induction Hb as [|q before Hq _ IH]; cbn [app].
  - split; intros H; [|by apply pit_wait_wraps]. cbn [pit_wait].
    destruct (Z.ltb_spec start (pit_word r)); [unfold PIT_DELAY in *; lia|]. rewrite andb_false_r.
    rewrite chk_in by (unfold in_width in *; lia). cbn [mbind res_bind].
    by destruct (Z.leb_spec PIT_DELAY (start - pit_word r)); [|lia].
  - assert (pit_wait isvm start t0 t1 (q :: before ++ r :: after) = pit_wait isvm start t0 t1 (before ++ r :: after)) as ->;
      [|exact IH].
    cbn [pit_wait]. destruct (Z.ltb_spec start (pit_word q)); [lia|]. rewrite andb_false_r.
    unfold PIT_DELAY in *. rewrite chk_in by (unfold in_width in *; lia). cbn [mbind res_bind].
    by destruct (Z.leb_spec 11933 (start - pit_word q)); [lia|].
Qed.

(** What the calibration must answer, and a configuration that is for another
    core or names an input that exists. *)
Definition calib_ok (c : Z * Z) : Prop := 0 ≤ snd c ≤ fst c ∧ (fst c - snd c) * QUANTUM_MS < 2 ^ 64.
Definition config_ok (id : Z) (cfg : LocalApicNmiConfig) : Prop :=
  match cfg with
  | All lint _ => lint = 0 ∨ lint = 1
  | Specific cid lint _ => cid = id → lint = 0 ∨ lint = 1
  end.

Lemma quantum_of_run c : calib_ok c → quantum_of c = Ok ((fst c - snd c) * 10000).
Proof.
  unfold calib_ok, quantum_of, sub64, mul64, QUANTUM_MS. intros [Hc Hm].
  rewrite chk_in by (unfold in_width; lia). cbn [mbind res_bind]. rewrite chk_in by (unfold in_width; lia).
  cbn [mbind res_bind]. unfold mret, res_ret. f_equal.
  replace ((fst c - snd c) * 100000) with ((fst c - snd c) * 10000 * 10) by lia. by rewrite Z.div_mul.
Qed.

(** The set-up of a core succeeds whatever the registers held. *)
Lemma apic_init_run id c config l :
  calib_ok c → Forall (config_ok id) config → ∃ l', apic_init id c config l = Ok ((fst c - snd c) * 10000, l').
Proof.
  intros Hc Hcfg. unfold apic_init, error_setup, spurious_setup, timer_reset.
  do 2 rewrite (M_bind_run (modify _) _ _ tt _ eq_refl).
  match goal with |- context [_ ?t = Ok _] =>
    destruct (timer_setup LocalApicTimer Periodic 0 t) as [[[] l1]|] eqn:E1; [|done]; run_step E1 end.
  rewrite (M_bind_run (modify _) _ _ tt _ eq_refl).
  match goal with |- context [_ ?t = Ok _] => run_step (lift_run _ t _ (quantum_of_run c Hc)) end.
  rewrite (M_bind_run (modify _) _ _ tt _ eq_refl). generalize (fst c - snd c) as q. intros q.
  match goal with |- context [(for_ config ?g ≫= _) ?t = _] => generalize t; intros l2;
    assert (∃ l3, for_ config g l2 = Ok (tt, l3)) as [l3 Hf] end; [|exists l3; by run_step Hf].
  clear -Hcfg. revert l2. induction Hcfg as [|cfg config Hok _ IH]; intros l2; [by exists l2|].
  rewrite for_cons.
  match goal with |- context [(?m ≫= _) l2] => assert (∃ l4, m l2 = Ok (tt, l4)) as [l4 Hm] end.
  { destruct cfg as [lint flags|cid lint flags]; simpl in Hok.
    - destruct Hok as [-> | ->]; by eexists.
    - destruct (Z.eqb_spec cid id) as [E|]; [|by exists l2]. destruct (Hok E) as [-> | ->]; by eexists. }
  destruct (IH l4) as [l3 H3]. exists l3. by run_step Hm.
Qed.

(** Configurations of other cores do nothing. *)
Lemma apic_init_skips id calib config l :
  Forall (λ cfg, match cfg with All _ _ => False | Specific cid _ _ => cid ≠ id end) config →
  apic_init id calib config l = apic_init id calib [] l.
Proof.
  intros Hc. unfold apic_init. do 6 (apply M_bind_ext; intros ? ?). cbn [for_].
  match goal with |- ((for_ config ?f) ≫= _) ?s = _ => assert (for_ config f s = Ok (tt, s)) as Hf end.
  { induction Hc as [|cfg config Hcfg _ IH]; [done|]. rewrite for_cons.
    destruct cfg as [|cid lint flags]; [done|]. destruct (Z.eqb_spec cid id); [done|]. exact IH. }
  by run_step Hf.
Qed.

(** The set-up of a core programs the error, spurious and periodic timer
    vectors and applies exactly the configured inputs; the initial count is
    the quantum's low 32 bits, so that a calibration of 429497 or more counts
    programs a shorter quantum than it returns. *)
Theorem apic_init_timer id c0 c1 l :
  0 ≤ c1 ≤ c0 → (c0 - c1) * QUANTUM_MS < 2 ^ 64 →
  ∃ l', apic_init id (c0, c1) [] l = Ok ((c0 - c1) * 10000, l') ∧
    lvt_errreg l' = 0xFD ∧ sivreg l' = 0x1FF ∧ lvt_timerreg l' = 0x200F0 ∧ divisor (divcfgreg l') = 1 ∧
    initcountreg l' = wrap 32 ((c0 - c1) * 10000) ∧
    (429497 ≤ c0 - c1 → initcountreg l' < (c0 - c1) * 10000).
Proof.
  intros Hc Hm. unfold QUANTUM_MS in *.
  pose proof (quantum_of_run (c0, c1) (conj Hc Hm)) as Hq. cbn [fst snd] in Hq.
  unfold apic_init. eexists. split.
  { unfold mbind, M_bind, lift. cbn -[quantum_of wrap]. rewrite Hq. reflexivity. }
  simpl. split_and!; try reflexivity. intros Hbig. unfold wrap.
  pose proof (Z.mod_pos_bound ((c0 - c1) * 10000) (2 ^ 32) ltac:(lia)). lia.
Qed.

Definition demo_lapic : Lapic := mkLapic 0 0 0 0 0 0 0 0.

Lemma timer_setup_divisor_witness :
  ∃ l', timer_setup 0xF0 Periodic 5 demo_lapic = Ok (tt, l') ∧ divisor (divcfgreg l') = 2.
Proof.
  destruct (timer_setup_divisor 0xF0 Periodic 5 demo_lapic ltac:(lia)) as [H _].
  destruct (H ltac:(lia)) as (l' & Hr & _ & Hd). exists l'. split; [exact Hr|exact Hd].
Defined.

Lemma pit_wait_correct_witness :
  pit_wait false 0xFFFE 1000000 100 [(0xFF, 0xFE); (0, 0xD0); (0, 0)] = Ok (Some (1000000, 100)).
Proof.
  apply (pit_wait_correct false 0xFFFE 1000000 100 [(0xFF, 0xFE)] (0, 0xD0) [(0, 0)]);
    try (by vm_compute). repeat constructor; by vm_compute.
Defined.

Lemma apic_init_timer_witness :
  ∃ l', apic_init 0 (1000000, 115752) [] demo_lapic = Ok (8842480000, l') ∧
    initcountreg l' = 252545408.
Proof.
  destruct (apic_init_timer 0 1000000 115752 demo_lapic) as (l' & Hr & _ & _ & _ & _ & Hi & _).
  - lia.
  - unfold QUANTUM_MS. lia.
  - exists l'. split; [exact Hr|]. rewrite Hi. reflexivity.
Defined.
