(* ===== verification/Acpi.v ===== *)
(** * The tables of the firmware

    Models [kernel/src/acpi/tables.rs], [kernel/src/acpi/mod.rs],
    [kernel/src/cfgtb.rs] and the consumer of the interrupt controller table
    in [kernel/src/proc/apic/mod.rs] ([cfgtb], [IoApicInfo],
    [IoApicRegisterMap], [LocalApicNmiConfig::from]).

    A table is reached by its virtual address; reading a byte goes through the
    page tables of [Mapper] to the physical memory, where the firmware left
    the tables ([hw_ram]).  A read through a page that is not mapped is a page
    fault, which stops the kernel.  [println!] is left out, except that the
    fields a message prints are read.  The two loops that follow lengths and
    references found in the tables have fuel; [OutOfFuel] says that the code
    is still running. *)

From S2P Require Import Prelude X86 FrameAlloc WindowCache VCache Mapper Mem Apic.

(** The machine: the root table in [CR3], the bytes of the physical memory
    that is not a page table, and what register [reg] of the interrupt
    controller at a physical address answers. *)
Record Hw := mkHw {
  hw_cr3 : Z;
  hw_ram : Z → Z;
  hw_ioapic : Z → Z → Z;
}.

Inductive IoApicRedirectionSource := Irq (n : Z) | Bus (n : Z).
#[global] Instance IoApicRedirectionSource_eq_dec : EqDecision IoApicRedirectionSource.
Proof. solve_decision. Defined.
#[global] Instance IoApicRedirectionSource_countable : Countable IoApicRedirectionSource.
Proof.
  refine (inj_countable' (λ r, match r with Irq n => (inl n : Z + Z) | Bus n => inr n end)
    (λ x, match x with inl n => Irq n | inr n => Bus n end) _).
  by intros [].
Defined.

(** [_regmap] is the page the registers are mapped at. *)
Record IoApicInfo := mkIoApicInfo {
  _regmap : Z;
  _id : Z;
  _irq_base : Z;
  _len : Z;
}.

(** The statics of [apic/mod.rs], with the locals [vmemmap] and [pgindex] of
    [acpi::init]. *)
Record Acpi (P V : Type) := mkAcpi {
  a_kmem : Kmem P V;
  IOAPIC_REDIRECTION : option (gmap IoApicRedirectionSource Z);
  IOAPIC : option (list IoApicInfo);
  APIC_CONFIG : option (list LocalApicNmiConfig);
  NUMCORES : Z;
  vmemmap : gmap Z Z;
  pgindex : Z;
}.
Arguments mkAcpi {P V}.
Arguments a_kmem {P V}.
Arguments IOAPIC_REDIRECTION {P V}.
Arguments IOAPIC {P V}.
Arguments APIC_CONFIG {P V}.
Arguments NUMCORES {P V}.
Arguments vmemmap {P V}.
Arguments pgindex {P V}.

Definition TABLE_VBASE : Z := KVMSPACE + 1024 * 1024 * 1024 * 1024 + 768 * 1024 * 1024 * 1024.
(** [VBASE] of [apic/mod.rs]. *)
Definition IOAPIC_VBASE : Z := KVMSPACE + 1024 * 1024 * 1024 * 1024 + 513 * 1024 * 1024 * 1024.

(** [mem::size_of::<AcpiHeader>()], [mem::size_of::<Madt>()]: both packed. *)
Definition sizeof_AcpiHeader : Z := 4 + 4 + 1 + 1 + 6 + 8 + 4 + 4 + 4.
Definition sizeof_Madt : Z := sizeof_AcpiHeader + 4 + 4.

(** The declared discriminants of [MadtType]; a byte that is none of them is
    not a value of the type. *)
Inductive MadtType :=
  | TLocalApic | TIoApic | TIoApicInterruptSourceOverride | TIoApicNmiSource | TLocalApicNmi
  | TLocalApicAddressOverride | TLocalApicExt2.
Definition MadtType_as (t : MadtType) : Z :=
  match t with
  | TLocalApic => 0
  | TIoApic => 1
  | TIoApicInterruptSourceOverride => 2
  | TIoApicNmiSource => 3
  | TLocalApicNmi => 4
  | TLocalApicAddressOverride => 5
  | TLocalApicExt2 => 9
  end.
Definition MadtType_of (b : Z) : option MadtType :=
  list_find (λ t, MadtType_as t = b)
    [TLocalApic; TIoApic; TIoApicInterruptSourceOverride; TIoApicNmiSource; TLocalApicNmi;
     TLocalApicAddressOverride; TLocalApicExt2] ≫= λ p, Some (snd p).

(** References to entries, by their address. *)
Inductive MadtEntry :=
  | LocalApic (e : Z)
  | IoApic (e : Z)
  | IoApicInterruptSourceOverride (e : Z)
  | LocalApicNmi (e : Z)
  | Other (e : Z).

(** The handlers that are registered: function pointers. *)
Inductive Handler := apic_cfgtb_acpi_handler.

Section acpi.
Context {X : X86} {P : Type} {FA : FrameAllocator P} {V : Type} {WC : WindowCache V}.
Variable hw : Hw.

Definition set_a_kmem (k : Kmem P V) (a : Acpi P V) : Acpi P V :=
  mkAcpi k (IOAPIC_REDIRECTION a) (IOAPIC a) (APIC_CONFIG a) (NUMCORES a) (vmemmap a) (pgindex a).
Definition set_redirections (m : gmap IoApicRedirectionSource Z) (a : Acpi P V) : Acpi P V :=
  mkAcpi (a_kmem a) (Some m) (IOAPIC a) (APIC_CONFIG a) (NUMCORES a) (vmemmap a) (pgindex a).
Definition set_ioapics (l : list IoApicInfo) (a : Acpi P V) : Acpi P V :=
  mkAcpi (a_kmem a) (IOAPIC_REDIRECTION a) (Some l) (APIC_CONFIG a) (NUMCORES a) (vmemmap a)
    (pgindex a).
Definition set_config (l : list LocalApicNmiConfig) (a : Acpi P V) : Acpi P V :=
  mkAcpi (a_kmem a) (IOAPIC_REDIRECTION a) (IOAPIC a) (Some l) (NUMCORES a) (vmemmap a) (pgindex a).
Definition set_numcores (n : Z) (a : Acpi P V) : Acpi P V :=
  mkAcpi (a_kmem a) (IOAPIC_REDIRECTION a) (IOAPIC a) (APIC_CONFIG a) n (vmemmap a) (pgindex a).
Definition set_locals (m : gmap Z Z) (n : Z) (a : Acpi P V) : Acpi P V :=
  mkAcpi (a_kmem a) (IOAPIC_REDIRECTION a) (IOAPIC a) (APIC_CONFIG a) (NUMCORES a) m n.
Definition on_a_kmem {A} (m : M (Kmem P V) A) : M (Acpi P V) A := zoom a_kmem set_a_kmem m.

(** ** Reading memory *)

Definition phys_byte (s : Kmem P V) (a : Z) : Z :=
  match k_mem s !! (a / PAGE_SIZE * PAGE_SIZE) with
  | Some t => (t !!! Z.to_nat (a mod PAGE_SIZE / 8)) / 256 ^ (a mod 8) mod 256
  | None => hw_ram hw a
  end.

Definition peek (a : Z) : M (Acpi P V) Z := λ s,
  match translate (k_mem (a_kmem s)) (hw_cr3 hw) (page_base a) with
  | Some (f, _) => Ok (phys_byte (a_kmem s) (f + a mod PAGE_SIZE), s)
  | None => Panic Undefined
  end.
Fixpoint peek_bytes (a : Z) (n : nat) : M (Acpi P V) (list Z) :=
  match n with
  | O => mret []
  | S n' => b ← peek a; l ← peek_bytes (a + 1) n'; mret (b :: l)
  end.
(** The integer field of [w] bytes at offset [off] of the structure at [a]. *)
Definition field (a off : Z) (w : nat) : M (Acpi P V) Z :=
  l ← peek_bytes (a + off) w; mret (le_decode l).

(** ** [AcpiHeader], [Xsdt] *)

Definition header_len (a : Z) : M (Acpi P V) Z := field a 4 4.
Definition header_signature (a : Z) : M (Acpi P V) (list Z) := peek_bytes a 4.

Definition byte_sum (l : list Z) : Z := foldl (λ acc c, wrap 8 (acc + c)) 0 l.
Definition verify_checksum (a : Z) : M (Acpi P V) bool :=
  len ← header_len a;
  l ← peek_bytes a (Z.to_nat len);
  mret (byte_sum l =? 0).

(** [Xsdt::from], [Madt::from]: the debug assertions, then a cast. *)
Definition table_from (sig : list Z) (a : Z) : M (Acpi P V) Z :=
  ok ← verify_checksum a;
  _ ← assert ok;
  s ← header_signature a;
  _ ← assert (bool_decide (s = sig));
  mret a.
Definition Xsdt_from : Z → M (Acpi P V) Z := table_from (bytes_of_string "XSDT").
Definition Madt_from : Z → M (Acpi P V) Z := table_from (bytes_of_string "APIC").

Definition xsdt_len (a : Z) : M (Acpi P V) Z :=
  len ← header_len a;
  d ← lift (sub64 len sizeof_AcpiHeader);
  mret (d / 8).
Definition sslist (a i : Z) : M (Acpi P V) Z :=
  n ← xsdt_len a;
  _ ← assert (i <? n);
  p ← field a (sizeof_AcpiHeader + 8 * i) 8;
  lift (of_option Crate (phys_new p)).

(** ** Mapping a table *)

Definition set_pgindex (n : Z) : M (Acpi P V) unit :=
  modify (λ a, set_locals (vmemmap a) n a).
Definition vmemmap_insert (frame page : Z) : M (Acpi P V) unit :=
  modify (λ a, set_locals (<[frame := page]> (vmemmap a)) (pgindex a) a).

Definition expect_map (page frame nbytes flags : Z) : M (Acpi P V) unit :=
  r ← on_a_kmem (vmap page frame nbytes flags);
  lift (unwrap_result r).

Definition map_table (padr : Z) : M (Acpi P V) Z :=
  let frame := frame_containing padr in
  n ← gets pgindex;
  page ← lift (of_option Crate (page_add TABLE_VBASE n));
  _ ← expect_map page frame PAGE_SIZE 0;
  table ← lift (of_option Crate (virt_add page (padr mod PAGE_SIZE)));
  len ← header_len table;
  aligned_size ← lift (of_option Crate (align_up len PAGE_SIZE));
  n1 ← lift (add64 n 1);
  _ ← set_pgindex n1;
  _ ← (if PAGE_SIZE <? aligned_size then
         let rest := aligned_size - PAGE_SIZE in
         page1 ← lift (of_option Crate (page_add page 1));
         frame1 ← lift (of_option Crate (frame_add frame 1));
         _ ← expect_map page1 frame1 rest 0;
         n2 ← lift (add64 n1 (rest / PAGE_SIZE));
         set_pgindex n2
       else mret tt);
  _ ← vmemmap_insert frame page;
  mret table.

Definition getvadr (padr : Z) : M (Acpi P V) Z :=
  let frame := frame_containing padr in
  m ← gets vmemmap;
  match m !! frame with
  | Some page => lift (of_option Crate (virt_add page (padr mod PAGE_SIZE)))
  | None => map_table padr
  end.

Definition xsdt_at (a i : Z) : M (Acpi P V) Z := p ← sslist a i; getvadr p.

(** ** The entries of the interrupt controller table *)

Definition entry_of (t : MadtType) (e : Z) : MadtEntry :=
  match t with
  | TLocalApic => LocalApic e
  | TIoApic => IoApic e
  | TIoApicInterruptSourceOverride => IoApicInterruptSourceOverride e
  | TLocalApicNmi => LocalApicNmi e
  | _ => Other e
  end.

(** [MadtIterator::next], on the cursor: the entry and the next cursor. *)
Definition madt_next (madt cursor : Z) : M (Acpi P V) (option (MadtEntry * Z)) :=
  len ← header_len madt;
  if len <=? cursor then mret None else
  let entry_header := madt + cursor in
  elen ← field entry_header 1 1;
  cursor' ← lift (add64 cursor elen);
  mtype ← field entry_header 0 1;
  t ← lift (of_option Undefined (MadtType_of mtype));
  mret (Some (entry_of t entry_header, cursor')).

(** [MadtEntryIoApicInterruptSourceOverride]: [bus_src] at 2, [irq_src] at 3,
    [gsi] at 4. *)
Definition iso_source (e : Z) : M (Acpi P V) IoApicRedirectionSource :=
  bus_src ← field e 2 1;
  if negb (bus_src =? 0) then mret (Bus bus_src)
  else irq_src ← field e 3 1; mret (Irq irq_src).
Definition iso_destination (e : Z) : M (Acpi P V) Z := field e 4 4.

(** [MadtEntryLocalApicNmi] is declared without the header of an entry: [id]
    at 0, [flags] at 1, [lint] at 3. *)
Definition LocalApicNmiConfig_from (e : Z) : M (Acpi P V) LocalApicNmiConfig :=
  id ← field e 0 1;
  lint ← field e 3 1;
  flags ← field e 1 2;
  mret (if id =? 0xFF then All lint flags else Specific id lint flags).

(** [IoApicRegisterMap]: selecting a register and reading it; the device is
    the one behind the page. *)
Definition ioapic_read (regmap reg : Z) : M (Acpi P V) Z := λ s,
  match translate (k_mem (a_kmem s)) (hw_cr3 hw) regmap with
  | Some (f, _) => Ok (hw_ioapic hw f reg, s)
  | None => Panic Undefined
  end.
Definition maxredent (regmap : Z) : M (Acpi P V) Z :=
  r ← ioapic_read regmap 1; mret (Z.land (Z.shiftr r 16) 0xFF).

(** [MadtEntryIoApic]: [ioapicid] at 2, [ioapic_adr] at 4, [gsib] at 8. *)
Definition IoApicInfo_new (e vadr : Z) : M (Acpi P V) IoApicInfo :=
  adr ← field e 4 4;
  p ← lift (of_option Crate (phys_new adr));
  frame ← lift (unwrap (frame_from_start p));
  _ ← expect_map vadr frame PAGE_SIZE 0;
  m ← maxredent vadr;
  len ← lift (add64 m 1);
  id ← field e 2 1;
  base ← field e 8 4;
  mret (mkIoApicInfo vadr id base len).

Definition register_apic_config (e : Z) : M (Acpi P V) unit :=
  cfg ← LocalApicNmiConfig_from e;
  modify (λ a, set_config (default [] (APIC_CONFIG a) ++ [cfg]) a).
Definition register_ioapic (e : Z) : M (Acpi P V) unit :=
  l ← gets (λ a, default [] (IOAPIC a));
  vadr ← lift (of_option Crate (page_add IOAPIC_VBASE (Z.of_nat (length l))));
  info ← IoApicInfo_new e vadr;
  modify (set_ioapics (l ++ [info])).
Definition register_ioapic_redirection (e : Z) : M (Acpi P V) unit :=
  src ← iso_source e;
  dst ← iso_destination e;
  modify (λ a, set_redirections (<[src := dst]> (default ∅ (IOAPIC_REDIRECTION a))) a).

(** The body of the loop of [acpi_handler].  [MadtEntryLocalApic] has [procid]
    at 2, [apicid] at 3 and [flags] at 4, which are only printed. *)
Definition madt_entry (entry : MadtEntry) : M (Acpi P V) unit :=
  match entry with
  | LocalApic e =>
    _ ← field e 2 1; _ ← field e 3 1; _ ← field e 4 4;
    n ← gets NUMCORES;
    n' ← lift (add64 n 1);
    modify (set_numcores n')
  | IoApic e => _ ← field e 2 1; register_ioapic e
  | IoApicInterruptSourceOverride e =>
    _ ← iso_source e; _ ← iso_destination e; register_ioapic_redirection e
  | LocalApicNmi e => _ ← LocalApicNmiConfig_from e; register_apic_config e
  | Other _ => mret tt
  end.
Fixpoint madt_for (fuel : nat) (madt cursor : Z) : M (Acpi P V) unit :=
  match fuel with
  | O => fail OutOfFuel
  | S fuel' =>
    r ← madt_next madt cursor;
    match r with
    | None => mret tt
    | Some (entry, cursor') => _ ← madt_entry entry; madt_for fuel' madt cursor'
    end
  end.
Definition acpi_handler (fuel : nat) (table : Z) : M (Acpi P V) unit :=
  madt ← Madt_from table; madt_for fuel madt sizeof_Madt.

(** ** The configuration table *)

Local Notation Handlers := (gmap (list Z) (list Handler)).
Definition cfgtb_register (handlers : Handlers) (sig : list Z) (h : Handler) : Handlers :=
  let list := match handlers !! sig with None => [] | Some list => list end in
  <[sig := list ++ [h]]> handlers.
Definition cfgtb_init : Handlers :=
  cfgtb_register ∅ (bytes_of_string "APIC") apic_cfgtb_acpi_handler.
Definition run_handler (fuel : nat) (h : Handler) : Z → M (Acpi P V) unit :=
  match h with apic_cfgtb_acpi_handler => acpi_handler fuel end.
Definition cfgtb_call (fuel : nat) (handlers : Handlers) (sig : list Z) (table : Z) :
    M (Acpi P V) bool :=
  match handlers !! sig with
  | Some list => _ ← for_ list (λ h, run_handler fuel h table); mret (negb (bool_decide (list = [])))
  | None => mret false
  end.

(** ** Walking the tables *)

(** [depth] bounds the nesting of [walk_recursive], [fuel] the loops of the
    handlers. *)
Fixpoint walk_recursive (depth fuel : nat) (handlers : Handlers) (head : Z) : M (Acpi P V) unit :=
  match depth with
  | O => fail OutOfFuel
  | S depth' =>
    ok ← verify_checksum head;
    if negb ok then mret tt else
    sig ← header_signature head;
    if bool_decide (sig = bytes_of_string "XSDT") then
      xsdt ← Xsdt_from head;
      n ← xsdt_len xsdt;
      for_ (range n) (λ i,
        next_table ← xsdt_at xsdt i;
        walk_recursive depth' fuel handlers next_table)
    else _ ← cfgtb_call fuel handlers sig head; mret tt
  end.

(** [acpi::init]; [acpi_ptr] is the field of the boot information. *)
Definition acpi_init (depth fuel : nat) (handlers : Handlers) (acpi_ptr : Z) : M (Acpi P V) unit :=
  _ ← modify (set_locals ∅ 0);
  p ← lift (of_option Crate (phys_new acpi_ptr));
  xsdt ← getvadr p;
  walk_recursive depth fuel handlers xsdt.
End acpi.

(** ** Tables in memory *)

(** What the firmware wrote: the entries of the interrupt controller table
    in the layout of the ACPI specification. *)
Inductive madt_item :=
  | ILocalApic (procid apicid flags : Z)
  | IIoApic (id adr gsib : Z)
  | IIso (bus irq gsi flags : Z)
  | INmi (procid flags lint : Z)
  | IOther (t : MadtType) (body : list Z).

Definition u8 (x : Z) : nat * Z := (1%nat, x).
Definition u16 (x : Z) : nat * Z := (2%nat, x).
Definition u32 (x : Z) : nat * Z := (4%nat, x).
Definition item_fields (it : madt_item) : list (nat * Z) :=
  match it with
  | ILocalApic procid apicid flags => [u8 0; u8 8; u8 procid; u8 apicid; u32 flags]
  | IIoApic id adr gsib => [u8 1; u8 12; u8 id; u8 0; u32 adr; u32 gsib]
  | IIso bus irq gsi flags => [u8 2; u8 10; u8 bus; u8 irq; u32 gsi; u16 flags]
  | INmi procid flags lint => [u8 4; u8 6; u8 procid; u16 flags; u8 lint]
  | IOther t body => u8 (MadtType_as t) :: u8 (2 + Z.of_nat (length body)) :: (u8 <$> body)
  end.
Definition encode_item (it : madt_item) : list Z := encode_fields (item_fields it).
Definition encode_items (items : list madt_item) : list Z := items ≫= encode_item.

(** Every field fits; the registers of an interrupt controller are a page. *)
Definition item_ok (it : madt_item) : Prop :=
  Forall field_ok (item_fields it) ∧
  match it with
  | IIoApic _ adr _ => page_aligned adr = true
  | IOther t _ => match t with
                  | TIoApicNmiSource | TLocalApicAddressOverride | TLocalApicExt2 => True
                  | _ => False
                  end
  | _ => True
  end.

Definition is_core (it : madt_item) : bool :=
  match it with ILocalApic _ _ _ => true | _ => false end.
Definition item_redirection (m : gmap IoApicRedirectionSource Z) (it : madt_item) :
    gmap IoApicRedirectionSource Z :=
  match it with
  | IIso bus irq gsi _ => <[if bus =? 0 then Irq irq else Bus bus := gsi]> m
  | _ => m
  end.
Definition item_ioapic (it : madt_item) : option (Z * Z * Z) :=
  match it with IIoApic id adr gsib => Some (id, adr, gsib) | _ => None end.
(** What the kernel registers for a local interrupt entry. *)
Definition item_config (it : madt_item) : option LocalApicNmiConfig :=
  match it with
  | INmi procid flags _ => Some (Specific 4 (flags mod 256) (6 + 256 * procid))
  | _ => None
  end.
Definition ioapic_page (k : nat) : Z := IOAPIC_VBASE + Z.of_nat k * PAGE_SIZE.

Section acpi_proofs.
Context {X : X86} {XO : X86Ok X} {P : Type} {FA : FrameAllocator P} {FAO : FrameAllocatorOk P}.
Context {V : Type} {WC : WindowCache V} {WCO : WindowCacheOk V}.
Variable hw : Hw.
Notation cr3 := (hw_cr3 hw).
Implicit Types (s : Acpi P V) (k : Kmem P V).

(** Byte [b] is at address [a], in a frame of the firmware: neither free nor
    a page table. *)
Definition byte_at k (a b : Z) : Prop :=
  ∃ f fl, translate (k_mem k) cr3 (page_base a) = Some (f, fl) ∧ good_page (page_base a) ∧
    good_frame f ∧ f ∉ fa_free (k_pmm k) ∧ k_mem k !! f = None ∧ hw_ram hw (f + a mod PAGE_SIZE) = b.
Definition table_at k (a : Z) (l : list Z) : Prop :=
  ∀ i b, l !! i = Some b → byte_at k (a + Z.of_nat i) b.

Lemma peek_run s a b : byte_at (a_kmem s) a b → peek hw a s = Ok (b, s).
Proof.
  intros (f & fl & Htr & _ & [Ha _] & _ & Hm & Hb). unfold peek. rewrite Htr. unfold phys_byte.
  apply page_aligned_iff in Ha.
  replace ((f + a mod PAGE_SIZE) / PAGE_SIZE * PAGE_SIZE) with f by (unfold PAGE_SIZE; zlia).
  by rewrite Hm, Hb.
Qed.

Lemma peek_bytes_run s a l : table_at (a_kmem s) a l → peek_bytes hw a (length l) s = Ok (l, s).
Proof.
  revert a. induction l as [|b l IH]; intros a Hl; [done|]. cbn [length peek_bytes].
  pose proof (Hl O b eq_refl) as Hb. rewrite Z.add_0_r in Hb. run_step (peek_run s a b Hb).
  assert (peek_bytes hw (a + 1) (length l) s = Ok (l, s)) as Hr; [|by run_step Hr].
  apply IH. intros i c Hi. specialize (Hl (S i) c Hi).
  by replace (a + 1 + Z.of_nat i) with (a + Z.of_nat (S i)) by lia.
Qed.

Lemma table_at_sub k a l off n :
  table_at k a l → table_at k (a + Z.of_nat off) (sub_bytes l off n).
Proof.
  intros Hl i b Hi. unfold sub_bytes in Hi.
  assert (i < n)%nat as Hn. { apply lookup_lt_Some in Hi. rewrite length_take in Hi. lia. }
  rewrite lookup_take_lt, lookup_drop in Hi by done. specialize (Hl _ _ Hi).
  by replace (a + Z.of_nat off + Z.of_nat i) with (a + Z.of_nat (off + i)) by lia.
Qed.

(** A field of a table in memory is the field of its bytes. *)
Lemma field_run s a l off w x :
  table_at (a_kmem s) a l → read_field l off w = Ok x → field hw a (Z.of_nat off) w s = Ok (x, s).
Proof.
  intros Hl. unfold read_field. destruct (Nat.leb_spec (off + w) (length l)) as [Hle|]; [|done].
  intros [= <-]. unfold field.
  assert (length (sub_bytes l off w) = w) as Hlen.
  { unfold sub_bytes. rewrite length_take, length_drop. lia. }
  pose proof (peek_bytes_run s _ _ (table_at_sub _ a l off w Hl)) as Hr. rewrite Hlen in Hr.
  by run_step Hr.
Qed.

Lemma table_at_app k a l1 l2 :
  table_at k a (l1 ++ l2) → table_at k a l1 ∧ table_at k (a + Z.of_nat (length l1)) l2.
Proof.
  intros H. split; intros i b Hi.
  - apply H. by apply lookup_app_l_Some.
  - specialize (H (length l1 + i)%nat b). rewrite lookup_app_r in H by lia.
    replace (length l1 + i - length l1)%nat with i in H by lia. specialize (H Hi).
    by replace (a + Z.of_nat (length l1) + Z.of_nat i) with (a + Z.of_nat (length l1 + i)) by lia.
Qed.

(** Mapping other pages leaves a table where it is. *)
Lemma byte_at_remaps k k' n ps a b :
  remaps n cr3 ps k k' → page_base a ∉ ps → byte_at k a b → byte_at k' a b.
Proof.
  intros Hrm Hps (f & fl & Htr & [Hc Ha] & Hg & Hfr & Hm & Hb). exists f, fl. split_and!; try done.
  - by rewrite (rm_other _ _ _ _ _ Hrm).
  - intros Hf. by apply (rm_free _ _ _ _ _ Hrm) in Hf.
  - apply eq_None_not_Some. intros [Hs|Hs]%(rm_dom _ _ _ _ _ Hrm); [|set_solver].
    rewrite Hm in Hs. by destruct Hs.
Qed.

Lemma table_at_remaps k k' n ps a l :
  remaps n cr3 ps k k' → (∀ i, (i < length l)%nat → page_base (a + Z.of_nat i) ∉ ps) →
  table_at k a l → table_at k' a l.
Proof.
  intros Hrm Hps Hl i b Hi. eapply byte_at_remaps; [done| |by apply Hl].
  apply Hps. by eapply lookup_lt_Some.
Qed.

Lemma page_base_le a i : page_base a ≤ page_base (a + Z.of_nat i).
Proof. unfold page_base, PAGE_SIZE. zlia. Qed.

(** ** The checksum *)

Lemma foldl_wrap l acc : foldl (λ acc c, wrap 8 (acc + c)) (wrap 8 acc) l = wrap 8 (acc + foldr Z.add 0 l).
Proof.
  revert acc. induction l as [|c l IH]; intros acc; simpl; [by rewrite Z.add_0_r|].
  replace (wrap 8 (wrap 8 acc + c)) with (wrap 8 (acc + c)).
  - rewrite IH. f_equal. lia.
  - unfold wrap. by rewrite Z.add_mod_idemp_l.
Qed.
Lemma byte_sum_spec l : byte_sum l = foldr Z.add 0 l mod 256.
Proof.
  pose proof (foldl_wrap l 0) as H. change (wrap 8 0) with 0 in H. unfold byte_sum. by rewrite H.
Qed.

Lemma verify_checksum_run s a l :
  table_at (a_kmem s) a l → read_field l 4 4 = Ok (Z.of_nat (length l)) →
  verify_checksum hw a s = Ok (byte_sum l =? 0, s).
Proof.
  intros Hl Hlen. unfold verify_checksum, header_len. run_step (field_run s a l 4 4 _ Hl Hlen).
  rewrite Nat2Z.id. by run_step (peek_bytes_run s a l Hl).
Qed.

(** ** The entries *)

Lemma item_field s e it j w x off :
  table_at (a_kmem s) e (encode_item it) → item_ok it → item_fields it !! j = Some (w, x) →
  off = Z.of_nat (field_offset (item_fields it) j) → field hw e off w s = Ok (x, s).
Proof.
  intros Ht [Hf _] Hj ->. eapply field_run; [done|]. unfold encode_item.
  rewrite <-(app_nil_r (encode_fields _)), <-(app_nil_l (encode_fields _ ++ [])).
  apply (read_encoded_field [] _ [] j); [done| |done]. by eapply Forall_lookup_1.
Qed.

(** The entry [k] of the iterator, at the start of its fields. *)
Definition item_type (it : madt_item) : MadtType :=
  match it with
  | ILocalApic _ _ _ => TLocalApic
  | IIoApic _ _ _ => TIoApic
  | IIso _ _ _ _ => TIoApicInterruptSourceOverride
  | INmi _ _ _ => TLocalApicNmi
  | IOther t _ => t
  end.

Lemma sum_u8 (body : list Z) : sum_list (fst <$> (u8 <$> body)) = length body.
Proof. induction body as [|b body IH]; [done|]. rewrite !fmap_cons. simpl. by rewrite <-IH. Qed.

Lemma item_header it :
  item_fields it !! 0%nat = Some (u8 (MadtType_as (item_type it))) ∧
  item_fields it !! 1%nat = Some (u8 (Z.of_nat (length (encode_item it)))) ∧
  MadtType_of (MadtType_as (item_type it)) = Some (item_type it).
Proof.
  unfold encode_item. rewrite length_encode_fields.
  split_and!; [by destruct it| |by destruct it as [| | | |[]]].
  destruct it as [| | | |t body]; try done.
  change (sum_list (fst <$> item_fields (IOther t body))) with (2 + sum_list (fst <$> (u8 <$> body)))%nat.
  rewrite sum_u8, Nat2Z.inj_add. done.
Qed.

Lemma madt_next_run s madt pre it post :
  table_at (a_kmem s) madt (pre ++ encode_item it ++ post) → item_ok it → (8 ≤ length pre)%nat →
  read_field pre 4 4 = Ok (Z.of_nat (length (pre ++ encode_item it ++ post))) →
  Z.of_nat (length (pre ++ encode_item it ++ post)) < 2 ^ 32 →
  madt_next hw madt (Z.of_nat (length pre)) s =
    Ok (Some (entry_of (item_type it) (madt + Z.of_nat (length pre)),
      Z.of_nat (length pre + length (encode_item it))), s).
Proof.
  intros Ht Hok Hpre Hlen H32. destruct (item_header it) as (H0 & H1 & Hty).
  apply table_at_app in Ht as [Hhd [Hit _]%table_at_app].
  assert (0 < length (encode_item it))%nat as Hpos.
  { unfold encode_item. rewrite length_encode_fields. destruct it; simpl; lia. }
  unfold madt_next, header_len. run_step (field_run s madt pre 4 4 _ Hhd Hlen).
  rewrite !length_app in *. destruct (Z.leb_spec (Z.of_nat (length pre + (length (encode_item it) + length post))) (Z.of_nat (length pre))); [lia|].
  cbv zeta. assert (1 = Z.of_nat (field_offset (item_fields it) 1)) as E1 by (by destruct it).
  run_step (item_field s _ it 1 1 _ 1 Hit Hok H1 E1).
  assert (add64 (Z.of_nat (length pre)) (Z.of_nat (length (encode_item it))) =
    Ok (Z.of_nat (length pre + length (encode_item it)))) as Ea.
  { rewrite Nat2Z.inj_add. apply chk_in. unfold in_width. lia. }
  run_step (lift_run _ s _ Ea).
  run_step (item_field s _ it 0 1 _ 0 Hit Hok H0 eq_refl).
  assert (of_option Undefined (MadtType_of (MadtType_as (item_type it))) = Ok (item_type it)) as Et
    by (by rewrite Hty).
  by run_step (lift_run _ s _ Et).
Qed.

Lemma madt_next_end s madt l :
  table_at (a_kmem s) madt l → read_field l 4 4 = Ok (Z.of_nat (length l)) →
  madt_next hw madt (Z.of_nat (length l)) s = Ok (None, s).
Proof.
  intros Ht Hlen. unfold madt_next, header_len. run_step (field_run s madt l 4 4 _ Ht Hlen).
  by rewrite Z.leb_refl.
Qed.

(** ** What the handler registers *)

Notation ioapic_list s := (default [] (IOAPIC s)).
Definition ioapics (items : list madt_item) : list (Z * Z * Z) := omap item_ioapic items.
Definition new_ioapic (j : nat) (x : Z * Z * Z) : IoApicInfo :=
  let '(id, adr, gsib) := x in
  mkIoApicInfo (ioapic_page j) id gsib (Z.land (Z.shiftr (hw_ioapic hw adr 1) 16) 0xFF + 1).
Definition ioapic_pages (n m : nat) : list Z := ioapic_page <$> seq n m.

(** The statics of [s'] are those of [s] with the entries [items] registered. *)
Record statics (items : list madt_item) s s' : Prop := {
  rg_cores : NUMCORES s' = NUMCORES s + countb is_core items;
  rg_redirection : default ∅ (IOAPIC_REDIRECTION s') =
    foldl item_redirection (default ∅ (IOAPIC_REDIRECTION s)) items;
  rg_config : default [] (APIC_CONFIG s') = default [] (APIC_CONFIG s) ++ omap item_config items;
  rg_ioapic : ioapic_list s' =
    ioapic_list s ++ imap (λ j, new_ioapic (length (ioapic_list s) + j)) (ioapics items);
}.

(** The interrupt controllers of [items] are mapped, from page number [n]. *)
Definition ioapics_mapped (items : list madt_item) (n : nat) k : Prop :=
  ∀ j id adr gsib, ioapics items !! j = Some (id, adr, gsib) →
    translate (k_mem k) cr3 (ioapic_page (n + j)) = Some (adr, leaf_flags (ioapic_page (n + j)) 0).

(** What the handler of the table does to the state. *)
Record registered (items : list madt_item) s s' : Prop := {
  rg_statics : statics items s s';
  rg_locals : vmemmap s' = vmemmap s ∧ pgindex s' = pgindex s;
  rg_pages : ioapics_mapped items (length (ioapic_list s)) (a_kmem s');
  rg_remaps : remaps (3 * length (ioapics items)) cr3
    (ioapic_pages (length (ioapic_list s)) (length (ioapics items))) (a_kmem s) (a_kmem s');
  rg_windows : same_windows (wc_shows (k_vc (a_kmem s))) (wc_shows (k_vc (a_kmem s'))) [];
}.

(** There are frames, windows and paths for [n] more interrupt controllers. *)
Record madt_ready s (lv : Z → nat) (n : nat) : Prop := {
  mr_inv : kmem_inv (a_kmem s) cr3 lv;
  mr_room : has_room (wc_shows (k_vc (a_kmem s))) 2;
  mr_free : (3 * n ≤ size (fa_free (k_pmm (a_kmem s))))%nat;
  mr_clear j : (length (ioapic_list s) ≤ j < length (ioapic_list s) + n)%nat →
    clear_path (k_mem (a_kmem s)) cr3 (page_path (ioapic_page j)) = true;
  mr_bound : Z.of_nat (length (ioapic_list s) + n) ≤ 65536;
}.

Lemma ioapic_page_good j :
  Z.of_nat j ≤ 65536 → good_page (ioapic_page j) ∧ START_ADDR + VC_SIZE ≤ ioapic_page j ∧
    IOAPIC_VBASE ≤ ioapic_page j < TABLE_VBASE.
Proof.
  unfold good_page, ioapic_page, IOAPIC_VBASE, TABLE_VBASE, START_ADDR, VC_SIZE, P1PAGE_COUNT,
    KVMSPACE, PAGE_SIZE. rewrite canonical_iff, page_aligned_iff. intros. split; [split|]; zlia.
Qed.

Lemma elem_of_ioapic_pages q n m :
  q ∈ ioapic_pages n m ↔ ∃ j, (n ≤ j < n + m)%nat ∧ q = ioapic_page j.
Proof.
  unfold ioapic_pages. rewrite list_elem_of_fmap. setoid_rewrite elem_of_seq. naive_solver.
Qed.

Lemma ioapics_app l1 l2 : ioapics (l1 ++ l2) = ioapics l1 ++ ioapics l2.
Proof. apply omap_app. Qed.

Lemma statics_length items s s' :
  statics items s s' → length (ioapic_list s') = (length (ioapic_list s) + length (ioapics items))%nat.
Proof. intros Hs. rewrite (rg_ioapic _ _ _ Hs), length_app, length_imap. done. Qed.

Lemma statics_nil s s' :
  NUMCORES s' = NUMCORES s → IOAPIC_REDIRECTION s' = IOAPIC_REDIRECTION s →
  APIC_CONFIG s' = APIC_CONFIG s → IOAPIC s' = IOAPIC s → statics [] s s'.
Proof. intros H1 H2 H3 H4. split; rewrite ?H1, ?H2, ?H3, ?H4; simpl; rewrite ?app_nil_r; done || lia. Qed.

Lemma statics_app l1 l2 s s1 s2 : statics l1 s s1 → statics l2 s1 s2 → statics (l1 ++ l2) s s2.
Proof.
  intros Hs1 [Hc2 Hr2 Hf2 Hi2]. rewrite (statics_length _ _ _ Hs1) in Hi2.
  destruct Hs1 as [Hc1 Hr1 Hf1 Hi1]. split.
  - rewrite Hc2, Hc1. clear. induction l1 as [|x l1 IH]; simpl; lia.
  - by rewrite Hr2, Hr1, foldl_app.
  - by rewrite Hf2, Hf1, omap_app, app_assoc.
  - rewrite Hi2, Hi1, ioapics_app, imap_app, <-app_assoc. do 2 f_equal. apply imap_ext. intros j x _.
    simpl. f_equal. lia.
Qed.

(** Mapping pages that are not theirs leaves the controllers mapped. *)
Lemma ioapics_mapped_remaps items n m ps k k' :
  Z.of_nat (n + length (ioapics items)) ≤ 65536 → remaps m cr3 ps k k' →
  (∀ j, (n ≤ j < n + length (ioapics items))%nat → ioapic_page j ∉ ps) →
  ioapics_mapped items n k → ioapics_mapped items n k'.
Proof.
  intros Hb Hrm Hps Ht j id adr gsib Hj. pose proof (lookup_lt_Some _ _ _ Hj).
  destruct (ioapic_page_good (n + j) ltac:(lia)) as ([Hc Ha] & _).
  rewrite (rm_other _ _ _ _ _ Hrm); [by eapply Ht|done..|]. apply Hps. lia.
Qed.

Lemma ioapics_mapped_app l1 l2 n k :
  ioapics_mapped l1 n k → ioapics_mapped l2 (n + length (ioapics l1)) k → ioapics_mapped (l1 ++ l2) n k.
Proof.
  intros H1 H2 j id adr gsib. rewrite ioapics_app. intros [Hj|[Hle Hj]]%lookup_app_Some; [by eapply H1|].
  specialize (H2 _ _ _ _ Hj).
  by replace (n + length (ioapics l1) + (j - length (ioapics l1)))%nat with (n + j)%nat in H2 by lia.
Qed.

Lemma ioapic_page_inj i j : ioapic_page i = ioapic_page j → i = j.
Proof. unfold ioapic_page, PAGE_SIZE. lia. Qed.

Lemma registered_app l1 l2 s s1 s2 :
  Z.of_nat (length (ioapic_list s) + length (ioapics l1)) ≤ 65536 →
  registered l1 s s1 → registered l2 s1 s2 → registered (l1 ++ l2) s s2.
Proof.
  intros Hb [Hs1 [Hv1 Hp1] Ht1 Hm1 Hw1] [Hs2 [Hv2 Hp2] Ht2 Hm2 Hw2].
  pose proof (statics_length _ _ _ Hs1) as Hlen. rewrite Hlen in *. split.
  - by eapply statics_app.
  - by rewrite Hv2, Hv1, Hp2, Hp1.
  - apply ioapics_mapped_app; [|done]. eapply ioapics_mapped_remaps; [done|exact Hm2| |done].
    intros j Hj (i & Hi & E%ioapic_page_inj)%elem_of_ioapic_pages. lia.
  - rewrite ioapics_app, length_app, Nat.mul_add_distr_l. unfold ioapic_pages. rewrite seq_app, fmap_app.
    eapply remaps_trans; [exact Hm1|exact Hm2].
  - intros q g Hq. by rewrite (Hw2 q g), (Hw1 q g).
Qed.

Lemma expect_map_run s page frame lv :
  kmem_inv (a_kmem s) cr3 lv → good_page page → good_frame frame → START_ADDR + VC_SIZE ≤ page →
  clear_path (k_mem (a_kmem s)) cr3 (page_path page) = true →
  (3 ≤ size (fa_free (k_pmm (a_kmem s))))%nat → has_room (wc_shows (k_vc (a_kmem s))) 2 →
  ∃ k lv', expect_map page frame PAGE_SIZE 0 s = Ok (tt, set_a_kmem k s) ∧ kmem_inv k cr3 lv' ∧
    translate (k_mem k) cr3 page = Some (frame, leaf_flags page 0) ∧
    remaps 3 cr3 [page] (a_kmem s) k ∧
    same_windows (wc_shows (k_vc (a_kmem s))) (wc_shows (k_vc k)) [].
Proof.
  intros Hinv Hp Hf Hnm Hcl Hsz Hroom. pose proof kernel_flags_const as (Hk0 & _).
  destruct (vmap_page (a_kmem s) page frame 0 cr3 lv)
    as (k & lv' & Hr & Hinv' & Htr & Hrm & Hsw); try done; [by right|].
  exists k, lv'. split_and!; try done. unfold expect_map, on_a_kmem.
  by run_step (zoom_run a_kmem set_a_kmem _ s _ _ Hr).
Qed.

(** Registering an entry that maps nothing. *)
Lemma registered_pure it s s' :
  item_ioapic it = None → a_kmem s' = a_kmem s → IOAPIC s' = IOAPIC s →
  vmemmap s' = vmemmap s → pgindex s' = pgindex s →
  NUMCORES s' = NUMCORES s + countb is_core [it] →
  default ∅ (IOAPIC_REDIRECTION s') = item_redirection (default ∅ (IOAPIC_REDIRECTION s)) it →
  default [] (APIC_CONFIG s') = default [] (APIC_CONFIG s) ++ omap item_config [it] →
  registered [it] s s'.
Proof.
  intros Hi Hk Ha Hv Hp Hc Hr Hf.
  assert (ioapics [it] = []) as E by (unfold ioapics; simpl; by rewrite Hi).
  split; try done.
  - split; try done. rewrite Ha, E. by rewrite app_nil_r.
  - intros j id adr gsib. by rewrite E.
  - rewrite E, Hk. by apply remaps_refl.
  - by rewrite Hk.
Qed.

Lemma entry_local_apic s e procid apicid flags :
  table_at (a_kmem s) e (encode_item (ILocalApic procid apicid flags)) →
  item_ok (ILocalApic procid apicid flags) → 0 ≤ NUMCORES s → NUMCORES s + 1 < 2 ^ 64 →
  ∃ s', madt_entry hw (LocalApic e) s = Ok (tt, s') ∧
    registered [ILocalApic procid apicid flags] s s' ∧ a_kmem s' = a_kmem s.
Proof.
  intros Ht Hok H0 H1. exists (set_numcores (NUMCORES s + 1) s).
  split_and!; [|apply registered_pure; try done; by rewrite app_nil_r|done].
  unfold madt_entry. run_step (item_field s e _ 2 1 _ 2 Ht Hok eq_refl eq_refl).
  run_step (item_field s e _ 3 1 _ 3 Ht Hok eq_refl eq_refl).
  run_step (item_field s e _ 4 4 _ 4 Ht Hok eq_refl eq_refl).
  rewrite (M_bind_run (gets NUMCORES) _ s _ s eq_refl).
  assert (add64 (NUMCORES s) 1 = Ok (NUMCORES s + 1)) as E by (apply chk_in; unfold in_width; lia).
  by run_step (lift_run _ s _ E).
Qed.

Lemma entry_iso s e bus irq gsi flags :
  table_at (a_kmem s) e (encode_item (IIso bus irq gsi flags)) → item_ok (IIso bus irq gsi flags) →
  ∃ s', madt_entry hw (IoApicInterruptSourceOverride e) s = Ok (tt, s') ∧
    registered [IIso bus irq gsi flags] s s' ∧ a_kmem s' = a_kmem s.
Proof.
  intros Ht Hok.
  exists (set_redirections (item_redirection (default ∅ (IOAPIC_REDIRECTION s)) (IIso bus irq gsi flags)) s).
  split_and!; [|apply registered_pure; try done; simpl; [lia|by rewrite app_nil_r]|done].
  assert (iso_source hw e s = Ok (if bus =? 0 then Irq irq else Bus bus, s)) as Es.
  { unfold iso_source. run_step (item_field s e _ 2 1 _ 2 Ht Hok eq_refl eq_refl).
    destruct (Z.eqb_spec bus 0); cbn [negb]; [|done].
    by run_step (item_field s e _ 3 1 _ 3 Ht Hok eq_refl eq_refl). }
  assert (iso_destination hw e s = Ok (gsi, s)) as Ed
    by (apply (item_field s e _ 4 4 _ 4 Ht Hok eq_refl eq_refl)).
  unfold madt_entry. run_step Es. run_step Ed. unfold register_ioapic_redirection. run_step Es.
  by run_step Ed.
Qed.

(** The bytes of a local interrupt entry the kernel takes for its fields. *)
Lemma nmi_config_run s e procid flags lint :
  table_at (a_kmem s) e (encode_item (INmi procid flags lint)) → item_ok (INmi procid flags lint) →
  LocalApicNmiConfig_from hw e s = Ok (Specific 4 (flags mod 256) (6 + 256 * procid), s).
Proof.
  intros Ht Hok. unfold LocalApicNmiConfig_from.
  run_step (item_field s e _ 0 1 _ 0 Ht Hok eq_refl eq_refl).
  assert (read_field (encode_item (INmi procid flags lint)) 3 1 = Ok (flags mod 256)) as E3.
  { transitivity (Ok (flags mod 256 + 256 * 0)); [reflexivity|f_equal; lia]. }
  assert (read_field (encode_item (INmi procid flags lint)) 1 2 = Ok (6 + 256 * procid)) as E1.
  { transitivity (Ok (6 + 256 * (procid mod 256 + 256 * 0))); [reflexivity|].
    destruct Hok as [Hf _]. apply (Forall_lookup_1 _ _ 2 (u8 procid)) in Hf; [|done].
    change (0 ≤ procid < 256 ^ 1) in Hf. f_equal. zlia. }
  run_step (field_run s e _ 3 1 _ Ht E3). by run_step (field_run s e _ 1 2 _ Ht E1).
Qed.

Lemma entry_nmi s e procid flags lint :
  table_at (a_kmem s) e (encode_item (INmi procid flags lint)) → item_ok (INmi procid flags lint) →
  ∃ s', madt_entry hw (LocalApicNmi e) s = Ok (tt, s') ∧
    registered [INmi procid flags lint] s s' ∧ a_kmem s' = a_kmem s.
Proof.
  intros Ht Hok. pose proof (nmi_config_run s e procid flags lint Ht Hok) as Hc.
  exists (set_config (default [] (APIC_CONFIG s) ++ [Specific 4 (flags mod 256) (6 + 256 * procid)]) s).
  split_and!; [|apply registered_pure; try done; simpl; lia|done].
  unfold madt_entry. run_step Hc. unfold register_apic_config. by run_step Hc.
Qed.

(** The run of the entry: the I/O APIC gets page [j], and its registers are
    read through it. *)
Lemma entry_ioapic_run s e id adr gsib k :
  let j := length (ioapic_list s) in
  table_at (a_kmem s) e (encode_item (IIoApic id adr gsib)) → table_at k e (encode_item (IIoApic id adr gsib)) →
  item_ok (IIoApic id adr gsib) → 0 ≤ adr < 2 ^ 32 → good_page (ioapic_page j) →
  Z.of_nat j ≤ 65536 →
  expect_map (ioapic_page j) adr PAGE_SIZE 0 s = Ok (tt, set_a_kmem k s) →
  translate (k_mem k) cr3 (ioapic_page j) = Some (adr, leaf_flags (ioapic_page j) 0) →
  madt_entry hw (IoApic e) s =
    Ok (tt, set_ioapics (ioapic_list s ++ [new_ioapic j (id, adr, gsib)]) (set_a_kmem k s)).
Proof.
  intros j Ht Ht1 Hok Hadr Hgp Hj Hr Htr. pose proof Hok as [Hf Hal]. assert (in_width 52 adr) as Hw by (unfold in_width; lia).
  unfold madt_entry. run_step (item_field s e _ 2 1 _ 2 Ht Hok eq_refl eq_refl).
  unfold register_ioapic. rewrite (M_bind_run (gets _) _ s _ s eq_refl). fold j.
  assert (of_option Crate (page_add IOAPIC_VBASE (Z.of_nat j)) = Ok (ioapic_page j)) as Ep.
  { rewrite page_add_spec by (done || unfold PAGE_SIZE; lia). fold (ioapic_page j).
    by rewrite (proj1 Hgp). }
  run_step (lift_run _ s _ Ep). unfold IoApicInfo_new. rewrite M_bind_assoc.
  run_step (item_field s e _ 4 4 _ 4 Ht Hok eq_refl eq_refl). rewrite M_bind_assoc.
  assert (of_option Crate (phys_new adr) = Ok adr) as Ea.
  { rewrite phys_new_spec by (unfold in_width; lia). by destruct (Z.ltb_spec adr (2 ^ 52)); [|lia]. }
  run_step (lift_run _ s _ Ea). rewrite M_bind_assoc.
  assert (unwrap (frame_from_start adr) = Ok adr) as Eb
    by (rewrite frame_from_start_spec by done; by rewrite Hal).
  run_step (lift_run _ s _ Eb). rewrite M_bind_assoc. run_step Hr. rewrite M_bind_assoc.
  assert (maxredent hw (ioapic_page j) (set_a_kmem k s) =
    Ok (Z.land (Z.shiftr (hw_ioapic hw adr 1) 16) 0xFF, set_a_kmem k s)) as Em.
  { unfold maxredent, ioapic_read, mbind, M_bind. simpl a_kmem. by rewrite Htr. }
  run_step Em. rewrite M_bind_assoc.
  assert (add64 (Z.land (Z.shiftr (hw_ioapic hw adr 1) 16) 0xFF) 1 =
    Ok (Z.land (Z.shiftr (hw_ioapic hw adr 1) 16) 0xFF + 1)) as Ec.
  { apply chk_in. change 0xFF with (Z.ones 8). rewrite Z.land_ones by lia. unfold in_width.
    pose proof (Z.mod_pos_bound (Z.shiftr (hw_ioapic hw adr 1) 16) (2 ^ 8) ltac:(lia)). lia. }
  run_step (lift_run _ (set_a_kmem k s) _ Ec). rewrite M_bind_assoc.
  run_step (item_field (set_a_kmem k s) e _ 2 1 _ 2 Ht1 Hok eq_refl eq_refl). rewrite M_bind_assoc.
  by run_step (item_field (set_a_kmem k s) e _ 5 4 _ 8 Ht1 Hok eq_refl eq_refl).
Qed.

Lemma entry_ioapic s e id adr gsib lv n :
  table_at (a_kmem s) e (encode_item (IIoApic id adr gsib)) → item_ok (IIoApic id adr gsib) →
  TABLE_VBASE ≤ page_base e → madt_ready s lv (S n) →
  ∃ s' lv', madt_entry hw (IoApic e) s = Ok (tt, s') ∧ registered [IIoApic id adr gsib] s s' ∧
    madt_ready s' lv' n.
Proof.
  intros Ht Hok Hbase [Hinv Hroom Hfree Hclear Hbound]. pose proof Hok as [Hf Hal].
  set (j := length (ioapic_list s)) in *.
  destruct (ioapic_page_good j ltac:(lia)) as (Hgp & Hst & Hrange).
  assert (0 ≤ adr < 2 ^ 32) as Hadr.
  { apply (Forall_lookup_1 _ _ 4 (u32 adr)) in Hf; [|done]. exact Hf. }
  assert (in_width 52 adr) as Hw by (unfold in_width; lia).
  destruct (expect_map_run s (ioapic_page j) adr lv)
    as (k & lv' & Hr & Hinv' & Htr & Hrm & Hsw); try done; [by apply Hclear; lia|lia|].
  assert (table_at k e (encode_item (IIoApic id adr gsib))) as Ht1.
  { eapply table_at_remaps; [exact Hrm| |exact Ht]. intros i _ E%list_elem_of_singleton.
    pose proof (page_base_le e i). lia. }
  exists (set_ioapics (ioapic_list s ++ [new_ioapic j (id, adr, gsib)]) (set_a_kmem k s)), lv'.
  split_and!.
  - apply entry_ioapic_run; try done. lia.
  - split; try done.
    + split; cbn; try done; try lia; [by rewrite app_nil_r|]. do 2 f_equal. unfold new_ioapic.
      by rewrite Nat.add_0_r.
    + intros [|i] id' adr' g'; [|done]. intros [= <- <- <-]. by rewrite Nat.add_0_r.
  - pose proof (rm_size _ _ _ _ _ Hrm). set (s2 := set_ioapics _ _).
    assert (length (ioapic_list s2) = S j) as Hlen.
    { change (length (ioapic_list s ++ [new_ioapic j (id, adr, gsib)]) = S j).
      rewrite length_app. fold j. simpl. lia. }
    split; rewrite ?Hlen; change (a_kmem s2) with k; try done; try lia.
    + by eapply same_windows_room.
    + intros i Hi. apply (rm_clear _ _ _ _ _ Hrm); [apply page_indices_lt|simpl; lia|].
      apply Hclear. lia.
Qed.

Lemma madt_ready_pure s s' lv n :
  a_kmem s' = a_kmem s → ioapic_list s' = ioapic_list s → madt_ready s lv n → madt_ready s' lv n.
Proof. intros Hk Hl [H1 H2 H3 H4 H5]. split; rewrite ?Hk, ?Hl; done. Qed.

Lemma registered_pure_mem it s s' :
  item_ioapic it = None → registered [it] s s' → ioapic_list s' = ioapic_list s.
Proof.
  intros Hi Hr. rewrite (rg_ioapic _ _ _ (rg_statics _ _ _ Hr)). unfold ioapics. simpl. rewrite Hi. apply app_nil_r.
Qed.

(** One entry of the table. *)
Lemma madt_entry_run s e it lv n :
  table_at (a_kmem s) e (encode_item it) → item_ok it → TABLE_VBASE ≤ page_base e →
  0 ≤ NUMCORES s → NUMCORES s + 1 < 2 ^ 64 → madt_ready s lv (length (ioapics [it]) + n) →
  ∃ s' lv', madt_entry hw (entry_of (item_type it) e) s = Ok (tt, s') ∧ registered [it] s s' ∧
    madt_ready s' lv' n.
Proof.
  intros Ht Hok Hbase H0 H1 Hr. assert (item_ioapic it = None → ∀ s', registered [it] s s' →
    a_kmem s' = a_kmem s → madt_ready s' lv n) as Hpure.
  { intros Hi s' Hreg Hk. eapply madt_ready_pure; [done|by eapply registered_pure_mem|].
    unfold ioapics in Hr. simpl in Hr. by rewrite Hi in Hr. }
  destruct it as [procid apicid flags|id adr gsib|bus irq gsi flags|procid flags lint|t body].
  - destruct (entry_local_apic s e _ _ _ Ht Hok H0 H1) as (s' & Hs & Hreg & Hk). exists s', lv. auto.
  - by apply (entry_ioapic s e id adr gsib lv n).
  - destruct (entry_iso s e _ _ _ _ Ht Hok) as (s' & Hs & Hreg & Hk). exists s', lv. auto.
  - destruct (entry_nmi s e _ _ _ Ht Hok) as (s' & Hs & Hreg & Hk). exists s', lv. auto.
  - exists s, lv. assert (registered [IOther t body] s s) as Hreg.
    { apply registered_pure; try done; simpl; [lia|by rewrite app_nil_r]. }
    split_and!; [|done|auto]. destruct Hok as [_ Hok]. by destruct t.
Qed.

(** The handling of a table leaves a table where it is. *)
Lemma registered_table items s s' lv n a l :
  registered items s s' → madt_ready s lv n → (length (ioapics items) ≤ n)%nat →
  TABLE_VBASE ≤ page_base a → table_at (a_kmem s) a l → table_at (a_kmem s') a l.
Proof.
  intros Hreg Hr Hn Hbase. apply (table_at_remaps _ _ _ _ _ _ (rg_remaps _ _ _ Hreg)).
  intros i _ (j & Hj & E)%elem_of_ioapic_pages. pose proof (page_base_le a i).
  pose proof (mr_bound _ _ _ Hr). destruct (ioapic_page_good j) as (_ & _ & ?); lia.
Qed.

(** The loop over the entries [items], one turn each, up to what follows. *)
Lemma madt_for_prefix items s madt pre post lv n :
  table_at (a_kmem s) madt (pre ++ encode_items items ++ post) → Forall item_ok items →
  (8 ≤ length pre)%nat → TABLE_VBASE ≤ page_base madt →
  read_field pre 4 4 = Ok (Z.of_nat (length (pre ++ encode_items items ++ post))) →
  Z.of_nat (length (pre ++ encode_items items ++ post)) < 2 ^ 32 →
  0 ≤ NUMCORES s → NUMCORES s + Z.of_nat (length items) < 2 ^ 64 →
  madt_ready s lv (length (ioapics items) + n) →
  ∃ s' lv', registered items s s' ∧ madt_ready s' lv' n ∧
    ∀ fuel, madt_for hw fuel madt (Z.of_nat (length pre)) s =
      madt_for hw (fuel - length items) madt (Z.of_nat (length (pre ++ encode_items items))) s'.
Proof.
  revert s pre lv. induction items as [|it items IH];
    intros s pre lv Ht Hok Hpre Hbase Hlen H32 H0 Hn Hr.
  { exists s, lv. split_and!; [|done|].
    - split; try done; [by apply statics_nil|by apply remaps_refl].
    - intros fuel. cbn [encode_items mbind list_bind length]. by rewrite app_nil_r, Nat.sub_0_r. }
  change (encode_items (it :: items)) with (encode_item it ++ encode_items items) in *.
  rewrite <-app_assoc in Ht, Hlen, H32.
  apply Forall_cons in Hok as [Hit Hok]. cbn [length] in Hn.
  pose proof Ht as [_ [Hte _]%table_at_app]%table_at_app.
  pose proof (page_base_le madt (length pre)) as Hple.
  change (it :: items) with ([it] ++ items) in Hr |- *. rewrite ioapics_app, length_app, <-Nat.add_assoc in Hr.
  destruct (madt_entry_run s (madt + Z.of_nat (length pre)) it lv _ Hte Hit ltac:(lia) H0 ltac:(lia) Hr)
    as (s1 & lv1 & Hs1 & Hreg1 & Hr1).
  assert (0 ≤ NUMCORES s1 ≤ NUMCORES s + 1) as Hnc.
  { rewrite (rg_cores _ _ _ (rg_statics _ _ _ Hreg1)). simpl. destruct (is_core it); lia. }
  assert (pre ++ encode_item it ++ encode_items items ++ post =
    (pre ++ encode_item it) ++ encode_items items ++ post) as Eassoc by (by rewrite <-app_assoc).
  destruct (IH s1 (pre ++ encode_item it) lv1) as (s' & lv' & Hreg' & Hr' & Hrun');
    rewrite <-?Eassoc; try lia; try done.
  - eapply registered_table; [exact Hreg1|exact Hr|lia|done|done].
  - rewrite length_app. lia.
  - by rewrite read_field_app by lia.
  - exists s', lv'. split_and!; [|done|].
    + apply (registered_app [it] items s s1 s'); try done. pose proof (mr_bound _ _ _ Hr). lia.
    + intros [|fuel]; [done|]. cbn [madt_for].
      run_step (madt_next_run s madt pre it _ Ht Hit Hpre Hlen H32). run_step Hs1.
      rewrite <-length_app, Hrun'. by rewrite <-app_assoc.
Qed.

(** ** The whole table *)

(** The bytes of an interrupt controller table: header, entries, and what
    follows them. *)
Record madt_image (l : list Z) (items : list madt_item) (post : list Z) : Prop := {
  mi_bytes : ∃ pre, l = pre ++ encode_items items ++ post ∧ Z.of_nat (length pre) = sizeof_Madt;
  mi_items : Forall item_ok items;
  mi_sig : sub_bytes l 0 4 = bytes_of_string "APIC";
  mi_len : read_field l 4 4 = Ok (Z.of_nat (length l));
  mi_len32 : Z.of_nat (length l) < 2 ^ 32;
  mi_sum : byte_sum l = 0;
}.

Lemma signature_run s a l :
  table_at (a_kmem s) a l → (4 ≤ length l)%nat → header_signature hw a s = Ok (sub_bytes l 0 4, s).
Proof.
  intros Ht Hl. pose proof (peek_bytes_run s _ _ (table_at_sub _ a l 0 4 Ht)) as Hr.
  rewrite Z.add_0_r in Hr. unfold sub_bytes in Hr at 1. rewrite length_take, length_drop in Hr.
  by replace (4 `min` (length l - 0))%nat with 4%nat in Hr by lia.
Qed.

Lemma read_field_length l off w x : read_field l off w = Ok x → (off + w ≤ length l)%nat.
Proof. unfold read_field. by destruct (Nat.leb_spec (off + w) (length l)). Qed.

Lemma table_from_run s a l sig :
  table_at (a_kmem s) a l → read_field l 4 4 = Ok (Z.of_nat (length l)) → byte_sum l = 0 →
  sub_bytes l 0 4 = sig → table_from hw sig a s = Ok (a, s).
Proof.
  intros Ht Hlen Hsum Hsig. pose proof (read_field_length _ _ _ _ Hlen). unfold table_from.
  run_step (verify_checksum_run s a l Ht Hlen). rewrite Hsum.
  rewrite (M_bind_run (assert (0 =? 0)) _ s tt s eq_refl).
  run_step (signature_run s a l Ht ltac:(lia)).
  assert (assert (bool_decide (sub_bytes l 0 4 = sig)) s = Ok (tt, s)) as Ha by (by rewrite bool_decide_true).
  by run_step Ha.
Qed.

Lemma acpi_handler_prefix s a l items post lv n :
  madt_image l items post → table_at (a_kmem s) a l → TABLE_VBASE ≤ page_base a →
  0 ≤ NUMCORES s → NUMCORES s + Z.of_nat (length items) < 2 ^ 64 →
  madt_ready s lv (length (ioapics items) + n) →
  ∃ s' lv', registered items s s' ∧ madt_ready s' lv' n ∧ table_at (a_kmem s') a l ∧
    ∀ fuel, acpi_handler hw fuel a s =
      madt_for hw (fuel - length items) a (Z.of_nat (length l - length post)) s'.
Proof.
  intros [(pre & -> & Hpre) Hok Hsig Hlen H32 Hsum] Ht Hbase H0 Hn Hr.
  assert (8 ≤ length pre)%nat as H8 by (unfold sizeof_Madt, sizeof_AcpiHeader in Hpre; lia).
  destruct (madt_for_prefix items s a pre post lv n) as (s' & lv' & Hreg & Hr' & Hrun); try done.
  { by rewrite read_field_app in Hlen by lia. }
  exists s', lv'. split_and!; try done.
  - eapply registered_table; [done|done|lia|done|done].
  - intros fuel. unfold acpi_handler, Madt_from. run_step (table_from_run s a _ _ Ht Hlen Hsum Hsig).
    rewrite <-Hpre, Hrun. do 2 f_equal. rewrite !length_app. lia.
Qed.

Lemma acpi_handler_run s a l items lv n fuel :
  madt_image l items [] → table_at (a_kmem s) a l → TABLE_VBASE ≤ page_base a →
  0 ≤ NUMCORES s → NUMCORES s + Z.of_nat (length items) < 2 ^ 64 →
  madt_ready s lv (length (ioapics items) + n) → (length items < fuel)%nat →
  ∃ s' lv', acpi_handler hw fuel a s = Ok (tt, s') ∧ registered items s s' ∧ madt_ready s' lv' n.
Proof.
  intros Him Ht Hbase H0 Hn Hr Hfuel.
  destruct (acpi_handler_prefix s a l items [] lv n Him Ht Hbase H0 Hn Hr)
    as (s' & lv' & Hreg & Hr' & Ht' & Hrun).
  exists s', lv'. split_and!; try done. rewrite Hrun. cbn [length]. rewrite Nat.sub_0_r.
  destruct (fuel - length items)%nat as [|f] eqn:E; [lia|]. cbn [madt_for].
  by run_step (madt_next_end s' a l Ht' (mi_len _ _ _ Him)).
Qed.

(** An entry of length zero that the handler ignores is met again and again. *)
Lemma madt_for_stuck s a l t rest fuel :
  table_at (a_kmem s) a l → read_field l 4 4 = Ok (Z.of_nat (length l)) →
  Z.of_nat (length l) < 2 ^ 32 → (∃ pre, l = pre ++ MadtType_as t :: 0 :: rest) →
  t ∈ [TIoApicNmiSource; TLocalApicAddressOverride; TLocalApicExt2] →
  madt_for hw fuel a (Z.of_nat (length l - length (MadtType_as t :: 0 :: rest))) s = Panic OutOfFuel.
Proof.
  intros Ht Hlen H32 [pre ->] Hty. set (post := MadtType_as t :: 0 :: rest) in *.
  replace (length (pre ++ post) - length post)%nat with (length pre)
    by (rewrite length_app; lia).
  pose proof Ht as [_ Hpost]%table_at_app.
  assert (read_field post 0 1 = Ok (MadtType_as t)) as E0
    by (unfold post; by destruct t).
  assert (read_field post 1 1 = Ok 0) as E1 by done.
  assert (MadtType_of (MadtType_as t) = Some t) as Et by (by destruct t).
  assert (∃ e, entry_of t (a + Z.of_nat (length pre)) = Other e) as [e Ee].
  { rewrite !elem_of_cons, elem_of_nil in Hty. destruct Hty as [->|[->|[->|[]]]]; eauto. }
  assert (madt_next hw a (Z.of_nat (length pre)) s = Ok (Some (Other e, Z.of_nat (length pre)), s)) as Hn.
  { unfold madt_next, header_len. run_step (field_run s a _ 4 4 _ Ht Hlen). rewrite length_app in *.
    destruct (Z.leb_spec (Z.of_nat (length pre + length post)) (Z.of_nat (length pre))) as [Hle|_];
      [unfold post in Hle; simpl in Hle; lia|].
    cbv zeta. run_step (field_run s _ post 1 1 _ Hpost E1).
    assert (add64 (Z.of_nat (length pre)) 0 = Ok (Z.of_nat (length pre))) as Ea.
    { unfold add64. rewrite Z.add_0_r. apply chk_in. unfold in_width. lia. }
    run_step (lift_run _ s _ Ea). run_step (field_run s _ post 0 1 _ Hpost E0).
    rewrite Et. rewrite (M_bind_run (lift (of_option Undefined (Some t))) _ s t s eq_refl).
    by rewrite Ee. }
  induction fuel as [|fuel IH]; [done|]. cbn [madt_for]. run_step Hn. exact IH.
Qed.

(** ** Reaching the tables *)

(** The bytes [l] of a table at the physical address [padr], in one frame
    that is neither free nor a page table. *)
Record fw_at k (padr : Z) (l : list Z) : Prop := {
  fw_width : in_width 52 padr;
  fw_frame : good_frame (page_base padr);
  fw_span : padr mod PAGE_SIZE + Z.of_nat (length l) ≤ PAGE_SIZE;
  fw_free : page_base padr ∉ fa_free (k_pmm k);
  fw_mem : k_mem k !! page_base padr = None;
  fw_bytes i b : l !! i = Some b → hw_ram hw (padr + Z.of_nat i) = b;
}.

Lemma fw_at_mono k k' padr l :
  fa_free (k_pmm k') ⊆ fa_free (k_pmm k) →
  (∀ g, is_Some (k_mem k' !! g) → is_Some (k_mem k !! g) ∨ g ∈ fa_free (k_pmm k) ∖ fa_free (k_pmm k')) →
  fw_at k padr l → fw_at k' padr l.
Proof.
  intros Hfr Hdom [H1 H2 H3 H4 H5 H6]. split; try done.
  - intros Hf. by apply Hfr in Hf.
  - apply eq_None_not_Some. intros [Hs|Hs]%Hdom; [|set_solver].
    rewrite H5 in Hs. by destruct Hs.
Qed.

Lemma fw_at_remaps k k' n ps padr l : remaps n cr3 ps k k' → fw_at k padr l → fw_at k' padr l.
Proof. intros Hrm. apply fw_at_mono; apply Hrm. Qed.

(** A table seen through a page that maps its frame. *)
Lemma fw_table_at k padr l page fl :
  fw_at k padr l → good_page page → translate (k_mem k) cr3 page = Some (page_base padr, fl) →
  table_at k (page + padr mod PAGE_SIZE) l.
Proof.
  intros [H1 H2 H3 H4 H5 H6] Hgp Htr i b Hi. pose proof (lookup_lt_Some _ _ _ Hi).
  pose proof (proj2 Hgp) as Ha. apply page_aligned_iff in Ha.
  assert (page_base (page + padr mod PAGE_SIZE + Z.of_nat i) = page) as E
    by (unfold page_base, PAGE_SIZE in *; zlia).
  assert ((page + padr mod PAGE_SIZE + Z.of_nat i) mod PAGE_SIZE = padr mod PAGE_SIZE + Z.of_nat i) as Em
    by (unfold PAGE_SIZE in *; zlia).
  exists (page_base padr), fl. rewrite E, Em. split_and!; try done.
  rewrite <-(H6 i b Hi). f_equal. unfold page_base, PAGE_SIZE. zlia.
Qed.

Definition table_page (j : Z) : Z := TABLE_VBASE + j * PAGE_SIZE.
Lemma table_page_good j :
  0 ≤ j ≤ 65536 → good_page (table_page j) ∧ START_ADDR + VC_SIZE ≤ table_page j ∧
    TABLE_VBASE ≤ table_page j.
Proof.
  unfold good_page, table_page, TABLE_VBASE, START_ADDR, VC_SIZE, P1PAGE_COUNT, KVMSPACE, PAGE_SIZE.
  rewrite canonical_iff, page_aligned_iff. intros. split; [split|]; zlia.
Qed.

(** There is room for [m] more pages of tables and [n] more interrupt
    controllers, and the pages already mapped show their frames. *)
Record acpi_ready s (lv : Z → nat) (m n : nat) : Prop := {
  ar_madt : madt_ready s lv n;
  ar_free : (3 * (m + n) ≤ size (fa_free (k_pmm (a_kmem s))))%nat;
  ar_index : 0 ≤ pgindex s ∧ pgindex s + Z.of_nat m ≤ 65536;
  ar_clear j : pgindex s ≤ j < pgindex s + Z.of_nat m →
    clear_path (k_mem (a_kmem s)) cr3 (page_path (table_page j)) = true;
  ar_vmemmap f page : vmemmap s !! f = Some page → ∃ j fl, page = table_page j ∧ 0 ≤ j < pgindex s ∧
    translate (k_mem (a_kmem s)) cr3 page = Some (f, fl);
}.

Lemma acpi_ready_le s lv m m' n : (m' ≤ m)%nat → acpi_ready s lv m n → acpi_ready s lv m' n.
Proof.
  intros Hle [H1 H2 H3 H4 H5]. split; try done; try lia. intros j Hj. apply H4. lia.
Qed.

(** What walking tables does: the statics of [registered]; only pages of
    tables and of the new controllers change their translation. *)
Record walked (items : list madt_item) s s' : Prop := {
  wk_statics : statics items s s';
  wk_pages : ioapics_mapped items (length (ioapic_list s)) (a_kmem s');
  wk_index : 0 ≤ pgindex s ≤ pgindex s';
  wk_remaps : ∃ m ps, remaps m cr3 ps (a_kmem s) (a_kmem s') ∧
    Forall (λ p, (∃ j, pgindex s ≤ j < pgindex s' ∧ p = table_page j) ∨
      p ∈ ioapic_pages (length (ioapic_list s)) (length (ioapics items))) ps;
}.

Lemma table_page_base j : 0 ≤ j → TABLE_VBASE ≤ table_page j.
Proof. unfold table_page, PAGE_SIZE. lia. Qed.

Lemma walked_app l1 l2 s s1 s2 :
  Z.of_nat (length (ioapic_list s) + length (ioapics l1)) ≤ 65536 →
  walked l1 s s1 → walked l2 s1 s2 → walked (l1 ++ l2) s s2.
Proof.
  intros Hb [Hs1 Ht1 Hi1 (m1 & ps1 & Hm1 & Hp1)] [Hs2 Ht2 Hi2 (m2 & ps2 & Hm2 & Hp2)].
  pose proof (statics_length _ _ _ Hs1) as Hlen. rewrite Hlen in *. split.
  - by eapply statics_app.
  - apply ioapics_mapped_app; [|done]. eapply ioapics_mapped_remaps; [done|exact Hm2| |done].
    intros j Hj Hin. rewrite Forall_forall in Hp2.
    destruct (Hp2 _ Hin) as [(i & Hi & E)|(i & Hi & E%ioapic_page_inj)%elem_of_ioapic_pages]; [|lia].
    pose proof (table_page_base i ltac:(lia)). destruct (ioapic_page_good j ltac:(lia)) as (_ & _ & ?). lia.
  - lia.
  - exists (m1 + m2)%nat, (ps1 ++ ps2). split; [by eapply remaps_trans|]. rewrite ioapics_app, length_app.
    apply Forall_app. split; eapply Forall_impl; [exact Hp1| |exact Hp2|];
      intros p [(j & Hj & ->)|(j & Hj & ->)%elem_of_ioapic_pages];
      [left; exists j; split; [lia|done]|right|left; exists j; split; [lia|done]|right];
      apply elem_of_ioapic_pages; exists j; (split; [lia|done]).
Qed.

Lemma walked_registered items s s' : 0 ≤ pgindex s → registered items s s' → walked items s s'.
Proof.
  intros H0 Hreg. split; [apply Hreg..| |].
  - rewrite (proj2 (rg_locals _ _ _ Hreg)). lia.
  - eexists _, _. split; [exact (rg_remaps _ _ _ Hreg)|]. apply Forall_forall. by right.
Qed.

Lemma walked_nil s s' m ps :
  NUMCORES s' = NUMCORES s → IOAPIC_REDIRECTION s' = IOAPIC_REDIRECTION s →
  APIC_CONFIG s' = APIC_CONFIG s → IOAPIC s' = IOAPIC s → 0 ≤ pgindex s ≤ pgindex s' →
  remaps m cr3 ps (a_kmem s) (a_kmem s') →
  Forall (λ p, ∃ j, pgindex s ≤ j < pgindex s' ∧ p = table_page j) ps → walked [] s s'.
Proof.
  intros H1 H2 H3 H4 Hix Hrm Hps. split; [by apply statics_nil|done|done|].
  exists m, ps. split; [done|]. eapply Forall_impl; [exact Hps|]. by left.
Qed.

(** A table in a page that was mapped before stays where it is. *)
Definition in_table_page (a : Z) (l : list Z) (j : Z) : Prop :=
  ∀ i, (i < length l)%nat → page_base (a + Z.of_nat i) = table_page j.

Lemma walked_table items s s' a l j :
  walked items s s' → Z.of_nat (length (ioapic_list s) + length (ioapics items)) ≤ 65536 →
  0 ≤ j < pgindex s → in_table_page a l j → table_at (a_kmem s) a l → table_at (a_kmem s') a l.
Proof.
  intros [_ _ Hix (m & ps & Hrm & Hps)] Hb Hj Hin. apply (table_at_remaps _ _ _ _ _ _ Hrm).
  intros i Hi. rewrite (Hin i Hi). rewrite Forall_forall in Hps.
  intros [(j' & Hj' & E)|(j' & Hj' & E)%elem_of_ioapic_pages]%Hps.
  - unfold table_page, PAGE_SIZE in E. lia.
  - destruct (ioapic_page_good j' ltac:(lia)) as (_ & _ & ?). pose proof (table_page_base j). lia.
Qed.

(** Frames, windows and paths after a page of a table was mapped. *)
Lemma acpi_ready_map s lv m n k lv' f fl :
  acpi_ready s lv (S m) n → kmem_inv k cr3 lv' → remaps 3 cr3 [table_page (pgindex s)] (a_kmem s) k →
  same_windows (wc_shows (k_vc (a_kmem s))) (wc_shows (k_vc k)) [] →
  translate (k_mem k) cr3 (table_page (pgindex s)) = Some (f, fl) →
  acpi_ready (set_locals (<[f := table_page (pgindex s)]> (vmemmap s)) (pgindex s + 1) (set_a_kmem k s))
    lv' m n.
Proof.
  intros [[Hinv Hroom Hfr Hcl Hb] Hfree Hix Hclear Hvm] Hinv' Hrm Hsw Htr.
  pose proof (rm_size _ _ _ _ _ Hrm). split; cbn [a_kmem set_locals set_a_kmem vmemmap pgindex].
  - split; cbn [a_kmem set_locals set_a_kmem IOAPIC]; try done; [by eapply same_windows_room|lia|].
    intros j Hj. apply (rm_clear _ _ _ _ _ Hrm); [apply page_indices_lt|simpl; lia|by apply Hcl].
  - lia.
  - lia.
  - intros j Hj. apply (rm_clear _ _ _ _ _ Hrm); [apply page_indices_lt|simpl; lia|apply Hclear; lia].
  - intros g page. rewrite lookup_insert_Some. intros [[<- <-]|[Hne Hg]].
    + exists (pgindex s), fl. split_and!; [done|lia|lia|done].
    + destruct (Hvm _ _ Hg) as (j & fl' & -> & Hj & Hg'). exists j, fl'. split_and!; [done|lia|lia|].
      destruct (table_page_good j ltac:(lia)) as ([Hc Ha] & _).
      rewrite (rm_other _ _ _ _ _ Hrm); [done..|]. intros E%list_elem_of_singleton.
      unfold table_page, PAGE_SIZE in E. lia.
Qed.

Lemma virt_add_offset page padr :
  good_page page → of_option Crate (virt_add page (padr mod PAGE_SIZE)) = Ok (page + padr mod PAGE_SIZE).
Proof.
  intros [Hc Ha]. assert (0 ≤ padr mod PAGE_SIZE < 4096) by (apply Z.mod_pos_bound; unfold PAGE_SIZE; lia).
  rewrite virt_add_spec by (done || unfold in_width; lia).
  replace (canonical (page + padr mod PAGE_SIZE)) with true; [done|]. symmetry.
  rewrite canonical_iff in *. apply page_aligned_iff in Ha. zlia.
Qed.

Lemma map_table_run s padr l len lv m n :
  acpi_ready s lv (S m) n → fw_at (a_kmem s) padr l → read_field l 4 4 = Ok len → 0 < len ≤ PAGE_SIZE →
  ∃ k lv', let s' := set_locals (<[page_base padr := table_page (pgindex s)]> (vmemmap s)) (pgindex s + 1)
      (set_a_kmem k s) in
    map_table hw padr s = Ok (table_page (pgindex s) + padr mod PAGE_SIZE, s') ∧
    table_at k (table_page (pgindex s) + padr mod PAGE_SIZE) l ∧ acpi_ready s' lv' m n ∧
    remaps 3 cr3 [table_page (pgindex s)] (a_kmem s) k.
Proof.
  intros Har Hfw Hlen Hle. pose proof Har as [[Hinv Hroom Hfr Hcl Hb] Hfree Hix Hclear Hvm].
  destruct (table_page_good (pgindex s) ltac:(lia)) as (Hgp & Hst & _).
  destruct (expect_map_run s (table_page (pgindex s)) (page_base padr) lv)
    as (k & lv' & Hr & Hinv' & Htr & Hrm & Hsw); try done; [apply Hfw|apply Hclear; lia|lia|].
  assert (table_at k (table_page (pgindex s) + padr mod PAGE_SIZE) l) as Ht.
  { eapply fw_table_at; [by eapply fw_at_remaps|done|exact Htr]. }
  exists k, lv'. split_and!; [|done|by eapply acpi_ready_map|done].
  unfold map_table. rewrite frame_containing_spec by apply Hfw. fold (page_base padr).
  rewrite (M_bind_run (gets pgindex) _ s _ s eq_refl).
  assert (of_option Crate (page_add TABLE_VBASE (pgindex s)) = Ok (table_page (pgindex s))) as Ep.
  { rewrite page_add_spec by (done || unfold PAGE_SIZE; lia). fold (table_page (pgindex s)).
    by rewrite (proj1 Hgp). }
  run_step (lift_run _ s _ Ep). run_step Hr. set (s1 := set_a_kmem k s).
  run_step (lift_run _ s1 _ (virt_add_offset _ padr Hgp)).
  run_step (field_run s1 _ l 4 4 _ Ht Hlen).
  assert (of_option Crate (align_up len PAGE_SIZE) = Ok PAGE_SIZE) as Ea.
  { rewrite align_up_page_spec by (unfold in_width, PAGE_SIZE in *; lia). cbv zeta.
    replace ((len + 4095) / 4096) with 1 by (unfold PAGE_SIZE in *; zlia). done. }
  run_step (lift_run _ s1 _ Ea).
  assert (add64 (pgindex s) 1 = Ok (pgindex s + 1)) as E1 by (apply chk_in; unfold in_width; lia).
  run_step (lift_run _ s1 _ E1). done.
Qed.

Lemma in_table_page_at padr l j :
  padr mod PAGE_SIZE + Z.of_nat (length l) ≤ PAGE_SIZE →
  in_table_page (table_page j + padr mod PAGE_SIZE) l j.
Proof.
  intros Hspan i Hi. pose proof (Z.mod_pos_bound padr PAGE_SIZE ltac:(done)).
  unfold page_base, table_page, TABLE_VBASE, KVMSPACE, PAGE_SIZE in *. zlia.
Qed.

Lemma getvadr_run s padr l lv m n :
  acpi_ready s lv (S m) n → fw_at (a_kmem s) padr l → read_field l 4 4 = Ok (Z.of_nat (length l)) →
  ∃ a j s' lv', getvadr hw padr s = Ok (a, s') ∧ table_at (a_kmem s') a l ∧ 0 ≤ j < pgindex s' ∧
    in_table_page a l j ∧ acpi_ready s' lv' m n ∧ walked [] s s'.
Proof.
  intros Har Hfw Hlen. pose proof (fw_span _ _ _ Hfw) as Hspan.
  pose proof (ar_index _ _ _ _ Har) as Hix. unfold getvadr.
  rewrite frame_containing_spec by apply Hfw. fold (page_base padr).
  rewrite (M_bind_run (gets vmemmap) _ s _ s eq_refl).
  destruct (vmemmap s !! page_base padr) as [page|] eqn:E.
  - destruct (ar_vmemmap _ _ _ _ Har _ _ E) as (j & fl & -> & Hj & Htr).
    destruct (table_page_good j ltac:(lia)) as (Hgp & _).
    exists (table_page j + padr mod PAGE_SIZE), j, s, lv. split_and!; [|by eapply fw_table_at|lia|lia| | |].
    + by apply lift_run, virt_add_offset.
    + by apply in_table_page_at.
    + eapply acpi_ready_le; [|done]. lia.
    + eapply (walked_nil s s 0 []); [done..|lia|by apply remaps_refl|done].
  - pose proof (read_field_length _ _ _ _ Hlen). pose proof (Z.mod_pos_bound padr PAGE_SIZE ltac:(done)).
    destruct (map_table_run s padr l _ lv m n Har Hfw Hlen ltac:(lia)) as (k & lv' & Hr & Ht & Har' & Hrm).
    eexists _, (pgindex s), _, lv'.
    split_and!; [exact Hr|exact Ht|lia|simpl; lia|by apply in_table_page_at|exact Har'|].
    eapply (walked_nil s _ 3 [table_page (pgindex s)]); simpl; [done..|lia|done|].
    apply Forall_singleton. exists (pgindex s). split; [lia|done].
Qed.

(** ** Walking the tables *)

(** A table the firmware lists: an interrupt controller table, or one the
    kernel passes over, because its checksum is wrong or nothing handles it. *)
Inductive fw_table :=
  | FwMadt (l : list Z) (items : list madt_item)
  | FwSkip (l : list Z).
Definition fw_bytes_of (t : fw_table) : list Z := match t with FwMadt l _ => l | FwSkip l => l end.
Definition fw_items (t : fw_table) : list madt_item :=
  match t with FwMadt _ items => items | FwSkip _ => [] end.
Definition fw_ok (t : fw_table) : Prop :=
  match t with
  | FwMadt l items => madt_image l items []
  | FwSkip l => read_field l 4 4 = Ok (Z.of_nat (length l)) ∧
      (byte_sum l ≠ 0 ∨ sub_bytes l 0 4 ≠ bytes_of_string "XSDT" ∧ sub_bytes l 0 4 ≠ bytes_of_string "APIC")
  end.

Lemma fw_ok_len t : fw_ok t → read_field (fw_bytes_of t) 4 4 = Ok (Z.of_nat (length (fw_bytes_of t))).
Proof. destruct t; simpl; [apply mi_len|tauto]. Qed.

Lemma cfgtb_lookup sig :
  cfgtb_init !! sig = if decide (sig = bytes_of_string "APIC") then Some [apic_cfgtb_acpi_handler] else None.
Proof.
  unfold cfgtb_init, cfgtb_register. rewrite lookup_empty. case_decide as E.
  - subst. by rewrite lookup_insert_eq.
  - by rewrite lookup_insert_ne.
Qed.

Lemma acpi_ready_registered items s s' lv lv' m n :
  acpi_ready s lv m (length (ioapics items) + n) → registered items s s' → madt_ready s' lv' n →
  acpi_ready s' lv' m n.
Proof.
  intros [Hmr Hfree Hix Hclear Hvm] Hreg Hmr'. pose proof Hreg as [Hst [Hv Hp] _ Hrm _].
  pose proof (rm_size _ _ _ _ _ Hrm). pose proof (mr_bound _ _ _ Hmr).
  split; rewrite ?Hv, ?Hp; try done.
  - lia.
  - intros j Hj. apply (rm_clear _ _ _ _ _ Hrm); [apply page_indices_lt|simpl; lia|by apply Hclear].
  - intros f page Hf. destruct (Hvm _ _ Hf) as (j & fl & -> & Hj & Htr). exists j, fl. split_and!; try lia; try done.
    destruct (table_page_good j ltac:(lia)) as ([Hc Ha] & _ & Hb).
    rewrite (rm_other _ _ _ _ _ Hrm); [done..|]. intros (i & Hi & E)%elem_of_ioapic_pages.
    destruct (ioapic_page_good i ltac:(lia)) as (_ & _ & ?). lia.
Qed.

Lemma walk_table s a t lv depth fuel m n :
  table_at (a_kmem s) a (fw_bytes_of t) → fw_ok t → TABLE_VBASE ≤ page_base a →
  0 ≤ NUMCORES s → NUMCORES s + Z.of_nat (length (fw_items t)) < 2 ^ 64 →
  acpi_ready s lv m (length (ioapics (fw_items t)) + n) → (length (fw_items t) < fuel)%nat →
  ∃ s' lv', walk_recursive hw (S depth) fuel cfgtb_init a s = Ok (tt, s') ∧
    walked (fw_items t) s s' ∧ acpi_ready s' lv' m n.
Proof.
  intros Ht Hok Hbase H0 Hn Har Hfuel. pose proof (fw_ok_len _ Hok) as Hlen.
  pose proof (read_field_length _ _ _ _ Hlen). cbn [walk_recursive].
  run_step (verify_checksum_run s a _ Ht Hlen).
  destruct t as [l items|l]; cbn [fw_bytes_of fw_items] in *.
  - rewrite (mi_sum _ _ _ Hok). cbn [Z.eqb negb]. run_step (signature_run s a l Ht ltac:(lia)).
    rewrite (mi_sig _ _ _ Hok). rewrite bool_decide_false by done.
    destruct (acpi_handler_run s a l items lv n fuel Hok Ht Hbase H0 Hn (ar_madt _ _ _ _ Har) Hfuel)
      as (s' & lv' & Hr & Hreg & Hmr).
    exists s', lv'. split_and!; [|apply walked_registered; [apply (ar_index _ _ _ _ Har)|done]|by eapply acpi_ready_registered].
    unfold cfgtb_call. rewrite cfgtb_lookup, decide_True by done. cbn [for_ run_handler].
    rewrite !M_bind_assoc. by run_step Hr.
  - exists s, lv. destruct Hok as [_ Hskip].
    split_and!; [|eapply (walked_nil s s 0 []); [done..| |by apply remaps_refl|done]|done];
      [|pose proof (ar_index _ _ _ _ Har); lia].
    destruct (Z.eqb_spec (byte_sum l) 0) as [Hs|Hs]; cbn [negb]; [|done].
    destruct Hskip as [?|[Hx Ha]]; [done|]. run_step (signature_run s a l Ht ltac:(lia)).
    rewrite bool_decide_false by done. unfold cfgtb_call. by rewrite cfgtb_lookup, decide_False by done.
Qed.

(** The bytes of an extended system description table that lists [ptrs]. *)
Record xsdt_image (l : list Z) (ptrs : list Z) : Prop := {
  xi_bytes : ∃ pre, l = pre ++ encode_fields ((λ p, (8%nat, p)) <$> ptrs) ∧
    Z.of_nat (length pre) = sizeof_AcpiHeader;
  xi_sig : sub_bytes l 0 4 = bytes_of_string "XSDT";
  xi_len : read_field l 4 4 = Ok (Z.of_nat (length l));
  xi_sum : byte_sum l = 0;
}.

Lemma sum_ptrs (ptrs : list Z) :
  sum_list (fst <$> ((λ p, (8%nat, p)) <$> ptrs)) = (8 * length ptrs)%nat.
Proof.
  induction ptrs as [|p ptrs IH]; [done|]. rewrite !fmap_cons.
  change (8 + sum_list (fst <$> ((λ p, (8%nat, p)) <$> ptrs)) = 8 * S (length ptrs))%nat. lia.
Qed.

Lemma xsdt_len_run s a l ptrs :
  xsdt_image l ptrs → table_at (a_kmem s) a l → Z.of_nat (length l) ≤ PAGE_SIZE →
  xsdt_len hw a s = Ok (Z.of_nat (length ptrs), s).
Proof.
  intros [(pre & E & Hpre) _ Hlen _] Ht Hle. unfold xsdt_len, header_len.
  run_step (field_run s a l 4 4 _ Ht Hlen).
  assert (length l = length pre + 8 * length ptrs)%nat as El.
  { by rewrite E, length_app, length_encode_fields, sum_ptrs. }
  assert (sub64 (Z.of_nat (length l)) sizeof_AcpiHeader = Ok (8 * Z.of_nat (length ptrs))) as Es.
  { unfold sub64. rewrite El, <-Hpre.
    replace (Z.of_nat (length pre + 8 * length ptrs) - Z.of_nat (length pre))
      with (8 * Z.of_nat (length ptrs)) by lia.
    apply chk_in. unfold in_width, PAGE_SIZE in *. lia. }
  run_step (lift_run _ s _ Es). unfold mret, M_ret. do 2 f_equal. rewrite Z.mul_comm. by apply Z.div_mul.
Qed.

Lemma sslist_run s a l ptrs i p :
  xsdt_image l ptrs → table_at (a_kmem s) a l → Z.of_nat (length l) ≤ PAGE_SIZE →
  ptrs !! i = Some p → in_width 52 p → sslist hw a (Z.of_nat i) s = Ok (p, s).
Proof.
  intros Hx Ht Hle Hi Hp. unfold sslist. run_step (xsdt_len_run s a l ptrs Hx Ht Hle).
  pose proof (lookup_lt_Some _ _ _ Hi).
  assert (assert (Z.of_nat i <? Z.of_nat (length ptrs)) s = Ok (tt, s)) as Ha
    by (by destruct (Z.ltb_spec (Z.of_nat i) (Z.of_nat (length ptrs))); [|lia]).
  run_step Ha. destruct (xi_bytes _ _ Hx) as (pre & E & Hpre).
  assert (read_field l (length pre + 8 * i) 8 = Ok p) as Er.
  { rewrite E, <-(app_nil_r (encode_fields _)).
    apply (read_encoded_field pre _ [] i).
    - by rewrite list_lookup_fmap, Hi.
    - unfold field_ok, in_width in *. simpl. lia.
    - unfold field_offset. rewrite <-fmap_take, sum_ptrs, length_take. lia. }
  replace (sizeof_AcpiHeader + 8 * Z.of_nat i) with (Z.of_nat (length pre + 8 * i)) by lia.
  run_step (field_run s a l _ 8 _ Ht Er). apply lift_run.
  rewrite phys_new_spec by (unfold in_width in *; lia).
  by destruct (Z.ltb_spec p (2 ^ 52)); [|unfold in_width in *; lia].
Qed.

(** The tables of a list, with their physical addresses. *)
Definition listed_items (ts : list (Z * fw_table)) : list madt_item := ts ≫= λ '(_, t), fw_items t.
Definition listed_ok k (fuel : nat) (x : Z * fw_table) : Prop :=
  fw_at k (fst x) (fw_bytes_of (snd x)) ∧ fw_ok (snd x) ∧ (length (fw_items (snd x)) < fuel)%nat.

Lemma listed_ok_walked items s s' fuel ts :
  walked items s s' → Forall (listed_ok (a_kmem s) fuel) ts → Forall (listed_ok (a_kmem s') fuel) ts.
Proof.
  intros [_ _ _ (m & ps & Hrm & _)] Hts. eapply Forall_impl; [exact Hts|]. intros x (Hfw & Hok & Hf).
  split_and!; [by eapply fw_at_remaps|done..].
Qed.

Lemma walked_cores items s s' :
  walked items s s' → NUMCORES s ≤ NUMCORES s' ≤ NUMCORES s + Z.of_nat (length items).
Proof.
  intros Hw. rewrite (rg_cores _ _ _ (wk_statics _ _ _ Hw)). pose proof (countb_bounds is_core items). lia.
Qed.

Lemma walked_list items s s' :
  walked items s s' → length (ioapic_list s') = (length (ioapic_list s) + length (ioapics items))%nat.
Proof. intros Hw. apply statics_length, Hw. Qed.

(** One listed table: mapped, then handled. *)
Lemma walk_listed s padr t lv depth fuel m n :
  listed_ok (a_kmem s) fuel (padr, t) →
  0 ≤ NUMCORES s → NUMCORES s + Z.of_nat (length (fw_items t)) < 2 ^ 64 →
  acpi_ready s lv (S m) (length (ioapics (fw_items t)) + n) →
  ∃ s' lv', (getvadr hw padr ≫= walk_recursive hw (S depth) fuel cfgtb_init) s = Ok (tt, s') ∧
    walked (fw_items t) s s' ∧ acpi_ready s' lv' m n.
Proof.
  intros (Hfw & Hok & Hfuel) H0 Hn Har. cbn [fst snd] in *. pose proof (fw_ok_len _ Hok) as Hlen.
  pose proof (mr_bound _ _ _ (ar_madt _ _ _ _ Har)) as Hb.
  destruct (getvadr_run s padr _ lv m _ Har Hfw Hlen)
    as (a & j & s1 & lv1 & Hr1 & Ht1 & Hj & Hin & Har1 & Hw1).
  pose proof (walked_cores _ _ _ Hw1) as Hc1. simpl in Hc1.
  assert (TABLE_VBASE ≤ page_base a) as Hbase.
  { pose proof (read_field_length _ _ _ _ Hlen). specialize (Hin O ltac:(lia)).
    rewrite Z.add_0_r in Hin. rewrite Hin. apply table_page_base. lia. }
  destruct (walk_table s1 a t lv1 depth fuel m n) as (s2 & lv2 & Hr2 & Hw2 & Har2); try done; try lia.
  exists s2, lv2. split_and!; [by run_step Hr1| |done].
  apply (walked_app [] _ s s1 s2); [simpl; lia|done|done].
Qed.

Lemma walk_list ts s xsdt l before lv j depth fuel m n :
  xsdt_image l (before ++ (fst <$> ts)) → table_at (a_kmem s) xsdt l →
  Z.of_nat (length l) ≤ PAGE_SIZE → 0 ≤ j < pgindex s → in_table_page xsdt l j →
  Forall (listed_ok (a_kmem s) fuel) ts →
  0 ≤ NUMCORES s → NUMCORES s + Z.of_nat (length (listed_items ts)) < 2 ^ 64 →
  acpi_ready s lv (length ts + m) (length (ioapics (listed_items ts)) + n) →
  ∃ s' lv', for_ (Z.of_nat <$> seq (length before) (length ts)) (λ i,
      next_table ← xsdt_at hw xsdt i; walk_recursive hw (S depth) fuel cfgtb_init next_table) s =
      Ok (tt, s') ∧
    walked (listed_items ts) s s' ∧ acpi_ready s' lv' m n.
Proof.
  revert s before lv. induction ts as [|[padr t] ts IH];
    intros s before lv Hx Ht Hle Hj Hin Hts H0 Hn Har.
  { exists s, lv. split_and!; [done| |done]. pose proof (ar_index _ _ _ _ Har).
    eapply (walked_nil s s 0 []); [done..|lia|by apply remaps_refl|done]. }
  change (listed_items ((padr, t) :: ts)) with (fw_items t ++ listed_items ts) in *.
  apply Forall_cons in Hts as [Hlt Hts]. rewrite ioapics_app, !length_app in *. rewrite fmap_cons in Hx.
  rewrite <-Nat.add_assoc in Har. pose proof (mr_bound _ _ _ (ar_madt _ _ _ _ Har)) as Hb.
  cbn [length Nat.add] in Har.
  destruct (walk_listed s padr t lv depth fuel _ _ Hlt H0 ltac:(lia) Har) as (s1 & lv1 & Hr1 & Hw1 & Har1).
  pose proof (walked_cores _ _ _ Hw1) as Hc1.
  destruct (IH s1 (before ++ [padr]) lv1) as (s2 & lv2 & Hr2 & Hw2 & Har2); try done; try lia.
  - rewrite <-app_assoc. exact Hx.
  - eapply walked_table; [exact Hw1|lia|exact Hj|done|done].
  - destruct (wk_index _ _ _ Hw1). lia.
  - by eapply listed_ok_walked.
  - exists s2, lv2. split_and!; [|by apply (walked_app _ _ s s1 s2); [lia|..]|done].
    assert ((before ++ padr :: (fst <$> ts)) !! length before = Some padr) as Hi
      by (by apply list_lookup_middle).
    assert ((next_table ← xsdt_at hw xsdt (Z.of_nat (length before));
      walk_recursive hw (S depth) fuel cfgtb_init next_table) s = Ok (tt, s1)) as Hone.
    { unfold xsdt_at. rewrite M_bind_assoc.
      by run_step (sslist_run s xsdt l _ _ padr Hx Ht Hle Hi (fw_width _ _ _ (proj1 Hlt))). }
    cbn [length seq]. rewrite fmap_cons, for_cons. run_step Hone.
    rewrite length_app, Nat.add_1_r in Hr2. exact Hr2.
Qed.

Lemma peek_bytes_fault s a l n :
  table_at (a_kmem s) a l → (length l < n)%nat →
  translate (k_mem (a_kmem s)) cr3 (page_base (a + Z.of_nat (length l))) = None →
  peek_bytes hw a n s = Panic Undefined.
Proof.
  revert a n. induction l as [|b l IH]; intros a [|n] Ht Hn Htr; cbn [length] in *; try lia;
    cbn [peek_bytes].
  - rewrite Z.add_0_r in Htr. apply M_bind_panic. unfold peek. by rewrite Htr.
  - pose proof (Ht O b eq_refl) as Hb. rewrite Z.add_0_r in Hb. run_step (peek_run s a b Hb).
    apply M_bind_panic, IH; [|lia|].
    + intros i c Hi. specialize (Ht (S i) c Hi).
      by replace (a + 1 + Z.of_nat i) with (a + Z.of_nat (S i)) by lia.
    + by replace (a + 1 + Z.of_nat (length l)) with (a + Z.of_nat (S (length l))) by lia.
Qed.

(** ** What the tables promise *)

(** The walk with memory to spare for [n] more pages. *)
Lemma acpi_init_run s padr l ts lv depth fuel n :
  xsdt_image l (fst <$> ts) → fw_at (a_kmem s) padr l → Forall (listed_ok (a_kmem s) fuel) ts →
  0 ≤ NUMCORES s → NUMCORES s + Z.of_nat (length (listed_items ts)) < 2 ^ 64 →
  acpi_ready (set_locals ∅ 0 s) lv (S (length ts)) (length (ioapics (listed_items ts)) + n) →
  ∃ s' lv', acpi_init hw (S (S depth)) fuel cfgtb_init padr s = Ok (tt, s') ∧
    walked (listed_items ts) (set_locals ∅ 0 s) s' ∧ acpi_ready s' lv' 0 n.
Proof.
  intros Hx Hfw Hts H0 Hn Har. set (s0 := set_locals ∅ 0 s) in *.
  pose proof (xi_len _ _ Hx) as Hlen.
  destruct (getvadr_run s0 padr l lv (length ts) _ Har Hfw Hlen)
    as (a & j & s1 & lv1 & Hr1 & Ht1 & Hj & Hin & Har1 & Hw1).
  pose proof (fw_span _ _ _ Hfw) as Hspan. pose proof (Z.mod_pos_bound padr PAGE_SIZE ltac:(done)).
  pose proof (walked_cores _ _ _ Hw1) as Hc1. change (NUMCORES s0) with (NUMCORES s) in Hc1. simpl in Hc1.
  rewrite <-(Nat.add_0_r (length ts)) in Har1.
  destruct (walk_list ts s1 a l [] lv1 j depth fuel 0 n) as (s2 & lv2 & Hr2 & Hw2 & Har2); try done; try lia.
  { by eapply (listed_ok_walked [] s0). }
  pose proof (mr_bound _ _ _ (ar_madt _ _ _ _ Har)).
  assert (walked ([] ++ listed_items ts) s0 s2) as Hw by (apply (walked_app [] _ s0 s1 s2); [change (length (ioapics [])) with O; lia|done|done]).
  exists s2, lv2. split_and!; [|exact Hw|exact Har2].
  unfold acpi_init. rewrite (M_bind_run (modify (set_locals ∅ 0)) _ s tt s0 eq_refl).
  assert (of_option Crate (phys_new padr) = Ok padr) as Ep.
  { pose proof (fw_width _ _ _ Hfw) as [??]. rewrite phys_new_spec by (unfold in_width; lia).
    by destruct (Z.ltb_spec padr (2 ^ 52)); [|lia]. }
  run_step (lift_run _ s0 _ Ep). run_step Hr1. cbn [walk_recursive].
  run_step (verify_checksum_run s1 a l Ht1 Hlen). rewrite (xi_sum _ _ Hx). cbn [Z.eqb negb].
  pose proof (read_field_length _ _ _ _ Hlen). run_step (signature_run s1 a l Ht1 ltac:(lia)).
  rewrite (xi_sig _ _ Hx). rewrite bool_decide_true by done. unfold Xsdt_from.
  run_step (table_from_run s1 a l _ Ht1 Hlen (xi_sum _ _ Hx) (xi_sig _ _ Hx)).
  run_step (xsdt_len_run s1 a l _ Hx Ht1 ltac:(lia)). unfold range. rewrite Nat2Z.id, length_fmap.
  exact Hr2.
Qed.

(** C15. [acpi::init] on a machine whose root table and the tables it lists lie
    in one frame each, in any order and sharing frames or not, and whose
    interrupt controller tables have only entries of the seven types the code
    knows, terminates, and
    registers exactly the entries of the interrupt controller tables among
    them, in order: [NUMCORES] grows by the number of local controllers, each
    override is recorded under its source with later ones replacing earlier
    ones, each I/O controller is appended with the values of its entry and its
    registers, and mapped at its own page.  Tables with a wrong checksum and
    tables nothing handles change nothing.  Two levels of recursion and one
    turn more than a table has entries are enough. *)
Theorem acpi_init_correct s padr l ts lv depth fuel :
  xsdt_image l (fst <$> ts) → fw_at (a_kmem s) padr l → Forall (listed_ok (a_kmem s) fuel) ts →
  0 ≤ NUMCORES s → NUMCORES s + Z.of_nat (length (listed_items ts)) < 2 ^ 64 →
  acpi_ready (set_locals ∅ 0 s) lv (S (length ts)) (length (ioapics (listed_items ts))) →
  ∃ s', acpi_init hw (S (S depth)) fuel cfgtb_init padr s = Ok (tt, s') ∧
    statics (listed_items ts) s s' ∧
    ioapics_mapped (listed_items ts) (length (ioapic_list s)) (a_kmem s').
Proof.
  intros Hx Hfw Hts H0 Hn Har. rewrite <-(Nat.add_0_r (length (ioapics _))) in Har.
  destruct (acpi_init_run s padr l ts lv depth fuel 0 Hx Hfw Hts H0 Hn Har) as (s' & lv' & Hr & Hw & _).
  exists s'. split_and!; [done|destruct (wk_statics _ _ _ Hw); by split|exact (wk_pages _ _ _ Hw)].
Qed.

(** A table entry of length zero of a kind the handler passes over is never
    left: whatever comes before it, the handler of the table runs for ever. *)
Theorem acpi_handler_diverges s a l items t rest lv fuel :
  madt_image l items (MadtType_as t :: 0 :: rest) →
  t ∈ [TIoApicNmiSource; TLocalApicAddressOverride; TLocalApicExt2] →
  table_at (a_kmem s) a l → TABLE_VBASE ≤ page_base a →
  0 ≤ NUMCORES s → NUMCORES s + Z.of_nat (length items) < 2 ^ 64 →
  madt_ready s lv (length (ioapics items)) → acpi_handler hw fuel a s = Panic OutOfFuel.
Proof.
  intros Him Hty Ht Hbase H0 Hn Hr. rewrite <-(Nat.add_0_r (length (ioapics items))) in Hr.
  destruct (acpi_handler_prefix s a l items _ lv 0 Him Ht Hbase H0 Hn Hr) as (s' & lv' & _ & _ & Ht' & Hrun).
  rewrite Hrun. destruct (mi_bytes _ _ _ Him) as (pre & E & _).
  apply madt_for_stuck; [done|apply Him|apply Him| |done].
  exists (pre ++ encode_items items). by rewrite <-app_assoc.
Qed.

(** The structure of a local interrupt entry lacks the two bytes of its
    header, so every such entry is registered for the core number 4 with
    shifted fields: a core with any other number sets up its interrupt inputs
    as if the firmware had listed none, even for the entries meant for all
    cores. *)
Theorem nmi_entries_ignored s a l items lv fuel :
  madt_image l items [] → table_at (a_kmem s) a l → TABLE_VBASE ≤ page_base a →
  0 ≤ NUMCORES s → NUMCORES s + Z.of_nat (length items) < 2 ^ 64 →
  madt_ready s lv (length (ioapics items)) → (length items < fuel)%nat → APIC_CONFIG s = None →
  ∃ s', acpi_handler hw fuel a s = Ok (tt, s') ∧
    length (default [] (APIC_CONFIG s')) = length (omap item_config items) ∧
    ∀ id calib lapic, id ≠ 4 →
      apic_init id calib (default [] (APIC_CONFIG s')) lapic = apic_init id calib [] lapic.
Proof.
  intros Him Ht Hbase H0 Hn Hr Hfuel Hc. rewrite <-(Nat.add_0_r (length (ioapics items))) in Hr.
  destruct (acpi_handler_run s a l items lv 0 fuel Him Ht Hbase H0 Hn Hr Hfuel) as (s' & lv' & Hrun & Hreg & _).
  pose proof (rg_config _ _ _ (rg_statics _ _ _ Hreg)) as Hcfg. rewrite Hc in Hcfg. cbn [default app] in Hcfg.
  exists s'. split_and!; [done|by rewrite Hcfg|]. intros id calib lapic Hid. rewrite Hcfg.
  apply apic_init_skips, Forall_forall. intros cfg (it & _ & Hit)%list_elem_of_omap.
  destruct it; simplify_eq/=. lia.
Qed.

(** [map_table] asks for the pages the length of a table covers and not
    for those its bytes lie in: a table no longer than a page that crosses
    into the next frame is mapped by its first frame alone, and checking its
    sum faults. *)
Theorem straddling_table_faults s padr l len lv m n depth fuel handlers :
  acpi_ready s lv (S m) n → vmemmap s !! page_base padr = None → fw_at (a_kmem s) padr l →
  padr mod PAGE_SIZE + Z.of_nat (length l) = PAGE_SIZE → read_field l 4 4 = Ok len →
  Z.of_nat (length l) < len ≤ PAGE_SIZE →
  translate (k_mem (a_kmem s)) cr3 (table_page (pgindex s + 1)) = None →
  (getvadr hw padr ≫= walk_recursive hw (S depth) fuel handlers) s = Panic Undefined.
Proof.
  intros Har Hnew Hfw Hend Hlen Hle Htr. pose proof (ar_index _ _ _ _ Har) as Hix.
  destruct (map_table_run s padr l len lv m n Har Hfw Hlen ltac:(lia)) as (k & lv' & Hr & Ht & _ & Hrm).
  assert (getvadr hw padr s = map_table hw padr s) as Hg.
  { unfold getvadr. rewrite frame_containing_spec by apply Hfw. fold (page_base padr).
    rewrite (M_bind_run (gets vmemmap) _ s _ s eq_refl). by rewrite Hnew. }
  rewrite (M_bind_run _ _ _ _ _ (eq_trans Hg Hr)). cbn [walk_recursive].
  set (s1 := set_locals _ _ _). set (a := table_page (pgindex s) + padr mod PAGE_SIZE) in *.
  apply M_bind_panic. unfold verify_checksum, header_len.
  run_step (field_run s1 a l 4 4 _ Ht Hlen). apply M_bind_panic.
  assert (page_base (a + Z.of_nat (length l)) = table_page (pgindex s + 1)) as Ea.
  { unfold a. replace (table_page (pgindex s) + padr mod PAGE_SIZE + Z.of_nat (length l))
      with (table_page (pgindex s + 1)) by (unfold table_page in *; lia).
    unfold page_base, table_page, TABLE_VBASE, KVMSPACE, PAGE_SIZE. zlia. }
  apply (peek_bytes_fault s1 a l); [exact Ht|lia|]. rewrite Ea.
  destruct (table_page_good (pgindex s + 1) ltac:(lia)) as ([Hc Hal] & _).
  change (a_kmem s1) with k. rewrite (rm_other _ _ _ _ _ Hrm); [done..|].
  intros E%list_elem_of_singleton. unfold table_page, PAGE_SIZE in E. lia.
Qed.

(** A single wrong byte changes the sum. *)
Lemma byte_sum_insert l i x b :
  l !! i = Some x → in_width 8 x → in_width 8 b → byte_sum (<[i := b]> l) = byte_sum l → b = x.
Proof.
  rewrite !byte_sum_spec. intros Hi Hx Hb E.
  assert (foldr Z.add 0 (<[i := b]> l) = foldr Z.add 0 l - x + b) as Hs.
  { clear E. revert i Hi. induction l as [|y l IH]; intros [|i] Hi; simplify_eq/=; [lia|]. rewrite (IH i Hi). lia. }
  rewrite Hs in E. unfold in_width in *. zlia.
Qed.

(** A changed byte outside a field leaves the field. *)
Lemma read_field_insert l i b off w :
  (i < off ∨ off + w ≤ i)%nat → read_field (<[i := b]> l) off w = read_field l off w.
Proof.
  intros Hi. unfold read_field, sub_bytes. rewrite length_insert. destruct Hi as [Hi|Hi].
  - by rewrite drop_insert_lt.
  - destruct (decide (i < length l)%nat) as [Hl|Hl]; [|by rewrite list_insert_ge by lia].
    rewrite drop_insert_ge by lia. by rewrite take_insert_ge by lia.
Qed.
End acpi_proofs.

Section checksum.
Context {X : X86} {P : Type} {FA : FrameAllocator P} {FAO : FrameAllocatorOk P} {V : Type}.
Implicit Types (s : Acpi P V).

(** C33. [verify_checksum] is the test of the ACPI standard: it accepts a table
    in memory exactly when the sum of all its bytes, taken without overflow,
    is divisible by 256, and changes nothing; and where memory holds instead a
    table that differs from an accepted one in a single byte, other than the
    four bytes of its length, [verify_checksum] rejects it. *)
Theorem verify_checksum_equiv (hw : Hw) s a l :
  table_at hw (a_kmem s) a l → read_field l 4 4 = Ok (Z.of_nat (length l)) → bytes_ok l →
  verify_checksum hw a s = Ok (foldr Z.add 0 l mod 256 =? 0, s) ∧
  (verify_checksum hw a s = Ok (true, s) → ∀ (hw' : Hw) s' i x b,
    l !! i = Some x → ¬ (4 ≤ i < 8)%nat → in_width 8 b → b ≠ x → table_at hw' (a_kmem s') a (<[i := b]> l) →
    verify_checksum hw' a s' = Ok (false, s')).
Proof.
  intros Ht Hlen Hok. rewrite (verify_checksum_run hw s a l Ht Hlen), byte_sum_spec. split; [done|].
  intros [= Hz%Z.eqb_eq] hw' s' i x b Hi Hout Hb Hne Ht'.
  rewrite (verify_checksum_run hw' s' a _ Ht') by (by rewrite read_field_insert, length_insert by lia).
  do 2 f_equal. apply Z.eqb_neq. intros E. apply Hne, (byte_sum_insert l i x b); try done.
  - by apply (Forall_lookup_1 _ _ _ _ Hok Hi).
  - by rewrite E, byte_sum_spec, Hz.
Qed.
End checksum.
