(* ===== verification/AcpiDemo.v ===== *)
(** * A concrete set of firmware tables

    The theorems of [Acpi] applied to the memory of [MemDemo], with a root
    table, an interrupt controller table and a table nothing handles in the
    frame 0xE0000. *)

From S2P Require Import Prelude X86 FrameAlloc WindowCache VCache Bootboot Phys Mapper Mem MemDemo Apic Acpi.

(** A table with a right checksum. *)
Definition demo_table (sig : string) (body : list Z) : list Z :=
  let a := bytes_of_string sig ++ le_encode 4 (36 + Z.of_nat (length body)) ++ [1] in
  let b := replicate 26 0 ++ body in
  a ++ [(- foldr Z.add 0 (a ++ b)) mod 256] ++ b.

Definition demo_items : list madt_item :=
  [ILocalApic 0 0 1; ILocalApic 1 1 1; IIoApic 2 0xFEC00000 0; IIso 0 0 2 0; INmi 0xFF 5 1].
Definition demo_madt : list Z := demo_table "APIC" (replicate 8 0 ++ encode_items demo_items).
(** The same with an entry of length zero. *)
Definition demo_bad : list Z := demo_table "APIC" (replicate 8 0 ++ encode_items demo_items ++ [3; 0; 7]).
Definition demo_other : list Z := demo_table "FACP" [1; 2; 3].
Definition demo_xsdt : list Z :=
  demo_table "XSDT" (encode_fields ((λ p, (8%nat, p)) <$> [0xE0300; 0xE0100])).

(** The frame 0xE0000, and a table at its end that goes on in the next. *)
Definition demo_image : list Z :=
  let pad n l := take n (l ++ replicate n 0) in
  pad 0x100%nat demo_xsdt ++ pad 0x200%nat demo_madt ++ pad 0x100%nat demo_other ++
  pad 0xBF0%nat demo_bad ++ take 16 demo_madt.
Definition demo_hw : Hw := mkHw 0x5000 (λ a, nth (Z.to_nat (a - 0xE0000)) demo_image 0) (λ _ _, 0x170011).

Definition demo_acpi : Acpi PhysicalFrameAllocator VCache := mkAcpi demo_kmem None None None 0 ∅ 0.
Definition demo_tables : list (Z * fw_table) :=
  [(0xE0300, FwSkip demo_other); (0xE0100, FwMadt demo_madt demo_items)].

Lemma demo_fw_at padr l :
  page_base padr = 0xE0000 → (padr mod PAGE_SIZE + Z.of_nat (length l) <=? PAGE_SIZE) = true →
  imap (λ i _, hw_ram demo_hw (padr + Z.of_nat i)) l = l → fw_at demo_hw demo_kmem padr l.
Proof.
  intros Hp Hspan Hl. split; rewrite ?Hp.
  - unfold page_base, PAGE_SIZE in Hp. unfold in_width. zlia.
  - by vm_compute.
  - by apply Z.leb_le.
  - apply (bool_decide_unpack _). by vm_compute.
  - apply lookup_singleton_ne. lia.
  - intros i b Hi. rewrite <-Hl in Hi. rewrite list_lookup_imap in Hi.
    destruct (l !! i); by simplify_eq/=.
Qed.

Lemma demo_ready m n : (3 * (m + n) ≤ 574)%nat → acpi_ready demo_hw demo_acpi demo_level m n.
Proof.
  intros Hmn. split.
  - split.
    + exact demo_kmem_inv.
    + exact demo_room.
    + change (a_kmem demo_acpi) with demo_kmem. rewrite demo_frames. lia.
    + intros j _. apply demo_clear.
    + cbn. lia.
  - change (a_kmem demo_acpi) with demo_kmem. rewrite demo_frames. lia.
  - cbn. lia.
  - intros j _. apply demo_clear.
  - intros f page Hf. change (vmemmap demo_acpi) with (∅ : gmap Z Z) in Hf. by rewrite lookup_empty in Hf.
Qed.

Lemma demo_items_ok : Forall item_ok demo_items.
Proof. repeat apply Forall_cons_2; [..|apply Forall_nil_2]; split; try done; repeat constructor; by vm_compute. Qed.

Lemma demo_madt_image : madt_image demo_madt demo_items [].
Proof.
  split; try (by vm_compute).
  - exists (take 44 demo_madt). by vm_compute.
  - exact demo_items_ok.
Qed.

Lemma demo_listed : Forall (listed_ok demo_hw demo_kmem 6) demo_tables.
Proof.
  apply Forall_cons_2; [|apply Forall_cons_2; [|apply Forall_nil_2]]; cbn [fst snd];
    (split_and!; [by apply demo_fw_at; vm_compute| |simpl; lia]).
  - split; [by vm_compute|]. right. by vm_compute.
  - exact demo_madt_image.
Qed.

(** A table of the frame as the kernel sees it once the frame is mapped. *)
Lemma demo_mapped padr l len :
  fw_at demo_hw demo_kmem padr l → read_field l 4 4 = Ok len → 0 < len ≤ PAGE_SIZE →
  ∃ k lv m, let s := mkAcpi k None None None 0 m 1 in
    table_at demo_hw k (table_page 0 + padr mod PAGE_SIZE) l ∧
    TABLE_VBASE ≤ page_base (table_page 0 + padr mod PAGE_SIZE) ∧ madt_ready demo_hw s lv 1.
Proof.
  intros Hfw Hlen Hle.
  destruct (map_table_run demo_hw demo_acpi padr l len demo_level 0 1 (demo_ready 1 1 ltac:(lia)) Hfw Hlen Hle)
    as (k & lv' & _ & Ht & Har & _).
  eexists k, lv', _. split_and!; [exact Ht| |exact (ar_madt _ _ _ _ _ Har)].
  pose proof (Z.mod_pos_bound padr PAGE_SIZE ltac:(done)).
  unfold page_base, table_page, TABLE_VBASE, KVMSPACE, PAGE_SIZE in *. zlia.
Qed.

Lemma acpi_init_correct_witness :
  ∃ s', acpi_init demo_hw 2 6 cfgtb_init 0xE0000 demo_acpi = Ok (tt, s') ∧ NUMCORES s' = 2 ∧
    default [] (IOAPIC s') = [mkIoApicInfo IOAPIC_VBASE 2 0 24] ∧
    default ∅ (IOAPIC_REDIRECTION s') = {[ Irq 0 := 2 ]}.
Proof.
  destruct (acpi_init_correct demo_hw demo_acpi 0xE0000 demo_xsdt demo_tables demo_level 0 6)
    as (s' & Hr & [Hc Hre _ Hi] & _).
  - split; try (by vm_compute). exists (take 36 demo_xsdt). by vm_compute.
  - by apply demo_fw_at; vm_compute.
  - exact demo_listed.
  - done.
  - done.
  - by apply (demo_ready 3 1); lia.
  - exists s'. split_and!; [exact Hr|by rewrite Hc|by rewrite Hi|by rewrite Hre].
Defined.

Lemma acpi_handler_diverges_witness :
  ∃ (s : Acpi PhysicalFrameAllocator VCache) a, ∀ fuel, acpi_handler demo_hw fuel a s = Panic OutOfFuel.
Proof.
  destruct (demo_mapped 0xE0400 demo_bad (Z.of_nat (length demo_bad)))
    as (k & lv & m & Ht & Hbase & Hr); [by apply demo_fw_at; vm_compute|by vm_compute|by vm_compute|].
  exists (mkAcpi k None None None 0 m 1), (table_page 0 + 0xE0400 mod PAGE_SIZE). intros fuel.
  apply (acpi_handler_diverges demo_hw _ _ demo_bad demo_items TIoApicNmiSource [7] lv fuel).
  - split; try (by vm_compute); [|exact demo_items_ok]. exists (take 44 demo_bad). by vm_compute.
  - apply elem_of_cons. by left.
  - exact Ht.
  - exact Hbase.
  - cbn. lia.
  - by vm_compute.
  - exact Hr.
Defined.

Lemma nmi_entries_ignored_witness :
  ∃ (s s' : Acpi PhysicalFrameAllocator VCache) a, acpi_handler demo_hw 6 a s = Ok (tt, s') ∧
    length (default [] (APIC_CONFIG s')) = 1%nat ∧
    apic_init 0 (1000000, 100000) (default [] (APIC_CONFIG s')) demo_lapic =
      apic_init 0 (1000000, 100000) [] demo_lapic.
Proof.
  destruct (demo_mapped 0xE0100 demo_madt (Z.of_nat (length demo_madt)))
    as (k & lv & m & Ht & Hbase & Hr); [by apply demo_fw_at; vm_compute|by vm_compute|by vm_compute|].
  destruct (nmi_entries_ignored demo_hw (mkAcpi k None None None 0 m 1) _ demo_madt demo_items lv 6
    demo_madt_image Ht Hbase ltac:(done) ltac:(by vm_compute) Hr ltac:(simpl; lia) eq_refl)
    as (s' & Hs & Hlen & Hall).
  eexists _, s', _. split_and!; [exact Hs|exact Hlen|]. by apply Hall.
Defined.

Lemma straddling_table_faults_witness :
  (getvadr demo_hw 0xE0FF0 ≫= walk_recursive demo_hw 1 0 cfgtb_init) demo_acpi = Panic Undefined.
Proof.
  apply (straddling_table_faults demo_hw demo_acpi 0xE0FF0 (take 16 demo_madt) (Z.of_nat (length demo_madt))
    demo_level 0 0 0 0 cfgtb_init).
  - by apply demo_ready; lia.
  - done.
  - by apply demo_fw_at; vm_compute.
  - by vm_compute.
  - by vm_compute.
  - by vm_compute.
  - by vm_compute.
Defined.

(** A table inside one page with its byte [j] changed, in memory. *)
Lemma damaged_at hw (k : Kmem PhysicalFrameAllocator VCache) a l j x b :
  table_at hw k a l → l !! j = Some x → a mod PAGE_SIZE + Z.of_nat (length l) ≤ PAGE_SIZE →
  ∃ hw', table_at hw' k a (<[j := b]> l).
Proof.
  intros Ht Hj Hspan. destruct (Ht j x Hj) as (f & fl & Htr & Hg & Hf & Hfree & Hm & Hx).
  pose proof (lookup_lt_Some _ _ _ Hj) as Hjl.
  assert (∀ i, (i < length l)%nat → page_base (a + Z.of_nat i) = page_base (a + Z.of_nat j) ∧
    (a + Z.of_nat i) mod PAGE_SIZE = a mod PAGE_SIZE + Z.of_nat i) as Hpage.
  { intros i Hi. unfold page_base, PAGE_SIZE in *. split; zlia. }
  exists (mkHw (hw_cr3 hw) (λ p, if p =? f + (a + Z.of_nat j) mod PAGE_SIZE then b else hw_ram hw p) (hw_ioapic hw)).
  intros i y Hi. pose proof (lookup_lt_Some _ _ _ Hi) as Hil. rewrite length_insert in Hil.
  destruct (Hpage i Hil) as [Hpi Hmi], (Hpage j Hjl) as [_ Hmj].
  exists f, fl. rewrite Hpi. split_and!; try done. cbn [hw_ram]. rewrite Hmi, Hmj.
  destruct (decide (i = j)) as [->|Hne].
  - rewrite list_lookup_insert_eq in Hi by done. injection Hi as <-. by rewrite Z.eqb_refl.
  - rewrite list_lookup_insert_ne in Hi by done. destruct (Ht i y Hi) as (f' & fl' & Htr' & _ & _ & _ & _ & Hy).
    rewrite Hpi, Htr in Htr'. injection Htr' as <- <-. rewrite Hmi in Hy.
    by destruct (Z.eqb_spec (f + (a mod PAGE_SIZE + Z.of_nat i)) (f + (a mod PAGE_SIZE + Z.of_nat j))); [lia|].
Qed.

(** The table is accepted, and rejected once its last byte is another. *)
Lemma verify_checksum_equiv_witness :
  ∃ (s : Acpi PhysicalFrameAllocator VCache) a hw', verify_checksum demo_hw a s = Ok (true, s) ∧
    verify_checksum hw' a s = Ok (false, s).
Proof.
  destruct (demo_mapped 0xE0100 demo_madt (Z.of_nat (length demo_madt)))
    as (k & lv & m & Ht & _ & _); [by apply demo_fw_at; vm_compute|by vm_compute|by vm_compute|].
  set (s := mkAcpi k None None None 0 m 1). set (a := table_page 0 + 0xE0100 mod PAGE_SIZE) in Ht.
  destruct (damaged_at demo_hw k a demo_madt 87 1 77 Ht) as [hw' Ht']; [by vm_compute|by vm_compute|].
  destruct (verify_checksum_equiv demo_hw s a demo_madt Ht) as [Hr Hbad].
  - by vm_compute.
  - apply (bool_decide_unpack (bytes_ok demo_madt)). by vm_compute.
  - assert ((foldr Z.add 0 demo_madt mod 256 =? 0) = true) as E by (vm_compute; reflexivity). rewrite E in Hr.
    exists s, a, hw'. split; [exact Hr|]. apply (Hbad Hr hw' s 87%nat 1 77); [by vm_compute|lia|by vm_compute|done|exact Ht'].
Defined.
