(* ===== verification/Cores.v ===== *)
(** * What one core does to start

    Models the part of [kernel/src/proc/mod.rs] that brings a core up
    ([ignite], [wakeup], [stack], [ProcInfo]), the descriptor tables of
    [kernel/src/mem/gdt.rs], [syscall::enable] and the mapping of the
    interrupt controller in [kernel/src/proc/apic/mod.rs].

    The tables of the kernel that have one element per core are reached at
    fixed addresses; their contents are maps from the number of a core, and an
    access faults when a page it touches is not mapped.  How the steps of
    several cores interleave is in the file Startup. *)

From S2P Require Import Prelude X86 FrameAlloc WindowCache VCache Mapper Mem Heap Boot Elf Tar Task Sched Apic Acpi.

(** ** The layout of kernel space *)

Definition TB : Z := 1024 * 1024 * 1024 * 1024.
(** [initstack] of the linker script. *)
Definition kernel_stack_size : Z := 16 * 1024.
Definition STACK_TABLE_VPTR : Z := KVMSPACE + 4 * TB.
Definition GDT_TABLE_PTR : Z := KVMSPACE + 5 * TB.
Definition TSS_TABLE_PTR : Z := KVMSPACE + 7 * TB.
Definition NMI_STACKS_VPTR : Z := KVMSPACE + 7 * TB.
Definition DF_STACKS_VPTR : Z := KVMSPACE + 8 * TB.
Definition APIC_VBASE : Z := KVMSPACE + TB + 512 * 1024 * 1024 * 1024.
Definition APIC_BASE : Z := 0xFEE00000.
Definition ERROR_STACK_SIZE : Z := 8 * 1024.

(** [mem::size_of] of an address and of a task state segment, which the
    processor defines. *)
Definition sizeof_VirtAddr : Z := 8.
Definition sizeof_TaskStateSegment : Z := 104.

(** ** Descriptor tables *)

Inductive Descriptor :=
  | kernel_code_segment
  | kernel_data_segment
  | user_data_segment
  | user_code_segment
  | tss_segment (tss : Z).

(** The descriptor tables of the [x86_64] crate: [append] returns the selector
    of the new descriptor and panics when the table is full; [star_write] is
    the value [Star::write] puts in the register, and refuses selectors the
    instructions [syscall] and [sysret] cannot use. *)
Class GdtCrate := {
  Gdt : Type;
  gdt_new : Gdt;
  gdt_append : Descriptor → Gdt → option (Z * Gdt);
  star_write : Z → Z → Z → Z → option Z;
  (** [mem::size_of] of [KernelGlobalDescriptorTable]. *)
  sizeof_KGdt : Z;
}.

(** Entries a descriptor takes, and the privilege level in its selector. *)
Definition descriptor_slots (d : Descriptor) : Z := match d with tss_segment _ => 2 | _ => 1 end.
Definition descriptor_rpl (d : Descriptor) : Z :=
  match d with user_data_segment | user_code_segment => 3 | _ => 0 end.

Class GdtCrateOk (G : GdtCrate) := {
  gdt_used : Gdt → Z;
  gdt_new_used : gdt_used gdt_new = 1;
  gdt_append_spec g d : gdt_used g + descriptor_slots d ≤ 8 →
    ∃ g', gdt_append d g = Some (8 * gdt_used g + descriptor_rpl d, g') ∧
      gdt_used g' = gdt_used g + descriptor_slots d;
  star_write_spec cs_sysret ss_sysret cs_syscall ss_syscall :
    star_write cs_sysret ss_sysret cs_syscall ss_syscall =
      if (cs_sysret - 16 =? ss_sysret - 8) && (cs_syscall =? ss_syscall - 8) &&
         (ss_sysret mod 4 =? 3) && (ss_syscall mod 4 =? 0)
      then Some (Z.lor (Z.shiftl (ss_sysret - 8) 48) (Z.shiftl cs_syscall 32)) else None;
  sizeof_KGdt_spec : 0 < sizeof_KGdt ≤ 4096;
}.

(** [BasicGlobalDescriptorTable] and [KernelGlobalDescriptorTable]. *)
Record BasicGdt `{GdtCrate} := mkBasicGdt {
  bg_gdt : Gdt;
  code_segment : Z;
  data_segment : Z;
}.
Record KGdt `{GdtCrate} := mkKGdt {
  kg_gdt : Gdt;
  kcode_seg : Z;
  kdata_seg : Z;
  ucode_seg : Z;
  udata_seg : Z;
  tss_seg : Z;
}.
Arguments mkBasicGdt {_}.
Arguments mkKGdt {_}.

(** The part of [TaskStateSegment] that is written. *)
Record Tss := mkTss {
  privilege_stack_0 : Z;
  interrupt_stack_0 : Z;
  interrupt_stack_1 : Z;
}.

(** The descriptor table a core uses: the static one, or the one at an
    address. *)
Inductive GdtPlace := BASIC_GDT | GdtAt (adr : Z).

(** The registers of a core that start-up writes; [None] for one that was not
    written.  [r_data] stands for the five data segment registers, which
    always get the same selector. *)
Record Regs := mkRegs {
  r_gdtr : option GdtPlace;
  r_cs : option Z;
  r_data : option Z;
  r_tr : option Z;
  r_kernel_gs : option nat;
  r_idt : bool;
  r_lstar : option Z;
  r_star : option Z;
  r_sce : bool;
}.
Definition regs_off : Regs := mkRegs None None None None None false None None false.

(** [ProcInfo] with its [BasicProcInfo]. *)
Record Proc := mkProc {
  pr_info : ProcInfo;
  save_user_rsp : Z;
  kernel_rsp : Z;
}.

(** ** The table of processors

    [PROC_TABLE] is a [BTreeMap].  Its entries are kept sorted by key, and up
    to eleven of them sit next to each other in one node: the place of a value
    is its position, and an insertion moves the entries with larger keys up by
    one.  [r_kernel_gs] is the place of a value.  With more than eleven cores
    the node is split; the theorems on places are about at most eleven. *)

Fixpoint btree_insert {A} (k : Z) (v : A) (l : list (Z * A)) : list (Z * A) :=
  match l with
  | [] => [(k, v)]
  | (k', v') :: l' =>
    if k <? k' then (k, v) :: l
    else if k =? k' then (k, v) :: l' else (k', v') :: btree_insert k v l'
  end.
Fixpoint btree_get {A} (k : Z) (l : list (Z * A)) : option A :=
  match l with [] => None | (k', v) :: l' => if k =? k' then Some v else btree_get k l' end.
Fixpoint btree_place {A} (k : Z) (l : list (Z * A)) : option nat :=
  match l with [] => None | (k', _) :: l' => if k =? k' then Some 0%nat else S <$> btree_place k l' end.
Definition btree_alter {A} (f : A → A) (k : Z) (l : list (Z * A)) : list (Z * A) :=
  (λ e, if k =? e.1 then (e.1, f e.2) else e) <$> l.

(** The statics of the start-up, and the registers of every core. *)
Record Cores (P V : Type) `{GdtCrate} := mkCores {
  cs_kmem : Kmem P V;
  STACK_TABLE : gmap Z Z;
  GDT_TABLE : gmap Z KGdt;
  TSS_TABLE : gmap Z Tss;
  PROC_TABLE : option (list (Z * Proc));
  TASKS : option (list nat);
  cs_regs : gmap Z Regs;
  cs_lapic : gmap Z Lapic;
}.
Arguments mkCores {P V _}.
Arguments cs_kmem {P V _}.
Arguments STACK_TABLE {P V _}.
Arguments GDT_TABLE {P V _}.
Arguments TSS_TABLE {P V _}.
Arguments PROC_TABLE {P V _}.
Arguments TASKS {P V _}.
Arguments cs_regs {P V _}.
Arguments cs_lapic {P V _}.

Section cores.
Context {X : X86} {P : Type} {FA : FrameAllocator P} {V : Type} {WC : WindowCache V} {G : GdtCrate}.
Implicit Types (s : Cores P V).

Definition set_kmem (k : Kmem P V) s : Cores P V :=
  mkCores k (STACK_TABLE s) (GDT_TABLE s) (TSS_TABLE s) (PROC_TABLE s) (TASKS s) (cs_regs s) (cs_lapic s).
Definition on_memory {A} (m : M (Kmem P V) A) : M (Cores P V) A := zoom cs_kmem set_kmem m.
Definition set_regs (r : gmap Z Regs) s : Cores P V :=
  mkCores (cs_kmem s) (STACK_TABLE s) (GDT_TABLE s) (TSS_TABLE s) (PROC_TABLE s) (TASKS s) r (cs_lapic s).
Definition set_proc_table (l : list (Z * Proc)) s : Cores P V :=
  mkCores (cs_kmem s) (STACK_TABLE s) (GDT_TABLE s) (TSS_TABLE s) (Some l) (TASKS s) (cs_regs s) (cs_lapic s).

(** The registers of a core start unwritten. *)
Definition regs_of s (id : Z) : Regs := default regs_off (cs_regs s !! id).
Definition lapic_of s (id : Z) : Lapic := default (mkLapic 0 0 0 0 0 0 0 0) (cs_lapic s !! id).
Definition on_regs (id : Z) (f : Regs → Regs) : M (Cores P V) unit :=
  modify (λ s, set_regs (<[id := f (regs_of s id)]> (cs_regs s)) s).
Definition on_core_lapic {A} (id : Z) (m : M Lapic A) : M (Cores P V) A :=
  zoom (λ s, lapic_of s id) (λ l s,
    mkCores (cs_kmem s) (STACK_TABLE s) (GDT_TABLE s) (TSS_TABLE s) (PROC_TABLE s) (TASKS s) (cs_regs s)
      (<[id := l]> (cs_lapic s))) m.

(** The pages of the bytes [adr, adr + len). *)
Definition pages_of (adr len : Z) : list Z :=
  (λ i, page_base adr + i * PAGE_SIZE) <$> range ((page_base (adr + len - 1) - page_base adr) / PAGE_SIZE + 1).

(** An access to memory: it faults unless the processor finds every page. *)
Definition touch (adr len : Z) : M (Kmem P V) unit :=
  p4table ← gets k_p4;
  f ← win_frame p4table;
  s ← get;
  if forallb (λ q, bool_decide (is_Some (translate (k_mem s) f q))) (pages_of adr len)
  then mret tt else fail Undefined.

(** ** Descriptor tables *)

Definition append (d : Descriptor) (g : Gdt) : M (Cores P V) (Z * Gdt) :=
  lift (of_option Crate (gdt_append d g)).

(** [lazy_static! BASIC_GDT] and [basic_init]. *)
Definition basic_gdt : res BasicGdt :=
  '(code, g) ← of_option Crate (gdt_append kernel_code_segment gdt_new);
  '(data, g) ← of_option Crate (gdt_append kernel_data_segment g);
  mret (mkBasicGdt g code data).
Definition basic_init (id : Z) : M (Cores P V) unit :=
  b ← lift basic_gdt;
  on_regs id (λ r, mkRegs (Some BASIC_GDT) (Some (code_segment b)) (Some (data_segment b)) (r_tr r)
    (r_kernel_gs r) (r_idt r) (r_lstar r) (r_star r) (r_sce r)).

(** [KernelGlobalDescriptorTable::init]. *)
Definition gdt_init (numcores : Z) : M (Cores P V) unit :=
  _ ← on_memory (valloc_ktable sizeof_KGdt GDT_TABLE_PTR numcores);
  on_memory (valloc_ktable sizeof_TaskStateSegment TSS_TABLE_PTR numcores).

(** The places [entry] and [tss] give out. *)
Definition gdt_entry (id : Z) : Z := GDT_TABLE_PTR + id * sizeof_KGdt.
Definition gdt_tss (id : Z) : Z := TSS_TABLE_PTR + id * sizeof_TaskStateSegment.

Definition load_kernel (id : Z) (e : KGdt) : M (Cores P V) unit :=
  on_regs id (λ r, mkRegs (r_gdtr r) (Some (kcode_seg e)) (Some (kdata_seg e)) (Some (tss_seg e))
    (r_kernel_gs r) (r_idt r) (r_lstar r) (r_star r) (r_sce r)).
Definition gdt_load (id : Z) (place : GdtPlace) : M (Cores P V) unit :=
  on_regs id (λ r, mkRegs (Some place) (r_cs r) (r_data r) (r_tr r)
    (r_kernel_gs r) (r_idt r) (r_lstar r) (r_star r) (r_sce r)).
Definition put_tss (id : Z) (t : Tss) : M (Cores P V) unit :=
  _ ← on_memory (touch (gdt_tss id) sizeof_TaskStateSegment);
  modify (λ s, mkCores (cs_kmem s) (STACK_TABLE s) (GDT_TABLE s) (<[id := t]> (TSS_TABLE s))
    (PROC_TABLE s) (TASKS s) (cs_regs s) (cs_lapic s)).
Definition put_gdt (id : Z) (e : KGdt) : M (Cores P V) unit :=
  _ ← on_memory (touch (gdt_entry id) sizeof_KGdt);
  modify (λ s, mkCores (cs_kmem s) (STACK_TABLE s) (<[id := e]> (GDT_TABLE s)) (TSS_TABLE s)
    (PROC_TABLE s) (TASKS s) (cs_regs s) (cs_lapic s)).

Definition register (id kstack nmistack dfstack : Z) : M (Cores P V) unit :=
  '(kcode_seg, gdt) ← append kernel_code_segment gdt_new;
  '(kdata_seg, gdt) ← append kernel_data_segment gdt;
  '(udata_seg, gdt) ← append user_data_segment gdt;
  '(ucode_seg, gdt) ← append user_code_segment gdt;
  _ ← put_tss id (mkTss kstack nmistack dfstack);
  '(tss_seg, gdt) ← append (tss_segment (gdt_tss id)) gdt;
  let e := mkKGdt gdt kcode_seg kdata_seg ucode_seg udata_seg tss_seg in
  _ ← put_gdt id e;
  _ ← gdt_load id (GdtAt (gdt_entry id));
  load_kernel id e.

(** ** Before the cores are woken *)

(** [task::init]: [TASKS] is set once. *)
Definition task_init : M (Cores P V) unit := modify (λ s,
  mkCores (cs_kmem s) (STACK_TABLE s) (GDT_TABLE s) (TSS_TABLE s) (PROC_TABLE s)
    (Some (default [] (TASKS s))) (cs_regs s) (cs_lapic s)).
Definition proc_table_init : M (Cores P V) unit := modify (λ s,
  set_proc_table (default [] (PROC_TABLE s)) s).

(** [ignite] up to the moment the other cores are let go. *)
Definition ignite (numcores : Z) : M (Cores P V) unit :=
  _ ← on_memory (valloc_ktable sizeof_VirtAddr STACK_TABLE_VPTR numcores);
  _ ← gdt_init numcores;
  _ ← on_memory (valloc_ktable ERROR_STACK_SIZE NMI_STACKS_VPTR numcores);
  _ ← on_memory (valloc_ktable ERROR_STACK_SIZE DF_STACKS_VPTR numcores);
  _ ← task_init;
  proc_table_init.

(** ** [wakeup] *)

(** [stack]: [x_ptr] is the address of the local variable. *)
Definition stack (x_ptr : Z) : res Z :=
  let stack_size := kernel_stack_size in
  stack_base ← (if wrap 64 (0 - stack_size) <=? x_ptr then mret 0
                else of_option Crate (align_up x_ptr stack_size));
  of_option Crate (virt_new stack_base).

Definition nmi_stack (id : Z) : res Z :=
  n ← mul64 ERROR_STACK_SIZE (id + 1); of_option Crate (virt_add NMI_STACKS_VPTR n).
Definition df_stack (id : Z) : res Z :=
  n ← mul64 ERROR_STACK_SIZE (id + 1); of_option Crate (virt_add DF_STACKS_VPTR n).

(** [*ProcInfo::stack() = stack]. *)
Definition stack_entry (id : Z) : Z := STACK_TABLE_VPTR + id * sizeof_VirtAddr.
Definition put_stack (id a : Z) : M (Cores P V) unit :=
  _ ← on_memory (touch (stack_entry id) sizeof_VirtAddr);
  modify (λ s, mkCores (cs_kmem s) (<[id := a]> (STACK_TABLE s)) (GDT_TABLE s) (TSS_TABLE s)
    (PROC_TABLE s) (TASKS s) (cs_regs s) (cs_lapic s)).

Definition proc_table : M (Cores P V) (list (Z * Proc)) := λ s,
  l ← unwrap (PROC_TABLE s); mret (l, s).
(** The place of [ProcInfo::instance()]. *)
Definition instance_place (id : Z) : M (Cores P V) nat :=
  l ← proc_table; lift (unwrap (btree_place id l)).

(** [wakeup] up to the start of [apic::init]. *)
Definition wakeup_register (id x_ptr : Z) : M (Cores P V) unit :=
  stack ← lift (stack x_ptr);
  _ ← put_stack id stack;
  nmistack ← lift (nmi_stack id);
  dfstack ← lift (df_stack id);
  _ ← register id stack nmistack dfstack;
  l ← proc_table;
  _ ← modify (set_proc_table (btree_insert id (mkProc (mkProcInfo 0 None 0 None) 0 stack) l));
  place ← instance_place id;
  on_regs id (λ r, mkRegs (r_gdtr r) (r_cs r) (r_data r) (r_tr r) (Some place) (r_idt r)
    (r_lstar r) (r_star r) (r_sce r)).

(** The part of [apic::init] the primary core does and the others wait for. *)
Definition apic_map : M (Cores P V) unit :=
  page ← lift (unwrap (page_from_start APIC_VBASE));
  frame ← lift (unwrap (frame_from_start APIC_BASE));
  r ← on_memory (vmap page frame PAGE_SIZE 0);
  lift (unwrap_result r).

(** [ProcInfo::instance().schedule_quantum = quantum]. *)
Definition set_quantum (id quantum : Z) : M (Cores P V) unit :=
  _ ← instance_place id;
  l ← proc_table;
  modify (set_proc_table (btree_alter (λ p, mkProc
    (mkProcInfo (pi_tick_miss (pr_info p)) (pi_current (pr_info p)) quantum (pi_active (pr_info p)))
    (save_user_rsp p) (kernel_rsp p)) id l)).

(** [interrupts::load] and [syscall::enable]; [syscall1_adr] is the address of
    the assembly entry. *)
Definition idt_load (id : Z) : M (Cores P V) unit :=
  on_regs id (λ r, mkRegs (r_gdtr r) (r_cs r) (r_data r) (r_tr r) (r_kernel_gs r) true
    (r_lstar r) (r_star r) (r_sce r)).
Definition enable (id syscall1_adr : Z) : M (Cores P V) unit :=
  _ ← on_memory (touch (gdt_entry id) sizeof_KGdt);
  s ← get;
  gdt ← lift (of_option Undefined (GDT_TABLE s !! id));
  star ← lift (unwrap (star_write (ucode_seg gdt) (udata_seg gdt) (kcode_seg gdt) (kdata_seg gdt)));
  on_regs id (λ r, mkRegs (r_gdtr r) (r_cs r) (r_data r) (r_tr r) (r_kernel_gs r) (r_idt r)
    (Some syscall1_adr) (Some star) true).

(** [wakeup] from the calibration to the last wait. *)
Definition wakeup_enable (id : Z) (pit_calib : Z * Z) (config : list LocalApicNmiConfig)
    (syscall1_adr : Z) : M (Cores P V) unit :=
  quantum ← on_core_lapic id (apic_init id pit_calib config);
  _ ← set_quantum id quantum;
  _ ← idt_load id;
  enable id syscall1_adr.

(** The stack pointer [event_loop] and the system call entry load: [gs:[8]]
    after [swapgs]. *)
Definition kernel_stack s (id : Z) : option Z :=
  place ← r_kernel_gs (regs_of s id); l ← PROC_TABLE s; e ← l !! place; Some (kernel_rsp (snd e)).
End cores.

(** ** The table of processors *)

Lemma btree_place_get {A} k (l : list (Z * A)) i :
  btree_place k l = Some i → ∃ v, l !! i = Some (k, v) ∧ btree_get k l = Some v.
Proof.
  revert i. induction l as [|[k' v'] l IH]; intros i; simpl; [done|].
  destruct (Z.eqb_spec k k') as [->|Hne].
  - intros [= <-]. by exists v'.
  - destruct (btree_place k l) as [j|]; intros H; simplify_eq/=. destruct (IH j eq_refl) as (v & ? & ?). by exists v.
Qed.

Lemma btree_get_place {A} k (l : list (Z * A)) v :
  btree_get k l = Some v → ∃ i, btree_place k l = Some i.
Proof.
  induction l as [|[k' v'] l IH]; simpl; [done|]. destruct (Z.eqb_spec k k') as [->|Hne]; [by exists 0%nat|].
  intros (i & ->)%IH. by exists (S i).
Qed.

Lemma btree_get_insert {A} k v j (l : list (Z * A)) :
  btree_get j (btree_insert k v l) = if j =? k then Some v else btree_get j l.
Proof.
  induction l as [|[k' v'] l IH]; simpl; [by destruct (j =? k)|].
  destruct (Z.ltb_spec k k'), (Z.eqb_spec k k') as [->|]; simpl; try lia.
  - by destruct (j =? k).
  - by destruct (j =? k').
  - rewrite IH. destruct (Z.eqb_spec j k'), (Z.eqb_spec j k); congruence.
Qed.

Lemma btree_get_alter {A} (f : A → A) k j (l : list (Z * A)) :
  btree_get j (btree_alter f k l) = if j =? k then f <$> btree_get j l else btree_get j l.
Proof.
  unfold btree_alter. induction l as [|[k' v'] l IH]; [by destruct (j =? k)|].
  cbn [fmap list_fmap fst snd]. destruct (Z.eqb_spec k k') as [->|]; cbn [btree_get].
  - destruct (Z.eqb_spec j k') as [->|]; [done|]. rewrite IH. by destruct (Z.eqb_spec j k').
  - destruct (Z.eqb_spec j k') as [->|]; [|exact IH]. by destruct (Z.eqb_spec k' k); [congruence|].
Qed.

(** ** Memory for the tables *)

Section table_memory.
Context {X : X86} {XO : X86Ok X} {P : Type} {FA : FrameAllocator P} {FAO : FrameAllocatorOk P}.
Context {V : Type} {WC : WindowCache V} {WCO : WindowCacheOk V}.
Implicit Types (s : Kmem P V).

(** The frames [fs] are mapped, writable, from [base] on. *)
Definition ktable_at s (p4 base : Z) (fs : list Z) : Prop :=
  ∀ k f, fs !! k = Some f →
    translate (k_mem s) p4 (base + Z.of_nat k * PAGE_SIZE) = Some (f, leaf_flags (base + Z.of_nat k * PAGE_SIZE) WRITABLE).

(** A table of [n] elements of [sz] bytes at [base] fits in kernel space above
    the cache, and its pages can be mapped. *)
Definition can_table s (p4 sz base n : Z) : Prop :=
  good_page base ∧ START_ADDR + VC_SIZE ≤ base ∧ 0 < n * sz ∧ base + n * sz + PAGE_SIZE ≤ 2 ^ 64 ∧
  ∀ i, 0 ≤ i < pages_for (n * sz) → clear_path (k_mem s) p4 (page_path (base + i * PAGE_SIZE)) = true.

Lemma ktable_page_good base sz n i :
  good_page base → START_ADDR + VC_SIZE ≤ base → base + n * sz + PAGE_SIZE ≤ 2 ^ 64 →
  0 ≤ i < pages_for (n * sz) → good_page (base + i * PAGE_SIZE).
Proof.
  unfold good_page, pages_for, START_ADDR, VC_SIZE, P1PAGE_COUNT, KVMSPACE, PAGE_SIZE.
  rewrite !canonical_iff, !page_aligned_iff. intros. zlia.
Qed.

(** [valloc_ktable] allocates the pages of the table, from any later memory. *)
Lemma valloc_ktable_run s0 s p4 lv m ps sz base n :
  kmem_inv s p4 lv → remaps m p4 ps s0 s → has_room (wc_shows (k_vc s)) 2 →
  can_table s0 p4 sz base n → (m + 4 * Z.to_nat (pages_for (n * sz)) ≤ size (fa_free (k_pmm s0)))%nat →
  ∃ fs s' lv', valloc_ktable sz base n s = Ok (tt, s') ∧ kmem_inv s' p4 lv' ∧
    has_room (wc_shows (k_vc s')) 2 ∧ ktable_at s' p4 base fs ∧
    length fs = Z.to_nat (pages_for (n * sz)) ∧ NoDup fs ∧
    Forall (λ f, f ∈ fa_free (k_pmm s) ∧ f ∉ fa_free (k_pmm s')) fs ∧
    fa_free (k_pmm s') ⊆ fa_free (k_pmm s) ∧
    (∀ q, good_page q → q ∉ request_pages base (range (pages_for (n * sz))) →
      translate (k_mem s') p4 q = translate (k_mem s) p4 q) ∧
    remaps (m + 4 * Z.to_nat (pages_for (n * sz))) p4
      (ps ++ request_pages base (range (pages_for (n * sz)))) s0 s'.
Proof.
  intros Hinv Hrm Hroom (Hgp & Habove & Hpos & Hend & Hcl) Hsz.
  assert (0 ≤ base) by (destruct Hgp as [Hc _]; apply canonical_iff in Hc; lia).
  destruct (pages_for_bound (n * sz) Hpos) as [Hk0 Hk]. pose proof (rm_size _ _ _ _ _ Hrm).
  destruct (valloc_run s base (pages_for (n * sz)) WRITABLE p4 lv)
    as (fs & s' & lv' & Hr & Hinv' & (Htr & Hnd & Hfs) & Hrm' & Hsw); try done; try lia.
  { apply kernel_flags_const. }
  { intros i Hi. pose proof (ktable_page_good base sz n i Hgp Habove Hend Hi). split_and!; [done| |].
    - right. unfold PAGE_SIZE. lia.
    - apply (rm_clear _ _ _ _ _ Hrm); [apply page_indices_lt|done|]. by apply Hcl. }
  pose proof (Forall2_length _ _ _ Htr) as Hlen. rewrite length_range in Hlen.
  exists fs, s', lv'. split_and!; try done.
  - unfold valloc_ktable, valloc_size.
    assert (unwrap (page_from_start base) = Ok base) as E1
      by (rewrite page_from_start_spec by apply Hgp; by rewrite (proj2 Hgp)).
    run_step (lift_run _ s _ E1).
    assert (mul64 n sz = Ok (n * sz)) as E2 by (apply chk_in; unfold in_width, PAGE_SIZE in *; lia).
    run_step (lift_run _ s _ E2).
    assert (of_option Crate (align_up (n * sz) PAGE_SIZE) = Ok (pages_for (n * sz) * PAGE_SIZE)) as E3.
    { rewrite align_up_page_spec by (unfold in_width, PAGE_SIZE in *; lia). cbv zeta.
      unfold pages_for, PAGE_SIZE in *. replace (n * sz + 4096 - 1) with (n * sz + 4095) by lia.
      destruct (Z.ltb_spec ((n * sz + 4095) / 4096 * 4096) (2 ^ 64)) as [|Hbad]; [done|].
      clear -Hend Hpos H Hbad. revert Hend Hpos Hbad. generalize (n * sz). intros. zlia. }
    run_step (lift_run _ s _ E3). by rewrite Z.div_mul by (unfold PAGE_SIZE; lia).
  - by eapply same_windows_room.
  - intros k f Hf. assert (k < Z.to_nat (pages_for (n * sz)))%nat as Hlt by (rewrite Hlen; by eapply lookup_lt_Some).
    pose proof (lookup_range (pages_for (n * sz)) k Hlt) as Hx.
    apply (Forall2_lookup_lr _ _ _ _ _ _ Htr Hx Hf).
  - eapply Forall_impl; [exact Hfs|]. by intros f (? & ? & _).
  - apply (rm_free _ _ _ _ _ Hrm').
  - intros q [Hc Ha] Hq. by apply (rm_other _ _ _ _ _ Hrm').
  - by eapply remaps_trans.
Qed.

(** An access inside a table that is mapped succeeds. *)
Lemma touch_run s p4 lv base sz n id fs :
  kmem_inv s p4 lv → good_page base → 0 < sz → 0 ≤ id < n →
  ktable_at s p4 base fs → (Z.to_nat (pages_for (n * sz)) ≤ length fs)%nat →
  touch (base + id * sz) sz s = Ok (tt, s).
Proof.
  intros [_ Hv Hroot _] [_ Ha] Hsz Hid Htab Hlen. apply page_aligned_iff in Ha. unfold touch.
  rewrite (M_bind_run (gets k_p4) _ s (k_p4 s) s) by done.
  rewrite (M_bind_run (win_frame (k_p4 s)) _ s p4 s)
    by (unfold win_frame; by rewrite (wc_frame_shows _ _ _ Hv Hroot)).
  rewrite (M_bind_run get _ s s s) by done.
  match goal with |- (if ?b then _ else _) _ = _ => assert (b = true) as -> end; [|done].
  apply forallb_forall. intros q (i & -> & Hi)%list_elem_of_In%list_elem_of_fmap.
  apply elem_of_range in Hi. apply bool_decide_eq_true_2.
  assert (0 < pages_for (n * sz)) as Hp0 by (apply pages_for_bound; nia).
  assert (id * sz + sz ≤ n * sz) as Hin by nia.
  set (o := id * sz) in *. set (e := n * sz) in *. assert (0 ≤ o) by (subst o; nia).
  assert (∃ j, 0 ≤ j < pages_for e ∧ page_base (base + o) + i * PAGE_SIZE = base + j * PAGE_SIZE)
    as (j & Hj & ->).
  { exists (o / PAGE_SIZE + i). unfold page_base, pages_for, PAGE_SIZE in *. zlia. }
  destruct (lookup_lt_is_Some_2 fs (Z.to_nat j)) as [f Hf]; [lia|].
  specialize (Htab _ _ Hf). rewrite Z2Nat.id in Htab by lia. rewrite Htab. eauto.
Qed.
End table_memory.

(** ** [ignite] *)

Section ignite.
Context {X : X86} {XO : X86Ok X} {P : Type} {FA : FrameAllocator P} {FAO : FrameAllocatorOk P}.
Context {V : Type} {WC : WindowCache V} {WCO : WindowCacheOk V} {G : GdtCrate} {GO : GdtCrateOk G}.
Implicit Types (s : Cores P V) (k : Kmem P V).

(** The tables [ignite] allocates: element size and address. *)
Definition table_specs : list (Z * Z) :=
  [(sizeof_VirtAddr, STACK_TABLE_VPTR); (sizeof_KGdt, GDT_TABLE_PTR);
   (sizeof_TaskStateSegment, TSS_TABLE_PTR); (ERROR_STACK_SIZE, NMI_STACKS_VPTR);
   (ERROR_STACK_SIZE, DF_STACKS_VPTR)].
Fixpoint pages_in (n : Z) (specs : list (Z * Z)) : nat :=
  match specs with [] => 0 | (sz, _) :: specs' => Z.to_nat (pages_for (n * sz)) + pages_in n specs' end.
Definition table_pages (n : Z) : nat := pages_in n table_specs.

(** The addresses of the tables are unused. *)
Definition tables_clear k (p4 n : Z) : Prop :=
  ∀ sz base i, (sz, base) ∈ table_specs → 0 ≤ i < pages_for (n * sz) →
    clear_path (k_mem k) p4 (page_path (base + i * PAGE_SIZE)) = true.

(** The four tables that are mapped, with their frames; the frames [ts] that
    were allocated for the task state segments are not. *)
Record tables_ready k (p4 n : Z) (st gd ts nm df : list Z) : Prop := {
  tr_stack : ktable_at k p4 STACK_TABLE_VPTR st ∧ length st = Z.to_nat (pages_for (n * sizeof_VirtAddr));
  tr_gdt : ktable_at k p4 GDT_TABLE_PTR gd ∧ length gd = Z.to_nat (pages_for (n * sizeof_KGdt));
  tr_tss : length ts = Z.to_nat (pages_for (n * sizeof_TaskStateSegment));
  tr_nmi : ktable_at k p4 NMI_STACKS_VPTR nm ∧ length nm = Z.to_nat (pages_for (n * ERROR_STACK_SIZE));
  tr_df : ktable_at k p4 DF_STACKS_VPTR df ∧ length df = Z.to_nat (pages_for (n * ERROR_STACK_SIZE));
  tr_nodup : NoDup (st ++ gd ++ ts ++ nm ++ df);
  tr_used : Forall (λ f, f ∉ fa_free (k_pmm k)) (st ++ gd ++ ts ++ nm ++ df);
}.

Definition ktable_page (n q : Z) : Prop :=
  ∃ sz base i, (sz, base) ∈ table_specs ∧ 0 ≤ i < pages_for (n * sz) ∧ q = base + i * PAGE_SIZE.

Lemma table_specs_bound sz base :
  (sz, base) ∈ table_specs → 0 < sz ≤ 8192 ∧ good_page base ∧
    KVMSPACE + 4 * TB ≤ base ≤ KVMSPACE + 8 * TB.
Proof.
  pose proof sizeof_KGdt_spec. unfold table_specs, good_page. rewrite !elem_of_cons, elem_of_nil.
  rewrite canonical_iff, page_aligned_iff.
  unfold sizeof_VirtAddr, sizeof_TaskStateSegment, ERROR_STACK_SIZE, STACK_TABLE_VPTR, GDT_TABLE_PTR,
    TSS_TABLE_PTR, NMI_STACKS_VPTR, DF_STACKS_VPTR, KVMSPACE, TB.
  intros [E|[E|[E|[E|[E|[]]]]]]; injection E as -> ->; split_and!; done || lia.
Qed.

Lemma spec_room n sz base :
  1 ≤ n ≤ 256 → (sz, base) ∈ table_specs → good_page base ∧ START_ADDR + VC_SIZE ≤ base ∧ 0 < n * sz ∧
    base + n * sz + PAGE_SIZE ≤ 2 ^ 64.
Proof.
  intros Hn Hin. destruct (table_specs_bound sz base Hin) as (Hsz & Hgp & Hb).
  assert (0 < n * sz ≤ 256 * 8192) as Hm by nia. split; [done|]. clear Hgp Hin.
  revert Hm. generalize (n * sz). intros m Hm.
  unfold START_ADDR, VC_SIZE, P1PAGE_COUNT, KVMSPACE, TB, PAGE_SIZE in *. lia.
Qed.

Lemma spec_page_good n sz base i :
  1 ≤ n ≤ 256 → (sz, base) ∈ table_specs → 0 ≤ i < pages_for (n * sz) → good_page (base + i * PAGE_SIZE).
Proof. intros Hn Hin Hi. destruct (spec_room n sz base Hn Hin) as (? & ? & ? & ?). by eapply ktable_page_good. Qed.

Lemma can_table_spec k p4 n sz base :
  1 ≤ n ≤ 256 → tables_clear k p4 n → (sz, base) ∈ table_specs → can_table k p4 sz base n.
Proof.
  intros Hn Hcl Hin. destruct (spec_room n sz base Hn Hin) as (? & ? & ? & ?). split_and!; try done.
  intros i Hi. by apply Hcl with sz.
Qed.

(** Pages of different tables differ, except those of the task state segments
    and of the NMI stacks. *)
Lemma table_pages_apart n sz base sz' base' i j :
  1 ≤ n ≤ 256 → (sz, base) ∈ table_specs → (sz', base') ∈ table_specs → base ≠ base' →
  0 ≤ i < pages_for (n * sz) → 0 ≤ j < pages_for (n * sz') → base + i * PAGE_SIZE ≠ base' + j * PAGE_SIZE.
Proof.
  intros Hn H1 H2 Hne Hi Hj. destruct (table_specs_bound _ _ H1) as (Hs1 & _ & _).
  destruct (table_specs_bound _ _ H2) as (Hs2 & _ & _).
  assert (0 ≤ i * PAGE_SIZE < TB ∧ 0 ≤ j * PAGE_SIZE < TB) as [Hib Hjb].
  { assert (∀ a c, 0 < a ≤ 8192 → 0 ≤ c < pages_for (n * a) → 0 ≤ c * PAGE_SIZE < TB) as Hk; [|eauto].
    intros a c Ha Hk. assert (0 < n * a ≤ 256 * 8192) as Hna by nia. revert Hk Hna.
    unfold pages_for, PAGE_SIZE, TB. generalize (n * a). intros. zlia. }
  unfold table_specs in H1, H2. rewrite !elem_of_cons, elem_of_nil in H1, H2.
  unfold STACK_TABLE_VPTR, GDT_TABLE_PTR, TSS_TABLE_PTR, NMI_STACKS_VPTR, DF_STACKS_VPTR, TB in *.
  destruct H1 as [E|[E|[E|[E|[E|[]]]]]]; injection E as -> ->;
    destruct H2 as [E|[E|[E|[E|[E|[]]]]]]; injection E as -> ->; lia.
Qed.

(** A table stays in place when other pages are mapped. *)
Lemma ktable_at_other k k' p4 base fs n sz :
  length fs = Z.to_nat (pages_for (n * sz)) → ktable_at k p4 base fs →
  (∀ i, 0 ≤ i < pages_for (n * sz) → translate (k_mem k') p4 (base + i * PAGE_SIZE) =
    translate (k_mem k) p4 (base + i * PAGE_SIZE)) →
  ktable_at k' p4 base fs.
Proof.
  intros Hlen Htab Hsame i f Hf. pose proof (lookup_lt_Some _ _ _ Hf).
  rewrite Hsame by lia. by apply Htab.
Qed.

(** The state after [ignite], in terms of its memory. *)
Definition ignited k s : Cores P V :=
  mkCores k (STACK_TABLE s) (GDT_TABLE s) (TSS_TABLE s) (Some (default [] (PROC_TABLE s)))
    (Some (default [] (TASKS s))) (cs_regs s) (cs_lapic s).

(** The frames of a later table differ from those of earlier ones. *)
Lemma NoDup_later (fs gs : list Z) (free : gset Z) :
  NoDup fs → NoDup gs → Forall (λ f, f ∉ free) fs → Forall (λ f, f ∈ free) gs → NoDup (fs ++ gs).
Proof.
  rewrite !Forall_forall. intros Hf Hg H1 H2. apply NoDup_app. split_and!; try done.
  intros f Hin Hin'. by apply (H1 f Hin), H2.
Qed.

Definition alloc_table (n : Z) (e : Z * Z) : M (Kmem P V) unit := valloc_ktable (fst e) (snd e) n.

(** Tables allocated one after the other: all frames differ, and a table is in
    place at the end unless a later one has its address. *)
Record allocated (n p4 : Z) (specs : list (Z * Z)) (fss : list (list Z)) k k' : Prop := {
  al_len : Forall2 (λ e fs, length fs = Z.to_nat (pages_for (n * e.1))) specs fss;
  al_at a e fs : specs !! a = Some e → fss !! a = Some fs →
    (∀ b e', (a < b)%nat → specs !! b = Some e' → e'.2 ≠ e.2) → ktable_at k' p4 e.2 fs;
  al_nodup : NoDup (mjoin fss);
  al_frames : Forall (λ f, f ∈ fa_free (k_pmm k) ∧ f ∉ fa_free (k_pmm k')) (mjoin fss);
  al_other q : good_page q →
    (∀ sz base i, (sz, base) ∈ specs → 0 ≤ i < pages_for (n * sz) → q ≠ base + i * PAGE_SIZE) →
    translate (k_mem k') p4 q = translate (k_mem k) p4 q;
  al_free : fa_free (k_pmm k') ⊆ fa_free (k_pmm k);
}.

Lemma request_table_page n sz base q :
  (sz, base) ∈ table_specs → q ∈ request_pages base (range (pages_for (n * sz))) → ktable_page n q.
Proof. intros Hin (i & -> & Hi%elem_of_range)%list_elem_of_fmap. by exists sz, base, i. Qed.

(** A first table in front of others. *)
Lemma allocated_cons n p4 sz base specs fs fss k k1 k' :
  1 ≤ n ≤ 256 → (sz, base) :: specs ⊆ table_specs →
  length fs = Z.to_nat (pages_for (n * sz)) → ktable_at k1 p4 base fs → NoDup fs →
  Forall (λ f, f ∈ fa_free (k_pmm k) ∧ f ∉ fa_free (k_pmm k1)) fs → fa_free (k_pmm k1) ⊆ fa_free (k_pmm k) →
  (∀ q, good_page q → q ∉ request_pages base (range (pages_for (n * sz))) →
    translate (k_mem k1) p4 q = translate (k_mem k) p4 q) →
  allocated n p4 specs fss k1 k' → allocated n p4 ((sz, base) :: specs) (fs :: fss) k k'.
Proof.
  intros Hn Hsub Hlen Htab Hnd Hfs Hfr Hoth [A1 A2 A3 A4 A5 A6].
  assert ((sz, base) ∈ table_specs) as Hin0 by (apply Hsub; by left). split.
  - by constructor.
  - intros [|a] e gs He Hgs Hlater; [|eapply A2; eauto; intros b e' Hab Hb'; by apply (Hlater (S b) e' ltac:(lia))].
    simpl in He, Hgs. simplify_eq. eapply (ktable_at_other k1); [done..|]. intros i Hi. apply A5.
    { by apply spec_page_good with n sz. }
    intros sz' base' j Hin Hj. apply table_pages_apart with n sz sz'; try done; [apply Hsub; by right|].
    apply list_elem_of_lookup_1 in Hin as [b Hb']. intros E. by apply (Hlater (S b) (sz', base') ltac:(lia) Hb').
  - simpl. apply (NoDup_later fs _ (fa_free (k_pmm k1))); try done;
      (eapply Forall_impl; [eassumption|]); by intros f [? ?].
  - simpl. apply Forall_app. split; (eapply Forall_impl; [eassumption|]); intros f [? ?]; split; auto.
  - intros q Hq Hne. rewrite A5; [|done|intros sz' base' i Hin; apply Hne; by right]. apply Hoth; [done|].
    intros (i & -> & Hi%elem_of_range)%list_elem_of_fmap. eapply Hne; [by left|done|done].
  - by transitivity (fa_free (k_pmm k1)).
Qed.

Lemma alloc_tables_run n p4 k0 specs : 1 ≤ n ≤ 256 → tables_clear k0 p4 n → specs ⊆ table_specs →
  ∀ k lv m ps, kmem_inv k p4 lv → remaps m p4 ps k0 k → has_room (wc_shows (k_vc k)) 2 →
  (m + 4 * pages_in n specs ≤ size (fa_free (k_pmm k0)))%nat →
  ∃ fss k' lv' ps', for_ specs (alloc_table n) k = Ok (tt, k') ∧ kmem_inv k' p4 lv' ∧
    has_room (wc_shows (k_vc k')) 2 ∧ allocated n p4 specs fss k k' ∧
    remaps (m + 4 * pages_in n specs) p4 (ps ++ ps') k0 k' ∧ (∀ q, q ∈ ps' → ktable_page n q).
Proof.
  intros Hn Hcl. induction specs as [|[sz base] specs IH]; intros Hsub k lv m ps Hinv Hrm Hroom Hsz.
  { exists [], k, lv, []. simpl. rewrite Nat.add_0_r, app_nil_r. split_and!; try done; [|set_solver].
    split; try done; constructor. }
  cbn [pages_in] in *.
  destruct (valloc_ktable_run k0 k p4 lv m ps sz base n)
    as (fs & k1 & lv1 & Hr1 & Hinv1 & Hroom1 & Htab & Hlen & Hnd & Hfs & Hfr1 & Hoth1 & Hrm1); try done.
  { apply can_table_spec; try done. apply Hsub. set_solver. }
  { lia. }
  destruct (IH ltac:(set_solver) k1 lv1 _ _ Hinv1 Hrm1 Hroom1 ltac:(lia))
    as (fss & k' & lv' & ps' & Hr & Hinv' & Hroom' & Hal & Hrm' & Hps').
  exists (fs :: fss), k', lv', (request_pages base (range (pages_for (n * sz))) ++ ps'). split_and!; try done.
  - rewrite for_cons. unfold alloc_table at 1. by run_step Hr1.
  - by eapply allocated_cons.
  - by rewrite app_assoc, Nat.mul_add_distr_l, Nat.add_assoc.
  - intros q [Hq|Hq]%elem_of_app; [|by apply Hps']. eapply request_table_page; [|exact Hq]. set_solver.
Qed.

(** [ignite] is these allocations and two initialisations. *)
Lemma ignite_tables s n k :
  for_ table_specs (alloc_table n) (cs_kmem s) = Ok (tt, k) → ignite n s = Ok (tt, ignited k s).
Proof.
  unfold table_specs, alloc_table. intros H. cbn [for_ fst snd] in H.
  apply M_bind_Ok in H as ([] & k1 & H1 & H). apply M_bind_Ok in H as ([] & k2 & H2 & H).
  apply M_bind_Ok in H as ([] & k3 & H3 & H). apply M_bind_Ok in H as ([] & k4 & H4 & H).
  apply M_bind_Ok in H as ([] & k5 & H5 & H). injection H as <-.
  unfold ignite, gdt_init, on_memory.
  run_step (zoom_run cs_kmem set_kmem _ s _ _ H1). rewrite M_bind_assoc.
  run_step (zoom_run cs_kmem set_kmem _ (set_kmem k1 s) _ _ H2).
  run_step (zoom_run cs_kmem set_kmem _ (set_kmem k2 s) _ _ H3).
  run_step (zoom_run cs_kmem set_kmem _ (set_kmem k3 s) _ _ H4).
  run_step (zoom_run cs_kmem set_kmem _ (set_kmem k4 s) _ _ H5). reflexivity.
Qed.

(** No table after the [a]-th is at [base]. *)
Lemma last_table a base :
  forallb (λ e, negb (snd e =? base)) (drop (S a) table_specs) = true →
  ∀ b e, (a < b)%nat → table_specs !! b = Some e → e.2 ≠ base.
Proof.
  rewrite forallb_forall. intros H b e Hb He E. specialize (H e). rewrite E, Z.eqb_refl in H.
  assert (e ∈ drop (S a) table_specs) as Hin; [|by apply list_elem_of_In, H in Hin].
  apply (list_elem_of_lookup_2 _ (b - S a)). rewrite lookup_drop. by replace (S a + (b - S a))%nat with b by lia.
Qed.

Lemma allocated_ready n p4 k k' fss :
  1 ≤ n ≤ 256 → allocated n p4 table_specs fss k k' →
  ∃ st gd ts nm df, tables_ready k' p4 n st gd ts nm df ∧
    Forall (λ f, f ∈ fa_free (k_pmm k)) (st ++ gd ++ ts ++ nm ++ df).
Proof.
  intros Hn [Hlen Hat Hnd Hfs _ _]. unfold table_specs in Hlen.
  do 5 (apply Forall2_cons_inv_l in Hlen as (? & ? & ? & Hlen & ->)). apply Forall2_nil_inv_l in Hlen as ->.
  match goal with H : NoDup (mjoin [?a; ?b; ?c; ?d; ?e]) |- _ => exists a, b, c, d, e end.
  assert (∀ a e fs, table_specs !! a = Some e → _ !! a = Some fs →
    forallb (λ e', negb (snd e' =? snd e)) (drop (S a) table_specs) = true → ktable_at k' p4 e.2 fs) as Hat'
    by (intros a e fs He Hl Hb; by apply (Hat a e fs He Hl), last_table). clear Hat.
  simpl in *; rewrite ?app_nil_r in *. split; [|eapply Forall_impl; [exact Hfs|]; by intros f [? _]]. split; try done.
  - split; [|done]. by apply (Hat' 0%nat (sizeof_VirtAddr, STACK_TABLE_VPTR)).
  - split; [|done]. by apply (Hat' 1%nat (sizeof_KGdt, GDT_TABLE_PTR)).
  - split; [|done]. by apply (Hat' 3%nat (ERROR_STACK_SIZE, NMI_STACKS_VPTR)).
  - split; [|done]. by apply (Hat' 4%nat (ERROR_STACK_SIZE, DF_STACKS_VPTR)).
  - eapply Forall_impl; [exact Hfs|]. by intros f [_ ?].
Qed.

Lemma ignite_run s n p4 lv :
  kmem_inv (cs_kmem s) p4 lv → has_room (wc_shows (k_vc (cs_kmem s))) 2 → 1 ≤ n ≤ 256 →
  tables_clear (cs_kmem s) p4 n → (4 * table_pages n ≤ size (fa_free (k_pmm (cs_kmem s))))%nat →
  ∃ k lv' st gd ts nm df, ignite n s = Ok (tt, ignited k s) ∧ kmem_inv k p4 lv' ∧
    has_room (wc_shows (k_vc k)) 2 ∧ tables_ready k p4 n st gd ts nm df ∧
    (∃ ps, remaps (4 * table_pages n) p4 ps (cs_kmem s) k ∧ (∀ q, q ∈ ps → ktable_page n q)) ∧
    Forall (λ f, f ∈ fa_free (k_pmm (cs_kmem s))) (st ++ gd ++ ts ++ nm ++ df).
Proof.
  intros Hinv Hroom Hn Hcl Hsz.
  destruct (alloc_tables_run n p4 (cs_kmem s) table_specs Hn Hcl ltac:(done) (cs_kmem s) lv 0 [])
    as (fss & k & lv' & ps & Hr & Hinv' & Hroom' & Hal & Hrm & Hps); try done; [by apply remaps_refl|].
  destruct (allocated_ready n p4 _ _ _ Hn Hal) as (st & gd & ts & nm & df & Hready & Hfresh).
  exists k, lv', st, gd, ts, nm, df. split_and!; try done; [by apply ignite_tables|]. by exists ps.
Qed.

(** ** Registering a core *)

Lemma modify_bind {S A} (f : S → S) (k : unit → M S A) (t : S) : (modify f ≫= k) t = k tt (f t).
Proof. done. Qed.

Lemma on_regs_twice id f g s : (on_regs id f ≫= λ _, on_regs id g) s = on_regs id (λ r, g (f r)) s.
Proof.
  unfold on_regs. rewrite modify_bind. unfold modify, regs_of at 1. cbn [set_regs cs_regs].
  rewrite lookup_insert_eq, insert_insert_eq. reflexivity.
Qed.

(** The selectors of the five descriptors. *)
Definition kgdt (g : Gdt) : KGdt := mkKGdt g 0x08 0x10 0x23 0x1B 0x28.

Lemma gdt_appends tss : ∃ g1 g2 g3 g4 g5,
  gdt_append kernel_code_segment gdt_new = Some (0x08, g1) ∧
  gdt_append kernel_data_segment g1 = Some (0x10, g2) ∧
  gdt_append user_data_segment g2 = Some (0x1B, g3) ∧
  gdt_append user_code_segment g3 = Some (0x23, g4) ∧
  gdt_append (tss_segment tss) g4 = Some (0x28, g5).
Proof.
  pose proof gdt_new_used as H0.
  destruct (gdt_append_spec gdt_new kernel_code_segment) as (g1 & E1 & H1); [rewrite H0; by vm_compute|].
  rewrite H0 in E1, H1. simpl in H1.
  destruct (gdt_append_spec g1 kernel_data_segment) as (g2 & E2 & H2); [rewrite H1; by vm_compute|].
  rewrite H1 in E2, H2. simpl in H2.
  destruct (gdt_append_spec g2 user_data_segment) as (g3 & E3 & H3); [rewrite H2; by vm_compute|].
  rewrite H2 in E3, H3. simpl in H3.
  destruct (gdt_append_spec g3 user_code_segment) as (g4 & E4 & H4); [rewrite H3; by vm_compute|].
  rewrite H3 in E4, H4. simpl in H4.
  destruct (gdt_append_spec g4 (tss_segment tss)) as (g5 & E5 & _); [rewrite H4; by vm_compute|].
  rewrite H4 in E5. by exists g1, g2, g3, g4, g5.
Qed.

Definition core_registered (id kstack nmistack dfstack : Z) (g : Gdt) s : Cores P V :=
  mkCores (cs_kmem s) (STACK_TABLE s) (<[id := kgdt g]> (GDT_TABLE s))
    (<[id := mkTss kstack nmistack dfstack]> (TSS_TABLE s)) (PROC_TABLE s) (TASKS s)
    (<[id := let r := regs_of s id in
        mkRegs (Some (GdtAt (gdt_entry id))) (Some 0x08) (Some 0x10) (Some 0x28)
          (r_kernel_gs r) (r_idt r) (r_lstar r) (r_star r) (r_sce r)]> (cs_regs s)) (cs_lapic s).

Lemma ready_touch s p4 lv n st gd ts nm df id :
  kmem_inv (cs_kmem s) p4 lv → tables_ready (cs_kmem s) p4 n st gd ts nm df → 1 ≤ n ≤ 256 → 0 ≤ id < n →
  on_memory (touch (stack_entry id) sizeof_VirtAddr) s = Ok (tt, s) ∧
  on_memory (touch (gdt_entry id) sizeof_KGdt) s = Ok (tt, s) ∧
  on_memory (touch (gdt_tss id) sizeof_TaskStateSegment) s = Ok (tt, s).
Proof.
  intros Hinv [[Hst Hst'] [Hgd Hgd'] _ [Hnm Hnm'] _ _ _] Hn Hid.
  assert (∀ adr len, touch adr len (cs_kmem s) = Ok (tt, cs_kmem s) → on_memory (touch adr len) s = Ok (tt, s)) as Hz.
  { intros adr len H. unfold on_memory. rewrite (zoom_run cs_kmem set_kmem _ s _ _ H). by destruct s. }
  pose proof sizeof_KGdt_spec.
  split_and!; apply Hz; eapply (touch_run _ p4 lv _ _ n); try done; try lia.
  rewrite Hnm'. apply Z2Nat.inj_le; unfold pages_for, sizeof_TaskStateSegment, ERROR_STACK_SIZE, PAGE_SIZE; zlia.
Qed.

Lemma register_run s p4 lv n st gd ts nm df id kstack nmistack dfstack :
  kmem_inv (cs_kmem s) p4 lv → tables_ready (cs_kmem s) p4 n st gd ts nm df → 1 ≤ n ≤ 256 → 0 ≤ id < n →
  ∃ g, register id kstack nmistack dfstack s = Ok (tt, core_registered id kstack nmistack dfstack g s).
Proof.
  intros Hinv Hready Hn Hid. destruct (gdt_appends (gdt_tss id)) as (g1 & g2 & g3 & g4 & g & E1 & E2 & E3 & E4 & E5).
  exists g. unfold register, append. rewrite E1. run_step (lift_run (of_option Crate (Some (0x08, g1))) s _ eq_refl).
  rewrite E2. run_step (lift_run (of_option Crate (Some (0x10, g2))) s _ eq_refl).
  rewrite E3. run_step (lift_run (of_option Crate (Some (0x1B, g3))) s _ eq_refl).
  rewrite E4. run_step (lift_run (of_option Crate (Some (0x23, g4))) s _ eq_refl).
  destruct (ready_touch s p4 lv n st gd ts nm df id Hinv Hready Hn Hid) as (_ & _ & Ht).
  unfold put_tss. rewrite M_bind_assoc. run_step Ht.
  rewrite modify_bind. match goal with |- _ ?t = _ => set (s1 := t) end. rewrite E5.
  run_step (lift_run (of_option Crate (Some (0x28, g))) s1 _ eq_refl). cbv zeta. fold (kgdt g).
  destruct (ready_touch s1 p4 lv n st gd ts nm df id Hinv Hready Hn Hid) as (_ & Hg & _).
  unfold put_gdt. rewrite M_bind_assoc. run_step Hg.
  rewrite modify_bind. unfold gdt_load, load_kernel. rewrite on_regs_twice. reflexivity.
Qed.

(** ** The stack of a core *)

(** The loader gives core number [i] (in its own order) the [i]-th stack below
    the end of memory. *)
Lemma stack_run i x_ptr :
  0 ≤ i < 2 ^ 32 → 2 ^ 64 - (i + 1) * kernel_stack_size < x_ptr < 2 ^ 64 - i * kernel_stack_size →
  stack x_ptr = Ok (wrap 64 (2 ^ 64 - i * kernel_stack_size)).
Proof.
  intros Hi Hx. unfold stack, wrap, kernel_stack_size in *. cbv zeta.
  change ((0 - 16 * 1024) mod 2 ^ 64) with (2 ^ 64 - 16384).
  destruct (Z.leb_spec (2 ^ 64 - 16384) x_ptr) as [Hle|Hlt].
  - replace i with 0 by lia. cbn [mbind res_bind mret res_ret].
    rewrite virt_new_spec by (unfold in_width; lia). reflexivity.
  - assert (1 ≤ i) by lia.
    assert (of_option Crate (align_up x_ptr (16 * 1024)) = Ok (2 ^ 64 - i * 16384)) as ->.
    { change (16 * 1024) with (2 ^ 14). rewrite align_up_spec by (unfold in_width; lia). cbv zeta.
      change (2 ^ 14) with 16384. assert ((x_ptr + 16384 - 1) / 16384 * 16384 = 2 ^ 64 - i * 16384) as -> by zlia.
      by destruct (Z.ltb_spec (2 ^ 64 - i * 16384) (2 ^ 64)); [|lia]. }
    cbn [mbind res_bind]. rewrite virt_new_spec by (unfold in_width; lia).
    rewrite (Z.mod_small (2 ^ 64 - i * (16 * 1024))) by lia.
    assert (canonical (2 ^ 64 - i * 16384) = true) as -> by (apply canonical_iff; lia).
    done.
Qed.

(** ** [wakeup] *)

Definition new_proc (top : Z) : Proc := mkProc (mkProcInfo 0 None 0 None) 0 top.

(** The state after [wakeup_register]. *)
Definition woken (id top : Z) (g : Gdt) (l : list (Z * Proc)) (place : nat) s : Cores P V :=
  mkCores (cs_kmem s) (<[id := top]> (STACK_TABLE s)) (<[id := kgdt g]> (GDT_TABLE s))
    (<[id := mkTss top (NMI_STACKS_VPTR + ERROR_STACK_SIZE * (id + 1))
                      (DF_STACKS_VPTR + ERROR_STACK_SIZE * (id + 1))]> (TSS_TABLE s))
    (Some (btree_insert id (new_proc top) l)) (TASKS s)
    (<[id := let r := regs_of s id in
        mkRegs (Some (GdtAt (gdt_entry id))) (Some 0x08) (Some 0x10) (Some 0x28)
          (Some place) (r_idt r) (r_lstar r) (r_star r) (r_sce r)]> (cs_regs s)) (cs_lapic s).

Lemma error_stacks id : 0 ≤ id < 256 →
  nmi_stack id = Ok (NMI_STACKS_VPTR + ERROR_STACK_SIZE * (id + 1)) ∧
  df_stack id = Ok (DF_STACKS_VPTR + ERROR_STACK_SIZE * (id + 1)).
Proof.
  intros Hid. unfold nmi_stack, df_stack, mul64, ERROR_STACK_SIZE.
  rewrite chk_in by (unfold in_width; lia). cbn [mbind res_bind].
  rewrite !virt_add_spec by (done || unfold in_width; lia).
  assert (canonical (NMI_STACKS_VPTR + 8 * 1024 * (id + 1)) = true) as ->
    by (apply canonical_iff; unfold NMI_STACKS_VPTR, KVMSPACE, TB; lia).
  assert (canonical (DF_STACKS_VPTR + 8 * 1024 * (id + 1)) = true) as ->
    by (apply canonical_iff; unfold DF_STACKS_VPTR, KVMSPACE, TB; lia). done.
Qed.

Lemma wakeup_register_run s p4 lv n st gd ts nm df id i x_ptr l :
  kmem_inv (cs_kmem s) p4 lv → tables_ready (cs_kmem s) p4 n st gd ts nm df → 1 ≤ n ≤ 256 → 0 ≤ id < n →
  0 ≤ i < 2 ^ 32 → 2 ^ 64 - (i + 1) * kernel_stack_size < x_ptr < 2 ^ 64 - i * kernel_stack_size →
  PROC_TABLE s = Some l →
  let top := wrap 64 (2 ^ 64 - i * kernel_stack_size) in
  ∃ g place, wakeup_register id x_ptr s = Ok (tt, woken id top g l place s) ∧
    btree_place id (btree_insert id (new_proc top) l) = Some place.
Proof.
  intros Hinv Hready Hn Hid Hi Hx Hl top. destruct (error_stacks id ltac:(lia)) as [En Ed].
  destruct (ready_touch s p4 lv n st gd ts nm df id Hinv Hready Hn Hid) as (Hs & _ & _).
  destruct (btree_get_place id (btree_insert id (new_proc top) l) (new_proc top)) as [place Hplace].
  { by rewrite btree_get_insert, Z.eqb_refl. }
  unfold wakeup_register. run_step (lift_run _ s _ (stack_run i x_ptr Hi Hx)). fold top.
  unfold put_stack. rewrite M_bind_assoc. run_step Hs. rewrite modify_bind.
  match goal with |- context [_ ?t = Ok _] => set (s1 := t) end.
  run_step (lift_run _ s1 _ En). run_step (lift_run _ s1 _ Ed).
  destruct (register_run s1 p4 lv n st gd ts nm df id top (NMI_STACKS_VPTR + ERROR_STACK_SIZE * (id + 1))
    (DF_STACKS_VPTR + ERROR_STACK_SIZE * (id + 1)) Hinv Hready Hn Hid) as [g Hr].
  exists g, place. split; [|done]. run_step Hr.
  match goal with |- _ ?t = Ok _ => set (s2 := t) end.
  rewrite (M_bind_run proc_table _ s2 l s2) by (unfold proc_table; simpl; by rewrite Hl).
  rewrite modify_bind. match goal with |- _ ?t = Ok _ => set (s3 := t) end. fold (new_proc top) in s3.
  rewrite (M_bind_run (instance_place id) _ s3 place s3).
  2:{ unfold instance_place. rewrite (M_bind_run proc_table _ s3 (btree_insert id (new_proc top) l) s3) by done.
      unfold lift. by rewrite Hplace. }
  unfold on_regs, modify. f_equal. f_equal. unfold set_regs, s3, regs_of.
  cbn [set_proc_table core_registered cs_regs s2]. rewrite lookup_insert_eq, insert_insert_eq. reflexivity.
Qed.

(** ** The second half of [wakeup] *)

(** The register [STAR], and the selectors the processor takes from it on
    [syscall] and on [sysret]. *)
Definition STAR : Z := Z.lor (Z.shiftl 0x13 48) (Z.shiftl 0x08 32).
Definition syscall_cs (star : Z) : Z := Z.land (Z.shiftr star 32) 0xFFFC.
Definition syscall_ss (star : Z) : Z := Z.land (Z.shiftr star 32) 0xFFFF + 8.
Definition sysret_cs (star : Z) : Z := Z.lor (Z.shiftr star 48 + 16) 3.
Definition sysret_ss (star : Z) : Z := Z.lor (Z.shiftr star 48 + 8) 3.

Definition with_quantum (q : Z) (p : Proc) : Proc :=
  mkProc (mkProcInfo (pi_tick_miss (pr_info p)) (pi_current (pr_info p)) q (pi_active (pr_info p)))
    (save_user_rsp p) (kernel_rsp p).

(** The state after [wakeup_enable]. *)
Definition enabled (id q syscall1_adr : Z) (a : Lapic) (l : list (Z * Proc)) s : Cores P V :=
  mkCores (cs_kmem s) (STACK_TABLE s) (GDT_TABLE s) (TSS_TABLE s)
    (Some (btree_alter (with_quantum q) id l)) (TASKS s)
    (<[id := let r := regs_of s id in
        mkRegs (r_gdtr r) (r_cs r) (r_data r) (r_tr r) (r_kernel_gs r) true
          (Some syscall1_adr) (Some STAR) true]> (cs_regs s)) (<[id := a]> (cs_lapic s)).

Lemma star_run g :
  unwrap (star_write (ucode_seg (kgdt g)) (udata_seg (kgdt g)) (kcode_seg (kgdt g)) (kdata_seg (kgdt g))) = Ok STAR.
Proof. by rewrite star_write_spec. Qed.

Lemma wakeup_enable_run s p4 lv n st gd ts nm df id g c config entry l p :
  kmem_inv (cs_kmem s) p4 lv → tables_ready (cs_kmem s) p4 n st gd ts nm df → 1 ≤ n ≤ 256 → 0 ≤ id < n →
  GDT_TABLE s !! id = Some (kgdt g) → PROC_TABLE s = Some l → btree_get id l = Some p →
  calib_ok c → Forall (config_ok id) config →
  ∃ a, wakeup_enable id c config entry s = Ok (tt, enabled id ((fst c - snd c) * 10000) entry a l s).
Proof.
  intros Hinv Hready Hn Hid Hg Hl Hp Hc Hcfg.
  destruct (apic_init_run id c config (lapic_of s id) Hc Hcfg) as [a Ha]. exists a. unfold wakeup_enable, on_core_lapic.
  run_step (zoom_run (λ s, lapic_of s id) (λ l s, mkCores (cs_kmem s) (STACK_TABLE s) (GDT_TABLE s) (TSS_TABLE s)
    (PROC_TABLE s) (TASKS s) (cs_regs s) (<[id := l]> (cs_lapic s))) _ s _ _ Ha).
  match goal with |- _ ?t = Ok _ => set (s1 := t) end.
  destruct (btree_get_place _ _ _ Hp) as [place Hplace].
  assert (proc_table s1 = Ok (l, s1)) as Ht by (unfold proc_table; simpl; by rewrite Hl).
  unfold set_quantum, instance_place. rewrite !M_bind_assoc. run_step Ht. rewrite Hplace.
  run_step (lift_run (unwrap (Some place)) s1 _ eq_refl). rewrite M_bind_assoc. run_step Ht. rewrite modify_bind.
  fold (with_quantum ((fst c - snd c) * 10000)). match goal with |- _ ?t = Ok _ => set (s2 := t) end.
  unfold idt_load, on_regs at 1. rewrite modify_bind. match goal with |- _ ?t = Ok _ => set (s3 := t) end.
  destruct (ready_touch s3 p4 lv n st gd ts nm df id Hinv Hready Hn Hid) as (_ & Hgt & _).
  unfold enable. run_step Hgt. rewrite (M_bind_run get _ s3 s3 s3) by done.
  change (GDT_TABLE s3) with (GDT_TABLE s). rewrite Hg.
  run_step (lift_run (of_option Undefined (Some (kgdt g))) s3 _ eq_refl). run_step (lift_run _ s3 _ (star_run g)).
  unfold on_regs, modify. f_equal. f_equal. unfold set_regs, s3, regs_of.
  cbn [set_regs cs_regs s2 s1 set_proc_table]. rewrite lookup_insert_eq, insert_insert_eq. reflexivity.
Qed.

(** Mapping the registers of the interrupt controller. *)
Lemma apic_map_run s p4 lv :
  kmem_inv (cs_kmem s) p4 lv → has_room (wc_shows (k_vc (cs_kmem s))) 2 →
  clear_path (k_mem (cs_kmem s)) p4 (page_path APIC_VBASE) = true →
  (3 ≤ size (fa_free (k_pmm (cs_kmem s))))%nat →
  ∃ k lv', apic_map s = Ok (tt, set_kmem k s) ∧ kmem_inv k p4 lv' ∧ has_room (wc_shows (k_vc k)) 2 ∧
    translate (k_mem k) p4 APIC_VBASE = Some (APIC_BASE, leaf_flags APIC_VBASE 0) ∧
    remaps 3 p4 [APIC_VBASE] (cs_kmem s) k.
Proof.
  intros Hinv Hroom Hcl Hsz. pose proof kernel_flags_const as (Hk0 & _).
  assert (good_page APIC_VBASE) as Hgp by done.
  assert (good_frame APIC_BASE) as Hgf by done.
  destruct (vmap_page (cs_kmem s) APIC_VBASE APIC_BASE 0 p4 lv) as (k & lv' & Hr & Hinv' & Htr & Hrm & Hsw); try done.
  { by right. }
  exists k, lv'. split_and!; try done; [|by eapply same_windows_room].
  assert (unwrap (page_from_start APIC_VBASE) = Ok APIC_VBASE) as E1 by (by rewrite page_from_start_spec).
  assert (unwrap (frame_from_start APIC_BASE) = Ok APIC_BASE) as E2 by (rewrite frame_from_start_spec; done).
  unfold apic_map. run_step (lift_run _ s _ E1). run_step (lift_run _ s _ E2). unfold on_memory.
  by run_step (zoom_run cs_kmem set_kmem _ s _ _ Hr).
Qed.
End ignite.

(** ** Theorems *)

Section core_claims.
Context {X : X86} {XO : X86Ok X} {P : Type} {FA : FrameAllocator P} {FAO : FrameAllocatorOk P}.
Context {V : Type} {WC : WindowCache V} {WCO : WindowCacheOk V} {G : GdtCrate} {GO : GdtCrateOk G}.
Implicit Types (s : Cores P V) (k : Kmem P V).

(** C23. [ignite] allocates the tables of the cores: it succeeds when four frames
    per page are free, and afterwards the stack table, the descriptor tables
    and the two kinds of error stacks are backed by different frames that were
    free before and are no longer.  But the table of task state segments has
    the address of the NMI stacks, which are allocated later: the frames
    allocated for it (the list [ts]) are behind none of its pages, which show
    frames of the NMI stacks, and every byte of the 104 of every core's segment
    is a byte of the NMI stack of some core: byte [b] of core [id]'s segment is
    one of core [(id * 104 + b) / 8192]'s stack. *)
Theorem ignite_correct s n p4 lv :
  kmem_inv (cs_kmem s) p4 lv → has_room (wc_shows (k_vc (cs_kmem s))) 2 → 1 ≤ n ≤ 256 →
  tables_clear (cs_kmem s) p4 n → (4 * table_pages n ≤ size (fa_free (k_pmm (cs_kmem s))))%nat →
  ∃ k lv' st gd ts nm df, ignite n s = Ok (tt, ignited k s) ∧ kmem_inv k p4 lv' ∧
    tables_ready k p4 n st gd ts nm df ∧
    Forall (λ f, f ∈ fa_free (k_pmm (cs_kmem s))) (st ++ gd ++ ts ++ nm ++ df) ∧
    (∀ i f, 0 ≤ i < pages_for (n * sizeof_TaskStateSegment) → f ∈ ts →
      ∃ f', translate (k_mem k) p4 (TSS_TABLE_PTR + i * PAGE_SIZE) = Some (f', leaf_flags (TSS_TABLE_PTR + i * PAGE_SIZE) WRITABLE) ∧
        f' ∈ nm ∧ f' ≠ f) ∧
    (∀ id b, 0 ≤ id < n → 0 ≤ b < sizeof_TaskStateSegment →
      let j := (id * sizeof_TaskStateSegment + b) / ERROR_STACK_SIZE in
      0 ≤ j < n ∧
      NMI_STACKS_VPTR + j * ERROR_STACK_SIZE ≤ gdt_tss id + b < NMI_STACKS_VPTR + (j + 1) * ERROR_STACK_SIZE).
Proof.
  intros Hinv Hroom Hn Hcl Hsz.
  destruct (ignite_run s n p4 lv Hinv Hroom Hn Hcl Hsz)
    as (k & lv' & st & gd & ts & nm & df & Hr & Hinv' & _ & Hready & _ & Hfresh).
  exists k, lv', st, gd, ts, nm, df. split_and!; try done.
  - intros i f Hi Hf. destruct Hready as [_ _ _ [Hnm Hlen] _ Hnd _].
    assert (pages_for (n * sizeof_TaskStateSegment) ≤ pages_for (n * ERROR_STACK_SIZE)) as Hle
      by (unfold pages_for, sizeof_TaskStateSegment, ERROR_STACK_SIZE, PAGE_SIZE; zlia).
    destruct (lookup_lt_is_Some_2 nm (Z.to_nat i)) as [f' Hf']; [lia|]. exists f'.
    pose proof (Hnm _ _ Hf') as Htr. rewrite Z2Nat.id in Htr by lia.
    apply list_elem_of_lookup_2 in Hf'. split_and!; try done.
    intros ->. apply NoDup_app in Hnd as (_ & _ & Hnd). apply NoDup_app in Hnd as (_ & _ & Hnd).
    apply NoDup_app in Hnd as (_ & Hdis & _). apply (Hdis f Hf). apply elem_of_app. by left.
  - intros id b Hid Hb. unfold gdt_tss, TSS_TABLE_PTR, NMI_STACKS_VPTR, sizeof_TaskStateSegment, ERROR_STACK_SIZE in *. cbv zeta. zlia.
Qed.

Lemma enable_run s p4 lv n st gd ts nm df id entry g :
  kmem_inv (cs_kmem s) p4 lv → tables_ready (cs_kmem s) p4 n st gd ts nm df → 1 ≤ n ≤ 256 → 0 ≤ id < n →
  GDT_TABLE s !! id = Some (kgdt g) →
  ∃ s', enable id entry s = Ok (tt, s') ∧ GDT_TABLE s' = GDT_TABLE s ∧
    r_cs (regs_of s' id) = r_cs (regs_of s id) ∧ r_data (regs_of s' id) = r_data (regs_of s id) ∧
    r_star (regs_of s' id) = Some STAR ∧ r_sce (regs_of s' id) = true.
Proof.
  intros Hinv Hready Hn Hid Hg. destruct (ready_touch s p4 lv n st gd ts nm df id Hinv Hready Hn Hid) as (_ & Ht & _).
  unfold enable. run_step Ht. rewrite (M_bind_run get _ s s s) by done. rewrite Hg.
  run_step (lift_run (of_option Undefined (Some (kgdt g))) s _ eq_refl). run_step (lift_run _ s _ (star_run g)).
  eexists. split; [reflexivity|]. match goal with |- GDT_TABLE ?t = _ ∧ _ => set (s' := t) end.
  assert (regs_of s' id = mkRegs (r_gdtr (regs_of s id)) (r_cs (regs_of s id)) (r_data (regs_of s id))
    (r_tr (regs_of s id)) (r_kernel_gs (regs_of s id)) (r_idt (regs_of s id)) (Some entry) (Some STAR) true) as ->
    by (unfold s', regs_of at 1; cbn; by rewrite lookup_insert_eq).
  done.
Qed.

(** Registering a core and enabling system calls makes the processor's
    segments those of the kernel's table: the core runs on its code and data
    selectors, [syscall] enters with the same two, and [sysret] returns with
    the user selectors of the table, 0x23 and 0x1B, which are the ones the
    interrupt return of the assembly and the start state of a task use. *)
Theorem enable_selectors s p4 lv n st gd ts nm df id kstack nmistack dfstack entry :
  kmem_inv (cs_kmem s) p4 lv → tables_ready (cs_kmem s) p4 n st gd ts nm df → 1 ≤ n ≤ 256 → 0 ≤ id < n →
  ∃ s1 s2 e star, register id kstack nmistack dfstack s = Ok (tt, s1) ∧ enable id entry s1 = Ok (tt, s2) ∧
    GDT_TABLE s2 !! id = Some e ∧ r_star (regs_of s2 id) = Some star ∧ r_sce (regs_of s2 id) = true ∧
    r_cs (regs_of s2 id) = Some (kcode_seg e) ∧ r_data (regs_of s2 id) = Some (kdata_seg e) ∧
    syscall_cs star = kcode_seg e ∧ syscall_ss star = kdata_seg e ∧
    sysret_cs star = ucode_seg e ∧ sysret_ss star = udata_seg e ∧
    ucode_seg e = 0x23 ∧ udata_seg e = 0x1B.
Proof.
  intros Hinv Hready Hn Hid.
  destruct (register_run s p4 lv n st gd ts nm df id kstack nmistack dfstack Hinv Hready Hn Hid) as [g Hr].
  set (s1 := core_registered id kstack nmistack dfstack g s) in *.
  assert (GDT_TABLE s1 !! id = Some (kgdt g)) as Hg by (cbn; apply lookup_insert_eq).
  destruct (enable_run s1 p4 lv n st gd ts nm df id entry g Hinv Hready Hn Hid Hg)
    as (s2 & Hr2 & E1 & E2 & E3 & E4 & E5).
  assert (r_cs (regs_of s1 id) = Some 0x08 ∧ r_data (regs_of s1 id) = Some 0x10) as [R1 R2]
    by (unfold regs_of; cbn; by rewrite lookup_insert_eq).
  exists s1, s2, (kgdt g), STAR. rewrite E1, E2, E3, E4, E5, R1, R2. split_and!; try done.
Qed.

(** C40. [stack] finds the top of the stack it runs on.  For the [i]-th stack
    below the end of memory, whatever the address of the local variable, the
    result is the first address above the stack; for the last one, whose top
    is the end of the address space, it is zero and the alignment that would
    overflow is not computed. *)
Theorem stack_correct i x_ptr :
  0 ≤ i < 2 ^ 32 → 2 ^ 64 - (i + 1) * kernel_stack_size < x_ptr < 2 ^ 64 - i * kernel_stack_size →
  stack x_ptr = Ok (wrap 64 (2 ^ 64 - i * kernel_stack_size)).
Proof. apply stack_run. Qed.

(** The tables are indexed by the number of the core but have one element
    per processor of the firmware's table: after [ignite] for [n] cores, the
    double-fault stack a core with a number from [n] on would use is not
    mapped, when nothing was mapped there before. *)
Theorem sparse_core_no_df_stack s n p4 lv id :
  kmem_inv (cs_kmem s) p4 lv → has_room (wc_shows (k_vc (cs_kmem s))) 2 → 1 ≤ n ≤ 256 →
  tables_clear (cs_kmem s) p4 n → (4 * table_pages n ≤ size (fa_free (k_pmm (cs_kmem s))))%nat →
  n ≤ id < 256 →
  ∃ k top, ignite n s = Ok (tt, ignited k s) ∧ df_stack id = Ok top ∧
    translate (k_mem k) p4 (page_base (top - 1)) = translate (k_mem (cs_kmem s)) p4 (page_base (top - 1)).
Proof.
  intros Hinv Hroom Hn Hcl Hsz Hid.
  destruct (ignite_run s n p4 lv Hinv Hroom Hn Hcl Hsz)
    as (k & lv' & st & gd & ts & nm & df & Hr & _ & _ & _ & (ps & Hrm & Hps) & _).
  destruct (error_stacks id ltac:(lia)) as [_ Hdf]. eexists k, _. split_and!; [done|exact Hdf|].
  assert (∃ j, 0 ≤ j < 512 ∧ pages_for (n * ERROR_STACK_SIZE) ≤ j ∧
    page_base (DF_STACKS_VPTR + ERROR_STACK_SIZE * (id + 1) - 1) = DF_STACKS_VPTR + j * PAGE_SIZE) as (j & Hj & Hge & ->).
  { exists (2 * id + 1). unfold page_base, pages_for, DF_STACKS_VPTR, KVMSPACE, TB, ERROR_STACK_SIZE, PAGE_SIZE. zlia. }
  assert (good_page (DF_STACKS_VPTR + j * PAGE_SIZE)) as [Hc Ha].
  { unfold good_page. rewrite canonical_iff, page_aligned_iff. unfold DF_STACKS_VPTR, KVMSPACE, TB, PAGE_SIZE. zlia. }
  apply (rm_other _ _ _ _ _ Hrm); try done. intros (sz & base & i & Hin & Hi & E)%Hps.
  destruct (decide (base = DF_STACKS_VPTR)) as [->|Hne].
  - assert (sz = ERROR_STACK_SIZE) as ->.
    { unfold table_specs in Hin. rewrite !elem_of_cons, elem_of_nil in Hin.
      destruct Hin as [E'|[E'|[E'|[E'|[E'|[]]]]]];
        first [by injection E'|exfalso; injection E' as _ E'; revert E'; by vm_compute]. }
    unfold PAGE_SIZE in *. lia.
  - apply (table_pages_apart 256 sz base ERROR_STACK_SIZE DF_STACKS_VPTR i j ltac:(lia) Hin); try done.
    + unfold table_specs. rewrite !elem_of_cons. tauto.
    + split; [lia|]. eapply Z.lt_le_trans; [apply Hi|]. destruct (table_specs_bound _ _ Hin) as (Hs & _ & _).
      unfold pages_for, PAGE_SIZE. apply Z.div_le_mono; [lia|]. nia.
Qed.
End core_claims.
