(* ===== verification/Startup.v ===== *)
(** * The start-up of all cores

    The cores start together.  The primary core prepares the memory and the
    tables and lets the others go; from there on they all run [wakeup], with
    three points where they wait for each other: the secondary cores wait for
    [IGNITION] ([wait]), then for [MAPPED] ([apic::init]) and for
    [LATE_IGNITION] ([latewait]), and every core waits for [CALIB_LOCK], which
    is held during the calibration ([pit_calib_sleep]).

    A step is what one core does between two such points; the steps of the
    cores interleave in any order.  [late_start] touches only the frame buffer
    (see the file Framebuffer).  The heap of the kernel is taken to have room
    for the table of processors, so that an insertion does not fault. *)

From S2P Require Import Prelude X86 FrameAlloc WindowCache VCache Mapper Mem Heap Boot Elf Tar Task Sched Apic Acpi Cores.

(** Where a core is. *)
Inductive Phase :=
  | Booting      (** the primary core, before [ignite] *)
  | Waiting      (** another core, in [wait] *)
  | Waking       (** at the beginning of [wakeup] *)
  | ApicEntry    (** at the beginning of [apic::init] *)
  | CalibWait    (** waiting for [CALIB_LOCK] *)
  | Calibrating  (** holding it *)
  | LateWait     (** before [late_start] or in [latewait] *)
  | Looping.     (** in [event_loop] *)

#[global] Instance Phase_eq_dec : EqDecision Phase.
Proof. solve_decision. Defined.

(** How far a phase is from the start. *)
Definition rank (ph : Phase) : nat :=
  match ph with
  | Booting | Waiting => 0 | Waking => 1 | ApicEntry => 2 | CalibWait => 3
  | Calibrating => 4 | LateWait => 5 | Looping => 6
  end.

(** What the loader, the firmware and the hardware decide: the numbers of the
    cores, the primary one, [numcores()], the address of the local variable of
    [stack] on each core, the answers of the calibration, the configured
    inputs, the entry point of system calls, and the registers as they are
    when [ignite] is called. *)
Record BootEnv := mkBootEnv {
  be_cores : list Z;
  be_bsp : Z;
  be_numcores : Z;
  be_local : Z → Z;
  be_calib : Z → Z * Z;
  be_config : list LocalApicNmiConfig;
  be_entry : Z;
  be_regs : gmap Z Regs;
}.

Record Startup (P V : Type) `{GdtCrate} := mkStartup {
  su_cores : Cores P V;
  su_phase : gmap Z Phase;
  IGNITION : bool;
  MAPPED : bool;
  LATE_IGNITION : bool;
  CALIB_LOCK : option Z;
}.
Arguments mkStartup {P V _}.
Arguments su_cores {P V _}.
Arguments su_phase {P V _}.
Arguments IGNITION {P V _}.
Arguments MAPPED {P V _}.
Arguments LATE_IGNITION {P V _}.
Arguments CALIB_LOCK {P V _}.

Section startup.
Context {X : X86} {P : Type} {FA : FrameAllocator P} {V : Type} {WC : WindowCache V} {G : GdtCrate}.
Context (env : BootEnv).
Implicit Types (u : Startup P V) (s : Cores P V).

(** [is_primary()] on core [c]. *)
Definition is_primary (c : Z) : bool := c =? be_bsp env.

(** Core [c] goes to phase [ph] with the statics [s]. *)
Definition goto (c : Z) (ph : Phase) s u : Startup P V :=
  mkStartup s (<[c := ph]> (su_phase u)) (IGNITION u) (MAPPED u) (LATE_IGNITION u) (CALIB_LOCK u).
Definition set_ignition u : Startup P V :=
  mkStartup (su_cores u) (su_phase u) true (MAPPED u) (LATE_IGNITION u) (CALIB_LOCK u).
Definition set_mapped u : Startup P V :=
  mkStartup (su_cores u) (su_phase u) (IGNITION u) true (LATE_IGNITION u) (CALIB_LOCK u).
Definition set_late u : Startup P V :=
  mkStartup (su_cores u) (su_phase u) (IGNITION u) (MAPPED u) true (CALIB_LOCK u).
Definition set_lock (o : option Z) u : Startup P V :=
  mkStartup (su_cores u) (su_phase u) (IGNITION u) (MAPPED u) (LATE_IGNITION u) o.

Inductive startup_step u : Startup P V → Prop :=
  | step_ignite c s' : su_phase u !! c = Some Booting →
      ignite (be_numcores env) (su_cores u) = Ok (tt, s') →
      startup_step u (set_ignition (goto c Waking s' u))
  | step_wait c : su_phase u !! c = Some Waiting → IGNITION u = true →
      startup_step u (goto c Waking (su_cores u) u)
  | step_register c s' : su_phase u !! c = Some Waking →
      wakeup_register c (be_local env c) (su_cores u) = Ok (tt, s') →
      startup_step u (goto c ApicEntry s' u)
  | step_apic_map c s' : su_phase u !! c = Some ApicEntry → is_primary c = true →
      apic_map (su_cores u) = Ok (tt, s') →
      startup_step u (set_mapped (goto c CalibWait s' u))
  | step_apic_wait c s' : su_phase u !! c = Some ApicEntry → is_primary c = false → MAPPED u = true →
      on_memory (flush FlushAll) (su_cores u) = Ok (tt, s') →
      startup_step u (goto c CalibWait s' u)
  | step_lock c : su_phase u !! c = Some CalibWait → CALIB_LOCK u = None →
      startup_step u (set_lock (Some c) (goto c Calibrating (su_cores u) u))
  | step_enable c s' : su_phase u !! c = Some Calibrating →
      wakeup_enable c (be_calib env c) (be_config env) (be_entry env) (su_cores u) = Ok (tt, s') →
      startup_step u (set_lock None (goto c LateWait s' u))
  | step_late c : su_phase u !! c = Some LateWait → is_primary c = true →
      startup_step u (set_late (goto c Looping (su_cores u) u))
  | step_latewait c : su_phase u !! c = Some LateWait → is_primary c = false → LATE_IGNITION u = true →
      startup_step u (goto c Looping (su_cores u) u).

(** The cores before the start-up, with the memory [k] and the registers [r]. *)
Definition cores_off (k : Kmem P V) (r : gmap Z Regs) : Cores P V := mkCores k ∅ ∅ ∅ None None r ∅.
Definition start_phases : gmap Z Phase :=
  list_to_map ((λ c, (c, if c =? be_bsp env then Booting else Waiting)) <$> be_cores env).
Definition startup_init (k : Kmem P V) : Startup P V :=
  mkStartup (cores_off k (be_regs env)) start_phases false false false None.
End startup.

Section startup_proofs.
Context {X : X86} {XO : X86Ok X} {P : Type} {FA : FrameAllocator P} {FAO : FrameAllocatorOk P}.
Context {V : Type} {WC : WindowCache V} {WCO : WindowCacheOk V} {G : GdtCrate} {GO : GdtCrateOk G}.
Context (env : BootEnv).
Implicit Types (u : Startup P V) (s : Cores P V) (k : Kmem P V).

(** The number of the stack a local variable is in, counted from the end of
    memory, and the top of that stack. *)
Definition stack_number (x : Z) : Z := (2 ^ 64 - 1 - x) / kernel_stack_size.
Definition stack_top (x : Z) : Z := wrap 64 (2 ^ 64 - stack_number x * kernel_stack_size).

(** A machine that can start: at most one table element per core number, the
    local variables inside stacks (not at their very lowest byte), usable
    calibrations and configurations, and memory for the tables. *)
Record bootable (k : Kmem P V) (p4 : Z) (lv : Z → nat) : Prop := {
  bo_bsp : be_bsp env ∈ be_cores env;
  bo_ids : Forall (λ c, 0 ≤ c < be_numcores env) (be_cores env);
  bo_n : 1 ≤ be_numcores env ≤ 256;
  bo_local c : c ∈ be_cores env → 2 ^ 64 - 2 ^ 40 ≤ be_local env c < 2 ^ 64 ∧
    be_local env c mod kernel_stack_size ≠ 0;
  bo_calib c : c ∈ be_cores env → calib_ok (be_calib env c);
  bo_config c : c ∈ be_cores env → Forall (config_ok c) (be_config env);
  bo_inv : kmem_inv k p4 lv;
  bo_room : has_room (wc_shows (k_vc k)) 2;
  bo_tables : tables_clear k p4 (be_numcores env);
  bo_apic : clear_path (k_mem k) p4 (page_path APIC_VBASE) = true;
  bo_frames : (4 * table_pages (be_numcores env) + 3 ≤ size (fa_free (k_pmm k)))%nat;
}.

(** What core [d] owns. *)
Record view := mkView {
  v_stack : option Z;
  v_gdt : option KGdt;
  v_tss : option Tss;
  v_regs : Regs;
  v_proc : option Proc;
}.
Definition view_of s (d : Z) : view :=
  mkView (STACK_TABLE s !! d) (GDT_TABLE s !! d) (TSS_TABLE s !! d) (regs_of s d) (PROC_TABLE s ≫= btree_get d).

(** Core [d] is registered: its stack, its descriptor table with the five
    selectors, its task state segment with the three stacks, the segment
    registers, and its entry in the table of processors, with no task. *)
Record is_registered (d : Z) (v : view) : Prop := {
  rg_stack : v_stack v = Some (stack_top (be_local env d));
  rg_gdt : ∃ g, v_gdt v = Some (kgdt g);
  rg_tss : v_tss v = Some (mkTss (stack_top (be_local env d))
    (NMI_STACKS_VPTR + ERROR_STACK_SIZE * (d + 1)) (DF_STACKS_VPTR + ERROR_STACK_SIZE * (d + 1)));
  rg_gdtr : r_gdtr (v_regs v) = Some (GdtAt (gdt_entry d));
  rg_segments : r_cs (v_regs v) = Some 0x08 ∧ r_data (v_regs v) = Some 0x10 ∧ r_tr (v_regs v) = Some 0x28;
  rg_proc : ∃ q, v_proc v = Some (mkProc (mkProcInfo 0 None q None) 0 (stack_top (be_local env d)));
}.

(** Core [d] can take interrupts and system calls. *)
Record is_enabled (d : Z) (v : view) : Prop := {
  en_idt : r_idt (v_regs v) = true;
  en_syscall : r_lstar (v_regs v) = Some (be_entry env) ∧ r_star (v_regs v) = Some STAR ∧ r_sce (v_regs v) = true;
  en_proc : v_proc v = Some (mkProc
    (mkProcInfo 0 None ((fst (be_calib env d) - snd (be_calib env d)) * 10000) None) 0 (stack_top (be_local env d)));
}.

(** What holds of core [d] in phase [ph]. *)
Record core_inv u (d : Z) (ph : Phase) : Prop := {
  ci_bsp : ph = Booting → d = be_bsp env;
  ci_wait : ph = Waiting → d ≠ be_bsp env;
  ci_ignition : (0 < rank ph)%nat → IGNITION u = true;
  ci_registered : (2 ≤ rank ph)%nat → is_registered d (view_of (su_cores u) d);
  ci_mapped : (3 ≤ rank ph)%nat → MAPPED u = true;
  ci_lock : ph = Calibrating ↔ CALIB_LOCK u = Some d;
  ci_enabled : (5 ≤ rank ph)%nat → is_enabled d (view_of (su_cores u) d);
  ci_late : ph = Looping → LATE_IGNITION u = true;
}.

(** What the flags say of the primary core. *)
Record flags_inv u (ph : Phase) : Prop := {
  fi_ignition : IGNITION u = true → (0 < rank ph)%nat;
  fi_mapped : MAPPED u = true → (3 ≤ rank ph)%nat;
  fi_late : LATE_IGNITION u = true → ph = Looping;
}.

(** The memory once the tables are allocated. *)
Record memory_ready (k0 : Kmem P V) (mapped : bool) k (p4 : Z) : Prop := {
  mr_tables : ∃ lv st gd ts nm df, kmem_inv k p4 lv ∧ tables_ready k p4 (be_numcores env) st gd ts nm df;
  mr_room : has_room (wc_shows (k_vc k)) 2;
  mr_apic : if mapped then translate (k_mem k) p4 APIC_VBASE = Some (APIC_BASE, leaf_flags APIC_VBASE 0)
            else clear_path (k_mem k) p4 (page_path APIC_VBASE) = true ∧ (3 ≤ size (fa_free (k_pmm k)))%nat;
  (** Nothing else changed since the start, where the memory was [k0]. *)
  mr_frame : ∃ ps, remaps (4 * table_pages (be_numcores env) + if mapped then 3 else 0) p4 ps k0 k ∧
    ∀ q, q ∈ ps → ktable_page (be_numcores env) q ∨ q = APIC_VBASE;
}.

Record startup_inv (k0 : Kmem P V) (p4 : Z) u : Prop := {
  si_dom d : is_Some (su_phase u !! d) ↔ d ∈ be_cores env;
  si_core d ph : su_phase u !! d = Some ph → core_inv u d ph;
  si_flags ph : su_phase u !! be_bsp env = Some ph → flags_inv u ph;
  si_lock d : CALIB_LOCK u = Some d → su_phase u !! d = Some Calibrating;
  si_before : IGNITION u = false → cs_kmem (su_cores u) = k0 ∧ PROC_TABLE (su_cores u) = None ∧ TASKS (su_cores u) = None;
  si_after : IGNITION u = true → memory_ready k0 (MAPPED u) (cs_kmem (su_cores u)) p4 ∧
    is_Some (PROC_TABLE (su_cores u)) ∧ TASKS (su_cores u) = Some [];
}.

(** ** Preservation *)

Lemma local_in_stack k p4 lv c :
  bootable k p4 lv → c ∈ be_cores env →
  let i := stack_number (be_local env c) in
  0 ≤ i < 2 ^ 32 ∧
  2 ^ 64 - (i + 1) * kernel_stack_size < be_local env c < 2 ^ 64 - i * kernel_stack_size.
Proof.
  intros Hb Hc. destruct (bo_local _ _ _ Hb c Hc) as [Hx Hm].
  unfold stack_number, kernel_stack_size in *. cbv zeta. zlia.
Qed.

Lemma core_id k p4 lv c : bootable k p4 lv → c ∈ be_cores env → 0 ≤ c < be_numcores env.
Proof. intros Hb Hc. pose proof (bo_ids _ _ _ Hb) as H. rewrite Forall_forall in H. by apply H. Qed.

Lemma ktable_at_above k k' p4 n sz base fs :
  1 ≤ n ≤ 256 → (sz, base) ∈ table_specs →
  (∀ q, good_page q → KVMSPACE + 4 * TB ≤ q → translate (k_mem k') p4 q = translate (k_mem k) p4 q) →
  ktable_at k p4 base fs ∧ length fs = Z.to_nat (pages_for (n * sz)) →
  ktable_at k' p4 base fs ∧ length fs = Z.to_nat (pages_for (n * sz)).
Proof.
  intros Hn Hin Hsame [Htab Hlen]. split; [|done]. eapply ktable_at_other; [done..|]. intros i Hi.
  destruct (table_specs_bound sz base Hin) as (_ & _ & Hb & _). apply Hsame.
  - by eapply spec_page_good.
  - unfold PAGE_SIZE. lia.
Qed.

(** The tables stay when the pages above 4T translate as before. *)
Lemma ready_above k k' p4 n st gd ts nm df :
  1 ≤ n ≤ 256 →
  (∀ q, good_page q → KVMSPACE + 4 * TB ≤ q → translate (k_mem k') p4 q = translate (k_mem k) p4 q) →
  fa_free (k_pmm k') ⊆ fa_free (k_pmm k) →
  tables_ready k p4 n st gd ts nm df → tables_ready k' p4 n st gd ts nm df.
Proof.
  intros Hn Hsame Hfree [H1 H2 H3 H4 H5 H6 H7].
  split; try done; try (eapply (ktable_at_above k); try done; unfold table_specs; rewrite !elem_of_cons; tauto).
  eapply Forall_impl; [exact H7|]. simpl. auto.
Qed.

Lemma core_inv_view u u' d ph :
  core_inv u d ph → view_of (su_cores u') d = view_of (su_cores u) d →
  (IGNITION u = true → IGNITION u' = true) → (MAPPED u = true → MAPPED u' = true) →
  (LATE_IGNITION u = true → LATE_IGNITION u' = true) →
  (CALIB_LOCK u' = Some d ↔ CALIB_LOCK u = Some d) → core_inv u' d ph.
Proof.
  intros [H1 H2 H3 H4 H5 H6 H7 H8] Hv Hi Hm Hl Hk. split; rewrite ?Hv; auto. by rewrite Hk.
Qed.

(** A step of core [c] to phase [ph] that leaves what the others own alone. *)
Lemma step_inv k0 p4 u u' c ph0 ph :
  startup_inv k0 p4 u → su_phase u !! c = Some ph0 → su_phase u' = <[c := ph]> (su_phase u) →
  (∀ d, d ≠ c → view_of (su_cores u') d = view_of (su_cores u) d) →
  (IGNITION u = true → IGNITION u' = true) → (MAPPED u = true → MAPPED u' = true) →
  (LATE_IGNITION u = true → LATE_IGNITION u' = true) →
  (∀ d, d ≠ c → CALIB_LOCK u' = Some d ↔ CALIB_LOCK u = Some d) →
  core_inv u' c ph →
  (if decide (c = be_bsp env) then flags_inv u' ph else
    IGNITION u' = IGNITION u ∧ MAPPED u' = MAPPED u ∧ LATE_IGNITION u' = LATE_IGNITION u) →
  (IGNITION u' = false → cs_kmem (su_cores u') = k0 ∧ PROC_TABLE (su_cores u') = None ∧ TASKS (su_cores u') = None) →
  (IGNITION u' = true → memory_ready k0 (MAPPED u') (cs_kmem (su_cores u')) p4 ∧
    is_Some (PROC_TABLE (su_cores u')) ∧ TASKS (su_cores u') = Some []) →
  startup_inv k0 p4 u'.
Proof.
  intros Hinv Hc Hph Hview Hi Hm Hl Hk Hcore Hflags Hbefore Hafter. split; try done.
  - intros d. rewrite Hph, <-(si_dom _ _ _ Hinv d). destruct (decide (d = c)) as [->|Hd].
    + rewrite lookup_insert_eq, Hc. split; eauto.
    + by rewrite lookup_insert_ne by done.
  - intros d ph'. rewrite Hph. destruct (decide (d = c)) as [->|Hd].
    + rewrite lookup_insert_eq. by intros [= <-].
    + rewrite lookup_insert_ne by done. intros Hd'. apply core_inv_view with u; auto. by eapply si_core.
  - intros ph'. rewrite Hph. destruct (decide (c = be_bsp env)) as [->|Hd].
    + rewrite lookup_insert_eq. by intros [= <-].
    + rewrite lookup_insert_ne by done. intros Hb%(si_flags _ _ _ Hinv).
      destruct Hflags as (E1 & E2 & E3). destruct Hb. split; rewrite ?E1, ?E2, ?E3; done.
  - intros d Hd. rewrite Hph. destruct (decide (d = c)) as [->|Hne].
    + rewrite lookup_insert_eq. f_equal. by apply (ci_lock _ _ _ Hcore).
    + rewrite lookup_insert_ne by done. by apply (si_lock _ _ _ Hinv), Hk.
Qed.

Lemma start_phase d :
  start_phases env !! d =
    if decide (d ∈ be_cores env) then Some (if d =? be_bsp env then Booting else Waiting) else None.
Proof.
  unfold start_phases. induction (be_cores env) as [|c l IH]; [done|]. cbn [fmap list_fmap list_to_map foldr].
  destruct (decide (d = c)) as [->|Hd].
  - rewrite lookup_insert_eq, decide_True by (by left). done.
  - rewrite lookup_insert_ne by done. etransitivity; [exact IH|]. apply decide_ext. set_solver.
Qed.

Context (k0 : Kmem P V) (p4 : Z) (lv0 : Z → nat) (Hboot : bootable k0 p4 lv0).

Lemma phase_core u c ph : startup_inv k0 p4 u → su_phase u !! c = Some ph → c ∈ be_cores env.
Proof. intros Hinv Hc. apply (si_dom _ _ _ Hinv). by rewrite Hc. Qed.

Lemma ignition_of u c ph :
  startup_inv k0 p4 u → su_phase u !! c = Some ph → (0 < rank ph)%nat → IGNITION u = true.
Proof. intros Hinv Hc Hr. by apply (ci_ignition _ _ _ (si_core _ _ _ Hinv _ _ Hc)). Qed.

(** The lock is not held by a core that is not calibrating. *)
Lemma not_holder u c ph :
  startup_inv k0 p4 u → su_phase u !! c = Some ph → ph ≠ Calibrating → CALIB_LOCK u ≠ Some c.
Proof. intros Hinv Hc Hne Hl%(si_lock _ _ _ Hinv). congruence. Qed.

Lemma ignite_inv u c : startup_inv k0 p4 u → su_phase u !! c = Some Booting →
  ∃ s', ignite (be_numcores env) (su_cores u) = Ok (tt, s') ∧
    startup_inv k0 p4 (set_ignition (goto c Waking s' u)).
Proof.
  intros Hinv Hc. pose proof (si_core _ _ _ Hinv _ _ Hc) as Hci. pose proof (ci_bsp _ _ _ Hci eq_refl) as Hbsp.
  pose proof Hc as Hc'. rewrite Hbsp in Hc'. pose proof (si_flags _ _ _ Hinv _ Hc') as Hfl.
  assert (IGNITION u = false) as Hoff.
  { destruct (IGNITION u) eqn:E; [|done]. apply (fi_ignition _ _ Hfl) in E. simpl in E. lia. }
  assert (MAPPED u = false) as Hmoff.
  { destruct (MAPPED u) eqn:E; [|done]. apply (fi_mapped _ _ Hfl) in E. simpl in E. lia. }
  assert (LATE_IGNITION u = false) as Hloff.
  { destruct (LATE_IGNITION u) eqn:E; [|done]. by apply (fi_late _ _ Hfl) in E. }
  destruct (si_before _ _ _ Hinv Hoff) as (Hk & Hp & Ht).
  destruct (ignite_run (su_cores u) (be_numcores env) p4 lv0)
    as (k & lv & st & gd & ts & nm & df & Hr & Hinv' & Hroom & Hready & (ps & Hrm & Hps) & _);
    rewrite ?Hk; try apply Hboot; [pose proof (bo_frames _ _ _ Hboot); lia|].
  exists (ignited k (su_cores u)). split; [done|].
  apply (step_inv k0 p4 u _ c Booting Waking); try done.
  - intros d _. unfold view_of, ignited. cbn. by rewrite Hp.
  - split; cbn; try done; try lia. split; [done|]. intros Hl. by destruct (not_holder u c Booting Hinv Hc ltac:(done) Hl).
  - destruct (decide (c = be_bsp env)); [|done]. split; cbn; try lia; congruence.
  - intros _. cbn. rewrite Hp, Ht. split_and!; [|by eexists|done]. rewrite Hmoff. rewrite Hk in Hrm.
    split; [by exists lv, st, gd, ts, nm, df|done| |exists ps; rewrite Nat.add_0_r; split; [done|by left; apply Hps]].
    split; [|pose proof (rm_size _ _ _ _ _ Hrm); pose proof (bo_frames _ _ _ Hboot); lia].
    apply (rm_clear _ _ _ _ _ Hrm); [apply page_indices_lt|done|apply Hboot].
Qed.

Lemma wait_inv u c : startup_inv k0 p4 u → su_phase u !! c = Some Waiting → IGNITION u = true →
  startup_inv k0 p4 (goto c Waking (su_cores u) u).
Proof.
  intros Hinv Hc Hon. pose proof (si_core _ _ _ Hinv _ _ Hc) as Hci.
  apply (step_inv k0 p4 u _ c Waiting Waking); try done.
  - split; cbn; try done; try lia. split; [done|]. intros Hl. by destruct (not_holder u c Waiting Hinv Hc ltac:(done) Hl).
  - destruct (decide (c = be_bsp env)) as [->|]; [|done]. by destruct (ci_wait _ _ _ Hci eq_refl).
  - cbn. congruence.
  - cbn. apply Hinv.
Qed.

(** What the two halves of [wakeup] do in a state of the start-up. *)
Lemma register_runs u c : startup_inv k0 p4 u → su_phase u !! c = Some Waking →
  ∃ l g place, PROC_TABLE (su_cores u) = Some l ∧
    wakeup_register c (be_local env c) (su_cores u) =
      Ok (tt, woken c (stack_top (be_local env c)) g l place (su_cores u)) ∧
    btree_place c (btree_insert c (new_proc (stack_top (be_local env c))) l) = Some place.
Proof.
  intros Hinv Hc. pose proof (phase_core _ _ _ Hinv Hc) as Hin.
  pose proof (ignition_of _ _ _ Hinv Hc ltac:(simpl; lia)) as Hon.
  destruct (si_after _ _ _ Hinv Hon) as (Hmem & [l Hl] & Ht).
  destruct (mr_tables _ _ _ _ Hmem) as (lv & st & gd & ts & nm & df & Hk & Hready).
  destruct (local_in_stack _ _ _ _ Hboot Hin) as [Hi Hx].
  destruct (wakeup_register_run (su_cores u) p4 lv _ st gd ts nm df c _ _ l Hk Hready (bo_n _ _ _ Hboot)
    (core_id _ _ _ _ Hboot Hin) Hi Hx Hl) as (g & place & Hr & Hplace). by exists l, g, place.
Qed.

Lemma enable_runs u c : startup_inv k0 p4 u → su_phase u !! c = Some Calibrating →
  ∃ l a q, PROC_TABLE (su_cores u) = Some l ∧
    btree_get c l = Some (mkProc (mkProcInfo 0 None q None) 0 (stack_top (be_local env c))) ∧
    wakeup_enable c (be_calib env c) (be_config env) (be_entry env) (su_cores u) =
      Ok (tt, enabled c ((fst (be_calib env c) - snd (be_calib env c)) * 10000) (be_entry env) a l (su_cores u)).
Proof.
  intros Hinv Hc. pose proof (phase_core _ _ _ Hinv Hc) as Hin. pose proof (si_core _ _ _ Hinv _ _ Hc) as Hci.
  pose proof (ignition_of _ _ _ Hinv Hc ltac:(simpl; lia)) as Hon.
  destruct (si_after _ _ _ Hinv Hon) as (Hmem & [l Hl] & Ht).
  destruct (mr_tables _ _ _ _ Hmem) as (lv & st & gd & ts & nm & df & Hk & Hready).
  destruct (ci_registered _ _ _ Hci ltac:(simpl; lia)) as [_ (g & R2) _ _ _ (q & R6)].
  cbn in R2, R6. rewrite Hl in R6. cbn in R6.
  destruct (wakeup_enable_run (su_cores u) p4 lv _ st gd ts nm df c g (be_calib env c) (be_config env) (be_entry env)
    l _ Hk Hready (bo_n _ _ _ Hboot) (core_id _ _ _ _ Hboot Hin) R2 Hl R6 (bo_calib _ _ _ Hboot c Hin)
    (bo_config _ _ _ Hboot c Hin)) as [a Hr]. by exists l, a, q.
Qed.

Lemma register_inv u c : startup_inv k0 p4 u → su_phase u !! c = Some Waking →
  ∃ s', wakeup_register c (be_local env c) (su_cores u) = Ok (tt, s') ∧
    startup_inv k0 p4 (goto c ApicEntry s' u).
Proof.
  intros Hinv Hc. pose proof (ignition_of _ _ _ Hinv Hc ltac:(simpl; lia)) as Hon.
  destruct (register_runs u c Hinv Hc) as (l & g & place & Hl & Hr & Hplace).
  destruct (si_after _ _ _ Hinv Hon) as (Hmem & _ & Ht).
  eexists. split; [exact Hr|].
  apply (step_inv k0 p4 u _ c Waking ApicEntry); try done.
  - intros d Hd. unfold view_of, woken, regs_of. cbn. rewrite !lookup_insert_ne by done. f_equal.
    rewrite Hl. cbn. rewrite btree_get_insert. by destruct (Z.eqb_spec d c).
  - split; cbn; try done; try lia.
    + intros _. unfold view_of, woken, regs_of. cbn. rewrite !lookup_insert_eq, btree_get_insert, Z.eqb_refl.
      split; cbn; try done; by eexists.
    + split; [done|]. intros Hlk. by destruct (not_holder u c Waking Hinv Hc ltac:(done) Hlk).
  - destruct (decide (c = be_bsp env)) as [->|]; [|done]. pose proof (si_flags _ _ _ Hinv _ Hc) as [F1 F2 F3].
    split; cbn; [lia|intros H%F2; simpl in H; lia|by intros H%F3].
  - cbn. congruence.
Qed.

Lemma apic_map_inv u c : startup_inv k0 p4 u → su_phase u !! c = Some ApicEntry → is_primary env c = true →
  ∃ s', apic_map (su_cores u) = Ok (tt, s') ∧ startup_inv k0 p4 (set_mapped (goto c CalibWait s' u)).
Proof.
  intros Hinv Hc Hpr. apply Z.eqb_eq in Hpr as ->. pose proof (ignition_of _ _ _ Hinv Hc ltac:(simpl; lia)) as Hon.
  pose proof (si_flags _ _ _ Hinv _ Hc) as [F1 F2 F3].
  assert (MAPPED u = false) as Hoff by (destruct (MAPPED u); [|done]; specialize (F2 eq_refl); simpl in F2; lia).
  destruct (si_after _ _ _ Hinv Hon) as ([Htabs Hroom Hapic (ps & Hfr & Hps)] & Hl & Ht). rewrite Hoff in Hapic.
  destruct Hapic as [Hcl Hsz]. destruct Htabs as (lv & st & gd & ts & nm & df & Hk & Hready).
  destruct (apic_map_run (su_cores u) p4 lv Hk Hroom Hcl Hsz) as (k & lv' & Hr & Hk' & Hroom' & Htr & Hrm).
  eexists. split; [exact Hr|]. pose proof (si_core _ _ _ Hinv _ _ Hc) as Hci.
  apply (step_inv k0 p4 u _ (be_bsp env) ApicEntry CalibWait); try done.
  - split; cbn; try done; try lia.
    + intros _. apply (ci_registered _ _ _ Hci). simpl. lia.
    + split; [done|]. intros Hlk. by destruct (not_holder u _ ApicEntry Hinv Hc ltac:(done) Hlk).
  - rewrite decide_True by done. split; cbn; [lia|lia|by intros H%F3].
  - cbn. congruence.
  - intros _. cbn. split_and!; try done. split; [|done|done|].
    2: { rewrite Hoff, Nat.add_0_r in Hfr. exists (ps ++ [APIC_VBASE]). split; [by eapply remaps_trans|].
      intros q [Hq|Hq]%elem_of_app; [by apply Hps|right; by apply list_elem_of_singleton]. }
    exists lv', st, gd, ts, nm, df. split; [done|].
    eapply (ready_above (cs_kmem (su_cores u))); [apply Hboot| |apply (rm_free _ _ _ _ _ Hrm)|done].
    intros q [Hq Ha] Hab. apply (rm_other _ _ _ _ _ Hrm); try done. rewrite list_elem_of_singleton.
    intros ->. revert Hab. by vm_compute.
Qed.

Lemma kmem_flush k lv o : kmem_inv k p4 lv →
  kmem_inv (mkKmem (k_pmm k) (k_vc k) (k_mem k) (k_p4 k) (o :: k_tlb k)) p4 lv.
Proof. by intros []. Qed.

Lemma apic_wait_inv u c : startup_inv k0 p4 u → su_phase u !! c = Some ApicEntry → is_primary env c = false →
  MAPPED u = true →
  ∃ s', on_memory (flush FlushAll) (su_cores u) = Ok (tt, s') ∧ startup_inv k0 p4 (goto c CalibWait s' u).
Proof.
  intros Hinv Hc Hpr Hmp. apply Z.eqb_neq in Hpr. pose proof (ignition_of _ _ _ Hinv Hc ltac:(simpl; lia)) as Hon.
  destruct (si_after _ _ _ Hinv Hon) as ([Htabs Hroom Hapic (ps & Hfr & Hps)] & Hl & Ht).
  destruct Htabs as (lv & st & gd & ts & nm & df & Hk & Hready). pose proof (si_core _ _ _ Hinv _ _ Hc) as Hci.
  eexists. split; [reflexivity|].
  apply (step_inv k0 p4 u _ c ApicEntry CalibWait); try done.
  - split; cbn; try done; try lia.
    + intros _. apply (ci_registered _ _ _ Hci). simpl. lia.
    + split; [done|]. intros Hlk. by destruct (not_holder u _ ApicEntry Hinv Hc ltac:(done) Hlk).
  - by rewrite decide_False.
  - cbn. congruence.
  - intros _. cbn. split_and!; try done. split; [|done|done|exists ps; split; [|done]; by destruct Hfr].
    exists lv, st, gd, ts, nm, df. split; [by apply kmem_flush|]. by eapply (ready_above (cs_kmem (su_cores u))); [apply Hboot|..].
Qed.

Lemma lock_inv u c : startup_inv k0 p4 u → su_phase u !! c = Some CalibWait → CALIB_LOCK u = None →
  startup_inv k0 p4 (set_lock (Some c) (goto c Calibrating (su_cores u) u)).
Proof.
  intros Hinv Hc Hfree. pose proof (si_core _ _ _ Hinv _ _ Hc) as Hci.
  pose proof (ignition_of _ _ _ Hinv Hc ltac:(simpl; lia)) as Hon.
  apply (step_inv k0 p4 u _ c CalibWait Calibrating); try done.
  - intros d Hd. cbn. rewrite Hfree. split; congruence.
  - split; cbn; try done; try lia.
    + intros _. apply (ci_registered _ _ _ Hci). simpl. lia.
    + intros _. apply (ci_mapped _ _ _ Hci). simpl. lia.
  - destruct (decide (c = be_bsp env)) as [->|]; [|done]. pose proof (si_flags _ _ _ Hinv _ Hc) as [F1 F2 F3].
    split; cbn; [lia|lia|by intros H%F3].
  - cbn. congruence.
  - cbn. apply Hinv.
Qed.

Lemma enable_inv u c : startup_inv k0 p4 u → su_phase u !! c = Some Calibrating →
  ∃ s', wakeup_enable c (be_calib env c) (be_config env) (be_entry env) (su_cores u) = Ok (tt, s') ∧
    startup_inv k0 p4 (set_lock None (goto c LateWait s' u)).
Proof.
  intros Hinv Hc. pose proof (si_core _ _ _ Hinv _ _ Hc) as Hci.
  pose proof (ignition_of _ _ _ Hinv Hc ltac:(simpl; lia)) as Hon.
  destruct (si_after _ _ _ Hinv Hon) as (Hmem & _ & Ht).
  destruct (enable_runs u c Hinv Hc) as (l & a & q & Hl & R6 & Hr).
  destruct (ci_registered _ _ _ Hci ltac:(simpl; lia)) as [R1 R2 R3 R4 R5 _]. unfold view_of in *. cbn in R1, R2, R3, R4, R5.
  eexists. split; [exact Hr|]. pose proof (proj1 (ci_lock _ _ _ Hci) eq_refl) as Hlk.
  apply (step_inv k0 p4 u _ c Calibrating LateWait); try done.
  - intros d Hd. unfold view_of, enabled, regs_of. cbn. rewrite !lookup_insert_ne by done. f_equal.
    rewrite Hl. cbn. rewrite btree_get_alter. by destruct (Z.eqb_spec d c).
  - intros d Hd. cbn. rewrite Hlk. split; congruence.
  - assert (view_of (enabled c ((fst (be_calib env c) - snd (be_calib env c)) * 10000) (be_entry env) a l (su_cores u)) c =
      mkView (STACK_TABLE (su_cores u) !! c) (GDT_TABLE (su_cores u) !! c) (TSS_TABLE (su_cores u) !! c)
        (let r := regs_of (su_cores u) c in mkRegs (r_gdtr r) (r_cs r) (r_data r) (r_tr r) (r_kernel_gs r) true
          (Some (be_entry env)) (Some STAR) true)
        (Some (mkProc (mkProcInfo 0 None ((fst (be_calib env c) - snd (be_calib env c)) * 10000) None) 0
          (stack_top (be_local env c))))) as Hv.
    { unfold view_of, enabled. cbn. rewrite btree_get_alter, Z.eqb_refl, R6. unfold regs_of at 1. cbn.
      by rewrite lookup_insert_eq. }
    split; cbn [set_lock goto su_cores rank]; try done; try (rewrite Hv).
    + intros _. split; cbn; try done; by eexists.
    + intros _. apply (ci_mapped _ _ _ Hci). simpl. lia.
    + intros _. by split.
  - destruct (decide (c = be_bsp env)) as [->|]; [|done]. pose proof (si_flags _ _ _ Hinv _ Hc) as [F1 F2 F3].
    split; cbn; [lia|lia|by intros H%F3].
  - cbn. congruence.
Qed.

Lemma late_core u u' c : startup_inv k0 p4 u → su_phase u !! c = Some LateWait → su_cores u' = su_cores u →
  IGNITION u' = IGNITION u → MAPPED u' = MAPPED u → CALIB_LOCK u' = CALIB_LOCK u → LATE_IGNITION u' = true →
  core_inv u' c Looping.
Proof.
  intros Hinv Hc Es Ei Em Ek El. pose proof (si_core _ _ _ Hinv _ _ Hc) as [C1 C2 C3 C4 C5 C6 C7 C8].
  cbn [rank] in *. split; cbn [rank]; rewrite ?Es, ?Ei, ?Em, ?Ek; intros; auto with lia; try done; try (apply C3 || apply C4 || apply C5 || apply C7; lia).
  split; [done|]. intros Hlk. by destruct (not_holder u c LateWait Hinv Hc ltac:(done) Hlk).
Qed.

Lemma late_inv u c : startup_inv k0 p4 u → su_phase u !! c = Some LateWait → is_primary env c = true →
  startup_inv k0 p4 (set_late (goto c Looping (su_cores u) u)).
Proof.
  intros Hinv Hc Hpr. apply Z.eqb_eq in Hpr as ->. pose proof (ignition_of _ _ _ Hinv Hc ltac:(simpl; lia)) as Hon.
  apply (step_inv k0 p4 u _ (be_bsp env) LateWait Looping); try done.
  - by apply (late_core u).
  - rewrite decide_True by done. split; cbn; [lia|lia|done].
  - cbn. congruence.
  - cbn. apply Hinv.
Qed.

Lemma latewait_inv u c : startup_inv k0 p4 u → su_phase u !! c = Some LateWait → is_primary env c = false →
  LATE_IGNITION u = true → startup_inv k0 p4 (goto c Looping (su_cores u) u).
Proof.
  intros Hinv Hc Hpr Hl. apply Z.eqb_neq in Hpr. pose proof (ignition_of _ _ _ Hinv Hc ltac:(simpl; lia)) as Hon.
  apply (step_inv k0 p4 u _ c LateWait Looping); try done.
  - by apply (late_core u).
  - by rewrite decide_False.
  - cbn. congruence.
  - cbn. apply Hinv.
Qed.

(** ** Reachable states *)

Lemma startup_inv_init : startup_inv k0 p4 (startup_init env k0).
Proof.
  clear lv0 Hboot. split; cbn; try done.
  - intros d. rewrite start_phase. destruct (decide (d ∈ be_cores env)); by split.
  - intros d ph. rewrite start_phase. destruct (decide _); [|done]. intros [= <-].
    destruct (Z.eqb_spec d (be_bsp env)); split; cbn; try done; lia.
Qed.

Lemma startup_step_inv u u' : startup_step env u u' → startup_inv k0 p4 u → startup_inv k0 p4 u'.
Proof.
  intros Hstep Hinv. destruct Hstep as [c s' Hc Hr|c Hc Hon|c s' Hc Hr|c s' Hc Hpr Hr|c s' Hc Hpr Hmp Hr
    |c Hc Hlk|c s' Hc Hr|c Hc Hpr|c Hc Hpr Hl].
  - destruct (ignite_inv u c Hinv Hc) as (s1 & E & H). congruence.
  - by apply wait_inv.
  - destruct (register_inv u c Hinv Hc) as (s1 & E & H). congruence.
  - destruct (apic_map_inv u c Hinv Hc Hpr) as (s1 & E & H). congruence.
  - destruct (apic_wait_inv u c Hinv Hc Hpr Hmp) as (s1 & E & H). congruence.
  - by apply lock_inv.
  - destruct (enable_inv u c Hinv Hc) as (s1 & E & H). congruence.
  - by apply late_inv.
  - by apply latewait_inv.
Qed.

Lemma reachable_inv u : rtc (startup_step env) (startup_init env k0) u → startup_inv k0 p4 u.
Proof.
  apply (rtc_ind_r (λ u, startup_inv k0 p4 u)); [exact startup_inv_init|].
  intros u1 u2 _ Hs Hinv. by eapply startup_step_inv.
Qed.

(** ** Progress *)

(** The primary core can always go on when the lock is free. *)
Lemma primary_progress u : startup_inv k0 p4 u → CALIB_LOCK u = None →
  (∃ u', startup_step env u u') ∨ su_phase u !! be_bsp env = Some Looping.
Proof.
  intros Hinv Hlk. destruct (proj2 (si_dom _ _ _ Hinv (be_bsp env)) (bo_bsp _ _ _ Hboot)) as [ph Hph].
  pose proof (si_core _ _ _ Hinv _ _ Hph) as Hci.
  assert (is_primary env (be_bsp env) = true) as Hpr by apply Z.eqb_refl.
  destruct ph; try (by right); left.
  - destruct (ignite_inv u _ Hinv Hph) as (s' & Hr & _). eexists. by eapply step_ignite.
  - by destruct (ci_wait _ _ _ Hci eq_refl).
  - destruct (register_inv u _ Hinv Hph) as (s' & Hr & _). eexists. by eapply step_register.
  - destruct (apic_map_inv u _ Hinv Hph Hpr) as (s' & Hr & _). eexists. by eapply step_apic_map.
  - eexists. by eapply step_lock.
  - pose proof (proj1 (ci_lock _ _ _ Hci) eq_refl). congruence.
  - eexists. by eapply step_late.
Qed.

Lemma startup_progress u : startup_inv k0 p4 u →
  (∃ u', startup_step env u u') ∨ (∀ c, c ∈ be_cores env → su_phase u !! c = Some Looping).
Proof.
  intros Hinv. destruct (CALIB_LOCK u) as [h|] eqn:Hlk.
  { left. pose proof (si_lock _ _ _ Hinv _ Hlk) as Hh. destruct (enable_inv u h Hinv Hh) as (s' & Hr & _).
    eexists. by eapply step_enable. }
  destruct (primary_progress u Hinv Hlk) as [|Hb]; [by left|].
  pose proof (si_core _ _ _ Hinv _ _ Hb) as Hcb.
  pose proof (ci_ignition _ _ _ Hcb ltac:(simpl; lia)) as Hon.
  pose proof (ci_mapped _ _ _ Hcb ltac:(simpl; lia)) as Hmp. pose proof (ci_late _ _ _ Hcb eq_refl) as Hlate.
  destruct (decide (Forall (λ c, su_phase u !! c = Some Looping) (be_cores env))) as [Hall|Hnot].
  { right. by rewrite Forall_forall in Hall. }
  left. apply not_Forall_Exists in Hnot; [|solve_decision]. apply Exists_exists in Hnot as (c & Hc & Hne).
  destruct (proj2 (si_dom _ _ _ Hinv c) Hc) as [ph Hph]. pose proof (si_core _ _ _ Hinv _ _ Hph) as Hci.
  assert (is_primary env c = false) as Hpr by (apply Z.eqb_neq; intros ->; congruence).
  destruct ph; try done.
  - pose proof (ci_bsp _ _ _ Hci eq_refl). congruence.
  - eexists. by eapply step_wait.
  - destruct (register_inv u _ Hinv Hph) as (s' & Hr & _). eexists. by eapply step_register.
  - destruct (apic_wait_inv u _ Hinv Hph Hpr Hmp) as (s' & Hr & _). eexists. by eapply step_apic_wait.
  - eexists. by eapply step_lock.
  - pose proof (proj1 (ci_lock _ _ _ Hci) eq_refl). congruence.
  - eexists. by eapply step_latewait.
Qed.

(** ** Termination *)

Definition rank_of u (c : Z) : nat := default 6%nat (rank <$> su_phase u !! c).
Definition total_rank u : nat := sum_list (rank_of u <$> be_cores env).

Lemma total_rank_bound u : (total_rank u ≤ 6 * length (be_cores env))%nat.
Proof.
  unfold total_rank. induction (be_cores env) as [|c l IH]; [done|]. cbn [fmap list_fmap]. simpl.
  assert (rank_of u c ≤ 6)%nat; [|unfold sum_list in *; simpl in *; unfold id; lia].
  unfold rank_of. destruct (su_phase u !! c) as [[]|]; simpl; lia.
Qed.

Lemma step_moves u u' : startup_step env u u' →
  ∃ c ph ph', su_phase u !! c = Some ph ∧ su_phase u' = <[c := ph']> (su_phase u) ∧ rank ph' = S (rank ph).
Proof. destruct 1; do 3 eexists; split_and!; try eassumption; reflexivity. Qed.

Lemma sum_list_lt (f g : Z → nat) l c :
  (∀ d, (f d ≤ g d)%nat) → c ∈ l → (f c < g c)%nat → (sum_list (f <$> l) < sum_list (g <$> l))%nat.
Proof.
  assert (∀ (h : Z → nat) d l', sum_list (h <$> d :: l') = (h d + sum_list (h <$> l'))%nat) as Hcons by done.
  intros Hle Hc Hlt. assert (∀ l', sum_list (f <$> l') ≤ sum_list (g <$> l'))%nat as Hall.
  { induction l' as [|d l' IH]; [done|]. rewrite !Hcons. specialize (Hle d). lia. }
  induction Hc as [c l|c d l Hc IH]; rewrite !Hcons; [specialize (Hall l)|specialize (Hle d)]; lia.
Qed.

Lemma step_total u u' : startup_inv k0 p4 u → startup_step env u u' → (total_rank u < total_rank u')%nat.
Proof.
  intros Hinv (c & ph & ph' & Hc & Hph & Hr)%step_moves. apply (sum_list_lt _ _ _ c).
  - intros d. unfold rank_of. rewrite Hph. destruct (decide (d = c)) as [->|Hd].
    + rewrite lookup_insert_eq, Hc. simpl. lia.
    + by rewrite lookup_insert_ne.
  - by eapply phase_core.
  - unfold rank_of. rewrite Hph, lookup_insert_eq, Hc. simpl. lia.
Qed.

Lemma steps_bounded n u : nsteps (startup_step env) n (startup_init env k0) u →
  startup_inv k0 p4 u ∧ (n ≤ total_rank u)%nat.
Proof.
  intros Hn. assert (∀ m v w, nsteps (startup_step env) m v w → startup_inv k0 p4 v →
    startup_inv k0 p4 w ∧ (total_rank v + m ≤ total_rank w)%nat) as H.
  { induction 1 as [v|m v v1 w Hs _ IH]; intros Hv; [split; [done|lia]|].
    destruct (IH (startup_step_inv _ _ Hs Hv)) as [? ?]. pose proof (step_total _ _ Hv Hs). split; [done|lia]. }
  destruct (H _ _ _ Hn startup_inv_init) as [? ?]. split; [done|lia].
Qed.

(** The processors the scheduler starts with. *)
Definition sched_procs u : gmap Z ProcInfo :=
  list_to_map (omap (λ c, p ← PROC_TABLE (su_cores u) ≫= btree_get c; Some (c, pr_info p)) (be_cores env)).

Lemma sched_procs_idle u m nx : startup_inv k0 p4 u →
  (∀ c, c ∈ be_cores env → su_phase u !! c = Some Looping) →
  sched_start (mkSched m [] ∅ nx 0 0 (sched_procs u) : Sched P V).
Proof.
  intros Hinv Hall. split_and!; try done. cbn. unfold sched_procs. intros c p Hp.
  apply elem_of_list_to_map_2, list_elem_of_omap in Hp as (d & Hd & E).
  pose proof (si_core _ _ _ Hinv _ _ (Hall d Hd)) as Hci.
  pose proof (en_proc _ _ (ci_enabled _ _ _ Hci ltac:(simpl; lia))) as Hv. cbn in Hv. rewrite Hv in E. by simplify_eq/=.
Qed.
End startup_proofs.

(** ** The stacks the cores load *)

Section kernel_stacks.
Context {X : X86} {XO : X86Ok X} {P : Type} {FA : FrameAllocator P} {FAO : FrameAllocatorOk P}.
Context {V : Type} {WC : WindowCache V} {WCO : WindowCacheOk V} {G : GdtCrate} {GO : GdtCrateOk G}.
Context (env : BootEnv) (k0 : Kmem P V) (p4 : Z) (lv0 : Z → nat) (Hboot : bootable env k0 p4 lv0).
Implicit Types (u : Startup P V) (s : Cores P V).

(** An execution can always be continued to its end. *)
Lemma reaches_end u : startup_inv env k0 p4 u →
  ∃ u', rtc (startup_step env) u u' ∧ ∀ c, c ∈ be_cores env → su_phase u' !! c = Some Looping.
Proof.
  remember (6 * length (be_cores env) - total_rank env u)%nat as m eqn:Hm.
  revert u Hm. induction m as [m IH] using lt_wf_ind. intros u -> Hinv.
  destruct (startup_progress env k0 p4 lv0 Hboot u Hinv) as [[u1 Hs]|Hall]; [|by exists u].
  pose proof (startup_step_inv env k0 p4 lv0 Hboot _ _ Hs Hinv) as Hinv1.
  pose proof (step_total env k0 p4 _ _ Hinv Hs). pose proof (total_rank_bound env u1).
  destruct (IH (6 * length (be_cores env) - total_rank env u1)%nat ltac:(lia) u1 eq_refl Hinv1) as (u' & Hr & Hall).
  exists u'. split; [by eapply rtc_l|done].
Qed.

Lemma btree_alter_rsp q id (l : list (Z * Proc)) i :
  (e ← btree_alter (with_quantum q) id l !! i; Some (kernel_rsp (snd e))) = (e ← l !! i; Some (kernel_rsp (snd e))).
Proof.
  unfold btree_alter. rewrite list_lookup_fmap. destruct (l !! i) as [[k p]|]; [|done]. cbn. by destruct (id =? k).
Qed.

(** Only the registration of a core changes what [gs:[8]] shows. *)
Lemma step_kernel_stack u u' c : startup_inv env k0 p4 u → startup_step env u u' →
  (∀ d ph, su_phase u !! d = Some ph → (2 ≤ rank ph)%nat) →
  kernel_stack (su_cores u') c = kernel_stack (su_cores u) c ∧
  (∀ d ph, su_phase u' !! d = Some ph → (2 ≤ rank ph)%nat).
Proof.
  intros Hinv Hs Hrank. split.
  2:{ destruct (step_moves env u u' Hs) as (d & ph & ph' & Hd & Hph & Hr). intros e ph1. rewrite Hph.
      destruct (decide (e = d)) as [->|]; [|rewrite lookup_insert_ne by done; apply Hrank].
      rewrite lookup_insert_eq. intros [= <-]. specialize (Hrank _ _ Hd). lia. }
  destruct Hs as [d s' Hc Hr|d Hc Hon|d s' Hc Hr|d s' Hc Hpr Hr|d s' Hc Hpr Hmp Hr|d Hc Hlk|d s' Hc Hr|d Hc Hpr|d Hc Hpr Hl];
    try done; try (specialize (Hrank _ _ Hc); simpl in Hrank; lia).
  - unfold apic_map, on_memory in Hr. inv_ok. done.
  - injection Hr as <-. done.
  - destruct (enable_runs env k0 p4 lv0 Hboot u d Hinv Hc) as (l & a & q & Hl & _ & Hr'). rewrite Hr in Hr'.
    injection Hr' as ->. unfold kernel_stack, enabled, regs_of. cbn. rewrite Hl. cbn.
    destruct (decide (c = d)) as [->|]; [rewrite lookup_insert_eq|rewrite lookup_insert_ne by done]; cbn;
      destruct (r_kernel_gs _) as [i|]; cbn; try done; apply btree_alter_rsp.
Qed.

Lemma steps_kernel_stack u u' c : rtc (startup_step env) u u' → startup_inv env k0 p4 u →
  (∀ d ph, su_phase u !! d = Some ph → (2 ≤ rank ph)%nat) →
  kernel_stack (su_cores u') c = kernel_stack (su_cores u) c.
Proof.
  induction 1 as [u|u u1 u' Hs _ IH]; intros Hinv Hrank; [done|].
  destruct (step_kernel_stack u u1 c Hinv Hs Hrank) as [E Hrank1]. rewrite <-E. apply IH; [|done].
  by eapply startup_step_inv.
Qed.

(** A core past [wait], with everything else as it was. *)
Lemma let_go u c ph : startup_inv env k0 p4 u → IGNITION u = true → su_phase u !! c = Some ph → (rank ph ≤ 1)%nat →
  ∃ u1, rtc (startup_step env) u u1 ∧ startup_inv env k0 p4 u1 ∧ IGNITION u1 = true ∧ su_cores u1 = su_cores u ∧
    su_phase u1 = <[c := Waking]> (su_phase u).
Proof.
  intros Hinv Hon Hc Hr. destruct ph; simpl in Hr; try lia.
  - pose proof (ci_bsp _ _ _ _ (si_core _ _ _ _ Hinv _ _ Hc) eq_refl) as ->.
    pose proof (fi_ignition _ _ (si_flags _ _ _ _ Hinv _ Hc) Hon) as H. simpl in H. lia.
  - exists (goto c Waking (su_cores u) u). split_and!; try done; [|by apply (wait_inv env k0 p4)].
    apply rtc_once. by apply step_wait.
  - exists u. split_and!; try done. by rewrite insert_id.
Qed.

(** Two cores register, the one with the larger number first. *)
Lemma register_two u a b pa pb : startup_inv env k0 p4 u → IGNITION u = true → PROC_TABLE (su_cores u) = Some [] →
  a < b → su_phase u !! a = Some pa → su_phase u !! b = Some pb → (rank pa ≤ 1)%nat → (rank pb ≤ 1)%nat →
  ∃ u', rtc (startup_step env) u u' ∧ startup_inv env k0 p4 u' ∧
    su_phase u' = <[a := ApicEntry]> (<[b := ApicEntry]> (su_phase u)) ∧
    kernel_stack (su_cores u') a = Some (stack_top (be_local env a)) ∧
    kernel_stack (su_cores u') b = Some (stack_top (be_local env a)).
Proof.
  intros Hinv Hon Htab Hab Ha Hb Hra Hrb.
  destruct (let_go u b pb Hinv Hon Hb Hrb) as (u1 & Hs1 & Hinv1 & Hon1 & Hc1 & Hp1).
  assert (su_phase u1 !! b = Some Waking) as Hb1 by (by rewrite Hp1, lookup_insert_eq).
  destruct (register_runs env k0 p4 lv0 Hboot u1 b Hinv1 Hb1) as (l & g & i & Hl & Hr & Hi).
  destruct (register_inv env k0 p4 lv0 Hboot u1 b Hinv1 Hb1) as (s2 & Hr2 & Hinv2).
  rewrite Hr in Hr2. injection Hr2 as <-. rewrite Hc1, Htab in Hl. injection Hl as <-.
  cbn [btree_insert btree_place] in Hi. rewrite Z.eqb_refl in Hi. injection Hi as <-.
  set (u2 := goto b ApicEntry _ u1) in Hinv2.
  assert (su_phase u2 !! a = Some pa) as Ha2 by (cbn; rewrite Hp1, !lookup_insert_ne by lia; done).
  destruct (let_go u2 a pa Hinv2 Hon1 Ha2 Hra) as (u3 & Hs3 & Hinv3 & Hon3 & Hc3 & Hp3).
  assert (su_phase u3 !! a = Some Waking) as Ha3 by (by rewrite Hp3, lookup_insert_eq).
  destruct (register_runs env k0 p4 lv0 Hboot u3 a Hinv3 Ha3) as (l & g' & i & Hl & Hr' & Hi).
  destruct (register_inv env k0 p4 lv0 Hboot u3 a Hinv3 Ha3) as (s4 & Hr4 & Hinv4).
  rewrite Hr' in Hr4. injection Hr4 as <-. rewrite Hc3 in Hl. injection Hl as <-.
  cbn [btree_insert btree_place] in Hi. destruct (Z.ltb_spec a b); [|lia]. cbn [btree_place] in Hi.
  rewrite Z.eqb_refl in Hi. injection Hi as <-.
  eexists. split_and!; [|exact Hinv4|..].
  - etrans; [exact Hs1|]. eapply rtc_l; [by eapply step_register|]. etrans; [exact Hs3|]. apply rtc_once. by eapply step_register.
  - cbn. rewrite Hp3. cbn. rewrite Hp1. rewrite insert_insert_eq. by rewrite insert_insert_eq.
  - unfold kernel_stack, regs_of. cbn. rewrite lookup_insert_eq. cbn. by destruct (Z.ltb_spec a b); [|lia].
  - unfold kernel_stack, regs_of. cbn. rewrite lookup_insert_ne by lia. rewrite Hc3. cbn. rewrite lookup_insert_eq. cbn.
    by destruct (Z.ltb_spec a b); [|lia].
Qed.

(** From the start, through [ignite]. *)
Lemma ignited_first : ∃ u, startup_step env (startup_init env k0) u ∧ startup_inv env k0 p4 u ∧ IGNITION u = true ∧
  PROC_TABLE (su_cores u) = Some [] ∧ su_phase u = <[be_bsp env := Waking]> (start_phases env).
Proof.
  pose proof (startup_inv_init env k0 p4) as Hinv.
  assert (su_phase (startup_init env k0) !! be_bsp env = Some Booting) as Hb.
  { cbn. rewrite start_phase, decide_True by apply Hboot. by rewrite Z.eqb_refl. }
  destruct (ignite_inv env k0 p4 lv0 Hboot _ _ Hinv Hb) as (s' & Hr & Hinv').
  eexists. split_and!; [by eapply step_ignite|exact Hinv'|done| |done].
  unfold ignite, gdt_init, task_init, proc_table_init, on_memory, modify in Hr. inv_ok. done.
Qed.
End kernel_stacks.

(** ** Theorems *)

Section startup_claims.
Context {X : X86} {XO : X86Ok X} {P : Type} {FA : FrameAllocator P} {FAO : FrameAllocatorOk P}.
Context {V : Type} {WC : WindowCache V} {WCO : WindowCacheOk V} {G : GdtCrate} {GO : GdtCrateOk G}.
Implicit Types (u : Startup P V).

(** C6. The start-up of the cores ends, whatever the order in which they run: on
    a machine with memory for the tables, every execution has at most six
    steps per core, and it can only stop when every core is in the event
    loop.  There every core has its own stack, descriptor table, task state
    segment and entry in the table of processors, takes interrupts and system
    calls, and the scheduler finds the processors idle, as its theorems
    require. *)
Theorem startup_completes env (k : Kmem P V) p4 lv n u :
  bootable env k p4 lv → nsteps (startup_step env) n (startup_init env k) u →
  (n ≤ 6 * length (be_cores env))%nat ∧
  ((∃ u', startup_step env u u') ∨
   (∀ c, c ∈ be_cores env → su_phase u !! c = Some Looping ∧
      is_registered env c (view_of (su_cores u) c) ∧ is_enabled env c (view_of (su_cores u) c)) ∧
   TASKS (su_cores u) = Some [] ∧
   ∀ m nx, sched_start (mkSched m [] ∅ nx 0 0 (sched_procs env u) : Sched P V)).
Proof.
  intros Hb Hn. destruct (steps_bounded env k p4 lv Hb n u Hn) as [Hinv Hle].
  split; [pose proof (total_rank_bound env u); lia|].
  destruct (startup_progress env k p4 lv Hb u Hinv) as [|Hall]; [by left|right]. split_and!.
  - intros c Hc. pose proof (si_core _ _ _ _ Hinv _ _ (Hall c Hc)) as Hci. split_and!; [by apply Hall|..].
    + apply (ci_registered _ _ _ _ Hci). simpl. lia.
    + apply (ci_enabled _ _ _ _ Hci). simpl. lia.
  - pose proof (Hall _ (bo_bsp _ _ _ _ Hb)) as Hbsp.
    pose proof (ignition_of env k p4 _ _ _ Hinv Hbsp ltac:(simpl; lia)) as Hon. apply (si_after _ _ _ _ Hinv Hon).
  - intros m nx. by apply (sched_procs_idle env k p4).
Qed.

(** C22. In every reachable state of the start-up: a core that uses the tables
    was let go by [ignite]; a core past the mapping of its interrupt
    controller finds the registers at their address; no two cores calibrate
    at the same time; and a core in the event loop implies that the primary
    core is there too, with the devices initialised. *)
Theorem startup_ordered env (k : Kmem P V) p4 lv u :
  bootable env k p4 lv → rtc (startup_step env) (startup_init env k) u →
  ∀ c ph, su_phase u !! c = Some ph →
  ((1 ≤ rank ph)%nat → ∃ st gd ts nm df, tables_ready (cs_kmem (su_cores u)) p4 (be_numcores env) st gd ts nm df) ∧
  ((3 ≤ rank ph)%nat →
    translate (k_mem (cs_kmem (su_cores u))) p4 APIC_VBASE = Some (APIC_BASE, leaf_flags APIC_VBASE 0)) ∧
  (ph = Calibrating → ∀ d, su_phase u !! d = Some Calibrating → d = c) ∧
  (ph = Looping → su_phase u !! be_bsp env = Some Looping).
Proof.
  intros Hb Hreach c ph Hc. pose proof (reachable_inv env k p4 lv Hb u Hreach) as Hinv.
  pose proof (si_core _ _ _ _ Hinv _ _ Hc) as Hci. split_and!.
  - intros Hr. destruct (si_after _ _ _ _ Hinv (ci_ignition _ _ _ _ Hci ltac:(lia))) as ([(? & Hm) _ _ _] & _).
    destruct Hm as (st & gd & ts & nm & df & _ & Ht). by exists st, gd, ts, nm, df.
  - intros Hr. destruct (si_after _ _ _ _ Hinv (ci_ignition _ _ _ _ Hci ltac:(lia))) as ([_ _ Ha _] & _).
    by rewrite (ci_mapped _ _ _ _ Hci Hr) in Ha.
  - intros -> d Hd. pose proof (proj1 (ci_lock _ _ _ _ Hci) eq_refl).
    pose proof (proj1 (ci_lock _ _ _ _ (si_core _ _ _ _ Hinv _ _ Hd)) eq_refl). congruence.
  - intros ->. pose proof (ci_late _ _ _ _ Hci eq_refl) as Hl.
    destruct (proj2 (si_dom _ _ _ _ Hinv (be_bsp env)) (bo_bsp _ _ _ _ Hb)) as [ph Hph].
    by rewrite Hph, (fi_late _ _ (si_flags _ _ _ _ Hinv _ Hph) Hl).
Qed.

(** C34. A machine with two cores can start so that both load the same stack.
    [KernelGsBase] holds the address of a value of the table of processors,
    and inserting the smaller number afterwards moves that value: when the
    core with the larger number registers first, its [gs:[8]] shows the stack
    of the other core, and stays so until both are in the event loop. *)
Theorem cores_share_stack env (k : Kmem P V) p4 lv a b :
  bootable env k p4 lv → a < b → (∀ c, c ∈ be_cores env ↔ c = a ∨ c = b) →
  ∃ u, rtc (startup_step env) (startup_init env k) u ∧
    su_phase u !! a = Some Looping ∧ su_phase u !! b = Some Looping ∧
    kernel_stack (su_cores u) a = Some (stack_top (be_local env a)) ∧
    kernel_stack (su_cores u) b = Some (stack_top (be_local env a)).
Proof.
  intros Hb Hab Hcores. destruct (ignited_first env k p4 lv Hb) as (u0 & Hs0 & Hinv0 & Hon & Htab & Hph).
  assert (∀ c, c ∈ be_cores env → ∃ ph, su_phase u0 !! c = Some ph ∧ (rank ph ≤ 1)%nat) as Hearly.
  { intros c Hc. rewrite Hph. destruct (decide (c = be_bsp env)) as [->|Hne].
    - rewrite lookup_insert_eq. by exists Waking.
    - rewrite lookup_insert_ne by done. rewrite start_phase, decide_True by done.
      destruct (Z.eqb_spec c (be_bsp env)); [done|]. exists Waiting. split; [done|simpl; lia]. }
  destruct (Hearly a ltac:(apply Hcores; by left)) as (pa & Ha & Hra).
  destruct (Hearly b ltac:(apply Hcores; by right)) as (pb & Hbp & Hrb).
  destruct (register_two env k p4 lv Hb u0 a b pa pb Hinv0 Hon Htab Hab Ha Hbp Hra Hrb)
    as (u1 & Hs1 & Hinv1 & Hp1 & Hka & Hkb).
  destruct (reaches_end env k p4 lv Hb u1 Hinv1) as (u & Hs2 & Hall).
  assert (∀ d ph, su_phase u1 !! d = Some ph → (2 ≤ rank ph)%nat) as Hrank.
  { intros d ph Hd. assert (d ∈ be_cores env) as Hin by (by eapply (phase_core env k p4)).
    rewrite Hp1 in Hd. apply Hcores in Hin as [-> | ->].
    - rewrite lookup_insert_eq in Hd. by injection Hd as <-.
    - rewrite lookup_insert_ne, lookup_insert_eq in Hd by lia. by injection Hd as <-. }
  exists u. split_and!.
  - eapply rtc_l; [exact Hs0|]. by etrans.
  - apply Hall, Hcores. by left.
  - apply Hall, Hcores. by right.
  - by rewrite (steps_kernel_stack env k p4 lv Hb u1 u a Hs2 Hinv1 Hrank).
  - by rewrite (steps_kernel_stack env k p4 lv Hb u1 u b Hs2 Hinv1 Hrank).
Qed.

(** Every registered core finds its own entry. *)
Definition places_right (s : Cores P V) : Prop :=
  ∀ l, PROC_TABLE s = Some l → ∀ c p, btree_get c l = Some p → r_kernel_gs (regs_of s c) = btree_place c l.

Lemma btree_insert_last {A} d (v : A) l :
  (∀ c w, (c, w) ∈ l → c < d) → btree_insert d v l = l ++ [(d, v)].
Proof.
  induction l as [|[c w] l IH]; intros H; [done|]. cbn [btree_insert app].
  assert (c < d) by (apply (H c w); by left). destruct (Z.ltb_spec d c), (Z.eqb_spec d c); try lia.
  rewrite IH; [done|]. intros c' w' Hin. apply (H c' w'). by right.
Qed.

Lemma btree_place_app {A} c (l : list (Z * A)) k i : btree_place c l = Some i → btree_place c (l ++ k) = Some i.
Proof.
  revert i. induction l as [|[c' w] l IH]; intros i; [done|]. cbn. destruct (c =? c'); [done|].
  destruct (btree_place c l) as [j|]; [|done]. intros [= <-]. by rewrite (IH j).
Qed.

(** In any order but that one the stacks are right: a core that registers
    when every core before it has a smaller number leaves each of them, and
    itself, with its own entry behind [gs], and thus with its own stack. *)
Theorem ascending_own_stacks env (k : Kmem P V) p4 lv u c l :
  bootable env k p4 lv → rtc (startup_step env) (startup_init env k) u → su_phase u !! c = Some Waking →
  PROC_TABLE (su_cores u) = Some l → (∀ d p, (d, p) ∈ l → d < c) → places_right (su_cores u) →
  ∃ s' l', wakeup_register c (be_local env c) (su_cores u) = Ok (tt, s') ∧ PROC_TABLE s' = Some l' ∧
    places_right s' ∧ kernel_stack s' c = Some (stack_top (be_local env c)) ∧
    ∀ d p, btree_get d l' = Some p → kernel_stack s' d = Some (kernel_rsp p).
Proof.
  intros Hb Hreach Hc Hl Hlt Hpl. pose proof (reachable_inv env k p4 lv Hb u Hreach) as Hinv.
  destruct (register_runs env k p4 lv Hb u c Hinv Hc) as (l0 & g & place & Hl0 & Hr & Hplace).
  rewrite Hl in Hl0. injection Hl0 as <-. set (v := new_proc (stack_top (be_local env c))) in *.
  pose proof (btree_insert_last c v l Hlt) as Hlast.
  set (s' := woken c (stack_top (be_local env c)) g l place (su_cores u)) in Hr.
  assert (places_right s') as Hpl'.
  { intros l1 [= <-] d p Hd. fold v in Hd |- *. unfold s', regs_of. cbn. destruct (decide (d = c)) as [->|Hne].
    - by rewrite lookup_insert_eq.
    - rewrite lookup_insert_ne by done. rewrite btree_get_insert in Hd. destruct (Z.eqb_spec d c); [done|].
      change (r_kernel_gs (regs_of (su_cores u) d) = btree_place d (btree_insert c v l)).
      rewrite (Hpl l Hl d p Hd), Hlast. destruct (btree_get_place _ _ _ Hd) as [i Hi]. rewrite Hi.
      symmetry. by apply btree_place_app. }
  assert (∀ d p, btree_get d (btree_insert c v l) = Some p → kernel_stack s' d = Some (kernel_rsp p)) as Hks.
  { intros d p Hd. unfold kernel_stack. rewrite (Hpl' _ eq_refl d p Hd).
    destruct (btree_get_place _ _ _ Hd) as [i Hi]. destruct (btree_place_get _ _ _ Hi) as (w & Hw & Hg).
    fold v. rewrite Hi. cbn. fold v. rewrite Hw. cbn. congruence. }
  exists s', (btree_insert c v l). split_and!; try done.
  apply (Hks c v). by rewrite btree_get_insert, Z.eqb_refl.
Qed.
End startup_claims.
