(* ===== verification/Interrupts.v ===== *)
(** * Interrupts: the old controller, the vector table and page faults

    Models [pic::disable] ([kernel/src/interrupts/pic.rs]), the vector table of
    [kernel/src/interrupts/mod.rs] and the handlers of
    [kernel/src/interrupts/exceptions] and [kernel/src/interrupts/lapic] (the
    timer is in the file Syscall).  What the handlers print is left out; a
    panic keeps the words of its message. *)

From S2P Require Import Prelude X86 FrameAlloc WindowCache VCache Mapper Mem Heap Boot Elf Tar Task Sched Apic Acpi Cores.

(** ** The old interrupt controller *)

Definition PIC_MASTER_PORT_CMD : Z := 0x20.
Definition PIC_MASTER_PORT_DATA : Z := 0x21.
Definition PIC_SLAVE_PORT_CMD : Z := 0xA0.
Definition PIC_SLAVE_PORT_DATA : Z := 0xA1.

(** A write to a port, in the order they are made. *)
Definition port_write (port value : Z) : M (list (Z * Z)) unit := modify (λ l, l ++ [(port, value)]).
(** [io::wait]. *)
Definition io_wait : M (list (Z * Z)) unit := port_write 0x80 0.

Definition disable : M (list (Z * Z)) unit :=
  _ ← port_write PIC_MASTER_PORT_CMD 0x11;
  _ ← port_write PIC_SLAVE_PORT_CMD 0x11;
  _ ← io_wait;
  _ ← port_write PIC_MASTER_PORT_DATA 0x20;
  _ ← port_write PIC_SLAVE_PORT_DATA 0x28;
  _ ← io_wait;
  _ ← port_write PIC_MASTER_PORT_DATA 4;
  _ ← port_write PIC_SLAVE_PORT_DATA 2;
  _ ← io_wait;
  _ ← port_write PIC_MASTER_PORT_DATA 1;
  _ ← port_write PIC_SLAVE_PORT_DATA 1;
  _ ← io_wait;
  _ ← port_write PIC_MASTER_PORT_DATA 0xFF;
  _ ← port_write PIC_SLAVE_PORT_DATA 0xFF;
  io_wait.

(** The 8259 controller: how many words of its initialisation it still
    expects ([8259_icw] from 0 to 3), its first vector, its wiring, its mode
    and its mask.  A command with bit 4 starts the initialisation; the data
    written next are the vector, the wiring and the mode, and after that the
    mask. *)
Record Pic := mkPic { pic_icw : Z; pic_base : Z; pic_wiring : Z; pic_mode : Z; pic_mask : Z }.
Definition pic_command (v : Z) (c : Pic) : Pic :=
  if Z.testbit v 4 then mkPic 3 (pic_base c) (pic_wiring c) (pic_mode c) 0 else c.
Definition pic_data (v : Z) (c : Pic) : Pic :=
  if pic_icw c =? 3 then mkPic 2 v (pic_wiring c) (pic_mode c) (pic_mask c)
  else if pic_icw c =? 2 then mkPic 1 (pic_base c) v (pic_mode c) (pic_mask c)
  else if pic_icw c =? 1 then mkPic 0 (pic_base c) (pic_wiring c) v (pic_mask c)
  else mkPic (pic_icw c) (pic_base c) (pic_wiring c) (pic_mode c) v.
(** What a write does to the master and the slave. *)
Definition pic_write (w : Z * Z) (c : Pic * Pic) : Pic * Pic :=
  let '(port, v) := w in let '(m, s) := c in
  if port =? 0x20 then (pic_command v m, s) else if port =? 0x21 then (pic_data v m, s)
  else if port =? 0xA0 then (m, pic_command v s) else if port =? 0xA1 then (m, pic_data v s) else (m, s).

Lemma disable_run log :
  ∃ ws, disable log = Ok (tt, log ++ ws) ∧
    ∀ c, foldl (λ c w, pic_write w c) c ws = (mkPic 0 0x20 4 1 0xFF, mkPic 0 0x28 2 1 0xFF).
Proof.
  eexists. split.
  - unfold disable, io_wait, port_write, modify, mbind, M_bind, res_bind. rewrite <-!app_assoc. cbn [app]. reflexivity.
  - by intros [[] []].
Qed.

(** [pic::disable] leaves the old controllers silent from whatever state
    they were in: both finish their initialisation, with vectors 0x20 and
    0x28, the slave on input two of the master, in 8086 mode and with every
    input masked. *)
Theorem disable_silences c log :
  ∃ ws, disable log = Ok (tt, log ++ ws) ∧
    foldl (λ c w, pic_write w c) c ws = (mkPic 0 0x20 4 1 0xFF, mkPic 0 0x28 2 1 0xFF).
Proof. destruct (disable_run log) as (ws & Hr & H). eauto. Qed.

(** ** The vector table *)

Inductive IdtHandler :=
  | div | gprot | page_fault_handler | stacksegfault | doublefault | lapic_error | lapic_spurious | timer_inter_1.

(** An entry: the handler, and the element of [interrupt_stack_table] its
    stack is taken from, if any. *)
Record IdtEntry := mkIdtEntry { ie_handler : IdtHandler; ie_stack : option Z }.
Notation Idt := (gmap Z IdtEntry).
Definition set_handler_fn (vector : Z) (h : IdtHandler) (t : Idt) : Idt := <[vector := mkIdtEntry h None]> t.
Definition set_stack_index (vector i : Z) (t : Idt) : Idt :=
  alter (λ e, mkIdtEntry (ie_handler e) (Some i)) vector t.

(** The vectors the fields of [InterruptDescriptorTable] stand for. *)
Definition divide_error : Z := 0.
Definition double_fault : Z := 8.
Definition stack_segment_fault : Z := 12.
Definition general_protection_fault : Z := 13.
Definition page_fault_vector : Z := 14.

Definition interrupts_init (t : Idt) : Idt :=
  let t := set_handler_fn divide_error div t in
  let t := set_handler_fn general_protection_fault gprot t in
  let t := set_handler_fn page_fault_vector page_fault_handler t in
  let t := set_handler_fn stack_segment_fault stacksegfault t in
  let t := set_stack_index double_fault 1 (set_handler_fn double_fault doublefault t) in
  let t := set_handler_fn LocalApicError lapic_error t in
  let t := set_handler_fn LocalApicSpurious lapic_spurious t in
  set_handler_fn LocalApicTimer timer_inter_1 t.

(** Where the processor puts the frame of an interrupt of kernel code: on the
    stack the entry names in the task state segment, or on the current one. *)
Definition interrupt_stack (e : IdtEntry) (tss : Tss) (rsp : Z) : Z :=
  match ie_stack e with
  | Some i => if i =? 0 then interrupt_stack_0 tss else if i =? 1 then interrupt_stack_1 tss else 0
  | None => rsp
  end.

(** ** Page faults *)

(** [PageFaultErrorCode] and [contains]. *)
Definition PROTECTION_VIOLATION : Z := 1.
Definition CAUSED_BY_WRITE : Z := 2.
Definition USER_MODE : Z := 4.
Definition MALFORMED_TABLE : Z := 8.
Definition INSTRUCTION_FETCH : Z := 16.
Definition PROTECTION_KEY : Z := 32.
Definition SHADOW_STACK : Z := 64.
Definition SGX : Z := 0x8000.
Definition RMP : Z := 0x80000000.
Definition ec_contains (ec f : Z) : bool := Z.land ec f =? f.
(** [!PROTECTION_VIOLATION]: the complement among the flags there are. *)
Definition ec_all : Z := 0x8000807F.
Definition ec_not (f : Z) : Z := Z.ldiff ec_all f.

Inductive Operation := Fetch | Write | Read.
Inductive Privilege := User | Kernel.
Inductive Cause := UnsetPresentFlag | MalformedTable | PageLevelProtection.
Record Report := mkReport {
  rp_cause : Cause;
  rp_operation : Operation;
  rp_privilege : Privilege;
  rp_flags : list string;
}.

(** How the handler can end without returning. *)
Inductive FaultPanic := InvalidAddress (adr : Z) | MemoryViolation (adr : Z) (r : Report).

Definition fault_report (ec : Z) : Report :=
  let operation := if ec_contains ec INSTRUCTION_FETCH then Fetch
                   else if ec_contains ec CAUSED_BY_WRITE then Write else Read in
  let privilege := if ec_contains ec USER_MODE then User else Kernel in
  let cause := if ec_contains ec (ec_not PROTECTION_VIOLATION) then UnsetPresentFlag
               else if ec_contains ec MALFORMED_TABLE then MalformedTable else PageLevelProtection in
  let flags := (if ec_contains ec PROTECTION_KEY then ["protection-key violation"%string] else []) ++
               (if ec_contains ec SHADOW_STACK then ["shadow-stack violation"%string] else []) ++
               (if ec_contains ec SGX then ["SGX"%string] else []) in
  mkReport cause operation privilege flags.

Section page_fault.
Context {X : X86} {P : Type} {FA : FrameAllocator P} {V : Type} {WC : WindowCache V}.

(** [page_fault] with [cr2] in CR2. *)
Definition page_fault (cr2 ec : Z) : M (Heap P V) (result unit FaultPanic) :=
  match virt_new cr2 with
  | None => mret (RErr (InvalidAddress cr2))
  | Some adr =>
    in_heap ← lift (if negb (ec_contains ec USER_MODE) then is_heap adr else mret false);
    if in_heap : bool then _ ← heap_expand adr; mret (ROk tt)
    else mret (RErr (MemoryViolation adr (fault_report ec)))
  end.
End page_fault.

Section fault_claims.
Context {X : X86} {XO : X86Ok X} {P : Type} {FA : FrameAllocator P} {FAO : FrameAllocatorOk P}.
Context {V : Type} {WC : WindowCache V} {WCO : WindowCacheOk V}.
Implicit Types (h : Heap P V).

Lemma is_heap_run adr : is_heap adr = Ok ((HEAP_START <=? adr) && (adr <? HEAP_START + HEAP_SIZE)).
Proof. unfold is_heap. by rewrite virt_add_spec. Qed.

Lemma heap_adr adr : HEAP_START ≤ adr < HEAP_START + HEAP_SIZE →
  canonical adr = true ∧ (HEAP_START <=? adr) && (adr <? HEAP_START + HEAP_SIZE) = true.
Proof.
  intros H. rewrite canonical_iff, andb_true_iff, Z.leb_le, Z.ltb_lt.
  unfold HEAP_START, HEAP_SIZE in *. lia.
Qed.

Lemma page_fault_heap adr ec h :
  HEAP_START ≤ adr < HEAP_START + HEAP_SIZE → ec_contains ec USER_MODE = false →
  page_fault adr ec h = (_ ← heap_expand adr; mret (ROk tt)) h.
Proof.
  intros Hadr Hec. destruct (heap_adr adr Hadr) as [Hc Hb]. unfold page_fault.
  rewrite virt_new_spec by (unfold in_width, HEAP_START, HEAP_SIZE in *; lia). rewrite Hc, Hec. cbn [negb].
  rewrite is_heap_run. run_step (lift_run (Ok ((HEAP_START <=? adr) && (adr <? HEAP_START + HEAP_SIZE))) h _ eq_refl).
  by rewrite Hb.
Qed.

(** Below the head the handler does nothing. *)
Lemma page_fault_below cr2 ec h :
  ec_contains ec USER_MODE = false → HEAP_START ≤ cr2 < HEAP_START + HEAP_SIZE → cr2 < HEAP_HEAD h →
  page_fault cr2 ec h = Ok (ROk tt, h).
Proof.
  intros Hec Hadr Hlt. rewrite (page_fault_heap cr2 ec h Hadr Hec).
  assert (heap_expand cr2 h = Ok (tt, h)) as E; [|by run_step E].
  unfold heap_expand. rewrite (M_bind_run (gets HEAP_HEAD) _ h (HEAP_HEAD h) h) by done.
  by destruct (Z.ltb_spec cr2 (HEAP_HEAD h)); [|lia].
Qed.

Lemma page_fault_refused cr2 ec h :
  in_width 64 cr2 → ec_contains ec USER_MODE = true ∨ ¬ HEAP_START ≤ cr2 < HEAP_START + HEAP_SIZE →
  page_fault cr2 ec h = Ok (RErr (if canonical cr2 then MemoryViolation cr2 (fault_report ec) else InvalidAddress cr2), h).
Proof.
  intros Hw H. unfold page_fault. rewrite virt_new_spec by done. destruct (canonical cr2) eqn:Hc; [|done].
  destruct (ec_contains ec USER_MODE) eqn:He; cbn [negb]; [done|]. destruct H as [H|H]; [done|].
  rewrite is_heap_run. run_step (lift_run (Ok ((HEAP_START <=? cr2) && (cr2 <? HEAP_START + HEAP_SIZE))) h _ eq_refl).
  by destruct (Z.leb_spec HEAP_START cr2), (Z.ltb_spec cr2 (HEAP_START + HEAP_SIZE)); cbn [andb]; [lia|..].
Qed.

(** C26. The page fault handler.  A fault of kernel code in the heap at or above
    its head, when the heap can expand there ([can_expand]: well-formed tables,
    room and frames, an expansion that does not overflow), returns with the
    faulting page mapped, writable and not accessible to user code; one in the
    heap below its head returns with nothing changed; any fault of user code,
    and any fault outside the heap, changes nothing and stops the kernel with
    the address and the report. *)
Theorem page_fault_correct h cr2 ec p4 lv :
  in_width 64 cr2 →
  (ec_contains ec USER_MODE = false → can_expand h p4 lv cr2 → HEAP_HEAD h ≤ cr2 →
    ∃ h' f, page_fault cr2 ec h = Ok (ROk tt, h') ∧
      translate (k_mem (h_kmem h')) p4 (page_base cr2) = Some (f, leaf_flags (page_base cr2) WRITABLE) ∧
      fl_contains (leaf_flags (page_base cr2) WRITABLE) USER_ACCESSIBLE = false) ∧
  (ec_contains ec USER_MODE = false → HEAP_START ≤ cr2 < HEAP_START + HEAP_SIZE → cr2 < HEAP_HEAD h →
    page_fault cr2 ec h = Ok (ROk tt, h)) ∧
  (ec_contains ec USER_MODE = true ∨ ¬ HEAP_START ≤ cr2 < HEAP_START + HEAP_SIZE →
    page_fault cr2 ec h =
      Ok (RErr (if canonical cr2 then MemoryViolation cr2 (fault_report ec) else InvalidAddress cr2), h)).
Proof.
  intros Hw. split; [|split; [by apply page_fault_below|by apply page_fault_refused]]. intros Hec Hce Hhead. pose proof (ce_adr _ _ _ _ Hce) as Hadr.
  pose proof (ce_count _ _ _ _ Hce) as Hc.
  destruct (expand_amount_bound (EXPAND_COUNT h) ltac:(lia)) as (_ & Hn & _).
  destruct (heap_expand_run h cr2 p4 lv Hce Hhead) as (fs & k' & lv' & Hr & Hinv & Hb & Hrm & _).
  destruct (backs_first _ _ _ _ _ _ Hn Hadr Hb) as (f & Hf & _).
  eexists _, f. rewrite (page_fault_heap cr2 ec h Hadr Hec). split_and!; [by run_step Hr|exact Hf|].
  apply (leaf_flags_bits (page_base cr2) WRITABLE).
  unfold page_base, HEAP_START, HEAP_SIZE, KVMSPACE, PAGE_SIZE in *. zlia.
Qed.

(** A fault in the heap below [HEAP_HEAD] can recur forever.  The head moves
    by the size of an expansion although the pages are mapped at the faulting
    address: after a fault at [adr], a page that the head has passed but that
    was not mapped faults, and the handler returns without mapping it and
    without changing anything. *)
Theorem page_fault_livelock h adr b ec p4 lv :
  can_expand h p4 lv adr → HEAP_HEAD h ≤ adr → ec_contains ec USER_MODE = false →
  HEAP_START ≤ b < page_base adr → HEAP_HEAD h ≤ b < HEAP_HEAD h + expand_amount (EXPAND_COUNT h) →
  translate (k_mem (h_kmem h)) p4 (page_base b) = None →
  ∃ h', page_fault adr ec h = Ok (ROk tt, h') ∧
    page_fault b ec h' = Ok (ROk tt, h') ∧ translate (k_mem (h_kmem h')) p4 (page_base b) = None.
Proof.
  intros Hce Hhead Hec Hb Hb' Hnone. pose proof (ce_adr _ _ _ _ Hce) as Hadr.
  destruct (heap_expand_run h adr p4 lv Hce Hhead) as (fs & k' & lv' & Hr & Hinv & Hbk & Hrm & _).
  set (h' := mkHeap k' (HEAP_HEAD h + expand_amount (EXPAND_COUNT h)) (EXPAND_COUNT h + 1)) in Hr.
  assert (HEAP_START ≤ b < HEAP_START + HEAP_SIZE) as Hbh
    by (unfold page_base, PAGE_SIZE, HEAP_START, HEAP_SIZE in *; zlia).
  exists h'. rewrite (page_fault_heap adr ec h Hadr Hec). split_and!.
  - by run_step Hr.
  - apply page_fault_below; [done..|]. cbn [HEAP_HEAD h']. lia.
  - cbn [h_kmem h']. destruct (heap_page_good b 0 Hbh ltac:(lia) ltac:(unfold HEAP_SIZE; lia)) as [[Hc Ha] _].
    rewrite Z.mul_0_l, Z.add_0_r in Hc, Ha. rewrite (rm_other _ _ _ _ _ Hrm); try done.
    intros (i & E & Hi%elem_of_range)%list_elem_of_fmap. unfold page_base, PAGE_SIZE in *. zlia.
Qed.

(** The report of a fault never names the present flag as its cause, unless
    the RMP bit is set: the test asks for every other flag instead of for the
    absence of one, so a page that is not present is reported as a violation
    of its protection. *)
Theorem fault_cause_not_unset ec :
  in_width 32 ec → Z.testbit ec 31 = false →
  rp_cause (fault_report ec) = if ec_contains ec MALFORMED_TABLE then MalformedTable else PageLevelProtection.
Proof.
  intros _ H31. unfold fault_report. cbn [rp_cause].
  assert (ec_contains ec (ec_not PROTECTION_VIOLATION) = false) as ->; [|done].
  apply Z.eqb_neq. intros E. apply (f_equal (λ z, Z.testbit z 31)) in E.
  rewrite Z.land_spec, H31 in E. by vm_compute in E.
Qed.
End fault_claims.

(** The table, entry by entry. *)
Lemma interrupts_init_lookup t v :
  interrupts_init t !! v =
    if v =? LocalApicTimer then Some (mkIdtEntry timer_inter_1 None)
    else if v =? LocalApicSpurious then Some (mkIdtEntry lapic_spurious None)
    else if v =? LocalApicError then Some (mkIdtEntry lapic_error None)
    else if v =? double_fault then Some (mkIdtEntry doublefault (Some 1))
    else if v =? stack_segment_fault then Some (mkIdtEntry stacksegfault None)
    else if v =? page_fault_vector then Some (mkIdtEntry page_fault_handler None)
    else if v =? general_protection_fault then Some (mkIdtEntry gprot None)
    else if v =? divide_error then Some (mkIdtEntry div None) else t !! v.
Proof.
  unfold interrupts_init, set_handler_fn, set_stack_index. cbv zeta.
  repeat match goal with |- _ = (if v =? ?k then _ else _) =>
    destruct (Z.eqb_spec v k) as [->|?]; [by rewrite ?lookup_insert_eq, ?lookup_alter_eq, ?lookup_insert_eq|
      first [rewrite lookup_insert_ne by done|rewrite lookup_alter_ne, lookup_insert_ne by done]] end.
  done.
Qed.

(** The vector table after [init]: every vector the interrupt controller is
    programmed with has its handler, and so have the five exceptions; only
    the double fault changes stacks, and the stack it finds in the task state
    segment of a started core is the one allocated for double faults. *)
Theorem interrupts_init_correct (t : Idt) :
  let t' := interrupts_init t in
  ie_handler <$> t' !! LocalApicTimer = Some timer_inter_1 ∧
  ie_handler <$> t' !! LocalApicError = Some lapic_error ∧
  ie_handler <$> t' !! LocalApicSpurious = Some lapic_spurious ∧
  ie_handler <$> t' !! divide_error = Some div ∧
  ie_handler <$> t' !! stack_segment_fault = Some stacksegfault ∧
  ie_handler <$> t' !! general_protection_fault = Some gprot ∧
  ie_handler <$> t' !! page_fault_vector = Some page_fault_handler ∧
  (∃ e, t' !! double_fault = Some e ∧ ie_handler e = doublefault ∧
    ∀ kstack nmistack dfstack rsp, interrupt_stack e (mkTss kstack nmistack dfstack) rsp = dfstack) ∧
  (∀ v e, t' !! v = Some e → v ≠ double_fault → t !! v = None → ie_stack e = None).
Proof.
  cbv zeta. split_and!; try (by rewrite interrupts_init_lookup).
  - eexists. rewrite interrupts_init_lookup. by split_and!.
  - intros v e. rewrite interrupts_init_lookup.
    repeat match goal with |- context [v =? ?k] => destruct (Z.eqb_spec v k); [by intros [= <-]|] end.
    congruence.
Qed.
