(* ===== verification/Debug.v ===== *)
(** * Debug output, exceptions and the panic handler

    Models [kernel/src/debug.rs], the exception handlers that only report
    ([kernel/src/interrupts/exceptions]; page faults are in the file
    Interrupts), the panic handler of [kernel/src/sys.rs] and
    [kernel/src/proc/apic/mod.rs]'s [id].

    Output goes byte by byte to a port, and only when the processor says that
    it runs under a hypervisor.  A message is a list of pieces, the literal
    text and the arguments of the format string; [show] is what [core::fmt]
    writes for them.  [o_writer] says that the code the core interrupted holds
    [DEBUG_WRITER]: a message then spins for the lock, which cannot be released
    ([OutOfFuel]).

    A panic calls the handler on the spot, also when the handler is running.
    [panic_entry] is one activation of the handler; the fuel of [panic] is the
    number of activations the stack has room for, and [OutOfFuel] says that
    one more is made.  What the processor does when the stack is used up (a
    fault on a stack of its own) is not part of the model. *)

From S2P Require Import Prelude Framebuffer Interrupts.

(** What [__cpuid(1)] answers on a core. *)
Record Cpuid := mkCpuid { cpuid_ebx : Z; cpuid_ecx : Z }.

(** [apic::id]. *)
Definition apic_id (c : Cpuid) : Z := Z.shiftr (cpuid_ebx c) 24.
Definition isvm (c : Cpuid) : bool := negb (Z.land (cpuid_ecx c) (Z.shiftl 1 31) =? 0).
(** [rdtsc], with the two halves the instruction leaves in the registers. *)
Definition rdtsc (high low : Z) : Z := Z.lor (Z.shiftl high 32) low.

(** ** Formatting *)

Definition digit (d : Z) : Z := if d <? 10 then 48 + d else 87 + d.
(** The digits of [n], most significant first; [fuel] bounds their number. *)
Fixpoint digits (fuel : nat) (b n : Z) (acc : list Z) : list Z :=
  match fuel with
  | O => acc
  | S fuel' =>
    let acc := digit (n mod b) :: acc in
    if n / b =? 0 then acc else digits fuel' b (n / b) acc
  end.
(** A machine word has at most 64 digits in any base. *)
Definition show_int (b n : Z) : list Z := digits 64 b n [].

Inductive piece :=
  | Str (s : string)      (** text *)
  | Bytes (l : list Z)    (** a string argument, by its bytes *)
  | Dec (n : Z)           (** [{}] of an unsigned integer *)
  | Hex (n : Z)           (** [{:x}] *)
  | Hex08 (n : Z)         (** [{:08x}] *)
  | Ptr (n : Z).          (** [{:?}] of a raw pointer *)

Definition show (p : piece) : list Z :=
  match p with
  | Str s => bytes_of_string s
  | Bytes l => l
  | Dec n => show_int 10 n
  | Hex n => show_int 16 n
  | Hex08 n => let l := show_int 16 n in replicate (8 - length l) 48 ++ l
  | Ptr n => bytes_of_string "0x" ++ show_int 16 n
  end.

(** ** The state of the output devices *)

(** The ports, the screen and the interrupt flag, whether the core has
    stopped in the loop of the panic handler, and whether [DEBUG_WRITER] is
    held by the code it interrupted. *)
Record Out := mkOut {
  o_ports : list (Z * Z);
  FRAMEBUFFER : option Framebuffer;
  o_screen : gmap Z Z;
  o_if : bool;
  o_halted : bool;
  o_writer : bool;
}.
Definition set_ports (l : list (Z * Z)) (o : Out) : Out :=
  mkOut l (FRAMEBUFFER o) (o_screen o) (o_if o) (o_halted o) (o_writer o).
Definition set_if (b : bool) (o : Out) : Out :=
  mkOut (o_ports o) (FRAMEBUFFER o) (o_screen o) b (o_halted o) (o_writer o).
Definition set_halted (o : Out) : Out :=
  mkOut (o_ports o) (FRAMEBUFFER o) (o_screen o) (o_if o) true (o_writer o).
Definition set_writer (b : bool) (o : Out) : Out :=
  mkOut (o_ports o) (FRAMEBUFFER o) (o_screen o) (o_if o) (o_halted o) b.
Definition set_video (v : Video) (o : Out) : Out :=
  mkOut (o_ports o) (Some (v_fb v)) (v_mem v) (o_if o) (o_halted o) (o_writer o).
Definition on_ports {A} (m : M (list (Z * Z)) A) : M Out A := zoom o_ports set_ports m.

Definition CR : Z := 13.
Definition LF : Z := 10.

Section debug.
Variable cpu : Cpuid.

Definition DEBUG_PORT : Z := 0xE9.
(** [DebugWriter::write_byte], [write_str]. *)
Definition write_byte (b : Z) : M Out unit :=
  if isvm cpu then on_ports (port_write DEBUG_PORT b) else mret tt.
Definition write_str (s : list Z) : M Out unit :=
  if isvm cpu then for_ s write_byte else mret tt.
(** [DEBUG_WRITER.write()], and the end of its guard. *)
Definition writer_lock : M Out unit := λ o,
  if o_writer o then Panic OutOfFuel else Ok (tt, set_writer true o).
Definition writer_unlock : M Out unit := modify (set_writer false).
(** [print!]: [write_fmt] writes the pieces one after the other, under the
    lock; its result is never an error. *)
Definition print (ps : list piece) : M Out unit :=
  if isvm cpu then
    _ ← writer_lock;
    _ ← for_ ps (λ p, write_str (show p));
    writer_unlock
  else mret tt.
Definition println (ps : list piece) : M Out unit :=
  let id := apic_id cpu in
  print (Str "[Proc " :: Dec id :: Str "] " :: ps ++ [Bytes [CR; LF]]).

(** ** The screen *)

(** [framebuffer::init]: [call_once]. *)
Definition framebuffer_init (fb_type width height scanline fb_virt : Z) : M Out unit := λ o,
  match FRAMEBUFFER o with
  | Some _ => mret (tt, o)
  | None =>
    fb ← from_bootboot fb_type width height scanline fb_virt;
    mret (tt, mkOut (o_ports o) (Some fb) (o_screen o) (o_if o) (o_halted o) (o_writer o))
  end.
(** [debug_set_pixel] through [Framebuffer::instance()]. *)
Definition screen_pixel (x y : Z) (c : PixelColor) : M Out unit := λ o,
  fb ← unwrap (FRAMEBUFFER o);
  '(_, v) ← set_pixel x y c (mkVideo fb (o_screen o));
  mret (tt, set_video v o).

(** ** Panics *)

(** [PanicInfo], with the text it displays, and the one a panic of the
    handler's own code comes with. *)
Context {Info : Type} (info_text : Info → list Z) (nested : panic_reason → Info).

Definition RED : PixelColor := PixelColor_from3 255 0 0.

(** One activation of the panic handler.  It stops the core ([None]), or a
    panic of its own code, with the reason given, leaves it in the state the
    panic happened in. *)
Definition panic_entry (info : Info) : M Out (option panic_reason) := λ o,
  let o := set_if false o in
  let id := apic_id cpu in
  match screen_pixel 30 30 RED o with
  | Panic r => Ok (Some r, o)
  | Ok (_, o) =>
    match (y ← lift (add64 30 (id + 1)); screen_pixel 30 y RED) o with
    | Panic r => Ok (Some r, o)
    | Ok (_, o) =>
      (_ ← println [Str "Panic Info: "; Bytes (info_text info)]; _ ← modify set_halted; mret None) o
    end
  end.

(** The panic handler: its own panics activate it again. *)
Fixpoint panic (fuel : nat) (info : Info) : M Out unit :=
  match fuel with
  | O => fail OutOfFuel
  | S fuel' =>
    r ← panic_entry info;
    match r with Some r => panic fuel' (nested r) | None => mret tt end
  end.

(** ** Exceptions *)

Record InterruptStackFrame := mkFrame {
  instruction_pointer : Z;
  f_code_segment : Z;
  cpu_flags : Z;
  f_stack_pointer : Z;
  f_stack_segment : Z;
}.

Definition prologue (frame : InterruptStackFrame) (exception : string) : M Out unit :=
  _ ← println [Str "[Exception: "; Str exception; Str "]"];
  _ ← println [Str "IP: "; Ptr (instruction_pointer frame)];
  _ ← println [Str "SP: "; Ptr (f_stack_pointer frame)];
  _ ← println [Str "CS: "; Hex (f_code_segment frame)];
  _ ← println [Str "SS: "; Hex (f_stack_segment frame)];
  println [Str "RF: "; Hex (cpu_flags frame)].

Definition div_handler (fuel : nat) (info : Info) (frame : InterruptStackFrame) : M Out unit :=
  _ ← prologue frame "Division Error"; panic fuel info.
Definition gprot_handler (fuel : nat) (info : Info) (frame : InterruptStackFrame) (ec : Z) : M Out unit :=
  _ ← prologue frame "General Protection"; _ ← println [Str "Error code: "; Hex08 ec]; panic fuel info.
Definition doublefault_handler (fuel : nat) (info : Info) (frame : InterruptStackFrame) (ec : Z) : M Out unit :=
  _ ← prologue frame "Double Fault"; _ ← println [Str "Error code: "; Hex08 ec]; panic fuel info.
Definition stacksegfault_handler (fuel : nat) (info : Info) (frame : InterruptStackFrame) (ec : Z) : M Out unit :=
  _ ← prologue frame "StackSegment Fault"; _ ← println [Str "Error code: "; Hex08 ec]; panic fuel info.

(** The handlers of the interrupt controller's error and spurious vectors do
    nothing. *)
Definition error_handler (frame : InterruptStackFrame) : M Out unit := mret tt.
Definition spurious_handler (frame : InterruptStackFrame) : M Out unit := mret tt.
End debug.

(** ** Numbers can be read back *)

Definition undigit (c : Z) : option Z :=
  if (48 <=? c) && (c <=? 57) then Some (c - 48)
  else if (97 <=? c) && (c <=? 102) then Some (c - 87) else None.
(** The number a string of digits stands for, from [acc] on. *)
Fixpoint read_int (b acc : Z) (l : list Z) : option Z :=
  match l with
  | [] => Some acc
  | c :: l' => d ← undigit c; if d <? b then read_int b (acc * b + d) l' else None
  end.

Lemma undigit_digit d : 0 ≤ d < 16 → undigit (digit d) = Some d.
Proof.
  intros Hd. unfold undigit, digit. destruct (Z.ltb_spec d 10).
  - destruct (Z.leb_spec 48 (48 + d)), (Z.leb_spec (48 + d) 57); simpl; try lia. f_equal. lia.
  - destruct (Z.leb_spec 48 (87 + d)), (Z.leb_spec (87 + d) 57), (Z.leb_spec 97 (87 + d)),
      (Z.leb_spec (87 + d) 102); simpl; try lia. f_equal. lia.
Qed.

Lemma read_digits fuel b n acc l :
  2 ≤ b ≤ 16 → 0 ≤ n < b ^ Z.of_nat fuel →
  read_int b 0 (digits fuel b n acc ++ l) = read_int b n (acc ++ l).
Proof.
  revert n acc. induction fuel as [|fuel IH]; intros n acc Hb Hn.
  { change (b ^ Z.of_nat 0) with 1 in Hn. by replace n with 0 by lia. }
  rewrite Nat2Z.inj_succ, Z.pow_succ_r in Hn by lia. cbn [digits].
  pose proof (Z.div_mod n b ltac:(lia)). pose proof (Z.mod_pos_bound n b ltac:(lia)).
  destruct (Z.eqb_spec (n / b) 0) as [E|E].
  - cbn [app read_int]. rewrite undigit_digit by lia. cbn [mbind option_bind].
    destruct (Z.ltb_spec (n mod b) b); [|lia]. f_equal. rewrite E in *. lia.
  - rewrite IH; [|lia|].
    + cbn [app read_int]. rewrite undigit_digit by lia. cbn [mbind option_bind].
      destruct (Z.ltb_spec (n mod b) b); [|lia]. f_equal. lia.
    + split; [apply Z.div_pos; lia|apply Z.div_lt_upper_bound; lia].
Qed.

Lemma read_show b n l :
  2 ≤ b ≤ 16 → in_width 64 n → read_int b 0 (show_int b n ++ l) = read_int b n l.
Proof.
  intros Hb [H0 Hn]. unfold show_int. rewrite read_digits; [done|done|]. split; [done|].
  eapply Z.lt_le_trans; [exact Hn|]. apply Z.pow_le_mono_l. lia.
Qed.

Lemma read_zeros b k l : 2 ≤ b → read_int b 0 (replicate k 48 ++ l) = read_int b 0 l.
Proof.
  intros Hb. induction k as [|k IH]; [done|]. cbn [replicate app read_int].
  change (undigit 48) with (Some 0). cbn [mbind option_bind]. destruct (Z.ltb_spec 0 b); [|lia].
  by rewrite Z.mul_0_l, Z.add_0_r.
Qed.

(** Digits are printable: no line feed or carriage return among them. *)
Lemma digits_printable fuel b n acc :
  2 ≤ b ≤ 16 → 0 ≤ n → Forall (λ c, 48 ≤ c) acc → Forall (λ c, 48 ≤ c) (digits fuel b n acc).
Proof.
  intros Hb. revert n acc. induction fuel as [|fuel IH]; intros n acc Hn Hacc; [done|]. cbn [digits].
  assert (Forall (λ c, 48 ≤ c) (digit (n mod b) :: acc)) as H.
  { constructor; [|done]. pose proof (Z.mod_pos_bound n b ltac:(lia)). unfold digit.
    destruct (Z.ltb_spec (n mod b) 10); lia. }
  destruct (Z.eqb_spec (n / b) 0); [done|]. apply IH; [apply Z.div_pos; lia|done].
Qed.

(** A number is printed without superfluous digits. *)
Lemma digits_head fuel b n acc :
  2 ≤ b ≤ 16 → 0 < n < b ^ Z.of_nat fuel →
  ∃ d l, digits fuel b n acc = digit d :: l ∧ 0 < d < b.
Proof.
  intros Hb. revert n acc. induction fuel as [|fuel IH]; intros n acc Hn.
  { change (b ^ Z.of_nat 0) with 1 in Hn. lia. }
  rewrite Nat2Z.inj_succ, Z.pow_succ_r in Hn by lia. cbn [digits].
  pose proof (Z.div_mod n b ltac:(lia)). pose proof (Z.mod_pos_bound n b ltac:(lia)).
  destruct (Z.eqb_spec (n / b) 0) as [E|E].
  - rewrite E in *. eexists _, _. split; [done|]. lia.
  - apply IH. pose proof (Z.div_pos n b). split; [lia|apply Z.div_lt_upper_bound; lia].
Qed.

(** ** What is written *)

Section output.
Variable cpu : Cpuid.
Implicit Types (o : Out) (ps : list piece).

(** The bytes of a line. *)
Definition line (id : Z) ps : list Z :=
  (Str "[Proc " :: Dec id :: Str "] " :: ps ++ [Bytes [CR; LF]]) ≫= show.
(** The bytes [l] sent to the debug port, if there is one. *)
Definition sent (l : list Z) o : Out :=
  set_ports (o_ports o ++ (if isvm cpu then pair DEBUG_PORT <$> l else [])) o.

Lemma sent_nil o : sent [] o = o.
Proof. unfold sent, set_ports. destruct o, (isvm cpu); simpl; by rewrite app_nil_r. Qed.
Lemma sent_app l k o : sent k (sent l o) = sent (l ++ k) o.
Proof.
  unfold sent, set_ports. simpl. f_equal. rewrite <-app_assoc. f_equal.
  destruct (isvm cpu); [by rewrite fmap_app|done].
Qed.
Lemma sent_hardware l o : isvm cpu = false → sent l o = o.
Proof. intros E. unfold sent, set_ports. rewrite E, app_nil_r. by destruct o. Qed.

Lemma sent_writer l o b : sent l (set_writer b o) = set_writer b (sent l o).
Proof. done. Qed.

Lemma write_str_run l o : write_str cpu l o = Ok (tt, sent l o).
Proof.
  unfold write_str. destruct (isvm cpu) eqn:E; [|by rewrite sent_hardware].
  revert o. induction l as [|b l IH]; intros o; [by rewrite sent_nil|]. rewrite for_cons.
  assert (write_byte cpu b o = Ok (tt, sent [b] o)) as Hb.
  { unfold write_byte, sent, on_ports, port_write. rewrite E. reflexivity. }
  run_step Hb. rewrite IH. by rewrite sent_app.
Qed.

Lemma write_pieces_run ps o : for_ ps (λ p, write_str cpu (show p)) o = Ok (tt, sent (ps ≫= show) o).
Proof.
  revert o. induction ps as [|p ps IH]; intros o; [by rewrite sent_nil|]. rewrite for_cons.
  run_step (write_str_run (show p) o). rewrite IH, sent_app. done.
Qed.

Lemma print_run ps o : o_writer o = false → print cpu ps o = Ok (tt, sent (ps ≫= show) o).
Proof.
  intros Hw. unfold print. destruct (isvm cpu) eqn:E; [|by rewrite sent_hardware].
  assert (writer_lock o = Ok (tt, set_writer true o)) as Hl by (unfold writer_lock; by rewrite Hw).
  run_step Hl. run_step (write_pieces_run ps (set_writer true o)).
  unfold writer_unlock, modify. rewrite sent_writer. do 2 f_equal. unfold set_writer, sent, set_ports. simpl.
  by rewrite <-Hw.
Qed.
(** With the writer held, nothing gets through. *)
Lemma println_spins ps o : isvm cpu = true → o_writer o = true → println cpu ps o = Panic OutOfFuel.
Proof. intros E Hw. unfold println, print, writer_lock, mbind, M_bind. by rewrite E, Hw. Qed.

Lemma println_run ps o : o_writer o = false → println cpu ps o = Ok (tt, sent (line (apic_id cpu) ps) o).
Proof. apply print_run. Qed.

(** The report of an exception. *)
Definition report_lines (id : Z) (name : string) (f : InterruptStackFrame) : list Z :=
  line id [Str "[Exception: "; Str name; Str "]"] ++
  line id [Str "IP: "; Ptr (instruction_pointer f)] ++
  line id [Str "SP: "; Ptr (f_stack_pointer f)] ++
  line id [Str "CS: "; Hex (f_code_segment f)] ++
  line id [Str "SS: "; Hex (f_stack_segment f)] ++
  line id [Str "RF: "; Hex (cpu_flags f)].

Lemma prologue_run f name o :
  o_writer o = false → prologue cpu f name o = Ok (tt, sent (report_lines (apic_id cpu) name f) o).
Proof.
  intros Hw. unfold prologue, report_lines.
  assert (∀ ps (k : unit → M Out unit) o1, o_writer o1 = false →
    (println cpu ps ≫= k) o1 = k tt (sent (line (apic_id cpu) ps) o1)) as Hstep.
  { intros ps k o1 Hw1. by rewrite (M_bind_run _ _ _ _ _ (println_run ps o1 Hw1)). }
  rewrite !Hstep by done. by rewrite println_run, !sent_app by done.
Qed.
End output.

(** ** A report determines its frame *)

Lemma split_line (l1 l2 r1 r2 : list Z) :
  Forall (λ c, CR < c) l1 → Forall (λ c, CR < c) l2 → l1 ++ CR :: r1 = l2 ++ CR :: r2 → l1 = l2 ∧ r1 = r2.
Proof.
  revert l2. induction l1 as [|c l1 IH]; intros [|d l2] H1 H2 E; cbn [app] in E.
  - by injection E as ->.
  - injection E as <- _. apply Forall_cons in H2 as [? _]. lia.
  - injection E as -> _. apply Forall_cons in H1 as [? _]. lia.
  - injection E as -> E. apply Forall_cons in H1 as [_ H1]. apply Forall_cons in H2 as [_ H2].
    by destruct (IH l2 H1 H2 E) as [-> ->].
Qed.

Lemma show_int_above b n : 2 ≤ b ≤ 16 → 0 ≤ n → Forall (λ c, CR < c) (show_int b n).
Proof.
  intros Hb Hn. eapply Forall_impl; [by apply (digits_printable 64 b n [])|]. unfold CR. simpl. lia.
Qed.

Lemma show_int_inj b n m : 2 ≤ b ≤ 16 → in_width 64 n → in_width 64 m → show_int b n = show_int b m → n = m.
Proof.
  intros Hb Hn Hm E. pose proof (read_show b n [] Hb Hn) as H1. pose proof (read_show b m [] Hb Hm) as H2.
  rewrite E, H2 in H1. by injection H1.
Qed.

(** A line whose last argument is a number in base sixteen. *)
Lemma hex_line_inj id pre mk n m r1 r2 :
  (mk = Hex ∨ mk = Ptr ∨ mk = Hex08) → in_width 64 n → in_width 64 m →
  line id [Str pre; mk n] ++ r1 = line id [Str pre; mk m] ++ r2 → n = m ∧ r1 = r2.
Proof.
  intros Hmk Hn Hm. unfold line. cbn [app mbind list_bind]. rewrite <-!app_assoc. cbn [show].
  intros E. do 4 apply app_inv_head in E. cbn [app] in E. pose proof Hn as [Hn0 _]. pose proof Hm as [Hm0 _].
  destruct Hmk as [-> |[-> | ->]]; cbn [show] in E.
  - apply split_line in E as [E Er]; [|by apply show_int_above..]. injection Er as <-.
    by apply show_int_inj in E.
  - rewrite <-!app_assoc in E. apply app_inv_head in E.
    apply split_line in E as [E Er]; [|by apply show_int_above..]. injection Er as <-.
    by apply show_int_inj in E.
  - apply split_line in E as [E Er].
    + injection Er as <-. split; [|done]. apply (f_equal (read_int 16 0)) in E.
      rewrite !read_zeros in E by lia.
      rewrite <-(app_nil_r (show_int 16 n)), <-(app_nil_r (show_int 16 m)), !read_show in E by (done || lia).
      by injection E.
    + apply Forall_app. split; [|by apply show_int_above]. apply Forall_replicate. unfold CR. lia.
    + apply Forall_app. split; [|by apply show_int_above]. apply Forall_replicate. unfold CR. lia.
Qed.

(** Registers are words. *)
Definition frame_ok (f : InterruptStackFrame) : Prop :=
  in_width 64 (instruction_pointer f) ∧ in_width 16 (f_code_segment f) ∧ in_width 64 (cpu_flags f) ∧
  in_width 64 (f_stack_pointer f) ∧ in_width 16 (f_stack_segment f).

Lemma report_lines_inj id name f g r1 r2 :
  frame_ok f → frame_ok g → report_lines id name f ++ r1 = report_lines id name g ++ r2 → f = g ∧ r1 = r2.
Proof.
  intros (H1 & [? H2] & H3 & H4 & [? H5]) (K1 & [? K2] & K3 & K4 & [? K5]) E. unfold report_lines in E.
  rewrite <-!app_assoc in E. apply app_inv_head in E.
  apply hex_line_inj in E as [E1 E]; [|tauto|done|done].
  apply hex_line_inj in E as [E2 E]; [|tauto|done|done].
  apply hex_line_inj in E as [E3 E]; [|tauto|split; lia|split; lia].
  apply hex_line_inj in E as [E4 E]; [|tauto|split; lia|split; lia].
  apply hex_line_inj in E as [E5 E]; [|tauto|done|done].
  split; [|done]. destruct f, g. simpl in *. congruence.
Qed.

(** ** Stopping *)

(** A screen on which the handler of core [id] can show that it ran. *)
Definition screen_ok (id : Z) (o : Out) : Prop :=
  ∃ fb, FRAMEBUFFER o = Some fb ∧ geometry fb ∧ double_buffer fb = None ∧ 30 < fb_width fb ∧ 31 + id < fb_height fb.
(** One on which it cannot: there is none, its pixels are in one of the two
    formats left to do, or it is too small. *)
Definition screen_bad (id : Z) (o : Out) : Prop :=
  ∀ fb, FRAMEBUFFER o = Some fb → ¬ supported (fb_format fb) ∨ fb_width fb ≤ 30 ∨ fb_height fb ≤ 31 + id.

(** A pixel that was drawn is one of the screen. *)
Lemma set_pixel_drawn x y c v v' :
  set_pixel x y c v = Ok (tt, v') →
  x < fb_width (v_fb v) ∧ y < fb_height (v_fb v) ∧ supported (fb_format (v_fb v)) ∧
  fb_format (v_fb v') = fb_format (v_fb v) ∧ fb_width (v_fb v') = fb_width (v_fb v) ∧
  fb_height (v_fb v') = fb_height (v_fb v).
Proof.
  unfold set_pixel. destruct (mul64 y (fb_scanline (v_fb v))) as [a|]; [|done]. cbn [mbind res_bind].
  destruct (mul64 x 4) as [b|]; [|done]. cbn [mbind res_bind].
  destruct (add64 a b) as [off|]; [|done]. cbn [mbind res_bind].
  destruct (word (fb_format (v_fb v)) c) as [w|] eqn:Hw; [|done]. cbn [mbind res_bind].
  destruct (Z.ltb_spec x (fb_width (v_fb v))) as [Hx|]; [|done].
  destruct (Z.ltb_spec y (fb_height (v_fb v))) as [Hy|]; [|done]. cbn [negb].
  destruct (mul64 (fb_scanline (v_fb v)) (fb_height (v_fb v))) as [n|]; [|done]. cbn [mbind res_bind].
  destruct (off <? n); [|done]. cbn [negb]. destruct (add64 off 4) as [e|]; [|done]. cbn [mbind res_bind].
  assert (supported (fb_format (v_fb v))) as Hs.
  { unfold supported. destruct (fb_format (v_fb v)); [by left|discriminate..|by right]. }
  destruct (double_buffer (v_fb v)) as [db|].
  - destruct (store_vec _ _ _) as [db'|]; [|done]. intros [= <-]. by split_and!.
  - intros [= <-]. by split_and!.
Qed.

Lemma screen_pixel_drawn x y c o o' :
  screen_pixel x y c o = Ok (tt, o') → ∃ fb fb', FRAMEBUFFER o = Some fb ∧ FRAMEBUFFER o' = Some fb' ∧
    x < fb_width fb ∧ y < fb_height fb ∧ supported (fb_format fb) ∧
    fb_format fb' = fb_format fb ∧ fb_width fb' = fb_width fb ∧ fb_height fb' = fb_height fb.
Proof.
  unfold screen_pixel. destruct (FRAMEBUFFER o) as [fb|]; [|done]. cbn [unwrap of_option mbind res_bind].
  destruct (set_pixel x y c (mkVideo fb (o_screen o))) as [[[] v]|] eqn:E; [|done]. cbn [mbind res_bind].
  intros [= <-]. apply set_pixel_drawn in E. exists fb, (v_fb v). by split_and!; try apply E.
Qed.

Lemma screen_pixel_keeps x y c o o' :
  screen_pixel x y c o = Ok (tt, o') → o_ports o' = o_ports o ∧ o_if o' = o_if o ∧ o_halted o' = o_halted o.
Proof.
  unfold screen_pixel. destruct (unwrap (FRAMEBUFFER o)); [|done]. cbn [mbind res_bind].
  destruct (set_pixel _ _ _ _) as [[[] v]|]; [|done]. by intros [= <-].
Qed.

(** A screen of at least [w] by [h] pixels that are stored as they are drawn. *)
Definition screen_has (w h : Z) (o : Out) : Prop :=
  ∃ fb, FRAMEBUFFER o = Some fb ∧ geometry fb ∧ double_buffer fb = None ∧ w < fb_width fb ∧ h < fb_height fb.

(** Drawing on a good screen keeps it good and touches only the screen. *)
Lemma screen_pixel_run w h x y c o :
  screen_has w h o → 0 ≤ x ≤ w → 0 ≤ y ≤ h → color_ok c →
  ∃ o', screen_pixel x y c o = Ok (tt, o') ∧ screen_has w h o' ∧ o_ports o' = o_ports o ∧ o_if o' = o_if o ∧
    o_writer o' = o_writer o.
Proof.
  intros (fb & Hfb & Hg & Hdb & Hw & Hh) Hx Hy Hc. unfold screen_pixel. rewrite Hfb.
  cbn [unwrap of_option mbind res_bind].
  rewrite set_pixel_run; [|done|split; simpl; lia|done]. cbv zeta. cbn [v_fb]. rewrite Hdb. cbn [mbind res_bind].
  eexists. split_and!; [reflexivity| |done|done|done]. eexists. split; [reflexivity|].
  cbn [v_fb]. split_and!; [by apply noted_geometry|done|done|done].
Qed.
Lemma screen_pixel_ok id x y c o :
  screen_ok id o → 0 ≤ x ≤ 30 → 0 ≤ y ≤ 31 + id → color_ok c →
  ∃ o', screen_pixel x y c o = Ok (tt, o') ∧ screen_ok id o' ∧ o_ports o' = o_ports o ∧ o_if o' = o_if o ∧
    o_writer o' = o_writer o.
Proof. apply screen_pixel_run. Qed.

Section stop.
Variable cpu : Cpuid.
Context {Info : Type} (info_text : Info → list Z) (nested : panic_reason → Info).
Implicit Types (o : Out) (info : Info).

Definition panic_line (info : Info) : list Z :=
  line (apic_id cpu) [Str "Panic Info: "; Bytes (info_text info)].

(** The core stopped with interrupts off after sending [l]. *)
Definition stopped (l : list Z) o o' : Prop :=
  o_halted o' = true ∧ o_if o' = false ∧ o_ports o' = o_ports (sent cpu l o).

Lemma red_ok : color_ok RED.
Proof. unfold color_ok, in_width. simpl. lia. Qed.

Lemma panic_run fuel info o :
  0 ≤ apic_id cpu < 256 → screen_ok (apic_id cpu) o → o_writer o = false →
  ∃ o', panic cpu info_text nested (S fuel) info o = Ok (tt, o') ∧ stopped (panic_line info) o o'.
Proof.
  intros Hid Hs Hw. cbn [panic]. cut (∃ o', panic_entry cpu info_text info o = Ok (None, o') ∧ stopped (panic_line info) o o').
  { intros (o' & Hr & Hst). exists o'. split; [|done]. by run_step Hr. }
  unfold panic_entry. set (o1 := set_if false o).
  assert (screen_ok (apic_id cpu) o1) as Hs1 by exact Hs.
  destruct (screen_pixel_ok _ 30 30 RED o1 Hs1) as (o2 & -> & Hs2 & Hp2 & Hi2 & Hw2); [lia..|exact red_ok|].
  assert (add64 30 (apic_id cpu + 1) = Ok (30 + (apic_id cpu + 1))) as Ea by (apply chk_in; unfold in_width; lia).
  destruct (screen_pixel_ok _ 30 (30 + (apic_id cpu + 1)) RED o2 Hs2) as (o3 & Hr3 & Hs3 & Hp3 & Hi3 & Hw3);
    [lia..|exact red_ok|].
  assert ((y ← lift (add64 30 (apic_id cpu + 1)); screen_pixel 30 y RED) o2 = Ok (tt, o3)) as ->.
  { by run_step (lift_run _ o2 _ Ea). }
  assert (o_writer o3 = false) as Hw4 by (rewrite Hw3, Hw2; exact Hw).
  run_step (println_run cpu [Str "Panic Info: "; Bytes (info_text info)] o3 Hw4).
  eexists. split; [reflexivity|]. split_and!; [done|by cbn; rewrite Hi3, Hi2|].
  cbn. by rewrite Hp3, Hp2.
Qed.

Lemma stopped_after l k o o' :
  stopped k (sent cpu l o) o' → stopped (l ++ k) o o'.
Proof. intros (Hh & Hi & Hp). split_and!; [done..|]. by rewrite <-sent_app. Qed.

Lemma sent_screen id l o : screen_ok id o → screen_ok id (sent cpu l o).
Proof. by unfold screen_ok. Qed.

(** What every exception handler does: the report, then the panic. *)
Lemma report_then_panic fuel info l k (m : M Out unit) o :
  0 ≤ apic_id cpu < 256 → screen_ok (apic_id cpu) o → o_writer o = false → m o = Ok (tt, sent cpu l o) → k = l ++ panic_line info →
  ∃ o', (_ ← m; panic cpu info_text nested (S fuel) info) o = Ok (tt, o') ∧ stopped k o o'.
Proof.
  intros Hid Hs Hw Hm ->. destruct (panic_run fuel info (sent cpu l o) Hid (sent_screen _ l o Hs) Hw) as (o' & Hr & Hst).
  exists o'. run_step Hm. split; [exact Hr|]. by apply stopped_after.
Qed.

Definition ec_line (ec : Z) : list Z := line (apic_id cpu) [Str "Error code: "; Hex08 ec].

Lemma report_ec_then_panic fuel info f name ec o :
  0 ≤ apic_id cpu < 256 → screen_ok (apic_id cpu) o → o_writer o = false →
  ∃ o', (_ ← prologue cpu f name; _ ← println cpu [Str "Error code: "; Hex08 ec];
      panic cpu info_text nested (S fuel) info) o = Ok (tt, o') ∧
    stopped (report_lines (apic_id cpu) name f ++ ec_line ec ++ panic_line info) o o'.
Proof.
  intros Hid Hs Hw. rewrite (M_bind_run _ _ _ _ _ (prologue_run cpu f name o Hw)).
  edestruct (report_then_panic fuel info (ec_line ec) (ec_line ec ++ panic_line info)
    (println cpu [Str "Error code: "; Hex08 ec]) (sent cpu (report_lines (apic_id cpu) name f) o))
    as (o' & Hr & Hst); [done|by apply sent_screen|done|by apply println_run|done|].
  exists o'. split; [exact Hr|]. by apply stopped_after.
Qed.

(** C27. The four exceptions the kernel only reports stop the core: on a screen
    of a supported format that is large enough and without a second buffer,
    and when the interrupted code does not hold the writer of messages, each
    handler ends halted with interrupts off, after
    sending, on a virtual machine only, exactly the lines of its report and
    of the panic; and the report can be read back: two reports of the same
    exception are equal only if the registers and the error codes are. *)
Theorem exceptions_stop fuel info f ec o :
  0 ≤ apic_id cpu < 256 → screen_ok (apic_id cpu) o → o_writer o = false → frame_ok f → in_width 64 ec →
  let text name := report_lines (apic_id cpu) name f ++ ec_line ec ++ panic_line info in
  (∃ o', div_handler cpu info_text nested (S fuel) info f o = Ok (tt, o') ∧
    stopped (report_lines (apic_id cpu) "Division Error" f ++ panic_line info) o o') ∧
  (∃ o', gprot_handler cpu info_text nested (S fuel) info f ec o = Ok (tt, o') ∧
    stopped (text "General Protection"%string) o o') ∧
  (∃ o', doublefault_handler cpu info_text nested (S fuel) info f ec o = Ok (tt, o') ∧
    stopped (text "Double Fault"%string) o o') ∧
  (∃ o', stacksegfault_handler cpu info_text nested (S fuel) info f ec o = Ok (tt, o') ∧
    stopped (text "StackSegment Fault"%string) o o') ∧
  (∀ name g ec', frame_ok g → in_width 64 ec' →
    text name = report_lines (apic_id cpu) name g ++ ec_line ec' ++ panic_line info → g = f ∧ ec' = ec).
Proof.
  intros Hid Hs Hw Hf Hec text. split_and!.
  - by apply (report_then_panic fuel info (report_lines (apic_id cpu) "Division Error" f)); [..|apply prologue_run|].
  - by apply report_ec_then_panic.
  - by apply report_ec_then_panic.
  - by apply report_ec_then_panic.
  - intros name g ec' Hg Hec' E. unfold text in E.
    destruct (report_lines_inj (apic_id cpu) name f g _ _ Hf Hg E) as [-> E'].
    destruct (hex_line_inj (apic_id cpu) "Error code: " Hex08 ec ec' (panic_line info) (panic_line info)) as [-> _];
      [tauto|done|done|exact E'|done].
Qed.

(** An exception taken while the interrupted code prints never gets through:
    on a virtual machine the handler spins for the writer at its first line. *)
Theorem exceptions_spin fuel info f ec o :
  isvm cpu = true → o_writer o = true →
  div_handler cpu info_text nested fuel info f o = Panic OutOfFuel ∧
  gprot_handler cpu info_text nested fuel info f ec o = Panic OutOfFuel ∧
  doublefault_handler cpu info_text nested fuel info f ec o = Panic OutOfFuel ∧
  stacksegfault_handler cpu info_text nested fuel info f ec o = Panic OutOfFuel.
Proof.
  intros Hvm Hw. assert (∀ name (k : unit → M Out unit), (prologue cpu f name ≫= k) o = Panic OutOfFuel) as Hp.
  { intros name k. unfold prologue. rewrite M_bind_assoc. unfold mbind at 1, M_bind at 1. by rewrite println_spins. }
  by split_and!; apply Hp.
Qed.

(** The state of the [n]-th activation of the handler, counted from 0, when it
    is made. *)
Fixpoint activation (n : nat) (info : Info) (o : Out) : option (Info * Out) :=
  match n with
  | O => Some (info, o)
  | S n' =>
    match panic_entry cpu info_text info o with
    | Ok (Some r, o') => activation n' (nested r) o'
    | _ => None
    end
  end.

(** One activation on a bad screen. *)
Lemma panic_entry_bad info o :
  screen_bad (apic_id cpu) o → 0 ≤ apic_id cpu →
  ∃ r o', panic_entry cpu info_text info o = Ok (Some r, o') ∧ screen_bad (apic_id cpu) o' ∧
    o_ports o' = o_ports o ∧ o_if o' = false ∧ o_halted o' = o_halted o.
Proof.
  intros Hbad Hid. unfold panic_entry. set (o1 := set_if false o).
  assert (screen_bad (apic_id cpu) o1) as Hbad1 by exact Hbad.
  destruct (screen_pixel 30 30 RED o1) as [[[] o2]|r] eqn:E1; [|by exists r, o1].
  pose proof (screen_pixel_keeps _ _ _ _ _ E1) as (Hp & Hi & Hh).
  apply screen_pixel_drawn in E1 as (fb & fb' & Hfb & Hfb' & Hx & Hy & Hsup & Ef & Ew & Eh).
  assert (screen_bad (apic_id cpu) o2) as Hbad2.
  { intros fb2 E. rewrite Hfb' in E. injection E as <-. rewrite Ef, Ew, Eh. by apply Hbad1. }
  destruct ((y ← lift (add64 30 (apic_id cpu + 1)); screen_pixel 30 y RED) o2) as [[[] o3]|r] eqn:E2; [|by exists r, o2].
  apply M_bind_Ok in E2 as (y & ? & [Hy' ->]%lift_Ok & E2). apply chk_Ok in Hy' as [-> _].
  apply screen_pixel_drawn in E2 as (fb2 & fb2' & Hfb2 & _ & Hx2 & Hy2 & Hsup2 & _).
  destruct (Hbad2 fb2 Hfb2) as [?|[?|?]]; [done|lia|lia].
Qed.

(** C30. The panic handler draws before it prints, and drawing can panic.  When
    there is no screen, when its format is one of the two left to do, or when
    it is too small for the pixel of the core, the handler activates itself
    again and again: however many activations there were, there is one more,
    made with interrupts off, and by then nothing was printed and the core has
    not stopped; whatever number of activations the stack has room for, it is
    not enough. *)
Theorem panic_recurses n info o :
  screen_bad (apic_id cpu) o → 0 ≤ apic_id cpu →
  (∃ info' o', activation (S n) info o = Some (info', o') ∧
    o_ports o' = o_ports o ∧ o_if o' = false ∧ o_halted o' = o_halted o) ∧
  panic cpu info_text nested n info o = Panic OutOfFuel.
Proof.
  intros Hbad Hid. revert info o Hbad. induction n as [|n IH]; intros info o Hbad;
    destruct (panic_entry_bad info o Hbad Hid) as (r & o' & E & Hbad' & Hp & Hi & Hh).
  - split; [|done]. exists (nested r), o'. cbn [activation]. by rewrite E.
  - destruct (IH (nested r) o' Hbad') as [(info' & o2 & Ha & Hp2 & Hi2 & Hh2) Hpanic]. split.
    + exists info', o2. rewrite Hp2, Hh2. split_and!; try done. rewrite <-Ha. cbn [activation]. by rewrite E.
    + cbn [panic]. by run_step E.
Qed.
End stop.

(** Printing a word and reading it back, in any base from two to sixteen: the
    digits stand for the number, and none of them is a superfluous zero. *)
Theorem show_int_roundtrip b n :
  2 ≤ b ≤ 16 → in_width 64 n →
  read_int b 0 (show_int b n) = Some n ∧ (n ≠ 0 → head (show_int b n) ≠ Some (digit 0)).
Proof.
  intros Hb Hn. split; [rewrite <-(app_nil_r (show_int b n)); by rewrite read_show|].
  intros Hne. destruct Hn as [H0 H1]. destruct (digits_head 64 b n [] Hb) as (d & l & E & Hd).
  { split; [lia|]. eapply Z.lt_le_trans; [exact H1|]. apply Z.pow_le_mono_l. lia. }
  unfold show_int. rewrite E. cbn [head]. intros [= Ed]. unfold digit in Ed.
  destruct (Z.ltb_spec d 10), (Z.ltb_spec 0 10); lia.
Qed.

Lemma rdtsc_spec high low : in_width 32 low → rdtsc high low = high * 2 ^ 32 + low.
Proof. intros Hl. unfold rdtsc. by rewrite lor_shiftl_add. Qed.

(** ** Witnesses *)

Definition demo_cpu : Cpuid := mkCpuid 0x01000800 0x80000000.
Definition demo_screen : Framebuffer := mkFramebuffer Argb 64 64 256 0x1000 None None None.
Definition demo_out (fb : option Framebuffer) : Out := mkOut [] fb ∅ true false false.
Definition demo_frame : InterruptStackFrame := mkFrame 0xFFFF800000123456 8 0x10046 0xFFFFFFFFFFFFFF00 0x10.

Lemma demo_screen_ok : screen_ok (apic_id demo_cpu) (demo_out (Some demo_screen)).
Proof.
  exists demo_screen. split_and!; try done. split; simpl; try lia. by left.
Qed.

Lemma exceptions_stop_witness :
  ∃ o', div_handler demo_cpu (λ _ : unit, []) (λ _, tt) 1 tt demo_frame (demo_out (Some demo_screen)) = Ok (tt, o') ∧
    o_halted o' = true ∧ length (o_ports o') = 180%nat.
Proof.
  destruct (exceptions_stop demo_cpu (λ _ : unit, []) (λ _, tt) 0 tt demo_frame 0 (demo_out (Some demo_screen)))
    as ((o' & Hr & Hh & _ & Hp) & _).
  - by vm_compute.
  - exact demo_screen_ok.
  - reflexivity.
  - by vm_compute.
  - by vm_compute.
  - exists o'. split_and!; [exact Hr|exact Hh|]. rewrite Hp. vm_compute. reflexivity.
Defined.

Lemma panic_recurses_witness :
  (∃ o', activation demo_cpu (λ _ : unit, []) (λ _, tt) 1001 tt (demo_out None) = Some (tt, o') ∧ o_ports o' = []) ∧
  panic demo_cpu (λ _ : unit, []) (λ _, tt) 1000 tt (demo_out None) = Panic OutOfFuel.
Proof.
  destruct (panic_recurses demo_cpu (λ _ : unit, []) (λ _, tt) 1000 tt (demo_out None))
    as [([] & o' & Ha & Hp & _) Hr]; [done|by vm_compute|].
  split; [|exact Hr]. exists o'. split; [exact Ha|exact Hp].
Defined.

Lemma show_int_roundtrip_witness : read_int 10 0 (bytes_of_string "4096") = Some 4096.
Proof. destruct (show_int_roundtrip 10 4096) as [H _]; [lia|by vm_compute|exact H]. Defined.
