(* ===== verification/Calib.v ===== *)
(** * The set-up of a core's interrupt controller with its calibration

    Models [apic::init] ([kernel/src/proc/apic/mod.rs]) from the mapped
    registers on and [pit_calib_sleep] ([kernel/src/interrupts/pic.rs]) with
    all they write: the progress pixels, the messages, the ports of the PIT.
    The devices the core reads are lists of their answers, the latched counts
    of the PIT and the current count of the local timer.  The file shows that
    this is the set-up of the file Apic, which the start-up of the cores uses,
    with the pair of measures the loop [pit_wait] ends with. *)

From S2P Require Import Prelude Framebuffer Apic Interrupts Debug.

Definition PIT_CH0_DATA : Z := 0x40.
Definition PIT_CMD : Z := 0x43.

(** The output devices, the registers of the core's controller, and what the
    PIT and the local timer will answer. *)
Record Calib := mkCalib {
  cb_out : Out;
  cb_lapic : Lapic;
  cb_pit : list (Z * Z);
  cb_count : list Z;
}.
Definition set_cb_out (o : Out) (s : Calib) : Calib := mkCalib o (cb_lapic s) (cb_pit s) (cb_count s).
Definition set_cb_lapic (l : Lapic) (s : Calib) : Calib := mkCalib (cb_out s) l (cb_pit s) (cb_count s).
Definition set_cb_pit (p : list (Z * Z)) (s : Calib) : Calib := mkCalib (cb_out s) (cb_lapic s) p (cb_count s).
Definition set_cb_count (c : list Z) (s : Calib) : Calib := mkCalib (cb_out s) (cb_lapic s) (cb_pit s) c.
Definition display {A} (m : M Out A) : M Calib A := zoom cb_out set_cb_out m.
Definition on_apic {A} (m : M Lapic A) : M Calib A := zoom cb_lapic set_cb_lapic m.

(** [debug_printbin] through [Framebuffer::instance()]. *)
Definition screen_printbin (x y val : Z) : M Out unit := λ o,
  fb ← unwrap (FRAMEBUFFER o);
  '(_, v) ← debug_printbin x y val (mkVideo fb (o_screen o));
  mret (tt, set_video v o).

Section calib.
Variable cpu : Cpuid.
Local Notation id := (apic_id cpu).

(** [debug_set_pixel(x, base + id, color)]. *)
Definition progress (x base : Z) (color : PixelColor) : M Calib unit :=
  y ← lift (add64 base id); display (screen_pixel x y color).
Definition WHITE : PixelColor := PixelColor_from3 255 255 255.
Definition PURPLE : PixelColor := PixelColor_from3 255 0 255.

(** [APICTimerCalib::measure]: the next count the local timer shows. *)
Definition measure : M Calib Z := λ s,
  match cb_count s with c :: l => Ok (c, set_cb_count l s) | [] => Panic OutOfFuel end.
(** The latch command, and the two bytes of the latched count. *)
Definition pit_latched : M Calib (Z * Z) := λ s,
  match cb_pit s with r :: l => Ok (r, set_cb_pit l s) | [] => Panic OutOfFuel end.
Definition pit_read : M Calib (Z * Z) := _ ← display (on_ports (port_write PIT_CMD 0)); pit_latched.

(** The loop: the excess over the delay, or [None] when the count went up on a
    virtual machine. *)
Fixpoint pit_loop (fuel : nat) (ref_timer_start : Z) : M Calib (option Z) :=
  match fuel with
  | O => fail OutOfFuel
  | S fuel' =>
    r ← pit_read;
    let ref_timer_now := pit_word r in
    if isvm cpu && (ref_timer_start <? ref_timer_now) then mret None else
    d ← lift (chk 16 (ref_timer_start - ref_timer_now));
    if PIT_DELAY <=? d then
      e ← lift (chk 16 (ref_timer_start - ref_timer_now));
      e ← lift (chk 16 (e - PIT_DELAY));
      mret (Some e)
    else pit_loop fuel' ref_timer_start
  end.

Definition pit_calib_sleep (fuel : nat) : M Calib (Z * Z) :=
  _ ← progress 40 20 WHITE;
  _ ← display (println cpu [Str "Start PIT"]);
  _ ← display (on_ports (port_write PIT_CH0_DATA 0xFF));
  _ ← display (on_ports (port_write PIT_CH0_DATA 0xFF));
  r ← pit_read;
  timer_start ← measure;
  o ← pit_loop fuel (pit_word r);
  match o with
  | None => e ← lift (sub64 timer_start 884248); mret (timer_start, e)
  | Some error =>
    timer_end ← measure;
    _ ← display (println cpu [Str "Done PIT with error: "; Dec error; Str " pic tick"]);
    y ← lift (add64 20 id);
    _ ← display (screen_printbin 40 y error);
    _ ← progress 39 20 (PixelColor_from3 255 255 0);
    mret (timer_start, timer_end)
  end.

Definition apic_start (fuel : nat) (config : option (list LocalApicNmiConfig)) : M Calib Z :=
  _ ← progress 12 20 WHITE;
  _ ← on_apic (error_setup LocalApicError);
  _ ← progress 13 20 PURPLE;
  _ ← on_apic (spurious_setup LocalApicSpurious);
  _ ← progress 14 20 WHITE;
  _ ← on_apic (timer_setup LocalApicTimer Periodic 0);
  _ ← progress 15 20 PURPLE;
  _ ← on_apic (timer_reset u64_max);
  _ ← display (println cpu [Str "[Proc"; Dec id; Str "] Calibrating APIC"]);
  _ ← progress 16 20 WHITE;
  pit_calib ← pit_calib_sleep fuel;
  _ ← progress 17 20 PURPLE;
  apic_10ms ← lift (sub64 (fst pit_calib) (snd pit_calib));
  y ← lift (add64 id 1);
  _ ← display (screen_printbin 50 y apic_10ms);
  _ ← display (println cpu [Str "APIC 10ms = "; Dec apic_10ms; Str " tick"]);
  t ← lift (mul64 apic_10ms QUANTUM_MS);
  let quantum := t / 10 in
  _ ← on_apic (timer_reset quantum);
  _ ← progress 18 20 WHITE;
  _ ← on_apic (for_ (default [] config) (λ cfg,
    match cfg with
    | All lint flags => lint_setup lint flags
    | Specific cid lint flags => if cid =? id then lint_setup lint flags else mret tt
    end));
  mret quantum.
End calib.

(** ** What is written *)

(** The writes to the ports of the PIT. *)
Definition pit_writes (o : Out) : list (Z * Z) :=
  filter (λ w, fst w = PIT_CH0_DATA ∨ fst w = PIT_CMD) (o_ports o).

Section steps.
Variable cpu : Cpuid.
Local Notation id := (apic_id cpu).
Implicit Types (s : Calib) (ws : list (Z * Z)).

(** A screen that has all pixels the set-up draws, the writer free, and what
    was written to the PIT so far. *)
Definition shows ws (o : Out) : Prop := (screen_has 113 (20 + id) o ∧ o_writer o = false) ∧ pit_writes o = ws.

Lemma sent_shows ws l o : shows ws o → shows ws (sent cpu l o).
Proof.
  intros [Hs Hw]. split; [done|]. unfold pit_writes, sent. cbn [o_ports set_ports]. rewrite filter_app.
  destruct (isvm cpu); [|by rewrite app_nil_r]. induction l as [|b l IH]; [by rewrite app_nil_r|].
  cbn [fmap list_fmap]. rewrite filter_cons_False; [exact IH|]. intros [E|E]; discriminate E.
Qed.

Lemma message_yields ws ps s (Q : unit → Calib → Prop) :
  shows ws (cb_out s) → (∀ o, shows ws o → Q tt (set_cb_out o s)) → yields (display (println cpu ps)) s Q.
Proof. intros Hs HQ. apply yields_zoom. eapply yields_run; [apply println_run, Hs|]. by apply HQ, sent_shows. Qed.

Lemma mark_yields ws x y c s (Q : unit → Calib → Prop) :
  0 ≤ x ≤ 113 → 0 ≤ y ≤ 20 + id → color_ok c → shows ws (cb_out s) →
  (∀ o, shows ws o → Q tt (set_cb_out o s)) → yields (display (screen_pixel x y c)) s Q.
Proof.
  intros Hx Hy Hc [[Hs Hwr] Hw] HQ. apply yields_zoom.
  destruct (screen_pixel_run 113 (20 + id) x y c (cb_out s) Hs Hx Hy Hc) as (o & Hr & Hs' & Hp & _ & Hwr').
  eapply yields_run; [exact Hr|]. apply HQ. split; [split; [done|by rewrite Hwr']|]. unfold pit_writes. by rewrite Hp.
Qed.

Lemma progress_yields ws x base c s (Q : unit → Calib → Prop) :
  0 ≤ id < 256 → 0 ≤ x ≤ 113 → 0 ≤ base ≤ 20 → color_ok c → shows ws (cb_out s) →
  (∀ o, shows ws o → Q tt (set_cb_out o s)) → yields (progress cpu x base c) s Q.
Proof.
  intros Hid Hx Hb Hc Hs HQ. apply yields_bind. exists (base + id), s. split.
  - apply lift_run, chk_in. unfold in_width. lia.
  - by eapply mark_yields; [| |exact Hc|exact Hs|]; [lia..|].
Qed.

Lemma printbin_yields ws x y val s (Q : unit → Calib → Prop) :
  0 ≤ x ≤ 50 → 0 ≤ y ≤ 20 + id → shows ws (cb_out s) → (∀ o, shows ws o → Q tt (set_cb_out o s)) →
  yields (display (screen_printbin x y val)) s Q.
Proof.
  intros Hx Hy [[(fb & Hfb & Hg & Hdb & Hw & Hh) Hwr] Hws] HQ. apply yields_zoom.
  set (good := λ v : Video, geometry (v_fb v) ∧ double_buffer (v_fb v) = None ∧ 113 < fb_width (v_fb v) ∧ 20 + id < fb_height (v_fb v)).
  destruct (for_inv good (range 64) (λ bitindex,
    t ← lift (add64 x 64); t ← lift (sub64 t bitindex); xindex ← lift (sub64 t 1);
    let bitval := Z.land (Z.shiftr val bitindex) 1 =? 1 in
    let color := if bitval then PixelColor_from3 255 0 0 else PixelColor_from3 0 0 255 in
    set_pixel xindex y color) (mkVideo fb (o_screen (cb_out s)))) as (v & Hr & Hv1 & Hv2 & Hv3 & Hv4).
  - done.
  - intros i v Hi (Hg1 & Hd1 & Hw1 & Hh1). apply elem_of_range in Hi.
    assert (add64 x 64 = Ok (x + 64)) as E1 by (apply chk_in; unfold in_width; lia).
    assert (sub64 (x + 64) i = Ok (x + 64 - i)) as E2 by (apply chk_in; unfold in_width; lia).
    assert (sub64 (x + 64 - i) 1 = Ok (x + 64 - i - 1)) as E3 by (apply chk_in; unfold in_width; lia).
    run_step (lift_run _ v _ E1). run_step (lift_run _ v _ E2). run_step (lift_run _ v _ E3). cbv zeta.
    rewrite set_pixel_run; [|done|split; lia|by destruct (_ =? 1); vm_compute]. cbv zeta. rewrite Hd1.
    eexists. split; [reflexivity|]. split_and!; [by apply noted_geometry|done|done|done].
  - exists tt, (set_video v (cb_out s)). split.
    + unfold screen_printbin. rewrite Hfb. cbn [unwrap of_option mbind res_bind].
      assert (debug_printbin x y val (mkVideo fb (o_screen (cb_out s))) = Ok (tt, v)) as -> by exact Hr. done.
    + apply HQ. split; [split; [by exists (v_fb v)|done]|done].
Qed.

Lemma port_yields ws p b s (Q : unit → Calib → Prop) :
  p = PIT_CH0_DATA ∨ p = PIT_CMD → shows ws (cb_out s) →
  (∀ o, shows (ws ++ [(p, b)]) o → Q tt (set_cb_out o s)) → yields (display (on_ports (port_write p b))) s Q.
Proof.
  intros Hp [Hs Hw] HQ. apply yields_zoom, yields_zoom. eapply yields_run; [reflexivity|]. apply HQ.
  split; [done|]. unfold pit_writes. cbn [o_ports set_ports]. rewrite filter_app, filter_cons_True by done.
  unfold pit_writes in Hw. by rewrite Hw.
Qed.

Lemma apic_yields (m : M Lapic unit) l s (Q : unit → Calib → Prop) :
  m (cb_lapic s) = Ok (tt, l) → Q tt (set_cb_lapic l s) → yields (on_apic m) s Q.
Proof. intros Hm HQ. apply yields_zoom. by eapply yields_run. Qed.

Lemma lift_yields {A} (m : res A) a s (Q : A → Calib → Prop) : m = Ok a → Q a s → yields (lift m) s Q.
Proof. intros E HQ. by eapply yields_run; [apply lift_run|]. Qed.
End steps.

(** ** The calibration *)

Section calibration.
Variable cpu : Cpuid.
Local Notation id := (apic_id cpu).
Implicit Types (s : Calib) (ws : list (Z * Z)).
Notation shows := (shows cpu).

Lemma pit_read_yields ws r reads s (Q : Z * Z → Calib → Prop) :
  shows ws (cb_out s) → cb_pit s = r :: reads →
  (∀ o, shows (ws ++ [(PIT_CMD, 0)]) o → Q r (mkCalib o (cb_lapic s) reads (cb_count s))) → yields pit_read s Q.
Proof.
  intros Hs Hp HQ. apply yields_bind. eapply (port_yields cpu); [by right|exact Hs|]. intros o Ho.
  eapply yields_run; [unfold pit_latched; cbn [cb_pit set_cb_out]; rewrite Hp; reflexivity|]. by apply HQ.
Qed.

Lemma measure_yields c l s (Q : Z → Calib → Prop) :
  cb_count s = c :: l → Q c (set_cb_count l s) → yields measure s Q.
Proof. intros Hc HQ. eapply yields_run; [unfold measure; rewrite Hc; reflexivity|done]. Qed.

(** The loop ends as [pit_wait] does on the same counts. *)
Lemma pit_loop_yields reads fuel start t0 t1 c ws s (Q : option Z → Calib → Prop) :
  pit_wait (isvm cpu) start t0 t1 reads = Ok (Some c) → cb_pit s = reads → (length reads ≤ fuel)%nat →
  shows ws (cb_out s) →
  (∀ used rest o e, reads = used ++ rest → shows (ws ++ replicate (length used) (PIT_CMD, 0)) o →
    match e with None => sub64 t0 884248 = Ok (snd c) ∧ fst c = t0 | Some _ => c = (t0, t1) end →
    Q e (mkCalib o (cb_lapic s) rest (cb_count s))) →
  yields (pit_loop cpu fuel start) s Q.
Proof.
  revert fuel ws s. induction reads as [|r reads IH]; intros [|fuel] ws s Hw Hp Hf Hs HQ; cbn [length pit_wait] in *; try done; [lia|].
  cbn [pit_loop]. apply yields_bind. eapply pit_read_yields; [exact Hs|exact Hp|]. intros o Ho. cbv zeta in Hw |- *.
  destruct (isvm cpu && (start <? pit_word r)).
  - destruct (sub64 t0 884248) as [e|] eqn:E; [|done]. injection Hw as <-.
    eapply yields_run; [reflexivity|]. by apply (HQ [r]).
  - destruct (chk 16 (start - pit_word r)) as [d|] eqn:Ed; [|done]. cbn [mbind res_bind] in Hw.
    apply yields_bind. eapply lift_yields; [reflexivity|]. pose proof Ed as [-> Hd]%chk_Ok.
    destruct (Z.leb_spec PIT_DELAY (start - pit_word r)).
    + injection Hw as <-. apply yields_bind. eapply lift_yields; [reflexivity|].
      apply yields_bind. eapply lift_yields; [apply chk_in; unfold in_width, PIT_DELAY in *; lia|].
      eapply yields_run; [reflexivity|]. by apply (HQ [r]).
    + eapply IH; [exact Hw|done|lia|exact Ho|]. intros used rest o' e -> Ho'. rewrite <-app_assoc in Ho'.
      by apply (HQ (r :: used)).
Qed.

Lemma white_ok : color_ok WHITE.
Proof. by vm_compute. Qed.
Lemma purple_ok : color_ok PURPLE.
Proof. by vm_compute. Qed.

(** What is written to the PIT in a calibration whose loop makes [n] turns: the
    start value, a latch for the first reading and one for each turn. *)
Definition calib_writes (n : nat) : list (Z * Z) :=
  [(PIT_CH0_DATA, 0xFF); (PIT_CH0_DATA, 0xFF)] ++ replicate (S n) (PIT_CMD, 0).

Lemma pit_calib_yields w0 reads fuel t0 t1 c ws s (Q : Z * Z → Calib → Prop) :
  0 ≤ id < 256 → pit_wait (isvm cpu) (pit_word w0) t0 t1 reads = Ok (Some c) → cb_pit s = w0 :: reads →
  cb_count s = [t0; t1] → (length reads ≤ fuel)%nat → shows ws (cb_out s) →
  (∀ used rest o l, reads = used ++ rest → shows (ws ++ calib_writes (length used)) o →
    Q c (mkCalib o (cb_lapic s) rest l)) →
  yields (pit_calib_sleep cpu fuel) s Q.
Proof.
  intros Hid Hw Hp Hc Hf Hs HQ. unfold pit_calib_sleep.
  apply yields_bind. eapply (progress_yields cpu); [done|lia|lia|exact white_ok|exact Hs|]. intros o1 Ho1.
  apply yields_bind. eapply (message_yields cpu); [exact Ho1|]. intros o2 Ho2.
  apply yields_bind. eapply (port_yields cpu); [by left|exact Ho2|]. intros o3 Ho3.
  apply yields_bind. eapply (port_yields cpu); [by left|exact Ho3|]. intros o4 Ho4.
  apply yields_bind. eapply pit_read_yields; [exact Ho4|exact Hp|]. intros o5 Ho5.
  apply yields_bind. eapply measure_yields; [exact Hc|].
  apply yields_bind. eapply pit_loop_yields; [exact Hw|done|done|exact Ho5|]. intros used rest o6 e Hu Ho6 He.
  rewrite <-!app_assoc in Ho6.
  destruct e as [e|].
  - subst c. apply yields_bind. eapply measure_yields; [reflexivity|].
    apply yields_bind. eapply (message_yields cpu); [exact Ho6|]. intros o7 Ho7.
    apply yields_bind. eapply lift_yields; [apply chk_in; unfold in_width; lia|].
    apply yields_bind. eapply (printbin_yields cpu); [lia|lia|exact Ho7|]. intros o8 Ho8.
    apply yields_bind. eapply (progress_yields cpu); [done|lia|lia|by vm_compute|exact Ho8|]. intros o9 Ho9.
    eapply yields_run; [reflexivity|]. by apply (HQ used).
  - destruct He as [He <-]. apply yields_bind. eapply lift_yields; [exact He|].
    eapply yields_run; [reflexivity|]. rewrite <-surjective_pairing. by apply (HQ used).
Qed.

(** C29. The set-up of a core with everything it writes is the set-up of the
    registers with the pair of measures the loop ends with: on a screen that
    is large enough, with the writer of messages free, for whatever the PIT
    answers as long as the loop ends, the registers and the quantum are the
    same; and the PIT is written its start value and one latch command for
    each count that is read ([used] are the counts the loop consumes, after
    the first), nothing else. *)
Theorem apic_start_refines fuel config w0 reads t0 t1 c q l s :
  0 ≤ id < 256 → screen_has 113 (20 + id) (cb_out s) → o_writer (cb_out s) = false → cb_pit s = w0 :: reads → cb_count s = [t0; t1] →
  (length reads ≤ fuel)%nat → pit_wait (isvm cpu) (pit_word w0) t0 t1 reads = Ok (Some c) →
  apic_init id c (default [] config) (cb_lapic s) = Ok (q, l) →
  ∃ used s', apic_start cpu fuel config s = Ok (q, s') ∧ cb_lapic s' = l ∧ reads = used ++ cb_pit s' ∧
    pit_writes (cb_out s') = pit_writes (cb_out s) ++ calib_writes (length used).
Proof.
  intros Hid Hscreen Hwr Hp Hc Hf Hw Hinit.
  cut (yields (apic_start cpu fuel config) s (λ q' s', q' = q ∧ cb_lapic s' = l ∧
    ∃ used, reads = used ++ cb_pit s' ∧ shows (pit_writes (cb_out s) ++ calib_writes (length used)) (cb_out s'))).
  { intros (q' & s' & Hr & -> & Hl & used & Hu & _ & Hpw). by exists used, s'. }
  assert (shows (pit_writes (cb_out s)) (cb_out s)) as Hs by done. set (ws := pit_writes (cb_out s)) in *. clearbody ws.
  unfold apic_init in Hinit.
  apply M_bind_Ok in Hinit as ([] & l1 & H1 & Hinit). apply M_bind_Ok in Hinit as ([] & l2 & H2 & Hinit).
  apply M_bind_Ok in Hinit as ([] & l3 & H3 & Hinit). apply M_bind_Ok in Hinit as ([] & l4 & H4 & Hinit).
  apply M_bind_Ok in Hinit as (q0 & l4' & [Hq ->]%lift_Ok & Hinit). apply M_bind_Ok in Hinit as ([] & l5 & H5 & Hinit).
  apply M_bind_Ok in Hinit as ([] & l6 & H6 & Hinit). injection Hinit as -> ->.
  unfold quantum_of in Hq. destruct (sub64 (fst c) (snd c)) as [d|] eqn:Ed; [|done]. cbn [mbind res_bind] in Hq.
  destruct (mul64 d QUANTUM_MS) as [t|] eqn:Et; [|done]. injection Hq as <-.
  unfold apic_start.
  apply yields_bind. eapply (progress_yields cpu); [done|lia|lia|exact white_ok|exact Hs|]. intros o1 Ho1.
  apply yields_bind. eapply apic_yields; [exact H1|].
  apply yields_bind. eapply (progress_yields cpu); [done|lia|lia|exact purple_ok|exact Ho1|]. intros o2 Ho2.
  apply yields_bind. eapply apic_yields; [exact H2|].
  apply yields_bind. eapply (progress_yields cpu); [done|lia|lia|exact white_ok|exact Ho2|]. intros o3 Ho3.
  apply yields_bind. eapply apic_yields; [exact H3|].
  apply yields_bind. eapply (progress_yields cpu); [done|lia|lia|exact purple_ok|exact Ho3|]. intros o4 Ho4.
  apply yields_bind. eapply apic_yields; [exact H4|].
  apply yields_bind. eapply (message_yields cpu); [exact Ho4|]. intros o5 Ho5.
  apply yields_bind. eapply (progress_yields cpu); [done|lia|lia|exact white_ok|exact Ho5|]. intros o6 Ho6.
  apply yields_bind. eapply pit_calib_yields; [done|exact Hw|exact Hp|exact Hc|done|exact Ho6|].
  intros used rest o7 cs Hu Ho7.
  apply yields_bind. eapply (progress_yields cpu); [done|lia|lia|exact purple_ok|exact Ho7|]. intros o8 Ho8.
  apply yields_bind. eapply lift_yields; [exact Ed|].
  apply yields_bind. eapply lift_yields; [apply chk_in; unfold in_width; lia|].
  apply yields_bind. eapply (printbin_yields cpu); [lia|lia|exact Ho8|]. intros o9 Ho9.
  apply yields_bind. eapply (message_yields cpu); [exact Ho9|]. intros o10 Ho10.
  apply yields_bind. eapply lift_yields; [exact Et|]. cbv zeta.
  apply yields_bind. eapply apic_yields; [exact H5|].
  apply yields_bind. eapply (progress_yields cpu); [done|lia|lia|exact white_ok|exact Ho10|]. intros o11 Ho11.
  apply yields_bind. eapply apic_yields; [exact H6|].
  eapply yields_run; [reflexivity|]. split_and!; [done|done|]. by exists used.
Qed.
End calibration.

(** ** A concrete calibration *)

Definition demo_calib : Calib :=
  mkCalib (demo_out (Some (mkFramebuffer Argb 128 64 512 0x1000 None None None))) (mkLapic 0 0 0 0 0 0 0 0)
    [(0xFF, 0xFF); (0, 0xF0); (0, 0xC0); (7, 7)] [1000000; 900000].

Lemma apic_start_refines_witness :
  ∃ s', apic_start demo_cpu 3 None demo_calib = Ok (1000000000, s') ∧
    initcountreg (cb_lapic s') = 1000000000 ∧ pit_writes (cb_out s') = calib_writes 2 ∧ cb_pit s' = [(7, 7)].
Proof.
  destruct (apic_start_refines demo_cpu 3 None (0xFF, 0xFF) [(0, 0xF0); (0, 0xC0); (7, 7)] 1000000 900000 (1000000, 900000)
    1000000000 (mkLapic 0 0x1FF 0x200F0 0 0 0xFD 1000000000 11) demo_calib) as (used & s' & Hr & Hl & Hu & Hw).
  - by vm_compute.
  - eexists. split; [reflexivity|]. split_and!; [split; [by vm_compute..|by left]|by vm_compute..].
  - reflexivity.
  - reflexivity.
  - reflexivity.
  - simpl. lia.
  - by vm_compute.
  - vm_compute. reflexivity.
  - assert (cb_pit s' = [(7, 7)]) as Hp.
    { apply (f_equal (λ r, match r with Ok (_, s) => cb_pit s | Panic _ => [] end)) in Hr. symmetry. exact Hr. }
    rewrite Hp in Hu. change [(0, 0xF0); (0, 0xC0); (7, 7)] with ([(0, 0xF0); (0, 0xC0)] ++ [(7, 7)]) in Hu.
    apply app_inv_tail in Hu. subst used. exists s'. split_and!; [exact Hr|by rewrite Hl|exact Hw|exact Hp].
Defined.
