(* ===== verification/Start.v ===== *)
(** * The entry point of the kernel

    Models [_start] ([kernel/src/main.rs]) on the primary core, with
    [mem::init] ([kernel/src/mem/mod.rs]) and [console::init]
    ([kernel/src/dev/console.rs]): the components of the other files in the
    order the kernel calls them, on one state.  The last call, [ignite], is the
    first step of the file Startup.  The messages of [_start] itself are
    printed as the code does; those of the components are left out, as in
    their files. *)

From S2P Require Import Prelude X86 FrameAlloc WindowCache VCache Bootboot Phys Mapper Mem Heap Boot EarlyHeap Tar.
From S2P Require Import Framebuffer Apic Acpi Cores Interrupts Debug Handover.

(** What the loader and the linker give the kernel: the boot information, the
    bytes of the ramdisk, the address of the framebuffer, that of
    [EARLY_HEAP], the answer of [cpuid] on the primary core, and the hardware
    the tables are read from, with the root of the loader's page tables. *)
Record Boot := mkBoot {
  bt_bb : BootBoot;
  bt_image : list Z;
  bt_fb_virt : Z;
  bt_early : Z;
  bt_cpu : Cpuid;
  bt_hw : Hw;
}.

(** The statics of all components. *)
Record Sys `{HeapCrate, GdtCrate} := mkSys {
  y_out : Out;
  y_early : LHeap;
  y_glob : LHeap;
  y_kmem : Kmem PhysicalFrameAllocator VCache;
  y_head : Z;
  y_count : Z;
  y_regs : gmap Z Regs;
  y_idt : gmap Z IdtEntry;
  y_initrd : option Initrd;
  y_handlers : gmap (list Z) (list Handler);
  y_redirection : option (gmap IoApicRedirectionSource Z);
  y_ioapic : option (list IoApicInfo);
  y_config : option (list LocalApicNmiConfig);
  y_numcores : Z;
}.

Section start.
Context {X : X86} {H : HeapCrate} {G : GdtCrate}.
Notation P := PhysicalFrameAllocator.
Implicit Types (y : Sys).

(** The components as parts of the state. *)
Definition set_y_out (o : Out) y : Sys :=
  mkSys _ _ o (y_early y) (y_glob y) (y_kmem y) (y_head y) (y_count y) (y_regs y) (y_idt y) (y_initrd y)
    (y_handlers y) (y_redirection y) (y_ioapic y) (y_config y) (y_numcores y).
Definition set_y_heaps (e g : LHeap) y : Sys :=
  mkSys _ _ (y_out y) e g (y_kmem y) (y_head y) (y_count y) (y_regs y) (y_idt y) (y_initrd y)
    (y_handlers y) (y_redirection y) (y_ioapic y) (y_config y) (y_numcores y).
Definition set_y_kmem (k : Kmem P VCache) y : Sys :=
  mkSys _ _ (y_out y) (y_early y) (y_glob y) k (y_head y) (y_count y) (y_regs y) (y_idt y) (y_initrd y)
    (y_handlers y) (y_redirection y) (y_ioapic y) (y_config y) (y_numcores y).
Definition set_y_heap (h : Heap P VCache) y : Sys :=
  mkSys _ _ (y_out y) (y_early y) (y_glob y) (h_kmem h) (HEAP_HEAD h) (EXPAND_COUNT h) (y_regs y) (y_idt y)
    (y_initrd y) (y_handlers y) (y_redirection y) (y_ioapic y) (y_config y) (y_numcores y).
Definition set_y_cores (c : Cores P VCache) y : Sys :=
  mkSys _ _ (y_out y) (y_early y) (y_glob y) (cs_kmem c) (y_head y) (y_count y) (cs_regs c) (y_idt y) (y_initrd y)
    (y_handlers y) (y_redirection y) (y_ioapic y) (y_config y) (y_numcores y).
Definition set_y_idt (t : gmap Z IdtEntry) y : Sys :=
  mkSys _ _ (y_out y) (y_early y) (y_glob y) (y_kmem y) (y_head y) (y_count y) (y_regs y) t (y_initrd y)
    (y_handlers y) (y_redirection y) (y_ioapic y) (y_config y) (y_numcores y).
Definition set_y_initrd (i : Initrd) y : Sys :=
  mkSys _ _ (y_out y) (y_early y) (y_glob y) (y_kmem y) (y_head y) (y_count y) (y_regs y) (y_idt y) (Some i)
    (y_handlers y) (y_redirection y) (y_ioapic y) (y_config y) (y_numcores y).
Definition set_y_handlers (h : gmap (list Z) (list Handler)) y : Sys :=
  mkSys _ _ (y_out y) (y_early y) (y_glob y) (y_kmem y) (y_head y) (y_count y) (y_regs y) (y_idt y) (y_initrd y)
    h (y_redirection y) (y_ioapic y) (y_config y) (y_numcores y).
Definition set_y_acpi (a : Acpi P VCache) y : Sys :=
  mkSys _ _ (y_out y) (y_early y) (y_glob y) (a_kmem a) (y_head y) (y_count y) (y_regs y) (y_idt y) (y_initrd y)
    (y_handlers y) (IOAPIC_REDIRECTION a) (IOAPIC a) (APIC_CONFIG a) (NUMCORES a).

Definition as_heap y : Heap P VCache := mkHeap (y_kmem y) (y_head y) (y_count y).
Definition as_cores y : Cores P VCache := mkCores (y_kmem y) ∅ ∅ ∅ None None (y_regs y) ∅.
Definition as_acpi y : Acpi P VCache :=
  mkAcpi (y_kmem y) (y_redirection y) (y_ioapic y) (y_config y) (y_numcores y) ∅ 0.

Definition on_out {A} (m : M Out A) : M Sys A := zoom y_out set_y_out m.
Definition on_y_kmem {A} (m : M (Kmem P VCache) A) : M Sys A := zoom y_kmem set_y_kmem m.

Context (bt : Boot).
Local Notation bb := (bt_bb bt).
Local Notation cr3 := (hw_cr3 (bt_hw bt)).
Local Notation cpu := (bt_cpu bt).

(** [heap::init], with the initialisation of [GLOB_ALLOCATOR]. *)
Definition heap_start : M Sys unit :=
  _ ← zoom as_heap set_y_heap heap_init;
  modify (λ y, set_y_heaps (y_early y) (lh_init HEAP_START HEAP_SIZE (y_glob y)) y).

(** [mem::init]. *)
Definition mem_init : M Sys unit :=
  _ ← zoom as_cores set_y_cores (basic_init (apic_id cpu));
  _ ← zoom y_early (λ e y, set_y_heaps e (y_glob y) y) (early_heap_init (bt_early bt));
  p ← lift (phys_init bb);
  _ ← on_y_kmem (modify (set_pmm p));
  _ ← on_y_kmem (virt_init cr3);
  heap_start.

(** [initrd::init]: [INITRD.call_once(init_map)]. *)
Definition initrd_start : M Sys unit :=
  r ← on_y_kmem (initrd_init bb (bt_image bt));
  i ← lift (match r with Some i => i | None => Panic OutOfFuel end);
  modify (λ y, match y_initrd y with Some _ => y | None => set_y_initrd i y end).

Definition FONT_PATH : list Z := bytes_of_string "/sys/font.psf".
(** [console::init]. *)
Definition console_init : M Sys unit :=
  y ← get;
  fontfile ← lift (open_file (y_initrd y) FONT_PATH);
  on_out (println cpu [Str "file found: "; Str (if decide (is_Some fontfile) then "true" else "false")]).

Definition pixel (x y r g b : Z) : M Sys unit := on_out (screen_pixel x y (PixelColor_from3 r g b)).
Definition message (s : string) : M Sys unit := on_out (println cpu [Str s]).

(** [_start] on the primary core, up to the call of [ignite]. *)
Definition start (depth fuel : nat) : M Sys unit :=
  _ ← on_out (modify (set_if false));
  _ ← on_out (framebuffer_init (bb_fb_type bb) (bb_fb_width bb) (bb_fb_height bb) (bb_fb_scanline bb) (bt_fb_virt bt));
  _ ← pixel 0 0 255 255 255;
  _ ← (if isvm cpu then message "Running in VM" else message "Running on hardware");
  _ ← message "Disabling PIC";
  _ ← on_out (on_ports disable);
  _ ← pixel 0 1 255 255 0;
  _ ← message "Initializing memory";
  _ ← mem_init;
  _ ← pixel 0 2 0 255 255;
  _ ← message "Initializing interrupt table.";
  _ ← modify (λ y, set_y_idt (interrupts_init (y_idt y)) y);
  _ ← message "Initializing INITRD.";
  _ ← initrd_start;
  _ ← message "Initializing console";
  _ ← console_init;
  _ ← message "Initializing Config Tables.";
  _ ← modify (set_y_handlers cfgtb_init);
  _ ← pixel 0 3 0 0 255;
  _ ← message "ACPI Lookup.";
  _ ← (λ y, zoom as_acpi set_y_acpi
         (acpi_init (bt_hw bt) depth fuel (y_handlers y) (acpi_ptr (bb_arch bb))) y);
  _ ← pixel 0 4 255 0 0;
  message "Processor ignition.".

(** [late_start], with [dev::init], which does nothing. *)
Definition late_start : M Sys unit :=
  _ ← pixel 0 5 255 255 255;
  message "Device Initialization.".
End start.

(** ** Memory that is ready for use *)

Section ready.
Context {X : X86} {XO : X86Ok X}.
Notation K := (Kmem PhysicalFrameAllocator VCache).
Implicit Types (k : K).

(** The tables are well formed, two windows and [n] frames are free, and no
    page of user space or of the kernel's part of the address space, the
    cache excepted, is below a huge page.  The last entry of the root is the
    loader's. *)
Record mem_ready k (cr3 : Z) (lv : Z → nat) (n : nat) : Prop := {
  md_inv : kmem_inv k cr3 lv;
  md_room : has_room (wc_shows (k_vc k)) 2;
  md_clear q : canonical q = true → ¬ in_cache q → q < 2 ^ 64 - 2 ^ 39 →
    clear_path (k_mem k) cr3 (page_path q) = true;
  md_free : (n ≤ base.size (fa_free (k_pmm k)))%nat;
}.

Lemma mem_ready_step k k' cr3 lv lv' m n ps :
  mem_ready k cr3 lv (m + n) → kmem_inv k' cr3 lv' → remaps m cr3 ps k k' →
  same_windows (wc_shows (k_vc k)) (wc_shows (k_vc k')) [] → mem_ready k' cr3 lv' n.
Proof.
  intros [Hinv Hroom Hcl Hfree] Hinv' Hrm Hsw. pose proof (rm_size _ _ _ _ _ Hrm). split; [done| | |lia].
  - by eapply same_windows_room.
  - intros q Hc Hout Hq. apply (rm_clear _ _ _ _ _ Hrm); [apply page_indices_lt|simpl; lia|by apply Hcl].
Qed.

Lemma mem_ready_le k cr3 lv m n : (m ≤ n)%nat → mem_ready k cr3 lv n → mem_ready k cr3 lv m.
Proof. intros Hle [H1 H2 H3 H4]. split; try done. lia. Qed.

(** Memory the kernel leaves alone: it is no page table, and it is not free,
    so that it will not be handed out. *)
Definition outside k (f : Z) : Prop := f ∉ fa_free (k_pmm k) ∧ k_mem k !! f = None.

Lemma outside_mono k k' f :
  fa_free (k_pmm k') ⊆ fa_free (k_pmm k) →
  (∀ g, is_Some (k_mem k' !! g) → is_Some (k_mem k !! g) ∨ g ∈ fa_free (k_pmm k) ∖ fa_free (k_pmm k')) →
  outside k f → outside k' f.
Proof.
  intros Hfree Hdom [Hf Hm]. split; [set_solver|]. apply eq_None_not_Some. intros Hs.
  destruct (Hdom f Hs) as [[t Ht]|Hin]; [congruence|set_solver].
Qed.
Lemma outside_remaps n cr3 ps k k' f : remaps n cr3 ps k k' → outside k f → outside k' f.
Proof. intros Hrm. apply outside_mono; apply Hrm. Qed.

(** The loader leaves the entries of the root that the kernel uses empty. *)
Definition root_unused (t : list Z) : Prop :=
  ∀ i, (256 ≤ i < 511)%nat → ∃ e, t !! i = Some e ∧ pte_is_unused e = true.

Lemma root_unused_clear mem cr3 t q :
  mem !! cr3 = Some t → root_unused t → KVMSPACE ≤ q < 2 ^ 64 - 2 ^ 39 →
  clear_path mem cr3 (page_path q) = true.
Proof.
  intros Ht Hun Hq. unfold page_path. cbn [clear_path]. rewrite Ht.
  destruct (Hun (p4_index q)) as (e & -> & ->); [|done]. rewrite p4_index_spec. unfold KVMSPACE in Hq. zlia.
Qed.

Lemma taken_over_ready k k' cr3 lv' t n :
  taken_over cr3 k k' lv' → k_mem k !! cr3 = Some t → root_unused t →
  (6 + 3 * Z.to_nat (header_pages (k_pmm k)) + n ≤ base.size (fa_free (k_pmm k)))%nat → mem_ready k' cr3 lv' n.
Proof.
  intros Hto Ht Hun Hsz. pose proof (to_size _ _ _ _ Hto). split; [apply Hto|apply Hto| |lia].
  intros q Hc Hout Hq. pose proof Hc as [Hlo|Hhi]%canonical_iff; [by apply (to_low_clear _ _ _ _ Hto)|].
  apply (to_clear _ _ _ _ Hto); [done|unfold KVMSPACE; lia|done|]. eapply root_unused_clear; [done..|]. unfold KVMSPACE. lia.
Qed.
End ready.

(** ** The steps on memory *)

Section steps.
Context {X : X86} {XO : X86Ok X}.
Notation K := (Kmem PhysicalFrameAllocator VCache).
Implicit Types (k : K).

(** A page of the kernel's part of the address space above the cache. *)
Lemma kernel_page q :
  START_ADDR + VC_SIZE ≤ q < 2 ^ 64 - 2 ^ 39 → q mod PAGE_SIZE = 0 → good_page q ∧ ¬ in_cache q.
Proof.
  intros Hq Ha. unfold in_cache. split; [split; [|by apply page_aligned_iff]|lia].
  apply canonical_iff. unfold START_ADDR, KVMSPACE, VC_SIZE, P1PAGE_COUNT, PAGE_SIZE in *. lia.
Qed.

(** The pages of a request there. *)
Lemma kernel_range base n k cr3 lv m i :
  START_ADDR + VC_SIZE ≤ base → base mod PAGE_SIZE = 0 → base + n * PAGE_SIZE ≤ 2 ^ 64 - 2 ^ 39 →
  mem_ready k cr3 lv m → 0 ≤ i < n →
  good_page (base + i * PAGE_SIZE) ∧ START_ADDR + VC_SIZE ≤ base + i * PAGE_SIZE ∧
  clear_path (k_mem k) cr3 (page_path (base + i * PAGE_SIZE)) = true.
Proof.
  intros Hb Ha Hn Hk Hi.
  destruct (kernel_page (base + i * PAGE_SIZE)) as [Hg Hout]; [unfold PAGE_SIZE in *; lia|unfold PAGE_SIZE in *; zlia|].
  split_and!; [done|unfold PAGE_SIZE; lia|]. apply (md_clear _ _ _ _ Hk); [apply Hg|done|unfold PAGE_SIZE in *; lia].
Qed.

Lemma heap_valloc k cr3 lv n :
  mem_ready k cr3 lv (32 + n) →
  ∃ fs k' lv', valloc HEAP_START (FRAG_SIZE / PAGE_SIZE) WRITABLE k = Ok (tt, k') ∧ mem_ready k' cr3 lv' n ∧
    backs k k' cr3 HEAP_START WRITABLE (range 8) fs ∧ remaps 32 cr3 (request_pages HEAP_START (range 8)) k k'.
Proof.
  intros Hk. change (FRAG_SIZE / PAGE_SIZE) with 8.
  destruct (valloc_run k HEAP_START 8 WRITABLE cr3 lv) as (fs & k' & lv' & Hr & Hinv & Hb & Hrm & Hsw);
    [apply Hk|by vm_compute|apply kernel_flags_const|lia|unfold PAGE_SIZE; lia| | |apply Hk|].
  - intros i Hi. destruct (kernel_range HEAP_START 8 k cr3 lv (32 + n) i) as (? & ? & ?); try done.
    split_and!; try done. by right.
  - pose proof (md_free _ _ _ _ Hk). change (Z.to_nat 8) with 8%nat. lia.
  - exists fs, k', lv'. split_and!; try done. by eapply mem_ready_step.
Qed.

(** The ramdisk: mapped at its address, and indexed. *)
Lemma initrd_map bb img k cr3 lv n :
  page_aligned (bb_initrd_ptr bb) = true → 0 ≤ bb_initrd_ptr bb → 0 < bb_initrd_size bb ≤ 2 ^ 38 →
  bb_initrd_ptr bb + bb_initrd_size bb + PAGE_SIZE ≤ 2 ^ 52 →
  mem_ready k cr3 lv (3 * Z.to_nat (pages_for (bb_initrd_size bb)) + n) →
  ∃ k' lv', initrd_init bb img k = Ok (init_map img (bb_initrd_size bb), k') ∧ mem_ready k' cr3 lv' n ∧
    (∀ i, 0 ≤ i < pages_for (bb_initrd_size bb) → translate (k_mem k') cr3 (INITRD_START + i * PAGE_SIZE) =
      Some (bb_initrd_ptr bb + i * PAGE_SIZE, leaf_flags INITRD_START 0)) ∧
    remaps (3 * Z.to_nat (pages_for (bb_initrd_size bb))) cr3
      (request_pages INITRD_START (range (pages_for (bb_initrd_size bb)))) k k'.
Proof.
  intros Ha H0 Hsz Hmax Hk. pose proof (pages_for_bound (bb_initrd_size bb) ltac:(lia)) as [Hp1 Hp2].
  pose proof Ha as Ha'%page_aligned_iff. unfold PAGE_SIZE in Hmax, Hp2, Ha'.
  destruct (kernel_map_ok k INITRD_START (bb_initrd_ptr bb) (bb_initrd_size bb) 0 cr3 lv)
    as (k' & lv' & Hr & Hinv & Htr & Hrm & Hsw & _); try apply Hk; try (unfold PAGE_SIZE; lia).
  - apply kernel_flags_const.
  - right. by vm_compute.
  - intros i Hi. destruct (kernel_range INITRD_START (pages_for (bb_initrd_size bb)) k cr3 lv (3 * Z.to_nat (pages_for (bb_initrd_size bb)) + n) i)
      as (? & ? & ?); try done; [unfold INITRD_START, PAGE_SIZE; lia|].
    split_and!; try done. split; [apply page_aligned_iff; unfold PAGE_SIZE; zlia|unfold in_width, PAGE_SIZE; lia].
  - pose proof (md_free _ _ _ _ Hk). lia.
  - exists k', lv'. split_and!; try done; [|by eapply mem_ready_step].
    unfold initrd_init.
    assert (of_option Crate (phys_new (bb_initrd_ptr bb)) = Ok (bb_initrd_ptr bb)) as E1.
    { rewrite phys_new_spec by (unfold in_width; lia). by destruct (Z.ltb_spec (bb_initrd_ptr bb) (2 ^ 52)); [|lia]. }
    assert (unwrap (frame_from_start (bb_initrd_ptr bb)) = Ok (bb_initrd_ptr bb)) as E2.
    { rewrite frame_from_start_spec by (unfold in_width; lia). by rewrite Ha. }
    run_step (lift_run _ k _ E1). run_step (lift_run _ k _ E2). unfold vmap. run_step Hr. done.
Qed.

Lemma ioapics_le items : (length (ioapics items) ≤ length items)%nat.
Proof.
  unfold ioapics. induction items as [|it items IH]; [done|]. cbn [omap list_omap length].
  destruct (item_ioapic it); cbn [length]; lia.
Qed.

(** The firmware's tables, with [n] frames to spare at the end. *)
Lemma acpi_walk hw (s : Acpi PhysicalFrameAllocator VCache) padr l ts lv depth fuel n :
  xsdt_image l (fst <$> ts) → fw_at hw (a_kmem s) padr l → Forall (listed_ok hw (a_kmem s) fuel) ts →
  NUMCORES s = 0 → IOAPIC s = None → Z.of_nat (length (listed_items ts) + length ts + n) < 65536 →
  mem_ready (a_kmem s) (hw_cr3 hw) lv (3 * (S (length ts) + (length (ioapics (listed_items ts)) + n))) →
  ∃ s' lv', acpi_init hw (S (S depth)) fuel cfgtb_init padr s = Ok (tt, s') ∧
    walked hw (listed_items ts) (set_locals ∅ 0 s) s' ∧ mem_ready (a_kmem s') (hw_cr3 hw) lv' (3 * n).
Proof.
  intros Hx Hfw Hts H0 Hio Hn Hk.
  assert (length (ioapics (listed_items ts)) ≤ length (listed_items ts))%nat as Hle by apply ioapics_le.
  destruct (acpi_init_run hw s padr l ts lv depth fuel n) as (s' & lv' & Hr & Hw & Har); try done; try lia.
  - split; cbn [a_kmem set_locals IOAPIC vmemmap pgindex].
    + split; cbn [a_kmem set_locals IOAPIC]; rewrite ?Hio; cbn [default length].
      * apply Hk.
      * apply Hk.
      * pose proof (md_free _ _ _ _ Hk). lia.
      * intros j Hj. destruct (ioapic_page_good j ltac:(lia)) as ([Hc Ha] & Hst & Hr1 & Hr2).
        apply (md_clear _ _ _ _ Hk); [done|unfold in_cache; lia|]. unfold TABLE_VBASE, KVMSPACE in Hr2. lia.
      * lia.
    + pose proof (md_free _ _ _ _ Hk). lia.
    + lia.
    + intros j Hj. destruct (table_page_good j ltac:(lia)) as ([Hc Ha] & Hst & _).
      apply (md_clear _ _ _ _ Hk); [done|unfold in_cache; lia|]. unfold table_page, TABLE_VBASE, KVMSPACE, PAGE_SIZE. lia.
    + intros f page Hf. by rewrite lookup_empty in Hf.
  - exists s', lv'. split_and!; try done. destruct Har as [[Hinv Hroom Hfr Hcl Hb] _ _ _ _]. split; try done.
    intros q Hc Hout Hq. destruct (wk_remaps _ _ _ _ Hw) as (m & ps & Hrm & _).
    apply (rm_clear _ _ _ _ _ Hrm); [apply page_indices_lt|simpl; lia|]. by apply (md_clear _ _ _ _ Hk).
Qed.
End steps.

(** ** The whole sequence *)

Section output_steps.
Context {X : X86} {H : HeapCrate} {G : GdtCrate} (bt : Boot).
Local Notation id := (apic_id (bt_cpu bt)).
Implicit Types (y : Sys) (Q : unit → Sys → Prop).

(** The two controllers are silent whatever they were before: everything the
    kernel wrote after the masks goes to other ports. *)
Definition silent (o : Out) : Prop :=
  ∀ c, foldl (λ c w, pic_write w c) c (o_ports o) = (mkPic 0 0x20 4 1 0xFF, mkPic 0 0x28 2 1 0xFF).

(** What the output devices keep from the first pixel on, and from the masks
    on. *)
Definition out_ok (b : bool) (o : Out) : Prop :=
  screen_ok id o ∧ (o_if o = false ∧ o_writer o = false) ∧ (b = true → silent o).

Lemma sent_silent (cpu : Cpuid) l o : silent o → silent (sent cpu l o).
Proof.
  intros Hs c. unfold sent. cbn [o_ports set_ports]. rewrite foldl_app, Hs. destruct (isvm cpu); [|done].
  induction l as [|x l IH]; [done|]. exact IH.
Qed.

Lemma pixel_yields b x v r g bl y Q :
  0 ≤ id → 0 ≤ x ≤ 30 → 0 ≤ v ≤ 30 → color_ok (PixelColor_from3 r g bl) → out_ok b (y_out y) →
  (∀ o, out_ok b o → Q tt (set_y_out o y)) → yields (pixel x v r g bl) y Q.
Proof.
  intros Hid Hx Hy Hc (Hs & Hi & Hq) HQ. apply yields_zoom.
  destruct (screen_pixel_ok id x v (PixelColor_from3 r g bl) (y_out y) Hs) as (o & Hr & Hs' & Hp & Hi' & Hw'); [lia|lia|done|].
  eapply yields_run; [exact Hr|]. apply HQ. split; [done|]. rewrite Hi', Hw'. split; [done|]. intros Hb c. rewrite Hp. by apply Hq.
Qed.

Lemma println_yields b ps y Q :
  out_ok b (y_out y) → (∀ o, out_ok b o → Q tt (set_y_out o y)) → yields (on_out (println (bt_cpu bt) ps)) y Q.
Proof.
  intros (Hs & Hi & Hq) HQ. apply yields_zoom. eapply yields_run; [apply println_run, Hi|]. apply HQ.
  split; [by apply sent_screen|split; [done|]]. intros Hb. by apply sent_silent, Hq.
Qed.

Lemma disable_yields b y Q :
  out_ok b (y_out y) → (∀ o, out_ok true o → Q tt (set_y_out o y)) → yields (on_out (on_ports disable)) y Q.
Proof.
  intros (Hs & Hi & _) HQ. apply yields_zoom, yields_zoom.
  destruct (disable_run (o_ports (y_out y))) as (ws & Hr & Hws).
  eapply yields_run; [exact Hr|]. apply HQ. split; [done|split; [done|]]. intros _ c. cbn [o_ports set_ports].
  by rewrite foldl_app.
Qed.
End output_steps.

Section sequence.
Context {X : X86} {XO : X86Ok X} {H : HeapCrate} {G : GdtCrate} {GO : GdtCrateOk G} (bt : Boot).
Local Notation bb := (bt_bb bt).
Local Notation cr3 := (hw_cr3 (bt_hw bt)).
Local Notation id := (apic_id (bt_cpu bt)).
Notation K := (Kmem PhysicalFrameAllocator VCache).
Implicit Types (y : Sys) (k : K).

(** The statics as the linker leaves them, on the memory [k] and with the
    output devices [o]. *)
Definition sys_off k (o : Out) : Sys :=
  mkSys _ _ o lh_empty lh_empty k HEAP_START 0 ∅ ∅ None ∅ None None None 0.

(** A machine the kernel starts on: a memory map with room, tables of the
    loader that leave the kernel's half to the kernel, with their root in the
    identity map, a screen of a supported
    format, a ramdisk that can be indexed as [files], firmware tables [ts]
    listed by the root table [l], and frames for all of it and [n] more. *)
Record boot_ok k (o : Out) (p : PhysicalFrameAllocator) (files : Initrd) (l : list Z) (ts : list (Z * fw_table)) (fuel n : nat) : Prop := {
  bk_map : ∃ pre h post, map_ok bb pre h post;
  bk_phys : phys_init bb = Ok p;
  bk_tables : ∃ lv t, pt_inv (fa_free p) (k_mem k) cr3 lv ∧ k_mem k !! cr3 = Some t ∧ root_unused t;
  bk_root : ident_ok cr3 PAGE_SIZE;
  bk_id : 0 ≤ id;
  bk_once : FRAMEBUFFER o = None ∧ o_writer o = false;
  bk_screen : ∃ fmt, FramebufferFormat_try_from (bb_fb_type bb) = Some fmt ∧
    geometry (mkFramebuffer fmt (bb_fb_width bb) (bb_fb_height bb) (bb_fb_scanline bb) (bt_fb_virt bt) None None None) ∧
    30 < bb_fb_width bb ∧ 31 + id < bb_fb_height bb;
  bk_initrd : page_aligned (bb_initrd_ptr bb) = true ∧ 0 ≤ bb_initrd_ptr bb ∧
    bb_initrd_ptr bb + bb_initrd_size bb + PAGE_SIZE ≤ 2 ^ 52;
  bk_initrd_size : 0 < bb_initrd_size bb ≤ 2 ^ 38;
  bk_index : init_map (bt_image bt) (bb_initrd_size bb) = Some (Ok files);
  bk_xsdt : xsdt_image l (fst <$> ts);
  bk_fw : fw_at (bt_hw bt) (set_pmm p k) (acpi_ptr (bb_arch bb)) l;
  bk_listed : Forall (listed_ok (bt_hw bt) (set_pmm p k) fuel) ts;
  bk_count : Z.of_nat (length (listed_items ts) + length ts + n) < 65536;
  bk_frames : (6 + 3 * Z.to_nat (header_pages p) + (32 + (3 * Z.to_nat (pages_for (bb_initrd_size bb)) +
    3 * (S (length ts) + (length (ioapics (listed_items ts)) + n)))) ≤ base.size (fa_free p))%nat;
}.

(** The registers after [basic_init]. *)
Lemma basic_init_run y :
  ∃ b, basic_gdt = Ok b ∧ zoom as_cores set_y_cores (basic_init id) y =
    Ok (tt, set_y_cores (set_regs (<[id := mkRegs (Some BASIC_GDT) (Some (code_segment b)) (Some (data_segment b))
      (r_tr (regs_of (as_cores y) id)) (r_kernel_gs (regs_of (as_cores y) id)) (r_idt (regs_of (as_cores y) id))
      (r_lstar (regs_of (as_cores y) id)) (r_star (regs_of (as_cores y) id)) (r_sce (regs_of (as_cores y) id))]>
      (y_regs y)) (as_cores y)) y).
Proof.
  destruct (gdt_append_spec gdt_new kernel_code_segment) as (g1 & E1 & U1); [rewrite gdt_new_used; simpl; lia|].
  destruct (gdt_append_spec g1 kernel_data_segment) as (g2 & E2 & U2); [rewrite U1, gdt_new_used; simpl; lia|].
  assert (∃ b, basic_gdt = Ok b) as [b Hb] by (unfold basic_gdt; rewrite E1; cbn; rewrite E2; eauto).
  exists b. split; [done|]. apply zoom_run. unfold basic_init. by run_step (lift_run _ (as_cores y) _ Hb).
Qed.

(** [mem::init], with [m] frames to spare. *)
Lemma mem_init_yields y p m (Q : unit → Sys → Prop) :
  (∃ pre h post, map_ok bb pre h post) → phys_init bb = Ok p →
  (∃ lv t, pt_inv (fa_free p) (k_mem (y_kmem y)) cr3 lv ∧ k_mem (y_kmem y) !! cr3 = Some t ∧ root_unused t) →
  ident_ok cr3 PAGE_SIZE →
  (6 + 3 * Z.to_nat (header_pages p) + (32 + m) ≤ base.size (fa_free p))%nat →
  (∀ r k1 lv1 fs k2 lv2, r_gdtr <$> r !! id = Some (Some BASIC_GDT) → taken_over cr3 (set_pmm p (y_kmem y)) k1 lv1 →
    mem_ready k2 cr3 lv2 m → backs k1 k2 cr3 HEAP_START WRITABLE (range 8) fs →
    remaps 32 cr3 (request_pages HEAP_START (range 8)) k1 k2 →
    Q tt (mkSys _ _ (y_out y) (lh_init (bt_early bt) EARLY_HEAP_SIZE (y_early y)) (lh_init HEAP_START HEAP_SIZE (y_glob y))
      k2 (y_head y) (y_count y) r (y_idt y) (y_initrd y) (y_handlers y) (y_redirection y) (y_ioapic y) (y_config y)
      (y_numcores y))) →
  yields (mem_init bt) y Q.
Proof.
  intros (pre & h & post & Hm) Hp (lv & t & Hpt & Ht & Hun) Hidr Hsz HQ. unfold mem_init.
  destruct (basic_init_run y) as (b & _ & Hr). apply yields_bind. eapply yields_run; [exact Hr|].
  apply yields_bind, yields_zoom, yields_modify. apply yields_bind. eapply yields_run; [by apply lift_run|].
  apply yields_bind, yields_zoom, yields_modify.
  destruct (Hun 256%nat ltac:(lia)) as (e0 & He0 & Hu0).
  destruct (handover_run bb pre h post p (y_kmem y) lv cr3 t e0 Hm Hp Hpt Ht He0 Hu0 Hidr ltac:(lia)) as (k1 & lv1 & Hr1 & Hto).
  apply yields_bind, yields_zoom. eapply yields_run; [exact Hr1|].
  pose proof (taken_over_ready _ _ _ _ t (32 + m) Hto Ht Hun Hsz) as Hk1.
  destruct (heap_valloc k1 cr3 lv1 m Hk1) as (fs & k2 & lv2 & Hr2 & Hk2 & Hb & Hrm).
  unfold heap_start. apply yields_bind, yields_zoom, yields_zoom. eapply yields_run; [exact Hr2|]. apply yields_modify.
  eapply HQ; [|done..]. by cbn; rewrite lookup_insert_eq.
Qed.

Lemma initrd_start_yields y files lv n (Q : unit → Sys → Prop) :
  page_aligned (bb_initrd_ptr bb) = true ∧ 0 ≤ bb_initrd_ptr bb ∧
    bb_initrd_ptr bb + bb_initrd_size bb + PAGE_SIZE ≤ 2 ^ 52 → 0 < bb_initrd_size bb ≤ 2 ^ 38 →
  init_map (bt_image bt) (bb_initrd_size bb) = Some (Ok files) → y_initrd y = None →
  mem_ready (y_kmem y) cr3 lv (3 * Z.to_nat (pages_for (bb_initrd_size bb)) + n) →
  (∀ k' lv', mem_ready k' cr3 lv' n →
    (∀ i, 0 ≤ i < pages_for (bb_initrd_size bb) → translate (k_mem k') cr3 (INITRD_START + i * PAGE_SIZE) =
      Some (bb_initrd_ptr bb + i * PAGE_SIZE, leaf_flags INITRD_START 0)) →
    remaps (3 * Z.to_nat (pages_for (bb_initrd_size bb))) cr3
      (request_pages INITRD_START (range (pages_for (bb_initrd_size bb)))) (y_kmem y) k' →
    Q tt (set_y_initrd files (set_y_kmem k' y))) →
  yields (initrd_start bt) y Q.
Proof.
  intros (Ha & H0 & Hmax) Hsz Hidx Hnone Hk HQ.
  destruct (initrd_map bb (bt_image bt) (y_kmem y) cr3 lv n Ha H0 Hsz Hmax Hk) as (k' & lv' & Hr & Hk' & Htr & Hrm).
  unfold initrd_start. apply yields_bind, yields_zoom. eapply yields_run; [exact Hr|].
  rewrite Hidx. apply yields_bind. eapply yields_run; [by apply lift_run|]. apply yields_modify.
  change (y_initrd (set_y_kmem k' y)) with (y_initrd y). rewrite Hnone. by eapply HQ.
Qed.

Lemma console_yields b y files (Q : unit → Sys → Prop) :
  y_initrd y = Some files → out_ok bt b (y_out y) → (∀ o, out_ok bt b o → Q tt (set_y_out o y)) →
  yields (console_init bt) y Q.
Proof.
  intros Hi Ho HQ. unfold console_init. apply yields_bind. eapply yields_run; [reflexivity|]. rewrite Hi.
  apply yields_bind. eapply yields_run; [apply lift_run; reflexivity|]. by eapply println_yields.
Qed.

Lemma acpi_yields y l ts lv depth fuel n (Q : unit → Sys → Prop) :
  y_handlers y = cfgtb_init → xsdt_image l (fst <$> ts) → fw_at (bt_hw bt) (y_kmem y) (acpi_ptr (bb_arch bb)) l →
  Forall (listed_ok (bt_hw bt) (y_kmem y) fuel) ts → y_numcores y = 0 → y_ioapic y = None →
  Z.of_nat (length (listed_items ts) + length ts + n) < 65536 →
  mem_ready (y_kmem y) cr3 lv (3 * (S (length ts) + (length (ioapics (listed_items ts)) + n))) →
  (∀ s lv', walked (bt_hw bt) (listed_items ts) (as_acpi y) s → mem_ready (a_kmem s) cr3 lv' (3 * n) →
    Q tt (set_y_acpi s y)) →
  yields (λ y, zoom as_acpi set_y_acpi
    (acpi_init (bt_hw bt) (S (S depth)) fuel (y_handlers y) (acpi_ptr (bb_arch bb))) y) y Q.
Proof.
  intros Hh Hx Hfw Hts Hn Hi Hc Hk HQ.
  destruct (acpi_walk (bt_hw bt) (as_acpi y) (acpi_ptr (bb_arch bb)) l ts lv depth fuel n) as (s & lv' & Hr & Hw & Hk');
    try done.
  exists tt, (set_y_acpi s y). rewrite Hh. split; [by apply zoom_run|]. by eapply HQ.
Qed.

(** ** What the entry point promises *)

(** The machine before [ignite]. *)
Record started k (p : PhysicalFrameAllocator) (files : Initrd) (ts : list (Z * fw_table)) (n : nat) y
    (lv' : Z → nat) : Prop := {
  (** Memory: tables, windows and [3 n] frames. *)
  sd_mem : mem_ready (y_kmem y) cr3 lv' (3 * n);
  (** Below the heap nothing happened after [virt::init]. *)
  sd_taken : ∃ k1 lv1, taken_over cr3 (set_pmm p k) k1 lv1 ∧
    ∀ q, good_page q → q < HEAP_START → translate (k_mem (y_kmem y)) cr3 q = translate (k_mem k1) cr3 q;
  (** No page of kernel space outside the cache was opened to user code. *)
  sd_user q : good_page q → KVMSPACE < q → ¬ in_cache q →
    user_page (k_mem (y_kmem y)) cr3 q → user_page (k_mem k) cr3 q;
  (** What was neither free nor a table is so still. *)
  sd_outside f : outside (set_pmm p k) f → outside (y_kmem y) f;
  (** The heap is on eight different frames. *)
  sd_heap : ∃ fs, Forall2 (λ i f, translate (k_mem (y_kmem y)) cr3 (HEAP_START + i * PAGE_SIZE) =
      Some (f, leaf_flags (HEAP_START + i * PAGE_SIZE) WRITABLE)) (range 8) fs ∧ NoDup fs ∧
    y_head y = HEAP_START ∧ y_glob y = lh_init HEAP_START HEAP_SIZE lh_empty;
  (** The ramdisk is at its address, and indexed. *)
  sd_initrd : y_initrd y = Some files ∧ ∀ i, 0 ≤ i < pages_for (bb_initrd_size bb) →
    translate (k_mem (y_kmem y)) cr3 (INITRD_START + i * PAGE_SIZE) =
      Some (bb_initrd_ptr bb + i * PAGE_SIZE, leaf_flags INITRD_START 0);
  (** What the tables list is registered. *)
  sd_cores : y_numcores y = countb is_core (listed_items ts);
  sd_config : default [] (y_config y) = omap item_config (listed_items ts);
  sd_ioapics : ioapics_mapped (bt_hw bt) (listed_items ts) 0 (y_kmem y);
  (** The vectors are set, the old controllers silent, interrupts off, and
      the core is on the basic descriptor table. *)
  sd_idt : y_idt y = interrupts_init ∅;
  sd_out : out_ok bt true (y_out y);
  sd_regs : r_gdtr <$> y_regs y !! id = Some (Some BASIC_GDT);
}.

(** The heap and the ramdisk stay where they are while the tables are walked. *)
Lemma walked_frame items s s' q :
  walked (bt_hw bt) items (as_acpi s) s' → good_page q → q < IOAPIC_VBASE → y_ioapic s = None →
  Z.of_nat (length items) < 65536 →
  translate (k_mem (a_kmem s')) cr3 q = translate (k_mem (y_kmem s)) cr3 q.
Proof.
  intros Hw [Hc Ha] Hq Hi Hn. destruct (wk_remaps _ _ _ _ Hw) as (m & ps & Hrm & Hps).
  rewrite (rm_other _ _ _ _ _ Hrm); [done..|]. intros Hin. rewrite Forall_forall in Hps.
  change (IOAPIC (as_acpi s)) with (y_ioapic s) in Hps. rewrite Hi in Hps.
  destruct (Hps q Hin) as [(j & Hj & ->)|(j & -> & Hj)%list_elem_of_fmap].
  - pose proof (wk_index _ _ _ _ Hw). pose proof (table_page_base j ltac:(lia)).
    unfold TABLE_VBASE, IOAPIC_VBASE in *. lia.
  - apply elem_of_seq in Hj. pose proof (ioapics_le items). destruct (ioapic_page_good j ltac:(simpl in *; lia)). lia.
Qed.

Lemma below_request q base n : q < base → q ∉ request_pages base (range n).
Proof.
  intros Hlt (i & -> & Hi%elem_of_range)%list_elem_of_fmap. unfold PAGE_SIZE in Hlt. lia.
Qed.

(** The state at the end from the steps that made it. *)
Lemma started_intro k p files ts n y0 k1 lv1 fs k2 k3 s y lv4 :
  taken_over cr3 (set_pmm p k) k1 lv1 → backs k1 k2 cr3 HEAP_START WRITABLE (range 8) fs →
  remaps 32 cr3 (request_pages HEAP_START (range 8)) k1 k2 →
  0 < bb_initrd_size bb ≤ 2 ^ 38 →
  (∀ i, 0 ≤ i < pages_for (bb_initrd_size bb) → translate (k_mem k3) cr3 (INITRD_START + i * PAGE_SIZE) =
    Some (bb_initrd_ptr bb + i * PAGE_SIZE, leaf_flags INITRD_START 0)) →
  remaps (3 * Z.to_nat (pages_for (bb_initrd_size bb))) cr3
    (request_pages INITRD_START (range (pages_for (bb_initrd_size bb)))) k2 k3 →
  y_kmem y0 = k3 → y_ioapic y0 = None → y_numcores y0 = 0 → y_config y0 = None →
  walked (bt_hw bt) (listed_items ts) (as_acpi y0) s → Z.of_nat (length (listed_items ts)) < 65536 →
  mem_ready (a_kmem s) cr3 lv4 (3 * n) →
  y_kmem y = a_kmem s → y_head y = HEAP_START → y_glob y = lh_init HEAP_START HEAP_SIZE lh_empty →
  y_initrd y = Some files → y_numcores y = NUMCORES s → y_config y = APIC_CONFIG s → y_idt y = interrupts_init ∅ →
  out_ok bt true (y_out y) → r_gdtr <$> y_regs y !! id = Some (Some BASIC_GDT) →
  started k p files ts n y lv4.
Proof.
  intros Hto (Hb & Hnd & _) Hrm2 Hsz Htr3 Hrm3 Hk0 Hio Hnc Hcf Hwk Hn Hk4 Hk Hhead Hglob Hird Hcores Hconf Hidt Hout Hreg.
  assert (∀ q, good_page q → q < IOAPIC_VBASE → translate (k_mem (a_kmem s)) cr3 q = translate (k_mem k3) cr3 q) as Hsame.
  { intros q Hq Hlt. rewrite (walked_frame (listed_items ts) y0 s q) by done. by rewrite Hk0. }
  assert (∀ q, good_page q → q < INITRD_START → translate (k_mem (a_kmem s)) cr3 q = translate (k_mem k2) cr3 q) as Hsame2.
  { intros q Hq Hlt. rewrite Hsame by (done || unfold INITRD_START, IOAPIC_VBASE, KVMSPACE in *; lia).
    apply (rm_other _ _ _ _ _ Hrm3); [apply Hq..|]. by apply below_request. }
  pose proof (wk_statics _ _ _ _ Hwk) as [Hc _ Hf _]. cbn [as_acpi NUMCORES APIC_CONFIG] in Hc, Hf. rewrite Hnc in Hc.
  rewrite Hcf in Hf. split; rewrite ?Hk, ?Hcores, ?Hconf; try done.
  - exists k1, lv1. split; [done|]. intros q Hq Hlt.
    rewrite Hsame2 by (done || unfold HEAP_START, INITRD_START in *; lia).
    apply (rm_other _ _ _ _ _ Hrm2); [apply Hq..|]. by apply below_request.
  - intros q Hq Hlt Hnoc Hu. apply (to_user _ _ _ _ Hto); [done..|].
    destruct (wk_remaps _ _ _ _ Hwk) as (m & ps & Hrm & _). change (a_kmem (as_acpi y0)) with (y_kmem y0) in Hrm. rewrite Hk0 in Hrm.
    apply (rm_user _ _ _ _ _ Hrm2), (rm_user _ _ _ _ _ Hrm3), (rm_user _ _ _ _ _ Hrm); done || apply Hq.
  - intros f Hof. destruct (wk_remaps _ _ _ _ Hwk) as (m & ps & Hrm & _).
    change (a_kmem (as_acpi y0)) with (y_kmem y0) in Hrm. rewrite Hk0 in Hrm.
    eapply outside_remaps, outside_remaps, outside_remaps, outside_mono; [exact Hrm|exact Hrm3|exact Hrm2|..|exact Hof]; apply Hto.
  - exists fs. split_and!; try done. apply Forall2_same_length_lookup_2; [by eapply Forall2_length|].
    intros j i f Hi Hfj. rewrite <-(Forall2_lookup_lr _ _ _ _ _ _ Hb Hi Hfj).
    apply list_elem_of_lookup_2, elem_of_range in Hi. apply Hsame2; [|unfold HEAP_START, INITRD_START, PAGE_SIZE; lia].
    apply kernel_page; unfold HEAP_START, START_ADDR, VC_SIZE, P1PAGE_COUNT, KVMSPACE, PAGE_SIZE; zlia.
  - split; [done|]. intros i Hi. rewrite <-(Htr3 i Hi). pose proof (pages_for_bound (bb_initrd_size bb) ltac:(lia)).
    apply Hsame; [|unfold INITRD_START, IOAPIC_VBASE, KVMSPACE, PAGE_SIZE in *; lia].
    apply kernel_page; unfold INITRD_START, START_ADDR, VC_SIZE, P1PAGE_COUNT, KVMSPACE, PAGE_SIZE in *; zlia.
  - pose proof (wk_pages _ _ _ _ Hwk) as Hp. cbn [as_acpi IOAPIC] in Hp. by rewrite Hio in Hp.
Qed.

Lemma start_run k o p files l ts depth fuel n :
  boot_ok k o p files l ts fuel n →
  ∃ y lv, start bt (S (S depth)) fuel (sys_off k o) = Ok (tt, y) ∧ started k p files ts n y lv.
Proof.
  intros [Hmap Hphys Htab Hroot Hid [Honce Hwr] (fmt & Hfmt & Hgeo & Hw & Hh) Hird Hirs Hidx Hx Hfw Hts Hc Hsz].
  assert (yields (start bt (S (S depth)) fuel) (sys_off k o) (λ _ y, ∃ lv, started k p files ts n y lv)) as (? & y & Hr & lv & Hs);
    [|destruct x; by exists y, lv].
  unfold start. apply yields_bind, yields_zoom, yields_modify.
  set (fb := mkFramebuffer fmt _ _ _ _ _ _ _) in Hgeo. set (o1 := mkOut (o_ports o) (Some fb) (o_screen o) false (o_halted o) (o_writer o)).
  assert (framebuffer_init (bb_fb_type bb) (bb_fb_width bb) (bb_fb_height bb) (bb_fb_scanline bb) (bt_fb_virt bt)
    (set_if false o) = Ok (tt, o1)) as Hfb.
  { unfold framebuffer_init. cbn [FRAMEBUFFER set_if]. rewrite Honce. unfold from_bootboot. by rewrite Hfmt. }
  apply yields_bind, yields_zoom. eapply yields_run; [exact Hfb|]. assert (out_ok bt false o1) as Ho1.
  { split; [|split; done]. eexists. split; [reflexivity|]. by split_and!. }
  apply yields_bind. eapply pixel_yields; [done|lia|lia|by vm_compute|exact Ho1|]. intros o2 Ho2.
  apply yields_bind.
  assert (∀ Q, (∀ o3, out_ok bt false o3 → Q tt (set_y_out o3 (sys_off k o))) →
    yields (if isvm (bt_cpu bt) then message bt "Running in VM" else message bt "Running on hardware")
      (set_y_out o2 (sys_off k o)) Q) as Hmsg.
  { intros Q HQ. destruct (isvm (bt_cpu bt)); by eapply println_yields. }
  apply Hmsg. intros o3 Ho3.
  apply yields_bind. eapply println_yields; [exact Ho3|]. intros o4 Ho4.
  apply yields_bind. eapply disable_yields; [exact Ho4|]. intros o5 Ho5.
  apply yields_bind. eapply pixel_yields; [done|lia|lia|by vm_compute|exact Ho5|]. intros o6 Ho6.
  apply yields_bind. eapply println_yields; [exact Ho6|]. intros o7 Ho7.
  apply yields_bind. eapply mem_init_yields; [exact Hmap|exact Hphys|exact Htab|exact Hroot|exact Hsz|].
  intros r k1 lv1 fs k2 lv2 Hreg Hto Hk2 Hheap Hrm2.
  apply yields_bind. eapply pixel_yields; [done|lia|lia|by vm_compute|exact Ho7|]. intros o8 Ho8.
  apply yields_bind. eapply println_yields; [exact Ho8|]. intros o9 Ho9.
  apply yields_bind, yields_modify.
  apply yields_bind. eapply println_yields; [exact Ho9|]. intros o10 Ho10.
  apply yields_bind. eapply initrd_start_yields; [exact Hird|exact Hirs|exact Hidx|done|exact Hk2|].
  intros k3 lv3 Hk3 Htr3 Hrm3.
  apply yields_bind. eapply println_yields; [exact Ho10|]. intros o11 Ho11.
  apply yields_bind. eapply console_yields; [done|exact Ho11|]. intros o12 Ho12.
  apply yields_bind. eapply println_yields; [exact Ho12|]. intros o13 Ho13.
  apply yields_bind, yields_modify.
  apply yields_bind. eapply pixel_yields; [done|lia|lia|by vm_compute|exact Ho13|]. intros o14 Ho14.
  apply yields_bind. eapply println_yields; [exact Ho14|]. intros o15 Ho15.
  assert (∀ padr b, fw_at (bt_hw bt) (set_pmm p k) padr b → fw_at (bt_hw bt) k3 padr b) as Hfwk.
  { intros padr b Hf. eapply fw_at_remaps; [exact Hrm3|]. eapply fw_at_remaps; [exact Hrm2|].
    eapply fw_at_mono; [..|exact Hf]; apply Hto. }
  apply yields_bind. eapply (acpi_yields _ l ts lv3 depth fuel n); try done.
  { by apply Hfwk. }
  { eapply Forall_impl; [exact Hts|]. intros x (Hf & Hok & Hfl). split_and!; [by apply Hfwk|done..]. }
  intros s lv4 Hwk Hk4.
  apply yields_bind. eapply pixel_yields; [done|lia|lia|by vm_compute|exact Ho15|]. intros o16 Ho16.
  eapply println_yields; [exact Ho16|]. intros o17 Ho17. exists lv4.
  eapply (started_intro k p files ts n (sys_off k3 o) k1 lv1 fs k2 k3 s); try done. lia.
Qed.
End sequence.
