(* ===== verification/CoresDemo.v ===== *)
(** * A concrete machine with two cores

    The theorems on the start-up, on interrupts and on page faults applied to
    a machine with two cores, the memory of the file MemDemo and a descriptor
    table that is a list of descriptors. *)

From S2P Require Import Prelude X86 FrameAlloc WindowCache VCache Bootboot Phys Mapper Mem Heap Boot MemDemo Elf Tar Task Sched Apic Acpi Cores Startup Interrupts.

(** A descriptor table with eight entries. *)
Definition demo_used (g : list Descriptor) : Z := 1 + foldr (λ d n, descriptor_slots d + n) 0 g.
#[global] Instance demo_gdt : GdtCrate := {|
  Gdt := list Descriptor;
  gdt_new := [];
  gdt_append d g :=
    if demo_used g + descriptor_slots d <=? 8 then Some (8 * demo_used g + descriptor_rpl d, d :: g) else None;
  star_write cs_sysret ss_sysret cs_syscall ss_syscall :=
    if (cs_sysret - 16 =? ss_sysret - 8) && (cs_syscall =? ss_syscall - 8) &&
       (ss_sysret mod 4 =? 3) && (ss_syscall mod 4 =? 0)
    then Some (Z.lor (Z.shiftl (ss_sysret - 8) 48) (Z.shiftl cs_syscall 32)) else None;
  sizeof_KGdt := 88;
|}.

#[global] Instance demo_gdt_ok : GdtCrateOk demo_gdt.
Proof.
  refine {| gdt_used := demo_used : @Gdt demo_gdt → Z |}.
  - done.
  - intros g d H. exists (d :: g). split.
    + cbn [gdt_append demo_gdt]. by destruct (Z.leb_spec (demo_used g + descriptor_slots d) 8); [|lia].
    + unfold demo_used. cbn [foldr]. lia.
  - done.
  - cbn. lia.
Qed.

Definition demo_boot_env : BootEnv :=
  mkBootEnv [0; 1] 0 2 (λ c, 2 ^ 64 - c * kernel_stack_size - 0x100) (λ _, (1000000, 115752)) [] 0xFFFF800000100000 ∅.

Lemma demo_bootable : bootable demo_boot_env demo_kmem 0x5000 demo_level.
Proof.
  split.
  - cbn. by left.
  - cbn. repeat constructor; lia.
  - cbn. lia.
  - intros c Hc. cbn in Hc. rewrite !elem_of_cons, elem_of_nil in Hc.
    destruct Hc as [-> | [-> |[]]]; split; by vm_compute.
  - intros c _. split; [cbn; lia|]. by vm_compute.
  - constructor.
  - exact demo_kmem_inv.
  - exact demo_room.
  - intros sz base i _ _. apply demo_clear.
  - apply demo_clear.
  - rewrite demo_frames. assert (table_pages (be_numcores demo_boot_env) = 11%nat) as -> by (vm_compute; reflexivity). lia.
Qed.

Lemma demo_unmapped q : translate (k_mem demo_kmem) 0x5000 q = None.
Proof.
  unfold translate, leaf_entry, page_path. change (k_mem demo_kmem) with demo_mem.
  cbn [walk]. by rewrite demo_next.
Qed.

(** ** Witnesses *)

Lemma startup_completes_witness :
  bootable demo_boot_env demo_kmem 0x5000 demo_level ∧ ∃ u, startup_step demo_boot_env (startup_init demo_boot_env demo_kmem) u.
Proof.
  split; [exact demo_bootable|].
  destruct (startup_completes demo_boot_env demo_kmem 0x5000 demo_level 0 (startup_init demo_boot_env demo_kmem)
    demo_bootable (nsteps_O _ _)) as [_ [H|[H _]]]; [exact H|].
  destruct (H 0 ltac:(cbn; by left)) as [H0 _]. exfalso. revert H0. vm_compute. discriminate.
Defined.

Lemma startup_ordered_witness :
  ∃ u st gd ts nm df, rtc (startup_step demo_boot_env) (startup_init demo_boot_env demo_kmem) u ∧
    tables_ready (cs_kmem (su_cores u)) 0x5000 2 st gd ts nm df.
Proof.
  destruct (ignited_first demo_boot_env demo_kmem 0x5000 demo_level demo_bootable) as (u & Hs & _ & _ & _ & Hph).
  destruct (startup_ordered demo_boot_env demo_kmem 0x5000 demo_level u demo_bootable (rtc_once _ _ Hs) 0 Waking)
    as [H _]; [rewrite Hph; reflexivity|].
  destruct H as (st & gd & ts & nm & df & Ht); [simpl; lia|].
  exists u, st, gd, ts, nm, df. split; [exact (rtc_once _ _ Hs)|exact Ht].
Defined.

Lemma ascending_own_stacks_witness :
  ∃ u s', rtc (startup_step demo_boot_env) (startup_init demo_boot_env demo_kmem) u ∧
    wakeup_register 0 (be_local demo_boot_env 0) (su_cores u) = Ok (tt, s') ∧ kernel_stack s' 0 = Some 0.
Proof.
  destruct (ignited_first demo_boot_env demo_kmem 0x5000 demo_level demo_bootable) as (u & Hs & _ & _ & Htab & Hph).
  destruct (ascending_own_stacks demo_boot_env demo_kmem 0x5000 demo_level u 0 [] demo_bootable (rtc_once _ _ Hs))
    as (s' & l' & Hr & _ & _ & Hk & _).
  - rewrite Hph. reflexivity.
  - exact Htab.
  - intros d p H. by apply elem_of_nil in H.
  - intros l Hl c p Hg. rewrite Htab in Hl. injection Hl as <-. discriminate Hg.
  - exists u, s'. split_and!; [exact (rtc_once _ _ Hs)|exact Hr|exact Hk].
Defined.

Lemma cores_share_stack_witness :
  ∃ u, rtc (startup_step demo_boot_env) (startup_init demo_boot_env demo_kmem) u ∧
    kernel_stack (su_cores u) 0 = Some 0 ∧ kernel_stack (su_cores u) 1 = Some 0.
Proof.
  destruct (cores_share_stack demo_boot_env demo_kmem 0x5000 demo_level 0 1 demo_bootable) as (u & Hr & _ & _ & H0 & H1).
  - lia.
  - intros c. cbn. rewrite !elem_of_cons, elem_of_nil. tauto.
  - exists u. split_and!; [exact Hr|exact H0|exact H1].
Defined.

Definition demo_cores : Cores PhysicalFrameAllocator VCache := cores_off demo_kmem ∅.

Lemma demo_tables_clear n : tables_clear demo_kmem 0x5000 n.
Proof. intros sz base i _ _. apply demo_clear. Qed.

Lemma demo_table_frames : (4 * table_pages 2 ≤ base.size (fa_free (k_pmm (cs_kmem demo_cores))))%nat.
Proof.
  change (cs_kmem demo_cores) with demo_kmem. rewrite demo_frames.
  assert (table_pages 2 = 11%nat) as -> by (vm_compute; reflexivity). lia.
Qed.

Lemma ignite_correct_witness :
  ∃ k f, ignite 2 demo_cores = Ok (tt, ignited k demo_cores) ∧
    translate (k_mem k) 0x5000 TSS_TABLE_PTR = Some (f, leaf_flags TSS_TABLE_PTR WRITABLE) ∧
    translate (k_mem k) 0x5000 NMI_STACKS_VPTR = Some (f, leaf_flags NMI_STACKS_VPTR WRITABLE).
Proof.
  destruct (ignite_correct demo_cores 2 0x5000 demo_level demo_kmem_inv demo_room ltac:(lia) (demo_tables_clear 2)
    demo_table_frames) as (k & lv' & st & gd & ts & nm & df & Hr & _ & Hready & _).
  destruct (tr_nmi _ _ _ _ _ _ _ _ Hready) as [Hnm Hlen].
  destruct nm as [|f nm]; [exfalso; revert Hlen; by vm_compute|].
  specialize (Hnm 0%nat f eq_refl). rewrite Z.add_0_r in Hnm.
  exists k, f. split_and!; [exact Hr|exact Hnm|exact Hnm].
Defined.

Lemma enable_selectors_witness :
  ∃ (s s1 s2 : Cores PhysicalFrameAllocator VCache) e, register 1 0 0 0 s = Ok (tt, s1) ∧
    enable 1 0xFFFF800000100000 s1 = Ok (tt, s2) ∧ GDT_TABLE s2 !! 1 = Some e ∧ ucode_seg e = 0x23.
Proof.
  destruct (ignite_run demo_cores 2 0x5000 demo_level demo_kmem_inv demo_room ltac:(lia) (demo_tables_clear 2)
    demo_table_frames) as (k & lv' & st & gd & ts & nm & df & _ & Hinv & _ & Hready & _).
  destruct (enable_selectors (ignited k demo_cores) 0x5000 lv' 2 st gd ts nm df 1 0 0 0 0xFFFF800000100000 Hinv Hready)
    as (s1 & s2 & e & star & Hr & Hr2 & Hg & _ & _ & _ & _ & _ & _ & _ & _ & Hu & _).
  - lia.
  - lia.
  - exists (ignited k demo_cores), s1, s2, e. split_and!; [exact Hr|exact Hr2|exact Hg|exact Hu].
Defined.

Lemma stack_correct_witness : stack (2 ^ 64 - 3 * 16384 + 8) = Ok (2 ^ 64 - 2 * 16384).
Proof. apply (stack_correct 2 (2 ^ 64 - 3 * 16384 + 8)); unfold kernel_stack_size; lia. Defined.

Lemma sparse_core_no_df_stack_witness :
  ∃ k top, ignite 2 demo_cores = Ok (tt, ignited k demo_cores) ∧ df_stack 7 = Ok top ∧
    translate (k_mem k) 0x5000 (page_base (top - 1)) = None.
Proof.
  destruct (sparse_core_no_df_stack demo_cores 2 0x5000 demo_level 7 demo_kmem_inv demo_room ltac:(lia) (demo_tables_clear 2)
    demo_table_frames ltac:(lia)) as (k & top & Hr & Ht & Htr).
  exists k, top. split_and!; [exact Hr|exact Ht|]. rewrite Htr. change (cs_kmem demo_cores) with demo_kmem.
  apply demo_unmapped.
Defined.

(** ** Page faults *)

Lemma page_fault_correct_witness :
  ∃ h', page_fault 0xFFFF808000010123 2 demo_heap = Ok (ROk tt, h') ∧
    is_Some (translate (k_mem (h_kmem h')) 0x5000 0xFFFF808000010000).
Proof.
  destruct (page_fault_correct demo_heap 0xFFFF808000010123 2 0x5000 demo_level) as [H _].
  - unfold in_width. lia.
  - destruct H as (h' & f & Hr & Htr & _).
    + reflexivity.
    + apply demo_can_expand. unfold HEAP_START, HEAP_SIZE. lia.
    + unfold demo_heap, HEAP_START. cbn [HEAP_HEAD]. lia.
    + exists h'. split; [exact Hr|]. change 0xFFFF808000010000 with (page_base 0xFFFF808000010123). rewrite Htr. by eexists.
Defined.

Lemma page_fault_livelock_witness :
  ∃ h', page_fault 0xFFFF808000010123 2 demo_heap = Ok (ROk tt, h') ∧
    page_fault 0xFFFF808000001000 2 h' = Ok (ROk tt, h').
Proof.
  destruct (page_fault_livelock demo_heap 0xFFFF808000010123 0xFFFF808000001000 2 0x5000 demo_level)
    as (h' & H1 & H2 & _).
  - apply demo_can_expand. unfold HEAP_START, HEAP_SIZE. lia.
  - unfold demo_heap, HEAP_START. cbn [HEAP_HEAD]. lia.
  - reflexivity.
  - by vm_compute.
  - change (expand_amount (EXPAND_COUNT demo_heap)) with 0x8000. unfold demo_heap, HEAP_START. cbn [HEAP_HEAD]. lia.
  - apply demo_unmapped.
  - exists h'. split; [exact H1|exact H2].
Defined.

Lemma fault_cause_not_unset_witness : rp_cause (fault_report 0) = PageLevelProtection.
Proof. apply (fault_cause_not_unset 0); [unfold in_width; lia|reflexivity]. Defined.
