(* ===== verification/Syscall.v ===== *)
(** * System calls and the timer interrupt

    Models the two entries of the kernel: [kernel/src/proc/syscall.rs] with
    its assembly stub [syscall.asm], and [kernel/src/interrupts/lapic/timer.rs];
    and the user's side of a system call, [userspace/syscall/src/lib.rs] and
    [userspace/runtime/src/syscall.rs].

    An entry ends in the jump to a task, whose registers are the result, or in
    the event loop ([None]). *)

From S2P Require Import Prelude X86 FrameAlloc WindowCache VCache Mapper Mem Elf Tar Task Sched.
From S2P Require Import Framebuffer Apic.

Inductive Syscall :=
  | Exit (exitcode : Z)
  | GetPid
  | DebugDraw (x y r g b : Z)
  | Spawn (path len : Z).

Inductive SyscallResult :=
  | Success (o0 o1 o2 o3 o4 o5 : Z)
  | Invalid
  | Failed.

(** ** The user's side *)

(** The number of a call is [ordinal()], derived by the [ordinalizer] crate:
    the position of the constructor. *)
Record ordinal_ok (ordinal : Syscall → Z) : Prop := {
  ord_exit c : ordinal (Exit c) = 0;
  ord_getpid : ordinal GetPid = 1;
  ord_draw x y r g b : ordinal (DebugDraw x y r g b) = 2;
  ord_spawn p l : ordinal (Spawn p l) = 3;
}.

(** The operands of [Syscall::call], in the order io0 to io5. *)
Definition call_operands (sc : Syscall) : Z * Z * Z * Z * Z * Z :=
  match sc with
  | Exit exitcode => (exitcode, 0, 0, 0, 0, 0)
  | GetPid => (0, 0, 0, 0, 0, 0)
  | DebugDraw x y r g b => (x, y, r, g, b, 0)
  | Spawn path len => (path, len, 0, 0, 0, 0)
  end.

(** Registers with the seven that [asm!] names replaced. *)
Definition with_operands (u : TaskProcState) (a : Z) (io : Z * Z * Z * Z * Z * Z) : TaskProcState :=
  let '(io0, io1, io2, io3, io4, io5) := io in
  mkTaskProcState (rip u) (rflags u) (code_seg u) (data_seg u) (rsp u) (rbp u) io1 io0
    io4 io5 io3 (r11 u) (r12 u) (r13 u) (r14 u) (r15 u) a (rbx u) (rcx u) io2.

Definition call_begin (ordinal : Syscall → Z) (sc : Syscall) (u : TaskProcState) : TaskProcState :=
  with_operands u (ordinal sc) (call_operands sc).
Definition call_end (u : TaskProcState) : SyscallResult :=
  if rax u =? 0 then Success (rdi u) (rsi u) (rdx u) (r10 u) (r8 u) (r9 u) else Invalid.

(** [getpid] and [spawn] of the runtime. *)
Definition getpid_result (r : SyscallResult) : res Z :=
  match r with Success pid _ _ _ _ _ => mret pid | _ => Panic Unreachable end.
Definition spawn_result (r : SyscallResult) : option Z :=
  match r with Success id _ _ _ _ _ => Some id | _ => None end.

(** ** The entry stub *)

(** The [syscall] instruction keeps the return address in rcx and the flags in
    r11; the stub pushes these words. *)
Definition syscall_pushes (u : TaskProcState) : list Z :=
  [rdx u; rip u; rbx u; rax u; r15 u; r14 u; r13 u; r12 u; rflags u; r10 u; r9 u; r8 u; rdi u; rsi u;
   rbp u; rsp u; 0x1B; 0x23; rflags u; rip u].
Definition syscall_handle_1 (u : TaskProcState) : TaskProcState :=
  mkTaskProcState (rip u) (rflags u) 0x23 0x1B (rsp u) (rbp u) (rsi u) (rdi u) (r8 u) (r9 u) (r10 u)
    (rflags u) (r12 u) (r13 u) (r14 u) (r15 u) (rax u) (rbx u) (rip u) (rdx u).

(** ** The kernel's side *)

Record Kernel (P V : Type) := mkKernel {
  ks_sched : Sched P V;
  ks_video : Video;
  ks_lapics : gmap Z Lapic;
  ks_count : Z;
}.
Arguments mkKernel {P V}.
Arguments ks_sched {P V}.
Arguments ks_video {P V}.
Arguments ks_lapics {P V}.
Arguments ks_count {P V}.

(** [TryFrom<&TaskProcState> for Syscall]. *)
Definition Syscall_try_from (u : TaskProcState) : option Syscall :=
  if rax u =? 0 then Some (Exit (rdi u)) else
  if rax u =? 1 then Some GetPid else
  if rax u =? 2 then Some (DebugDraw (rdi u) (rsi u) (rdx u) (r10 u) (r8 u)) else
  if rax u =? 3 then Some (Spawn (rdi u) (rsi u)) else None.

Section syscall.
Context {X : X86} {P : Type} {FA : FrameAllocator P} {V : Type} {WC : WindowCache V}.
Context (env : Env).
Implicit Types (k : Kernel P V).

Definition on_sched {A} (m : M (Sched P V) A) : M (Kernel P V) A :=
  zoom ks_sched (λ s k, mkKernel s (ks_video k) (ks_lapics k) (ks_count k)) m.
Definition on_video {A} (m : M Video A) : M (Kernel P V) A :=
  zoom ks_video (λ v k, mkKernel (ks_sched k) v (ks_lapics k) (ks_count k)) m.
(** [LocalApicRegisterMap::get()] is the controller of the core. *)
Definition on_lapic {A} (core : Z) (m : M Lapic A) : M (Kernel P V) A := λ k,
  l ← of_option Undefined (ks_lapics k !! core);
  '(a, l') ← m l;
  mret (a, mkKernel (ks_sched k) (ks_video k) (<[core := l']> (ks_lapics k)) (ks_count k)).

(** [len] bytes from a virtual address on. *)
Fixpoint load_bytes (va : Z) (len : nat) : M (Machine P V) (list Z) :=
  match len with
  | O => mret []
  | S len' =>
    s ← get;
    pa ← lift (of_option Undefined (virt_to_phys (mc_kmem s) va));
    b ← lift (of_option Undefined (mc_ram s !! pa));
    bs ← load_bytes (va + 1) len';
    mret (b :: bs)
  end.

(** [SyscallHandler::handle].  [str::from_raw_parts] requires that all [len]
    bytes can be read, whether the search for the file looks at them or not:
    [Spawn] reads them all, and a byte that is not there is [Undefined]. *)
Definition handle (core : Z) (sc : Syscall) : M (Kernel P V) SyscallResult :=
  match sc with
  | Exit exitcode => _ ← on_sched (exit_current core exitcode); mret Invalid
  | GetPid =>
    p ← on_sched (pinfo core);
    r ← lift (unwrap (pi_current p));
    t ← on_sched (task_at r);
    mret (Success (t_id t) 0 0 0 0 0)
  | DebugDraw x y r g b =>
    _ ← on_video (debug_set_pixel x y (PixelColor_from3 (wrap 8 r) (wrap 8 g) (wrap 8 b)));
    mret (Success 0 0 0 0 0 0)
  | Spawn path len =>
    name ← on_sched (on_machine (load_bytes path (Z.to_nat len)));
    r ← on_sched (exec_initrd env core name);
    match r with ExecSuccess id => mret (Success id 0 0 0 0 0) | _ => mret Failed end
  end.

(** The registers that report a result. *)
Definition report (result : SyscallResult) (u : TaskProcState) : TaskProcState :=
  match result with
  | Success o0 o1 o2 o3 o4 o5 => with_operands u 0 (o0, o1, o2, o3, o4, o5)
  | _ => with_operands u 1 (rdi u, rsi u, rdx u, r10 u, r8 u, r9 u)
  end.

Definition syscall_handle_2 (core : Z) (proc_state : TaskProcState) :
    M (Kernel P V) (option TaskProcState) :=
  p ← on_sched (pinfo core);
  r ← lift (unwrap (pi_current p));
  t ← on_sched (task_at r);
  _ ← on_sched (put_task r (set_procstate proc_state t));
  result ← match Syscall_try_from proc_state with
           | Some sc => handle core sc
           | None => mret Invalid
           end;
  p ← on_sched (pinfo core);
  match pi_current p with
  | None => mret None
  | Some r =>
    t ← on_sched (task_at r);
    _ ← on_sched (put_task r (set_procstate (report result (t_procstate t)) t));
    on_sched (continue_current core)
  end.

(** The pixels with which the first core shows that it ticks. *)
Definition heartbeat : M (Kernel P V) unit :=
  count ← gets ks_count;
  _ ← modify (λ k, mkKernel (ks_sched k) (ks_video k) (ks_lapics k) (wrap 64 (count + 1)));
  let period := count / 10 mod 2 =? 0 in
  let color := if period then PixelColor_from3 0 0 255 else PixelColor_from3 255 0 0 in
  x ← lift (add64 1 (count mod 10));
  on_video (debug_set_pixel x 50 color).

Definition timer_inter_2 (core : Z) (primary : bool) (proc_state : TaskProcState) (busy : bool)
    (locked : nat → bool) : M (Kernel P V) (option TaskProcState) :=
  _ ← on_lapic core (timer_reset u64_max);
  _ ← on_sched (tick env core proc_state busy locked);
  _ ← (if primary then heartbeat else mret tt);
  o ← on_sched (continue_current core);
  match o with
  | None => mret None
  | Some u =>
    p ← on_sched (pinfo core);
    _ ← on_lapic core (timer_reset (pi_quantum p));
    _ ← on_lapic core eoi;
    mret (Some u)
  end.

(** ** Runs of the kernel *)

(** One entry on one core, as long as the clock does not wrap.  The number of
    a core is [apic::id()], eight bits of the answer of [cpuid]. *)
Inductive kernel_step : Kernel P V → Kernel P V → Prop :=
  | step_timer core primary u busy locked k o k' :
      0 ≤ core < 256 → sc_clock (ks_sched k) + 1 < 2 ^ 64 →
      timer_inter_2 core primary u busy locked k = Ok (o, k') → kernel_step k k'
  | step_syscall core u k o k' :
      0 ≤ core < 256 → syscall_handle_2 core u k = Ok (o, k') → kernel_step k k'.
End syscall.

(** ** The protocol between user and kernel *)

(** The words the stub pushes are the structure the handler reads. *)
Lemma syscall_pushes_layout u :
  snd <$> procstate_fields (syscall_handle_1 u) = rev (syscall_pushes u).
Proof. reflexivity. Qed.

(** The kernel decodes the call the user encoded. *)
Lemma call_decodes ordinal sc u :
  ordinal_ok ordinal → Syscall_try_from (syscall_handle_1 (call_begin ordinal sc u)) = Some sc.
Proof.
  intros []. destruct sc; unfold Syscall_try_from, call_begin, with_operands, syscall_handle_1; simpl;
    rewrite ?ord_exit0, ?ord_getpid0, ?ord_draw0, ?ord_spawn0; reflexivity.
Qed.

(** C39. A system call reaches the kernel as it was made: whatever the user's
    registers are, the kernel decodes the call the user encoded.  A successful
    result reaches the user with its six values, but a failed call is reported
    as an invalid one.  Apart from the status and the operands, a system call
    changes exactly rcx and r11, which the user's assembly does not declare. *)
Theorem syscall_protocol ordinal sc u result :
  ordinal_ok ordinal → code_seg u = 0x23 → data_seg u = 0x1B →
  let e := syscall_handle_1 (call_begin ordinal sc u) in
  Syscall_try_from e = Some sc ∧
  call_end (report result e) = match result with Failed => Invalid | _ => result end ∧
  ∃ a io, report result e =
    with_operands (mkTaskProcState (rip u) (rflags u) (code_seg u) (data_seg u) (rsp u) (rbp u) (rsi u)
      (rdi u) (r8 u) (r9 u) (r10 u) (rflags u) (r12 u) (r13 u) (r14 u) (r15 u) (rax u) (rbx u) (rip u)
      (rdx u)) a io.
Proof.
  intros Ho Hcs Hds e. split_and!.
  - by apply call_decodes.
  - by destruct result.
  - assert (∃ io, call_begin ordinal sc u = with_operands u (ordinal sc) io) as [io E] by (by eexists).
    unfold e. rewrite E. destruct io as [[[[[i0 i1] i2] i3] i4] i5]. rewrite Hcs, Hds.
    destruct result; unfold report, with_operands, syscall_handle_1; simpl.
    + eexists 0, (_, _, _, _, _, _). reflexivity.
    + eexists 1, (_, _, _, _, _, _). reflexivity.
    + eexists 1, (_, _, _, _, _, _). reflexivity.
Qed.

Section syscall_proofs.
Context {X : X86} {P : Type} {FA : FrameAllocator P} {V : Type} {WC : WindowCache V}.
Context (env : Env).
Implicit Types (k : Kernel P V).

Definition set_sched (s : Sched P V) k : Kernel P V :=
  mkKernel s (ks_video k) (ks_lapics k) (ks_count k).

Lemma on_sched_Ok {A} (m : M (Sched P V) A) k a k' :
  on_sched m k = Ok (a, k') → ∃ s, m (ks_sched k) = Ok (a, s) ∧ k' = set_sched s k.
Proof. unfold on_sched. intros (s & ? & ->)%zoom_Ok. by exists s. Qed.

Lemma on_sched_run {A} (m : M (Sched P V) A) k a s :
  m (ks_sched k) = Ok (a, s) → on_sched m k = Ok (a, set_sched s k).
Proof. unfold on_sched. intros H. by apply zoom_run. Qed.

Lemma on_video_sched {A} (m : M Video A) k a k' :
  on_video m k = Ok (a, k') → ks_sched k' = ks_sched k.
Proof. unfold on_video. by intros (v & ? & ->)%zoom_Ok. Qed.

Lemma on_lapic_sched {A} c (m : M Lapic A) k a k' :
  on_lapic c m k = Ok (a, k') → ks_sched k' = ks_sched k.
Proof.
  unfold on_lapic. destruct (of_option Undefined (ks_lapics k !! c)) as [l|]; cbn [mbind res_bind]; [|done].
  destruct (m l) as [[b l']|]; cbn [mbind res_bind]; [|done]. by intros [= _ <-].
Qed.

Lemma heartbeat_sched k k' : heartbeat k = Ok (tt, k') → ks_sched k' = ks_sched k.
Proof.
  unfold heartbeat. intros Hr. apply M_bind_Ok in Hr as (c & k1 & H1 & Hr).
  unfold gets in H1. injection H1 as <- <-.
  apply M_bind_Ok in Hr as ([] & k2 & H2 & Hr). unfold modify in H2. injection H2 as <-.
  apply M_bind_Ok in Hr as (x & k3 & H3 & Hr). apply lift_Ok in H3 as [_ ->].
  by apply on_video_sched in Hr.
Qed.

Lemma pinfo_Ok c (s s' : Sched P V) p :
  pinfo c s = Ok (p, s') → s' = s ∧ sc_procs s !! c = Some p.
Proof. unfold pinfo. destruct (sc_procs s !! c) as [q|]; [|done]. by intros [= -> ->]. Qed.

Lemma task_at_Ok r (s s' : Sched P V) t :
  task_at r s = Ok (t, s') → s' = s ∧ sc_heap s !! r = Some t.
Proof. unfold task_at. destruct (sc_heap s !! r) as [q|]; [|done]. by intros [= -> ->]. Qed.

Lemma put_procstate_inv (s : Sched P V) r t u :
  sched_inv s → sc_heap s !! r = Some t →
  sched_inv (set_heap (<[r := set_procstate u t]> (sc_heap s)) s).
Proof. intros Hinv Hr. by rewrite (put_task_equiv s r t (set_procstate u t)). Qed.

Lemma handle_inv core sc k res k' :
  sched_inv (ks_sched k) → handle env core sc k = Ok (res, k') → sched_inv (ks_sched k').
Proof.
  intros Hinv Hr. destruct sc as [code| |x y r g b|path len]; cbn [handle] in Hr.
  - apply M_bind_Ok in Hr as ([] & k1 & (s1 & H1 & ->)%on_sched_Ok & Hr). inv_ok.
    by eapply exit_current_inv.
  - apply M_bind_Ok in Hr as (p & k1 & (s1 & [-> _]%pinfo_Ok & ->)%on_sched_Ok & Hr).
    apply M_bind_Ok in Hr as (r & k2 & [_ ->]%lift_Ok & Hr).
    apply M_bind_Ok in Hr as (t & k3 & (s2 & [-> _]%task_at_Ok & ->)%on_sched_Ok & Hr). by inv_ok.
  - apply M_bind_Ok in Hr as ([] & k1 & H1%on_video_sched & Hr). inv_ok. by rewrite H1.
  - apply M_bind_Ok in Hr as (name & k1 & (s1 & (m & _ & ->)%on_machine_Ok & ->)%on_sched_Ok & Hr).
    apply M_bind_Ok in Hr as (o & k2 & (s2 & H2%exec_initrd_spawned & ->)%on_sched_Ok & Hr).
    simpl in H2. assert (sched_inv s2) as Hinv2.
    { eapply spawned_inv; [|exact H2]. by rewrite set_machine_equiv. }
    destruct o; by inv_ok.
Qed.

Lemma syscall_handle_2_inv core u k o k' :
  sched_inv (ks_sched k) → syscall_handle_2 env core u k = Ok (o, k') → sched_inv (ks_sched k').
Proof.
  intros Hinv Hr. unfold syscall_handle_2 in Hr.
  apply M_bind_Ok in Hr as (p & k1 & (s1 & [-> _]%pinfo_Ok & ->)%on_sched_Ok & Hr).
  apply M_bind_Ok in Hr as (r & k2 & [_ ->]%lift_Ok & Hr).
  apply M_bind_Ok in Hr as (t & k3 & (s2 & [-> Ht]%task_at_Ok & ->)%on_sched_Ok & Hr).
  apply M_bind_Ok in Hr as ([] & k4 & (s3 & H3 & ->)%on_sched_Ok & Hr).
  unfold put_task, modify in H3. injection H3 as <-.
  apply M_bind_Ok in Hr as (res & k5 & H5 & Hr).
  assert (sched_inv (ks_sched k5)) as Hinv5.
  { simpl in Ht. pose proof (put_procstate_inv _ r t u Hinv Ht) as Hi.
    destruct (Syscall_try_from u) as [sc|]; [eapply handle_inv; [|exact H5]; exact Hi|by inv_ok]. }
  apply M_bind_Ok in Hr as (p' & k6 & (s6 & [-> _]%pinfo_Ok & ->)%on_sched_Ok & Hr).
  destruct (pi_current p') as [r'|]; [|by inv_ok].
  apply M_bind_Ok in Hr as (t' & k7 & (s7 & [-> Ht']%task_at_Ok & ->)%on_sched_Ok & Hr).
  apply M_bind_Ok in Hr as ([] & k8 & (s8 & H8 & ->)%on_sched_Ok & Hr).
  unfold put_task, modify in H8. injection H8 as <-.
  apply on_sched_Ok in Hr as (s9 & H9 & ->). eapply continue_current_inv; [|exact H9].
  by apply put_procstate_inv.
Qed.

Lemma timer_inter_2_inv core primary u busy locked k o k' :
  in_width 64 (10 * env_numcores env) → sc_clock (ks_sched k) + 1 < 2 ^ 64 →
  sched_inv (ks_sched k) → timer_inter_2 env core primary u busy locked k = Ok (o, k') →
  sched_inv (ks_sched k').
Proof.
  intros Hn Hck Hinv Hr. unfold timer_inter_2 in Hr.
  apply M_bind_Ok in Hr as ([] & k1 & H1%on_lapic_sched & Hr).
  apply M_bind_Ok in Hr as ([] & k2 & (s2 & H2 & ->)%on_sched_Ok & Hr). rewrite H1 in H2.
  apply tick_inv in H2; try done.
  apply M_bind_Ok in Hr as ([] & k3 & H3 & Hr).
  assert (ks_sched k3 = s2) as E3.
  { destruct primary; [by apply heartbeat_sched in H3|by inv_ok]. }
  apply M_bind_Ok in Hr as (o' & k4 & (s4 & H4 & ->)%on_sched_Ok & Hr). rewrite E3 in H4.
  apply continue_current_inv in H4; [|done]. destruct o' as [u'|]; [|by inv_ok].
  apply M_bind_Ok in Hr as (p & k5 & (s5 & [-> _]%pinfo_Ok & ->)%on_sched_Ok & Hr).
  apply M_bind_Ok in Hr as ([] & k6 & H6%on_lapic_sched & Hr).
  apply M_bind_Ok in Hr as ([] & k7 & H7%on_lapic_sched & Hr). inv_ok. by rewrite H7, H6.
Qed.

Lemma kernel_step_inv k k' :
  in_width 64 (10 * env_numcores env) →
  kernel_step env k k' → sched_inv (ks_sched k) → sched_inv (ks_sched k').
Proof.
  intros Hn Hst Hinv. destruct Hst as [core primary u busy locked k o k' _ Hck Hr|core u k o k' _ Hr].
  - by eapply timer_inter_2_inv.
  - by eapply syscall_handle_2_inv.
Qed.

(** C12. In every state the kernel reaches from its start, through any sequence
    of timer interrupts and system calls on any cores, no task is current on
    two cores, the running tasks are exactly the current ones, every current
    task is in the list, and all identifiers are different and were given out. *)
Theorem kernel_reachable_inv k k' :
  in_width 64 (10 * env_numcores env) → sched_start (ks_sched k) → rtc (kernel_step env) k k' →
  let s := ks_sched k' in
  (∀ c1 c2 r, current_on s c1 r → current_on s c2 r → c1 = c2) ∧
  (∀ r t, sc_heap s !! r = Some t →
    (∃ c, current_on s c r) ↔ ∃ since, t_state t = Running since ∧ since < sc_clock s) ∧
  (∀ c r, current_on s c r → r ∈ sc_tasks s) ∧ NoDup (sc_tasks s) ∧
  (∀ r1 r2 t1 t2, sc_heap s !! r1 = Some t1 → sc_heap s !! r2 = Some t2 →
    t_id t1 = t_id t2 → r1 = r2) ∧
  (∀ r t, sc_heap s !! r = Some t → 0 < t_id t ≤ sc_idcount s).
Proof.
  intros Hn Hstart Hsteps s. assert (sched_inv s) as Hinv.
  { subst s. apply sched_start_inv in Hstart.
    induction Hsteps as [|k1 k2 k3 H12 _ IH]; [done|]. apply IH. by eapply kernel_step_inv. }
  assert (∀ r t, sc_heap s !! r = Some t → has_view s r (t_id t, t_priority t, t_state t)) as Hv.
  { intros r t Hr. apply has_view_iff. by exists t. }
  split_and!.
  - apply (si_exclusive s Hinv).
  - intros r t Hr. split.
    + intros [c Hc]. destruct (si_current s Hinv c r Hc) as (i & p & since & Hw & ?).
      apply Hv in Hr. unfold has_view in *. exists since. split; [congruence|lia].
    + intros (since & Hst & _). apply Hv in Hr. rewrite Hst in Hr. by apply (si_running s Hinv) in Hr.
  - intros c r Hc. destruct (si_current s Hinv c r Hc) as (i & p & since & Hw & _).
    apply (si_dom s Hinv). by eexists.
  - apply (si_nodup s Hinv).
  - intros r1 r2 t1 t2 H1%Hv H2%Hv E. rewrite E in H1. by eapply (si_unique s Hinv).
  - intros r t Hr%Hv. by eapply (si_ids s Hinv).
Qed.

(** ** Single entries *)

Lemma pinfo_run c (s : Sched P V) p : sc_procs s !! c = Some p → pinfo c s = Ok (p, s).
Proof. unfold pinfo. by intros ->. Qed.
Lemma task_at_run r (s : Sched P V) t : sc_heap s !! r = Some t → task_at r s = Ok (t, s).
Proof. unfold task_at. by intros ->. Qed.

(** Continuing a task whose memory map is installed. *)
Lemma continue_active c (s : Sched P V) p r t :
  sc_procs s !! c = Some p → pi_current p = Some r → sc_heap s !! r = Some t →
  pi_active p = Some (mm_id (t_memory_map t)) →
  continue_current c s = Ok (Some (t_procstate t), s).
Proof.
  intros Hc Hp Hr Ha. unfold continue_current. run_step (pinfo_run _ _ _ Hc). rewrite Hp.
  run_step (task_at_run _ _ _ Hr).
  assert (on_machine (on_mem (MemoryMap_apply (pi_active p) (t_memory_map t))) s = Ok (pi_active p, s)) as Hm.
  { unfold on_machine, on_mem, zoom, MemoryMap_apply. rewrite bool_decide_eq_true_2 by done.
    destruct s as [[? ?] ? ? ? ? ? ?]. done. }
  run_step Hm.
  assert (put_pinfo c (set_active (pi_active p) p) s = Ok (tt, s)) as Hq.
  { unfold put_pinfo, modify. do 2 f_equal. destruct s, p. unfold set_procs, set_active. simpl in *.
    f_equal. by apply insert_id. }
  by run_step Hq.
Qed.

(** The kernel with the registers [u] in the task [t] behind [r]. *)
Definition stored (r : nat) (u : TaskProcState) (t : Task) k : Kernel P V :=
  set_sched (set_heap (<[r := set_procstate u t]> (sc_heap (ks_sched k))) (ks_sched k)) k.

(** The end of a call: the result is reported and the task goes on. *)
Definition syscall_resume (c : Z) (result : SyscallResult) : M (Kernel P V) (option TaskProcState) :=
  p ← on_sched (pinfo c);
  match pi_current p with
  | None => mret None
  | Some r =>
    t ← on_sched (task_at r);
    _ ← on_sched (put_task r (set_procstate (report result (t_procstate t)) t));
    on_sched (continue_current c)
  end.

(** What the kernel does with a call before it handles it. *)
Lemma syscall_save_run c p r t u k :
  sc_procs (ks_sched k) !! c = Some p → pi_current p = Some r → sc_heap (ks_sched k) !! r = Some t →
  syscall_handle_2 env c u k =
    (result ← match Syscall_try_from u with Some sc => handle env c sc | None => mret Invalid end;
     syscall_resume c result) (stored r u t k).
Proof.
  intros Hc Hp Hr. unfold syscall_handle_2.
  run_step (on_sched_run _ k _ _ (pinfo_run _ _ _ Hc)).
  assert (unwrap (pi_current p) = Ok r) as Hu by (by rewrite Hp).
  run_step (lift_run _ (set_sched (ks_sched k) k) _ Hu).
  rewrite (M_bind_run _ _ _ t (set_sched (ks_sched k) k) (on_sched_run _ (set_sched (ks_sched k) k) _ _ (task_at_run _ _ _ Hr))).
  reflexivity.
Qed.

Lemma syscall_resume_run c result p r t k :
  sc_procs (ks_sched k) !! c = Some p → pi_current p = Some r → sc_heap (ks_sched k) !! r = Some t →
  pi_active p = Some (mm_id (t_memory_map t)) →
  let u' := report result (t_procstate t) in syscall_resume c result k = Ok (Some u', stored r u' t k).
Proof.
  intros Hc Hp Hr Ha u'. unfold syscall_resume. run_step (on_sched_run _ k _ _ (pinfo_run _ _ _ Hc)). rewrite Hp.
  run_step (on_sched_run _ (set_sched (ks_sched k) k) _ _ (task_at_run _ _ _ Hr)).
  set (s2 := set_heap (<[r := set_procstate u' t]> (sc_heap (ks_sched k))) (ks_sched k)).
  assert (put_task r (set_procstate (report result (t_procstate t)) t) (ks_sched k) = Ok (tt, s2)) as Hput by done.
  run_step (on_sched_run _ (set_sched (ks_sched k) (set_sched (ks_sched k) k)) _ _ Hput).
  assert (continue_current c s2 = Ok (Some u', s2)) as Hcc.
  { apply (continue_active c s2 p r (set_procstate u' t)); try done. apply lookup_insert_eq. }
  rewrite (on_sched_run _ (set_sched s2 (set_sched (ks_sched k) (set_sched (ks_sched k) k))) _ _ Hcc). done.
Qed.

(** A call after which the task is still the current one of its core. *)
Lemma syscall_returns_run c p r t u sc result k k1 p1 t1 :
  sc_procs (ks_sched k) !! c = Some p → pi_current p = Some r → sc_heap (ks_sched k) !! r = Some t →
  Syscall_try_from u = Some sc → handle env c sc (stored r u t k) = Ok (result, k1) →
  sc_procs (ks_sched k1) !! c = Some p1 → pi_current p1 = Some r → sc_heap (ks_sched k1) !! r = Some t1 →
  pi_active p1 = Some (mm_id (t_memory_map t1)) →
  let u' := report result (t_procstate t1) in
  syscall_handle_2 env c u k = Ok (Some u', stored r u' t1 k1).
Proof.
  intros Hc Hp Hr Hu Hh Hc1 Hp1 Hr1 Ha1 u'. rewrite (syscall_save_run c p r t) by done. rewrite Hu.
  run_step Hh. by apply (syscall_resume_run c result p1 r t1).
Qed.

Lemma handle_getpid_run c p r t k :
  sc_procs (ks_sched k) !! c = Some p → pi_current p = Some r → sc_heap (ks_sched k) !! r = Some t →
  handle env c GetPid k = Ok (Success (t_id t) 0 0 0 0 0, k).
Proof.
  intros Hc Hp Hr. cbn [handle]. run_step (on_sched_run _ k _ _ (pinfo_run c _ p Hc)).
  assert (unwrap (pi_current p) = Ok r) as Hw by (by rewrite Hp).
  run_step (lift_run _ (set_sched (ks_sched k) k) _ Hw).
  run_step (on_sched_run _ (set_sched (ks_sched k) k) _ _ (task_at_run r _ _ Hr)). by destruct k.
Qed.

(** [getpid] answers the identifier of the task that asked, and changes
    nothing the scheduler looks at; every other register of the task comes
    back as it was. *)
Theorem syscall_getpid_correct c p r t u k :
  sc_procs (ks_sched k) !! c = Some p → pi_current p = Some r → sc_heap (ks_sched k) !! r = Some t →
  pi_active p = Some (mm_id (t_memory_map t)) → Syscall_try_from u = Some GetPid →
  ∃ k', let u' := with_operands u 0 (t_id t, 0, 0, 0, 0, 0) in
    syscall_handle_2 env c u k = Ok (Some u', k') ∧ getpid_result (call_end u') = Ok (t_id t) ∧
    sched_equiv (ks_sched k') (ks_sched k).
Proof.
  intros Hc Hp Hr Ha Hu.
  assert (sc_heap (ks_sched (stored r u t k)) !! r = Some (set_procstate u t)) as Hr1 by apply lookup_insert_eq.
  pose proof (handle_getpid_run c p r _ (stored r u t k) Hc Hp Hr1) as Hh.
  rewrite (syscall_returns_run c p r t u _ _ k _ p _ Hc Hp Hr Hu Hh Hc Hp Hr1 Ha).
  eexists. split_and!; [reflexivity|done|]. transitivity (ks_sched (stored r u t k)).
  - by apply (put_task_equiv (ks_sched (stored r u t k)) r (set_procstate u t)).
  - by apply (put_task_equiv (ks_sched k) r t).
Qed.

(** A user program can stop the kernel: drawing at a position outside the
    screen fails an assertion of the kernel. *)
Theorem syscall_draw_panics c p r t u k x y cr cg cb :
  sc_procs (ks_sched k) !! c = Some p → pi_current p = Some r → sc_heap (ks_sched k) !! r = Some t →
  Syscall_try_from u = Some (DebugDraw x y cr cg cb) → supported (fb_format (v_fb (ks_video k))) →
  0 ≤ x → 0 ≤ y → 0 ≤ fb_scanline (v_fb (ks_video k)) →
  y * fb_scanline (v_fb (ks_video k)) + x * 4 < 2 ^ 64 →
  fb_width (v_fb (ks_video k)) ≤ x ∨ fb_height (v_fb (ks_video k)) ≤ y →
  syscall_handle_2 env c u k = Panic Assert.
Proof.
  intros Hc Hp Hr Hu Hf Hx Hy Hs Hb Hout. rewrite (syscall_save_run c p r t) by done. rewrite Hu.
  apply M_bind_panic. cbn [handle]. apply M_bind_panic. unfold on_video, zoom. simpl.
  unfold debug_set_pixel, set_pixel, mul64, add64. set (fb := v_fb (ks_video k)) in *.
  rewrite (chk_in 64 (y * fb_scanline fb)) by (unfold in_width; nia). cbn [mbind res_bind].
  rewrite (chk_in 64 (x * 4)) by (unfold in_width; nia). cbn [mbind res_bind].
  rewrite (chk_in 64 (y * fb_scanline fb + x * 4)) by (unfold in_width; nia). cbn [mbind res_bind].
  destruct (word_bytes (fb_format fb) (PixelColor_from3 (wrap 8 cr) (wrap 8 cg) (wrap 8 cb)) Hf) as (w & -> & _).
  { unfold color_ok. simpl. split_and!; try (by apply wrap_in). unfold in_width. lia. }
  cbn [mbind res_bind]. destruct (Z.ltb_spec x (fb_width fb)); [|done].
  destruct (Z.ltb_spec y (fb_height fb)); [lia|done].
Qed.

Lemma on_lapic_run c (m : M Lapic unit) l l' k :
  ks_lapics k !! c = Some l → m l = Ok (tt, l') →
  on_lapic c m k = Ok (tt, mkKernel (ks_sched k) (ks_video k) (<[c := l']> (ks_lapics k)) (ks_count k)).
Proof. intros Hl Hm. unfold on_lapic. rewrite Hl. simpl. by rewrite Hm. Qed.

(** A timer interrupt that takes the task list, on a core where the map of
    every task counts as installed. *)
Lemma timer_run c p l u busy locked k :
  let s := ks_sched k in
  sched_inv s → sc_procs s !! c = Some p → ks_lapics k !! c = Some l → sc_tasks s ≠ [] →
  sc_clock s + 1 < 2 ^ 64 → in_width 64 (10 * env_numcores env) →
  (busy = true → MAX_TICK_MISS < pi_tick_miss p) →
  (∀ r t, sc_heap s !! r = Some t → pi_active p = Some (mm_id (t_memory_map t))) →
  ∃ o k' l', timer_inter_2 env c false u busy locked k = Ok (o, k') ∧ ks_lapics k' !! c = Some l' ∧
    tick_frame c p u (next_current env locked p s) s (ks_sched k') ∧
    match next_current env locked p s with
    | None => o = None ∧ eoireg l' = eoireg l ∧ initcountreg l' = 2 ^ 32 - 1
    | Some r => o = t_procstate <$> sc_heap (ks_sched k') !! r ∧ is_Some o ∧
        eoireg l' = 0 ∧ initcountreg l' = wrap 32 (pi_quantum p)
    end.
Proof.
  intros s Hinv Hc Hl Hne Hck Hn Hb Hact. unfold timer_inter_2.
  run_step (on_lapic_run c (timer_reset u64_max) l _ k Hl eq_refl).
  set (k1 := mkKernel _ _ _ _). set (l1 := mkLapic _ _ _ _ _ _ _ _) in k1.
  destruct (tick_run env c p u busy locked s) as (s2 & Hr & Hf); try done.
  run_step (on_sched_run _ k1 _ _ Hr).
  change ((if false then heartbeat else mret tt) : M (Kernel P V) unit) with (mret tt : M (Kernel P V) unit).
  rewrite (M_bind_run (mret tt : M (Kernel P V) unit) _ (set_sched s2 k1) tt (set_sched s2 k1) eq_refl).
  pose proof (tf_core _ _ _ _ _ _ Hf) as Hc2.
  destruct (next_current env locked p s) as [r|] eqn:Hnext.
  - destruct (heap_current s2 c _ r (tf_inv _ _ _ _ _ _ Hf) Hc2 eq_refl) as (t2 & since & Ht2 & _).
    assert (t_memory_map <$> sc_heap s2 !! r = t_memory_map <$> sc_heap s !! r) as Hmm.
    { by eapply (tf_map _ _ _ _ _ _ Hf). }
    rewrite Ht2 in Hmm. destruct (sc_heap s !! r) as [t|] eqn:Ht; [|done]. injection Hmm as Hmm.
    assert (continue_current c s2 = Ok (Some (t_procstate t2), s2)) as Hcc.
    { eapply continue_active; try done. simpl. rewrite Hmm. by eapply Hact. }
    run_step (on_sched_run _ (set_sched s2 k1) _ _ Hcc).
    run_step (on_sched_run _ (set_sched s2 (set_sched s2 k1)) _ _ (pinfo_run c s2 _ Hc2)).
    assert (ks_lapics (set_sched s2 (set_sched s2 (set_sched s2 k1))) !! c = Some l1) as Hl1 by apply lookup_insert_eq.
    run_step (on_lapic_run c (timer_reset (pi_quantum p)) l1 _ _ Hl1 eq_refl).
    rewrite (M_bind_run _ _ _ _ _ (on_lapic_run c eoi _ _ _ (lookup_insert_eq _ _ _) eq_refl)).
    eexists _, _, _. split; [reflexivity|]. split; [apply lookup_insert_eq|]. split; [exact Hf|]. simpl. rewrite Ht2. by split_and!.
  - assert (continue_current c s2 = Ok (None, s2)) as Hcc.
    { unfold continue_current. by run_step (pinfo_run c s2 _ Hc2). }
    run_step (on_sched_run _ (set_sched s2 k1) _ _ Hcc).
    eexists _, _, l1. split; [reflexivity|]. split; [apply lookup_insert_eq|by split].
Qed.

(** The timer interrupt ends with a task only when the core has one, and
    only then is the interrupt acknowledged and the quantum programmed.  A
    core that finds no task to run enters the event loop with the interrupt
    unacknowledged. *)
Theorem timer_acknowledges c p l u busy locked k :
  let s := ks_sched k in
  sched_inv s → sc_procs s !! c = Some p → ks_lapics k !! c = Some l → sc_tasks s ≠ [] →
  sc_clock s + 1 < 2 ^ 64 → in_width 64 (10 * env_numcores env) →
  (busy = true → MAX_TICK_MISS < pi_tick_miss p) →
  (∀ r t, sc_heap s !! r = Some t → pi_active p = Some (mm_id (t_memory_map t))) →
  ∃ o k' l', timer_inter_2 env c false u busy locked k = Ok (o, k') ∧ ks_lapics k' !! c = Some l' ∧
    match next_current env locked p s with
    | None => o = None ∧ eoireg l' = eoireg l ∧ initcountreg l' = 2 ^ 32 - 1
    | Some r => (∃ u', o = Some u') ∧ eoireg l' = 0 ∧ initcountreg l' = wrap 32 (pi_quantum p)
    end.
Proof.
  intros s Hinv Hc Hl Hne Hck Hn Hb Hact.
  destruct (timer_run c p l u busy locked k) as (o & k' & l' & Hr & Hl' & _ & Ho); try done.
  exists o, k', l'. split_and!; [done|done|]. change (ks_sched k) with s in Ho.
  destruct (next_current env locked p s); [|done]. by destruct Ho as (_ & [? ->] & ? & ?); eauto.
Qed.
End syscall_proofs.
