(* ===== verification/Trace.v ===== *)
(** * What every entry of the kernel keeps

    The entries of the kernel, timer interrupts and system calls, are put
    together from a few changes of the state.  A relation between states that
    every one of these changes satisfies is satisfied by every entry, and by
    every run of the kernel.  [Owner] and [History] use this for what happens
    to frames and to tasks. *)

From S2P Require Import Prelude X86 FrameAlloc WindowCache VCache Mapper Mem Elf Tar Task Sched.
From S2P Require Import Framebuffer Apic Syscall.

Section trace.
Context {X : X86} {P : Type} {FA : FrameAllocator P} {V : Type} {WC : WindowCache V}.
Context (env : Env).
Implicit Types (s : Sched P V) (g : Kernel P V).

(** What never changes in a task. *)
Definition same_task (t t' : Task) : Prop :=
  t_id t' = t_id t ∧ t_priority t' = t_priority t ∧ t_memory_map t' = t_memory_map t.

(** A program read from the ramdisk. *)
Definition file_of (elf : ElfFile) : Prop := ∃ off len, ef_bytes elf = sub_bytes (env_image env) off len.

Class Trace (R : Sched P V → Sched P V → Prop) : Prop := {
  tr_preorder :: PreOrder R;
  tr_lists s tasks clock procs :
    R s (mkSched (sc_machine s) tasks (sc_heap s) (sc_next s) (sc_idcount s) clock procs);
  tr_task s r t t' : sc_heap s !! r = Some t → same_task t t' → R s (set_heap (<[r := t']> (sc_heap s)) s);
  tr_exec core elf : 0 ≤ core < 256 → file_of elf → runs R (exec env core elf);
  tr_drop r : runs R (drop_ref r);
  tr_apply s r t active a s' : sc_heap s !! r = Some t →
    on_machine (on_mem (MemoryMap_apply active (t_memory_map t))) s = Ok (a, s') → R s s';
}.

Context (R : Sched P V → Sched P V → Prop) {T : Trace R}.

(** ** The scheduler *)

Lemma task_at_trace r : runs R (task_at r).
Proof. intros s t s' [-> _]%task_at_Ok. reflexivity. Qed.
Lemma pinfo_trace c : runs R (pinfo c).
Proof. intros s t s' [-> _]%pinfo_Ok. reflexivity. Qed.
Lemma put_pinfo_trace c i : runs R (put_pinfo c i).
Proof. apply runs_modify. intros s. apply tr_lists. Qed.

(** Changing a task without touching what never changes. *)
Lemma update_task_trace r (f : Task → Task) :
  (∀ t, same_task t (f t)) → runs R (t ← task_at r; put_task r (f t)).
Proof.
  intros Hf s [] s' Hr. apply M_bind_Ok in Hr as (t & s1 & [-> Ht]%task_at_Ok & Hr). unfold put_task, modify in Hr.
  injection Hr as <-. by eapply tr_task.
Qed.

Lemma exec_initrd_trace core path : 0 ≤ core < 256 → runs R (exec_initrd env core path).
Proof.
  intros Hc s r s' Hr. unfold exec_initrd in Hr. apply M_bind_Ok in Hr as (o & ? & [_ ->]%lift_Ok & Hr).
  destruct o as [[off len]|]; [|inv_ok; reflexivity]. unfold exec_raw in Hr.
  apply M_bind_Ok in Hr as (e & ? & [He ->]%lift_Ok & Hr). pose proof (ElfFile_parse_bytes _ _ _ He) as Hb. destruct e as [elf|]; [|inv_ok; reflexivity].
  apply (tr_exec core elf) in Hr; [done..|]. unfold file_of. rewrite (Hb elf eq_refl). eauto.
Qed.

Lemma save_current_trace i u : runs R (save_current i u).
Proof. unfold save_current. destruct (pi_current i); [by apply update_task_trace|runs_auto]. Qed.
Lemma ensure_init_trace core : 0 ≤ core < 256 → runs R (ensure_init env core).
Proof. intros Hc. unfold ensure_init. pose proof (λ path, exec_initrd_trace core path Hc). runs_auto. Qed.

Lemma release_current_trace core : runs R (release_current env core).
Proof.
  intros s [] s' Hr. unfold release_current in Hr.
  apply M_bind_Ok in Hr as (i & ? & [-> Hi]%pinfo_Ok & Hr). destruct (pi_current i) as [r|]; [|inv_ok; reflexivity].
  apply M_bind_Ok in Hr as (t & ? & [-> Ht]%task_at_Ok & Hr). destruct (t_state t) as [since|]; [|by inv_ok].
  apply M_bind_Ok in Hr as (c & ? & [= <- <-] & Hr).
  do 2 apply M_bind_Ok in Hr as (? & ? & [_ ->]%lift_Ok & Hr). destruct (_ <=? _); [|inv_ok; reflexivity].
  apply M_bind_Ok in Hr as ([] & s1 & H1 & Hr). unfold put_pinfo, modify in H1. injection H1 as <-.
  unfold put_task, modify in Hr. injection Hr as <-. set (s1 := set_procs (<[core := set_current None i]> (sc_procs s)) s).
  transitivity s1; [apply tr_lists|]. by apply (tr_task s1 r t (set_state Pending t)).
Qed.

Lemma pick_task_trace core clock locked : runs R (pick_task core clock locked).
Proof.
  intros s [] s' Hr. unfold pick_task in Hr.
  apply M_bind_Ok in Hr as (i & ? & [-> Hi]%pinfo_Ok & Hr). destruct (pi_current i); [inv_ok; reflexivity|].
  apply M_bind_Ok in Hr as (? & ? & [= <- <-] & Hr). apply M_bind_Ok in Hr as (b & ? & [_ ->]%lift_Ok & Hr).
  destruct b as [[index b]|]; [|inv_ok; reflexivity].
  apply M_bind_Ok in Hr as (t & ? & [-> Ht]%task_at_Ok & Hr).
  apply M_bind_Ok in Hr as ([] & s1 & H1 & Hr). unfold put_task, modify in H1. injection H1 as <-.
  apply M_bind_Ok in Hr as (r & ? & [_ ->]%lift_Ok & Hr). unfold put_pinfo, modify in Hr. injection Hr as <-.
  transitivity (set_heap (<[b := set_state (Running clock) t]> (sc_heap s)) s); [by eapply tr_task|apply tr_lists].
Qed.

Lemma tick_trace core u busy locked : 0 ≤ core < 256 → runs R (tick env core u busy locked).
Proof.
  intros Hc. unfold tick. pose proof pinfo_trace. pose proof put_pinfo_trace. pose proof save_current_trace.
  pose proof (ensure_init_trace core Hc). pose proof release_current_trace. pose proof pick_task_trace.
  apply (runs_bind R); [done|]. intros i. destruct (_ && _); [runs_auto|]. cbv zeta. runs_auto.
  apply runs_modify. intros s. apply tr_lists.
Qed.

Lemma exit_current_trace core code : runs R (exit_current core code).
Proof.
  unfold exit_current. pose proof pinfo_trace. pose proof put_pinfo_trace. pose proof task_at_trace.
  apply (runs_bind R); [done|]. intros i. destruct (pi_current i) as [r|]; [|runs_auto].
  apply (runs_bind R); [done|]. intros []. apply (runs_bind R); [done|]. intros t.
  intros s [] s' Hr. apply M_bind_Ok in Hr as (? & ? & [= <- <-] & Hr).
  destruct (find_id _ _ _) as [index|]; [|by apply (tr_drop r) in Hr].
  apply M_bind_Ok in Hr as ([] & s1 & H3 & Hr). unfold put in H3. injection H3 as <-. apply (tr_drop r) in Hr.
  etransitivity; [|exact Hr]. apply tr_lists.
Qed.

Lemma continue_current_trace core : runs R (continue_current core).
Proof.
  intros s o s' Hr. unfold continue_current in Hr.
  apply M_bind_Ok in Hr as (i & ? & [-> Hi]%pinfo_Ok & Hr). destruct (pi_current i) as [r|]; [|inv_ok; reflexivity].
  apply M_bind_Ok in Hr as (t & ? & [-> Ht]%task_at_Ok & Hr).
  apply M_bind_Ok in Hr as (a & s1 & H1 & Hr). apply M_bind_Ok in Hr as ([] & s2 & H2%put_pinfo_trace & Hr). inv_ok.
  etransitivity; [by eapply tr_apply|exact H2].
Qed.

(** ** Entries of the kernel *)

Definition kernel_rel g g' : Prop := R (ks_sched g) (ks_sched g').
#[export] Instance kernel_rel_preorder : PreOrder kernel_rel.
Proof. unfold kernel_rel. split; [intros g; reflexivity|intros g1 g2 g3 H12 H23; by etransitivity]. Qed.

Lemma on_sched_trace {A} (m : M (Sched P V) A) : runs R m → runs kernel_rel (on_sched m).
Proof. intros Hm. apply runs_zoom. intros g a s Hr. by apply Hm in Hr. Qed.
Lemma on_video_trace {A} (m : M Video A) : runs kernel_rel (on_video m).
Proof. intros g a g' Hr. unfold kernel_rel. rewrite (on_video_sched _ _ _ _ Hr). reflexivity. Qed.
Lemma on_lapic_trace {A} c (m : M Lapic A) : runs kernel_rel (on_lapic c m).
Proof. intros g a g' Hr. unfold kernel_rel. rewrite (on_lapic_sched _ _ _ _ _ Hr). reflexivity. Qed.
Lemma heartbeat_trace : runs kernel_rel heartbeat.
Proof. intros g [] g' Hr. unfold kernel_rel. rewrite (heartbeat_sched _ _ Hr). reflexivity. Qed.

(** Reading the path of a program changes nothing. *)
Lemma load_bytes_same va len : runs eq (load_bytes (P:=P) (V:=V) va len).
Proof. revert va. induction len as [|len IH]; intros va; cbn [load_bytes]; runs_auto. Qed.
Lemma load_bytes_trace va len : runs R (on_machine (load_bytes va len)).
Proof. apply runs_zoom. intros s a m <-%load_bytes_same. apply tr_lists. Qed.

Lemma handle_trace core sc : 0 ≤ core < 256 → runs kernel_rel (handle env core sc).
Proof.
  intros Hc. pose proof (@on_video_trace). destruct sc; cbn [handle]; runs_auto; apply on_sched_trace.
  - apply exit_current_trace.
  - apply pinfo_trace.
  - apply task_at_trace.
  - apply load_bytes_trace.
  - by apply exec_initrd_trace.
Qed.

Lemma syscall_handle_2_trace core u : 0 ≤ core < 256 → runs kernel_rel (syscall_handle_2 env core u).
Proof.
  intros Hc g o g' Hr. unfold syscall_handle_2 in Hr.
  apply M_bind_Ok in Hr as (i & ? & (s1 & [-> _]%pinfo_Ok & ->)%on_sched_Ok & Hr).
  apply M_bind_Ok in Hr as (r & ? & [_ ->]%lift_Ok & Hr).
  apply M_bind_Ok in Hr as (t & ? & (s2 & [-> Ht]%task_at_Ok & ->)%on_sched_Ok & Hr).
  apply M_bind_Ok in Hr as ([] & g4 & (s3 & H3 & ->)%on_sched_Ok & Hr). unfold put_task, modify in H3. injection H3 as <-.
  apply M_bind_Ok in Hr as (res & g5 & H5 & Hr).
  assert (kernel_rel g g5) as Hk.
  { transitivity (set_sched (set_heap (<[r := set_procstate u t]> (sc_heap (ks_sched g))) (ks_sched g)) g).
    - by apply (tr_task _ r t).
    - destruct (Syscall_try_from u); [by apply (handle_trace core _ Hc) in H5|by inv_ok]. }
  apply M_bind_Ok in Hr as (i' & ? & (s6 & [-> _]%pinfo_Ok & ->)%on_sched_Ok & Hr).
  destruct (pi_current i') as [r'|]; [|by inv_ok].
  apply M_bind_Ok in Hr as (t' & ? & (s7 & [-> Ht']%task_at_Ok & ->)%on_sched_Ok & Hr).
  apply M_bind_Ok in Hr as ([] & ? & (s8 & H8 & ->)%on_sched_Ok & Hr). unfold put_task, modify in H8. injection H8 as <-.
  apply on_sched_Ok in Hr as (s9 & H9%continue_current_trace & ->). transitivity g5; [exact Hk|].
  unfold kernel_rel. cbn [ks_sched set_sched] in *. etransitivity; [|exact H9]. by apply (tr_task _ r' t').
Qed.

Lemma timer_inter_2_trace core primary u busy locked :
  0 ≤ core < 256 → runs kernel_rel (timer_inter_2 env core primary u busy locked).
Proof.
  intros Hc. unfold timer_inter_2. pose proof (@on_lapic_trace). pose proof heartbeat_trace. runs_auto; apply on_sched_trace.
  - by apply tick_trace.
  - apply continue_current_trace.
  - apply pinfo_trace.
Qed.

Lemma kernel_step_trace g g' : kernel_step env g g' → kernel_rel g g'.
Proof.
  intros [core primary u busy locked g1 o g2 Hc _ Hr|core u g1 o g2 Hc Hr].
  - by eapply (timer_inter_2_trace core).
  - by eapply (syscall_handle_2_trace core).
Qed.
Lemma kernel_steps_trace g g' : rtc (kernel_step env) g g' → kernel_rel g g'.
Proof. induction 1 as [|g1 g2 g3 H12%kernel_step_trace _ IH]; [reflexivity|by etransitivity]. Qed.
End trace.
