(* ===== verification/Owner.v ===== *)
(** * Who owns a frame

    The frames of a task are allocated when its program is loaded and given
    back when the task is dropped.  This file shows that in every state the
    kernel reaches a frame belongs to at most one page of one task and is not
    handed out again while it does.  The state is what [Sched] and [Syscall]
    model; what is followed through every operation is the frame allocator and
    the memory map of each task. *)

From S2P Require Import Prelude X86 FrameAlloc WindowCache VCache Mapper Mem Elf Tar Task Sched.
From S2P Require Import Framebuffer Apic Syscall Trace.

(** The frames a memory map gives back when it is dropped. *)
Definition mm_frames (mm : MemoryMap) : list Z :=
  omap (λ m, if mp_allocated m then Some (mp_padr m) else None) (mm_mappings mm).

Section owner.
Context {X : X86} {P : Type} {FA : FrameAllocator P} {FAO : FrameAllocatorOk P}.
Context {V : Type} {WC : WindowCache V}.
Implicit Types (p q : P) (k : Kmem P V) (mm : MemoryMap).

(** ** What an operation does to the allocator *)

(** Frames are only taken: page tables need them, and nothing gives them back. *)
Definition shrinks p q : Prop :=
  fa_inv p → fa_inv q ∧ fa_free q ⊆ fa_free p ∧ ∀ f, fa_managed q f ↔ fa_managed p f.

#[export] Instance shrinks_preorder : PreOrder shrinks.
Proof.
  split.
  - intros p Hp. split_and!; [done|set_solver|done].
  - intros p1 p2 p3 H12 H23 H1. destruct (H12 H1) as (H2 & Hf & Hm). destruct (H23 H2) as (H3 & Hf' & Hm').
    split_and!; [done|set_solver|]. intros f. by rewrite Hm', Hm.
Qed.

Lemma alloc_shrinks : runs shrinks fa_alloc.
Proof.
  intros p r q Hr Hp. destruct (fa_alloc_ok p Hp) as [[E _]|(f & q' & E & Hq & Hf & Hfree & Hm)];
    rewrite Hr in E; simplify_eq.
  - split_and!; [done|set_solver|done].
  - rewrite Hfree. split_and!; [done|set_solver|done].
Qed.

(** The map [mm] was built from frames that were free in [p0]: while it grows
    they are different and taken; [spoiled] is what is left of that when an
    allocation failed, some of them being free again. *)
Record built p0 p mm : Prop := {
  ho_inv : fa_inv p;
  ho_nodup : NoDup (mm_frames mm);
  ho_fresh : Forall (.∈ fa_free p0) (mm_frames mm);
  ho_free f : f ∈ fa_free p → f ∈ fa_free p0 ∧ f ∉ mm_frames mm;
  ho_managed f : fa_managed p f ↔ fa_managed p0 f;
}.
Record spoiled p0 p mm : Prop := {
  sp_inv : fa_inv p;
  sp_fresh : Forall (.∈ fa_free p0) (mm_frames mm);
  sp_free : fa_free p ⊆ fa_free p0;
  sp_managed f : fa_managed p f ↔ fa_managed p0 f;
}.

Lemma built_spoiled p0 p mm : built p0 p mm → spoiled p0 p mm.
Proof. intros []. split; try done. intros f Hf. by apply ho_free0. Qed.

Lemma built_new p : fa_inv p → built p p MemoryMap_new.
Proof. intros Hp. split; try done; [constructor|]. intros f Hf. split; [done|]. apply not_elem_of_nil. Qed.

Lemma built_shrinks p0 p q mm : built p0 p mm → shrinks p q → built p0 q mm.
Proof.
  intros [Hp Hnd Hfr Hf Hm] Hs. destruct (Hs Hp) as (Hq & Hsub & Hman). split; try done.
  - intros f Hfq. apply Hf. set_solver.
  - intros f. by rewrite Hman, Hm.
Qed.

Lemma mm_frames_app id ms n :
  mm_frames (mkMemoryMap id (ms ++ n)) = mm_frames (mkMemoryMap id ms) ++ mm_frames (mkMemoryMap id n).
Proof. unfold mm_frames. cbn [mm_mappings]. apply omap_app. Qed.

Lemma built_add p0 p q mm page f flags :
  built p0 p mm → fa_inv q → f ∈ fa_free p → fa_free q = fa_free p ∖ {[f]} →
  (∀ g, fa_managed q g ↔ fa_managed p g) → built p0 q (extend mm [mkMemoryMapping page f 1 flags true]).
Proof.
  intros [Hp Hnd Hfr Hf Hm] Hq Hin Hfree Hman. destruct mm as [id ms]. unfold extend. cbn [mm_id mm_mappings].
  assert (mm_frames (mkMemoryMap id (ms ++ [mkMemoryMapping page f 1 flags true])) =
    mm_frames (mkMemoryMap id ms) ++ [f]) as E by (by rewrite mm_frames_app).
  destruct (Hf f Hin) as [Hf0 Hfn].
  split; rewrite ?E; try done.
  - apply NoDup_app. split_and!; [done| |apply NoDup_singleton]. intros g Hg ->%list_elem_of_singleton. done.
  - apply Forall_app. split; [done|]. by apply Forall_singleton.
  - intros g Hg. rewrite Hfree in Hg. destruct (Hf g) as [? ?]; [set_solver|]. split; [done|].
    rewrite elem_of_app, list_elem_of_singleton. set_solver.
  - intros g. by rewrite Hman, Hm.
Qed.

(** ** Giving frames back *)

Lemma pfree_all_back k fs k' :
  fa_inv (k_pmm k) → Forall (λ f, fa_managed (k_pmm k) f ∧ good_frame f) fs → pfree_all fs k = Ok (tt, k') →
  fa_inv (k_pmm k') ∧ fa_free (k_pmm k') = list_to_set fs ∪ fa_free (k_pmm k) ∧
  (∀ f, fa_managed (k_pmm k') f ↔ fa_managed (k_pmm k) f).
Proof.
  revert k. induction fs as [|f fs IH]; intros k Hk Hfs Hr.
  { unfold pfree_all in Hr. simpl in Hr. inv_ok. split_and!; [done|set_solver|done]. }
  apply Forall_cons in Hfs as [[Hfm Hfg] Hfs]. unfold pfree_all in Hr. rewrite for_cons in Hr.
  apply M_bind_Ok in Hr as ([] & k1 & H1 & Hr). unfold pfree in H1. apply zoom_Ok in H1 as (p1 & H1 & ->).
  destruct (fa_dealloc_ok (k_pmm k) f Hk Hfg) as (p' & E & Hp' & Hman & Hfree & _). rewrite H1 in E. simplify_eq.
  destruct (IH (set_pmm p' k)) as (Hi & Hfr & Hmm); try done.
  { eapply Forall_impl; [exact Hfs|]. intros g [Hg ?]. split; [|done]. by apply Hman. }
  split_and!; [done| |].
  - rewrite Hfr, list_to_set_cons. simpl. rewrite Hfree by done. set_solver.
  - intros g. rewrite Hmm. apply Hman.
Qed.

(** Frames that were free at the start can be given back. *)
Lemma fresh_managed p0 p fs :
  fa_inv p0 → (∀ f, fa_managed p f ↔ fa_managed p0 f) → Forall (.∈ fa_free p0) fs →
  Forall (λ f, fa_managed p f ∧ good_frame f) fs.
Proof.
  intros H0 Hm Hfs. eapply Forall_impl; [exact Hfs|]. intros f Hf. simpl in Hf.
  destruct (fa_free_managed p0 f H0 Hf). split; [by apply Hm|done].
Qed.

Lemma pfree_all_spoiled p0 p k k' mm fs :
  fa_inv p0 → p = k_pmm k → spoiled p0 p mm → Forall (.∈ fa_free p0) fs → pfree_all fs k = Ok (tt, k') →
  spoiled p0 (k_pmm k') mm.
Proof.
  intros H0 -> [Hi Hfr Hf Hm] Hfs Hr.
  destruct (pfree_all_back k fs k' Hi (fresh_managed _ _ _ H0 Hm Hfs) Hr) as (Hi' & Hfree & Hm').
  split; try done.
  - rewrite Hfree. rewrite Forall_forall in Hfs. set_solver.
  - intros f. by rewrite Hm', Hm.
Qed.

(** Dropping a map gives back its frames. *)
Lemma MemoryMap_drop_frames mm k : MemoryMap_drop mm k = pfree_all (mm_frames mm) k.
Proof.
  destruct mm as [id ms]. unfold MemoryMap_drop, pfree_all, mm_frames. cbn [mm_mappings].
  revert k. induction ms as [|m ms IH]; intros k; [done|]. rewrite for_cons.
  assert (MemoryMapping_drop (P:=P) (V:=V) m = if mp_allocated m then pfree (mp_padr m) else mret tt) as -> by done.
  cbn [omap list_omap]. destruct (mp_allocated m).
  - rewrite for_cons. unfold mbind, M_bind. destruct (pfree (mp_padr m) k) as [[[] k1]|]; [|done]. apply IH.
  - rewrite (M_bind_run (mret tt) _ k tt k eq_refl). apply IH.
Qed.

(** ** Allocating and loading *)

Lemma allocate_loop_holds p0 l vadr flags acc mm k r mm' k' :
  fa_inv p0 → built p0 (k_pmm k) mm → Forall (.∈ fa_free p0) acc →
  allocate_loop vadr flags l acc mm k = Ok ((r, mm'), k') →
  match r with Some _ => built p0 (k_pmm k') mm' | None => spoiled p0 (k_pmm k') mm' end.
Proof.
  intros H0. revert acc mm k. induction l as [|i l IH]; intros acc mm k Hh Hacc Hr; cbn [allocate_loop] in Hr.
  { inv_ok. done. }
  apply M_bind_Ok in Hr as (o & k1 & H1 & Hr). unfold palloc in H1. apply zoom_Ok in H1 as (p1 & H1 & ->).
  pose proof (ho_inv _ _ _ Hh) as Hp.
  destruct (fa_alloc_ok (k_pmm k) Hp) as [[E _]|(f & p' & E & Hp' & Hf & Hfree & Hman)]; rewrite H1 in E; simplify_eq.
  - apply M_bind_Ok in Hr as ([] & k2 & H2 & Hr). inv_ok.
    eapply (pfree_all_spoiled p0 _ (set_pmm (k_pmm k) k)); [done|reflexivity|by apply built_spoiled|done|done].
  - apply M_bind_Ok in Hr as (page & k2 & [_ ->]%lift_Ok & Hr).
    unfold add_raw in Hr. rewrite last_snoc in Hr.
    change (mkMemoryMap (mm_id mm) (mm_mappings mm ++ [mkMemoryMapping page f 1 flags true]))
      with (extend mm [mkMemoryMapping page f 1 flags true]) in Hr.
    eapply IH in Hr; [done| |].
    + cbn [k_pmm set_pmm]. by eapply built_add.
    + apply Forall_app. split; [done|]. apply Forall_singleton. by apply (ho_free _ _ _ Hh).
Qed.

(** ** Loading a program *)

Definition pm (s : Machine P V) : P := k_pmm (mc_kmem s).
Definition takes (s s' : Machine P V) : Prop := shrinks (pm s) (pm s').
#[export] Instance takes_preorder : PreOrder takes.
Proof. split; [intros s; unfold takes; reflexivity|intros s1 s2 s3; unfold takes; apply shrinks_preorder]. Qed.

Lemma vmap_shrinks page frame n flags : runs (pmm_rel shrinks) (vmap (P:=P) (V:=V) page frame n flags).
Proof. apply kernel_map_pmm; [apply _|apply alloc_shrinks]. Qed.

Lemma on_mem_takes {A} (m : M (Kmem P V) A) : runs (pmm_rel shrinks) m → runs takes (on_mem m).
Proof. intros Hm. apply runs_zoom. intros s a t Ht. by apply Hm in Ht. Qed.

#[local] Instance pmm_shrinks_preorder : PreOrder (pmm_rel (P:=P) (V:=V) shrinks).
Proof. split; [intros s; unfold pmm_rel; reflexivity|intros s1 s2 s3; unfold pmm_rel; apply shrinks_preorder]. Qed.

Lemma vmap_many_shrinks page frames flags : runs (pmm_rel shrinks) (vmap_many (P:=P) (V:=V) page frames flags).
Proof.
  unfold vmap_many. generalize 0 as i. pose proof vmap_shrinks.
  induction frames as [|f frames IH]; intros i; cbn [vmap_many_from]; runs_auto.
Qed.

Lemma store_bytes_kmem va bs (s s' : Machine P V) : store_bytes va bs s = Ok (tt, s') → mc_kmem s' = mc_kmem s.
Proof.
  revert va s. induction bs as [|b bs IH]; intros va s Hr; cbn [store_bytes] in Hr; [by inv_ok|].
  inv_ok. by apply IH in H2.
Qed.
Lemma store_bytes_takes va bs : runs takes (store_bytes (P:=P) (V:=V) va bs).
Proof. intros s [] s' Hr. unfold takes, pm. rewrite (store_bytes_kmem _ _ _ _ Hr). reflexivity. Qed.

Lemma tmp_local_reserve_takes id off frames : runs takes (tmp_local_reserve (P:=P) (V:=V) id off frames).
Proof. unfold tmp_local_reserve. runs_auto. apply on_mem_takes, vmap_many_shrinks. Qed.

(** The result of loading, seen from the allocator [p0] it started with. *)
Definition load_outcome (p0 : P) (r : result MemoryMap (ExecResult * MemoryMap)) (s : Machine P V) : Prop :=
  match r with ROk mm => built p0 (pm s) mm | RErr (_, mm) => spoiled p0 (pm s) mm end.

Lemma allocate_loaded p0 vadr n flags mm (s s' : Machine P V) r mm' :
  fa_inv p0 → built p0 (pm s) mm → on_mem (allocate vadr n flags mm) s = Ok ((r, mm'), s') →
  match r with Some _ => built p0 (pm s') mm' | None => spoiled p0 (pm s') mm' end.
Proof.
  intros H0 Hh (k & Hr & ->)%zoom_Ok. by eapply (allocate_loop_holds p0) in Hr.
Qed.

(** Filling the frames of a segment or of the stack. *)
Lemma fill_loaded p0 id off frames (f : Z → M (Machine P V) (result MemoryMap (ExecResult * MemoryMap))) mm
    (s s' : Machine P V) r :
  built p0 (pm s) mm → (∀ data, runs takes (f data)) → (∀ data s1 s2 r, f data s1 = Ok (r, s2) → r = ROk mm) →
  (data ← tmp_local_reserve id off frames; f data) s = Ok (r, s') → load_outcome p0 r s'.
Proof.
  intros Hh Hf Hok Hr. apply M_bind_Ok in Hr as (data & s1 & H1 & Hr). rewrite (Hok _ _ _ _ Hr).
  eapply built_shrinks; [exact Hh|]. transitivity (pm s1).
  - by apply tmp_local_reserve_takes in H1.
  - by apply Hf in Hr.
Qed.

Lemma exec_load_loaded p0 id elf entry mm (s s' : Machine P V) r :
  fa_inv p0 → built p0 (pm s) mm → exec_load id elf entry mm s = Ok (r, s') → load_outcome p0 r s'.
Proof.
  intros H0 Hh Hr. pose proof (built_spoiled _ _ _ Hh) as Hsp. unfold exec_load in Hr.
  destruct (PAGE_SIZE <? ph_align entry); [by inv_ok|].
  apply M_bind_Ok in Hr as (e & ? & [_ ->]%lift_Ok & Hr). destruct (USERSPACE_TOP <=? e); [by inv_ok|].
  destruct (TMP_TASK_SIZE_PER_PROC <? ph_mem_size entry); [by inv_ok|].
  apply M_bind_Ok in Hr as (c & ? & [_ ->]%lift_Ok & Hr). destruct c as [content|]; [|by inv_ok].
  do 3 apply M_bind_Ok in Hr as (? & ? & [_ ->]%lift_Ok & Hr).
  apply M_bind_Ok in Hr as ([o mm1] & s1 & H1 & Hr). apply (allocate_loaded p0) in H1; [|done..].
  destruct o as [frames|]; [|by inv_ok].
  apply M_bind_Ok in Hr as (off & ? & [_ ->]%lift_Ok & Hr).
  eapply fill_loaded; [exact H1| | |exact Hr].
  - intros data. cbv beta. pose proof store_bytes_takes. runs_auto.
  - intros data s2 s3 r3 H3. cbv beta in H3. inv_ok. destruct (ph_mem_size entry <? Z.of_nat (length content)); by inv_ok.
Qed.

Lemma exec_headers_loaded p0 fuel id elf index mm (s s' : Machine P V) r :
  fa_inv p0 → built p0 (pm s) mm → exec_headers fuel id elf index mm s = Ok (r, s') → load_outcome p0 r s'.
Proof.
  intros H0. revert index mm s. induction fuel as [|fuel IH]; intros index mm s Hh Hr; cbn [exec_headers] in Hr;
    (apply M_bind_Ok in Hr as ([[entry index']|] & ? & [_ ->]%lift_Ok & Hr); [|by inv_ok]);
    apply M_bind_Ok in Hr as (t & ? & [_ ->]%lift_Ok & Hr); apply M_bind_Ok in Hr as (r1 & s1 & H1 & Hr);
    assert (load_outcome p0 r1 s1) as Hl by (case_bool_decide; [by eapply exec_load_loaded|by inv_ok]);
    (destruct r1 as [mm1|e1]; [|by inv_ok]); [by inv_ok|]. by eapply IH.
Qed.

Lemma exec_stack_loaded p0 id mm (s s' : Machine P V) r :
  fa_inv p0 → built p0 (pm s) mm → exec_stack id mm s = Ok (r, s') → load_outcome p0 r s'.
Proof.
  intros H0 Hh Hr. unfold exec_stack in Hr. apply M_bind_Ok in Hr as (page & ? & [_ ->]%lift_Ok & Hr).
  apply M_bind_Ok in Hr as ([o mm1] & s1 & H1 & Hr). apply (allocate_loaded p0) in H1; [|done..].
  destruct o as [frames|]; [|by inv_ok]. eapply fill_loaded; [exact H1| | |exact Hr].
  - intros data. cbv beta. pose proof store_bytes_takes. runs_auto.
  - intros data s2 s3 r3 H3. cbv beta in H3. by inv_ok.
Qed.

(** A program that is loaded owns new frames; one that is refused leaves none. *)
Lemma exec_map_loaded id elf (s s' : Machine P V) r :
  fa_inv (pm s) → exec_map id elf s = Ok (r, s') →
  match r with ROk mm => built (pm s) (pm s') mm | RErr _ => shrinks (pm s) (pm s') end.
Proof.
  intros H0 Hr. unfold exec_map in Hr. apply M_bind_Ok in Hr as (r1 & s1 & H1 & Hr).
  apply (exec_headers_loaded (pm s)) in H1; [|done|by apply built_new].
  apply M_bind_Ok in Hr as (r2 & s2 & H2 & Hr).
  assert (load_outcome (pm s) r2 s2) as Hl.
  { destruct r1 as [mm1|e1]; [by eapply exec_stack_loaded|by inv_ok]. }
  destruct r2 as [mm2|[e2 mm2]]; [by inv_ok|]. apply M_bind_Ok in Hr as ([] & s3 & H3 & Hr). inv_ok.
  apply zoom_Ok in H3 as (k & H3 & ->). rewrite MemoryMap_drop_frames in H3. destruct Hl as [Hi Hfr Hf Hm].
  destruct (pfree_all_back _ _ _ Hi (fresh_managed _ _ _ H0 Hm Hfr) H3) as (Hi' & Hfree & Hm'). intros _.
  rewrite Forall_forall in Hfr. split_and!; [done| |intros f; rewrite Hm'; apply Hm]. unfold pm at 1. cbn [mc_kmem]. rewrite Hfree.
  unfold pm in *. set_solver.
Qed.

(** ** The invariant *)

(** Every frame of a task is managed and not free, and is in one place only. *)
Record owned (p : P) (ms : gmap nat MemoryMap) : Prop := {
  ow_inv : fa_inv p;
  ow_nodup r mm : ms !! r = Some mm → NoDup (mm_frames mm);
  ow_used r mm f : ms !! r = Some mm → f ∈ mm_frames mm → f ∉ fa_free p ∧ fa_managed p f ∧ good_frame f;
  ow_apart r1 r2 mm1 mm2 f : ms !! r1 = Some mm1 → ms !! r2 = Some mm2 →
    f ∈ mm_frames mm1 → f ∈ mm_frames mm2 → r1 = r2;
}.

Lemma owned_shrinks p q ms : owned p ms → shrinks p q → owned q ms.
Proof.
  intros [Hi Hnd Hu Ha] Hs. destruct (Hs Hi) as (Hq & Hf & Hm). split; try done.
  intros r mm f Hr Hin. destruct (Hu r mm f Hr Hin) as (? & ? & ?). split_and!; [set_solver|by apply Hm|done].
Qed.

Lemma owned_insert p q ms r mm :
  owned p ms → built p q mm → ms !! r = None → owned q (<[r := mm]> ms).
Proof.
  intros [Hi Hnd Hu Ha] [Hq Hnd' Hfr Hf Hm] Hr. rewrite Forall_forall in Hfr.
  assert (∀ r' mm' f, ms !! r' = Some mm' → f ∈ mm_frames mm' → f ∈ mm_frames mm → False) as Hout.
  { intros r' mm' f Hr' Hin Hin'. destruct (Hu r' mm' f Hr' Hin) as [Hn _]. by apply Hn, Hfr. }
  split; [done|..].
  - intros r' mm'. destruct (decide (r' = r)) as [->|]; [rewrite lookup_insert_eq; by intros [= <-]|].
    rewrite lookup_insert_ne by done. apply Hnd.
  - intros r' mm' f. destruct (decide (r' = r)) as [->|].
    + rewrite lookup_insert_eq. intros [= <-] Hin. destruct (fa_free_managed p f Hi (Hfr f Hin)) as [? ?].
      split_and!; [|by apply Hm|done]. intros Hfq. by destruct (Hf f Hfq).
    + rewrite lookup_insert_ne by done. intros Hr' Hin. destruct (Hu r' mm' f Hr' Hin) as (Hn & ? & ?).
      split_and!; [|by apply Hm|done]. intros Hfq. by destruct (Hf f Hfq).
  - intros r1 r2 mm1 mm2 f. destruct (decide (r1 = r)) as [->|], (decide (r2 = r)) as [->|]; [done|..];
      rewrite ?lookup_insert_eq, ?lookup_insert_ne by done.
    + intros [= <-] H2 Hin Hin2. by destruct (Hout r2 mm2 f H2 Hin2 Hin).
    + intros H1 [= <-] Hin1 Hin. by destruct (Hout r1 mm1 f H1 Hin1 Hin).
    + eauto.
Qed.

Lemma owned_delete p q ms r mm :
  owned p ms → ms !! r = Some mm → fa_inv q → fa_free q = list_to_set (mm_frames mm) ∪ fa_free p →
  (∀ f, fa_managed q f ↔ fa_managed p f) → owned q (delete r ms).
Proof.
  intros [Hi Hnd Hu Ha] Hr Hq Hf Hm. split; [done|..].
  - intros r' mm' [_ ?]%lookup_delete_Some. eauto.
  - intros r' mm' f [Hne Hr']%lookup_delete_Some Hin. destruct (Hu r' mm' f Hr' Hin) as (Hn & ? & ?).
    split_and!; [|by apply Hm|done]. rewrite Hf. intros [Hin'%elem_of_list_to_set|?]%elem_of_union; [|done].
    by destruct Hne, (Ha r r' mm mm' f).
  - intros r1 r2 mm1 mm2 f [_ ?]%lookup_delete_Some [_ ?]%lookup_delete_Some. eauto.
Qed.

Lemma owned_managed p ms r mm :
  owned p ms → ms !! r = Some mm → Forall (λ f, fa_managed p f ∧ good_frame f) (mm_frames mm).
Proof.
  intros Ho Hr. apply Forall_forall. intros f Hin. by destruct (ow_used _ _ Ho r mm f Hr Hin) as (_ & ? & ?).
Qed.

(** ** Every change of the state preserves it *)

Implicit Types (s : Sched P V).
Definition maps s : gmap nat MemoryMap := t_memory_map <$> sc_heap s.
(** New tasks get new references. *)
Definition own s : Prop :=
  owned (pm (sc_machine s)) (maps s) ∧ ∀ r, is_Some (sc_heap s !! r) → (r < sc_next s)%nat.
Definition preserves s s' : Prop := own s → own s'.
#[export] Instance preserves_preorder : PreOrder preserves.
Proof. unfold preserves. split; [intros s|intros s1 s2 s3]; auto. Qed.

Lemma own_heap s h :
  t_memory_map <$> h = maps s → own s → own (set_heap h s).
Proof.
  intros Hh [Ho Hf]. split; [unfold maps; cbn [sc_heap set_heap]; by rewrite Hh|]. intros r Hr. apply Hf.
  assert (is_Some (maps s !! r)) as Hm.
  { rewrite <-Hh, lookup_fmap. destruct Hr as [t Ht]. change (h !! r = Some t) in Ht. rewrite Ht. by eexists. }
  unfold maps in Hm. rewrite lookup_fmap in Hm. by apply fmap_is_Some in Hm.
Qed.

Lemma put_task_preserves r t t' s :
  sc_heap s !! r = Some t → t_memory_map t' = t_memory_map t → preserves s (set_heap (<[r := t']> (sc_heap s)) s).
Proof.
  intros Ht Hm Ho. apply own_heap; [|done]. rewrite fmap_insert, Hm. unfold maps. apply insert_id. by rewrite lookup_fmap, Ht.
Qed.

Lemma on_machine_preserves {A} (m : M (Machine P V) A) : runs takes m → runs preserves (on_machine m).
Proof.
  intros Hm. apply runs_zoom. intros s a k Hr%Hm [Ho Hf]. split; [|exact Hf]. by eapply owned_shrinks.
Qed.

Context (env : Env).

Lemma exec_preserves core elf : runs preserves (exec env core elf).
Proof.
  intros s r s' Hr [Ho Hf]. unfold exec in Hr. apply M_bind_Ok in Hr as (r1 & s1 & H1 & Hr).
  apply zoom_Ok in H1 as (m & H1 & ->). apply exec_map_loaded in H1; [|apply Ho]. destruct r1 as [mm|e].
  - apply M_bind_Ok in Hr as (id & s2 & H2 & Hr). inv_ok. unfold new_locked in H2.
    destruct (add64 _ 1) as [i|]; [|done]. cbn [mbind res_bind] in H2. injection H2 as <- <-.
    assert (sc_heap s !! sc_next s = None) as Hnew.
    { apply eq_None_not_Some. intros Hs%Hf. lia. }
    split.
    + unfold maps. cbn [sc_machine sc_heap]. rewrite fmap_insert. eapply owned_insert; [exact Ho|exact H1|].
      by rewrite lookup_fmap, Hnew.
    + cbn [sc_heap sc_next]. intros r. destruct (decide (r = sc_next s)) as [->|]; [lia|].
      rewrite lookup_insert_ne by done. intros Hr%Hf. lia.
  - inv_ok. split; [|exact Hf]. by eapply owned_shrinks.
Qed.

Lemma drop_ref_preserves r : runs preserves (drop_ref r).
Proof.
  intros s [] s' Hr. unfold drop_ref in Hr. apply M_bind_Ok in Hr as (? & ? & [= <- <-] & Hr).
  destruct (_ || _); [inv_ok; reflexivity|]. destruct (sc_heap s !! r) as [t|] eqn:Ht; [|inv_ok; reflexivity].
  apply M_bind_Ok in Hr as ([] & s1 & H1 & Hr). apply zoom_Ok in H1 as (m & H1 & ->).
  apply zoom_Ok in H1 as (k & H1 & ->). rewrite MemoryMap_drop_frames in H1. unfold modify in Hr. injection Hr as <-.
  intros [Ho Hf]. assert (maps s !! r = Some (t_memory_map t)) as Hm by (unfold maps; by rewrite lookup_fmap, Ht).
  destruct (pfree_all_back _ _ _ (ow_inv _ _ Ho) (owned_managed _ _ _ _ Ho Hm) H1) as (Hi & Hfree & Hman).
  split.
  - unfold maps. cbn [sc_machine sc_heap set_heap]. rewrite fmap_delete. by eapply owned_delete.
  - cbn [sc_heap sc_next set_heap]. intros r' [_ Hr']%lookup_delete_is_Some. by apply Hf.
Qed.

Lemma MemoryMap_apply_shrinks active mm : runs (pmm_rel shrinks) (MemoryMap_apply (P:=P) (V:=V) active mm).
Proof. unfold MemoryMap_apply, MemoryMapping_apply. pose proof vmap_shrinks. runs_auto. Qed.

#[local] Instance preserves_trace : Trace env preserves.
Proof.
  split.
  - apply _.
  - intros s tasks clock procs Ho. exact Ho.
  - intros s r t t' Ht (_ & _ & Hm). by eapply put_task_preserves.
  - intros core elf _ _. apply exec_preserves.
  - apply drop_ref_preserves.
  - intros s r t active a s' _. apply on_machine_preserves, on_mem_takes, MemoryMap_apply_shrinks.
Qed.

Implicit Types (g : Kernel P V).

Lemma reachable_own g g' :
  sched_start (ks_sched g) → fa_inv (k_pmm (mc_kmem (sc_machine (ks_sched g)))) → rtc (kernel_step env) g g' → own (ks_sched g').
Proof.
  intros (_ & Hheap & _) Hp Hsteps. apply (kernel_steps_trace env preserves _ _ Hsteps).
  split; [|rewrite Hheap; by intros r [? ?]]. unfold maps. rewrite Hheap, fmap_empty.
  split; [exact Hp|..]; intros *; by rewrite lookup_empty.
Qed.

(** C10. In every state the kernel reaches from its start, through any sequence
    of timer interrupts and system calls on any cores, a frame that a task was
    given is in one place: no two pages of one task and no two tasks share it,
    and it is not free, so that it is not handed out again before its task
    ends.  Only a correct frame allocator is assumed. *)
Theorem frames_owned_once g g' :
  sched_start (ks_sched g) → fa_inv (k_pmm (mc_kmem (sc_machine (ks_sched g)))) → rtc (kernel_step env) g g' →
  let s := ks_sched g' in
  (∀ r1 r2 t1 t2 i1 i2 f, sc_heap s !! r1 = Some t1 → sc_heap s !! r2 = Some t2 →
    mm_frames (t_memory_map t1) !! i1 = Some f → mm_frames (t_memory_map t2) !! i2 = Some f →
    r1 = r2 ∧ i1 = i2) ∧
  (∀ r t f, sc_heap s !! r = Some t → f ∈ mm_frames (t_memory_map t) →
    f ∉ fa_free (k_pmm (mc_kmem (sc_machine s))) ∧ fa_managed (k_pmm (mc_kmem (sc_machine s))) f).
Proof.
  intros Hst Hp Hsteps s. destruct (reachable_own g g' Hst Hp Hsteps) as [[_ Hnd Hu Ha] _]. fold s in Hnd, Hu, Ha.
  assert (∀ r t, sc_heap s !! r = Some t → maps s !! r = Some (t_memory_map t)) as Hm.
  { intros r t Hr. unfold maps. by rewrite lookup_fmap, Hr. }
  split.
  - intros r1 r2 t1 t2 i1 i2 f H1%Hm H2%Hm Hf1 Hf2.
    assert (r1 = r2) as -> by (eapply (Ha r1 r2); eauto using list_elem_of_lookup_2). split; [done|].
    rewrite H1 in H2. injection H2 as E. rewrite <-E in Hf2. by eapply NoDup_lookup; [apply (Hnd r2)|..].
  - intros r t f Hr%Hm Hf. by destruct (Hu r _ f Hr Hf) as (? & ? & _).
Qed.
End owner.
