(* ===== verification/History.v ===== *)
(** * The history of tasks

    What the state of the kernel at one time says about the state at a later
    time: a task keeps its identifier, priority and memory map as long as it
    lives, a task that has ended does not come back, and an identifier is
    never given out twice.  All memory maps have the same identifier; [Stale]
    shows what this means. *)

From S2P Require Import Prelude X86 FrameAlloc WindowCache VCache Mapper Mem Elf Tar Task Sched.
From S2P Require Import Framebuffer Apic Syscall Trace.

Section history.
Context {X : X86} {P : Type} {FA : FrameAllocator P} {V : Type} {WC : WindowCache V}.
Context (env : Env).
Implicit Types (s : Sched P V) (g : Kernel P V).

(** References are given out in order. *)
Definition fresh s : Prop := ∀ r t, sc_heap s !! r = Some t → (r < sc_next s)%nat.

(** A map as the loader builds it: with the identifier of all maps, and only
    frames that are released with it. *)
Definition loaded_map (mm : MemoryMap) : Prop :=
  mm_id mm = mm_id MemoryMap_new ∧ Forall (λ e, mp_allocated e = true) (mm_mappings mm).

(** From [s] on: the old tasks are the same, the new ones have higher
    references and identifiers. *)
Record since s s' : Prop := {
  sn_fresh : fresh s';
  sn_next : (sc_next s ≤ sc_next s')%nat;
  sn_ids : sc_idcount s ≤ sc_idcount s';
  sn_old r t' : sc_heap s' !! r = Some t' → (r < sc_next s)%nat → ∃ t, sc_heap s !! r = Some t ∧ same_task t t';
  sn_new r t' : sc_heap s' !! r = Some t' → (sc_next s ≤ r)%nat →
    sc_idcount s < t_id t' ≤ sc_idcount s' ∧ loaded_map (t_memory_map t');
}.
Definition evolves s s' : Prop := fresh s → since s s'.

#[export] Instance evolves_preorder : PreOrder evolves.
Proof.
  split.
  - intros s Hf. split; [done|lia|lia|by eexists|]. intros r t' Hr ?. apply Hf in Hr. lia.
  - intros s1 s2 s3 H12 H23 H1. specialize (H12 H1) as [F2 N12 I12 O12 W12]. specialize (H23 F2) as [F3 N23 I23 O23 W23].
    split; [done|lia|lia|..].
    + intros r t3 Hr Hlt. destruct (O23 r t3 Hr ltac:(lia)) as (t2 & Hr2 & Ei & Ep & Em).
      destruct (O12 r t2 Hr2 Hlt) as (t1 & Hr1 & Ei' & Ep' & Em'). exists t1. unfold same_task.
      by rewrite Ei, Ep, Em, Ei', Ep', Em'.
    + intros r t3 Hr Hge. destruct (decide (r < sc_next s2)%nat) as [Hlt|].
      * destruct (O23 r t3 Hr Hlt) as (t2 & Hr2 & -> & _ & ->). destruct (W12 r t2 Hr2 Hge) as [? ?]. split; [lia|done].
      * destruct (W23 r t3 Hr ltac:(lia)) as [? ?]. split; [lia|done].
Qed.

Lemma evolves_machine s s' :
  sc_heap s' = sc_heap s → sc_next s' = sc_next s → sc_idcount s' = sc_idcount s → evolves s s'.
Proof.
  intros Eh En Ei Hf. split; rewrite ?Eh, ?En, ?Ei; [|lia|lia|by eexists|].
  - intros r t. rewrite Eh, En. apply Hf.
  - intros r t' Hr%Hf Hge. lia.
Qed.

Lemma on_machine_evolves {A} (m : M (Machine P V) A) : runs evolves (on_machine m).
Proof. apply runs_zoom. intros s a k _. by apply evolves_machine. Qed.

Lemma put_task_evolves s r t t' :
  sc_heap s !! r = Some t → same_task t t' → evolves s (set_heap (<[r := t']> (sc_heap s)) s).
Proof.
  intros Hr Hs Hf. assert (∀ r' t2, <[r := t']> (sc_heap s) !! r' = Some t2 → ∃ t1, sc_heap s !! r' = Some t1 ∧ same_task t1 t2) as Ho.
  { intros r' t2 [[<- <-]|[_ ?]]%lookup_insert_Some; [by exists t|by eexists]. }
  split; [|done|done|..].
  - intros r' t2 (t1 & Hr1 & _)%Ho. by apply Hf in Hr1.
  - intros r' t2 Ht2%Ho _. done.
  - intros r' t2 (t1 & Hr1%Hf & _)%Ho Hge. lia.
Qed.

Lemma drop_ref_evolves r : runs evolves (drop_ref r).
Proof.
  unfold drop_ref. pose proof (@on_machine_evolves). runs_auto. apply runs_modify. intros s Hf.
  assert (∀ r' t', delete r (sc_heap s) !! r' = Some t' → sc_heap s !! r' = Some t') as Ho.
  { by intros r' t' [_ ?]%lookup_delete_Some. }
  split; [|done|done|..].
  - intros r' t' Hr%Ho. by apply Hf in Hr.
  - intros r' t' Hr%Ho _. by eexists.
  - intros r' t' Hr%Ho%Hf Hge. lia.
Qed.

Lemma exec_evolves core elf : runs evolves (exec env core elf).
Proof.
  intros s o s' Hr. unfold exec in Hr. apply M_bind_Ok in Hr as (r1 & s1 & H1 & Hr).
  pose proof H1 as Hm%on_machine_evolves. destruct r1 as [mm|e]; [|by inv_ok].
  etransitivity; [exact Hm|]. apply zoom_Ok in H1 as (m & H1 & ->). clear Hm.
  assert (loaded_map mm) as Hmm by (split; [by eapply exec_map_id|by eapply exec_map_allocated]).
  apply M_bind_Ok in Hr as (id & s2 & H2 & Hr). inv_ok. unfold new_locked in H2.
  cbn [sc_machine sc_tasks sc_heap sc_next sc_idcount sc_clock sc_procs] in H2.
  destruct (add64 (sc_idcount s) 1) as [i|] eqn:Ei; [|done]. cbn [mbind res_bind] in H2. injection H2 as <- <-.
  assert (i = sc_idcount s + 1) as -> by (by apply chk_Ok in Ei as [-> _]).
  intros Hf. unfold fresh in Hf. cbn [sc_heap sc_next] in Hf. split; cbn [sc_heap sc_next sc_idcount]; [|lia|lia|..].
  - intros r t. cbn [sc_heap sc_next]. intros [[<- _]|[_ Hr%Hf]]%lookup_insert_Some; lia.
  - intros r t [[<- _]|[_ Hr]]%lookup_insert_Some Hlt; [lia|by eexists].
  - intros r t [[<- <-]|[_ Hr%Hf]]%lookup_insert_Some Hge; [|lia]. cbn [t_id t_memory_map]. split; [lia|done].
Qed.

#[local] Instance evolves_trace : Trace env evolves.
Proof.
  split.
  - apply _.
  - intros s tasks clock procs. by apply evolves_machine.
  - intros s r t t'. apply put_task_evolves.
  - intros core elf _ _. apply exec_evolves.
  - apply drop_ref_evolves.
  - intros s r t active a s' _. apply on_machine_evolves.
Qed.

Lemma start_since g g' : sched_start (ks_sched g) → rtc (kernel_step env) g g' → since (ks_sched g) (ks_sched g').
Proof.
  intros Hst Hsteps. apply (kernel_steps_trace env evolves _ _ Hsteps). intros r t Hr.
  destruct Hst as (_ & Hh & _). by rewrite Hh in Hr.
Qed.

(** All tasks have maps of the loader. *)
Lemma maps_loaded g0 g r t :
  sched_start (ks_sched g0) → rtc (kernel_step env) g0 g → sc_heap (ks_sched g) !! r = Some t →
  loaded_map (t_memory_map t).
Proof.
  intros Hst Hsteps Hr. pose proof (start_since g0 g Hst Hsteps) as S. destruct Hst as (_ & Hh & _).
  destruct (decide (r < sc_next (ks_sched g0))%nat) as [Hlt|Hge].
  - destruct (sn_old _ _ S _ _ Hr Hlt) as (t' & Hr' & _). by rewrite Hh in Hr'.
  - by destruct (sn_new _ _ S _ _ Hr ltac:(lia)) as [_ ?].
Qed.

Lemma start_inv g g' :
  in_width 64 (10 * env_numcores env) → sched_start (ks_sched g) → rtc (kernel_step env) g g' → sched_inv (ks_sched g').
Proof.
  intros Hn Hst%sched_start_inv Hsteps. induction Hsteps as [|g1 g2 g3 H12 _ IH]; [done|]. apply IH. by eapply kernel_step_inv.
Qed.

(** C13. Tasks through time, in any run of the kernel from its start: a task keeps
    its identifier, its priority and its memory map as long as it lives;
    tasks at two times have the same identifier only when they are the same
    task, so that an identifier is never used again; a task that was not there
    before has an identifier higher than all given out before; a task that has
    ended never comes back; and the memory maps of all tasks have the same
    identifier, because the counter they are numbered with is a constant. *)
Theorem task_history g g1 g2 :
  in_width 64 (10 * env_numcores env) → sched_start (ks_sched g) →
  rtc (kernel_step env) g g1 → rtc (kernel_step env) g1 g2 →
  let s1 := ks_sched g1 in let s2 := ks_sched g2 in
  (∀ r t1 t2, sc_heap s1 !! r = Some t1 → sc_heap s2 !! r = Some t2 → same_task t1 t2) ∧
  (∀ r1 r2 t1 t2, sc_heap s1 !! r1 = Some t1 → sc_heap s2 !! r2 = Some t2 → t_id t1 = t_id t2 → r1 = r2) ∧
  (∀ r t2, sc_heap s1 !! r = None → sc_heap s2 !! r = Some t2 → sc_idcount s1 < t_id t2) ∧
  (∀ r t1 g3, sc_heap s1 !! r = Some t1 → sc_heap s2 !! r = None → rtc (kernel_step env) g2 g3 →
    sc_heap (ks_sched g3) !! r = None) ∧
  (∀ r t, sc_heap s2 !! r = Some t → mm_id (t_memory_map t) = mm_id MemoryMap_new).
Proof.
  intros Hn Hst H01 H12 s1 s2. pose proof (start_since _ _ Hst H01) as S1.
  pose proof (kernel_steps_trace env evolves _ _ H12 (sn_fresh _ _ S1)) as S12. fold s1 s2 in S1, S12.
  pose proof (start_inv _ _ Hn Hst H01) as Hinv. fold s1 in Hinv. split_and!.
  - intros r t1 t2 Hr1 Hr2. pose proof (sn_fresh _ _ S1 _ _ Hr1) as Hlt.
    destruct (sn_old _ _ S12 _ _ Hr2 Hlt) as (t & Hr & Hs). congruence.
  - intros r1 r2 t1 t2 Hr1 Hr2 Hid. assert (has_view s1 r1 (task_view t1)) as Hv1 by (apply has_view_iff; eauto).
    destruct (decide (r2 < sc_next s1)%nat) as [Hlt|Hge].
    + destruct (sn_old _ _ S12 _ _ Hr2 Hlt) as (t & Hr & Hi & _).
      assert (has_view s1 r2 (task_view t)) as Hv2 by (apply has_view_iff; eauto).
      unfold task_view in Hv1, Hv2. rewrite <- Hi, <- Hid in Hv2. by eapply (si_unique s1 Hinv).
    + destruct (sn_new _ _ S12 _ _ Hr2 ltac:(lia)) as [Hi _]. pose proof (si_ids s1 Hinv _ _ _ _ Hv1). lia.
  - intros r t2 Hr1 Hr2. destruct (decide (r < sc_next s1)%nat) as [Hlt|Hge].
    + destruct (sn_old _ _ S12 _ _ Hr2 Hlt) as (t & Hr & _). congruence.
    + destruct (sn_new _ _ S12 _ _ Hr2 ltac:(lia)) as [Hi _]. lia.
  - intros r t1 g3 Hr1 Hr2 H23. apply eq_None_not_Some. intros [t3 Hr3].
    pose proof (kernel_steps_trace env evolves _ _ H23 (sn_fresh _ _ S12)) as S23.
    pose proof (sn_fresh _ _ S1 _ _ Hr1). pose proof (sn_next _ _ S12).
    destruct (sn_old _ _ S23 _ _ Hr3) as (t & Hr & _); [fold s2; lia|]. fold s2 in Hr. congruence.
  - intros r t Hr. apply (maps_loaded g g2 r t Hst); [by etransitivity|done].
Qed.
End history.
