(* ===== verification/Install.v ===== *)
(** * Entering a task

    [continue_current] installs the memory map of the task it jumps to
    ([MemoryMap::apply], [kernel/src/proc/task.rs]).  This file shows that the
    program a task sees through the page tables is the one of its file, and
    puts the timer interrupt, the first tick, the loader and the mapper
    together: the first interrupt of an idle core ends in [/bin/init]. *)

From S2P Require Import Prelude X86 FrameAlloc WindowCache VCache Mapper Mem Elf Tar Task Exec Sched Init.
From S2P Require Import Framebuffer Apic Syscall.

Section install.
Context {X : X86} {XO : X86Ok X} {P : Type} {FA : FrameAllocator P} {FAO : FrameAllocatorOk P}.
Context {V : Type} {WC : WindowCache V} {WCO : WindowCacheOk V}.
Implicit Types (k : Kmem P V) (m : Machine P V).

(** A mapping of one user page the mapper accepts. *)
Record user_mapping (e : MemoryMapping) : Prop := {
  um_n : mp_n e = 1;
  um_page : good_page (mp_vadr e);
  um_user : mp_vadr e < 2 ^ 47;
  um_frame : good_frame (mp_padr e);
  um_flags : kernel_flags (mp_flags e);
}.

(** The page of the mapping shows its frame. *)
Definition installed k (p4 : Z) (e : MemoryMapping) : Prop :=
  translate (k_mem k) p4 (mp_vadr e) = Some (mp_padr e, leaf_flags (mp_vadr e) (mp_flags e)).

Lemma mapping_apply_run e k p4 lv :
  user_mapping e → kmem_inv k p4 lv → clear_path (k_mem k) p4 (page_path (mp_vadr e)) = true →
  (3 ≤ size (fa_free (k_pmm k)))%nat → has_room (wc_shows (k_vc k)) 2 →
  ∃ k' lv', (r ← MemoryMapping_apply e; lift (unwrap_result r)) k = Ok (tt, k') ∧ kmem_inv k' p4 lv' ∧
    installed k' p4 e ∧ remaps 3 p4 [mp_vadr e] k k' ∧ has_room (wc_shows (k_vc k')) 2.
Proof.
  intros [Hn Hp Hu Hf Hfl] Hinv Hcl Hsz Hroom.
  destruct (kernel_map_ok k (mp_vadr e) (mp_padr e) PAGE_SIZE (mp_flags e) p4 lv)
    as (k' & lv' & Hr & Hinv' & Htr & Hrm & Hsw & _); try done.
  - left. unfold START_ADDR, KVMSPACE. lia.
  - intros i Hi. change (pages_for PAGE_SIZE) with 1 in Hi. assert (i = 0) as -> by lia.
    unfold can_map_page. by rewrite Z.mul_0_l, !Z.add_0_r.
  - exists k', lv'. split_and!; try done.
    + unfold MemoryMapping_apply. rewrite Hn.
      assert (mul64 1 PAGE_SIZE = Ok PAGE_SIZE) as Em by done. rewrite M_bind_assoc.
      run_step (lift_run _ k _ Em). unfold vmap. by run_step Hr.
    + specialize (Htr 0 ltac:(by vm_compute)). by rewrite Z.mul_0_l, !Z.add_0_r in Htr.
    + change (request_pages (mp_vadr e) (range (pages_for PAGE_SIZE))) with [mp_vadr e + 0] in Hrm.
      by rewrite Z.add_0_r in Hrm.
    + by eapply same_windows_room.
Qed.

(** Installing pages that are all different. *)
Lemma mappings_apply_run es k p4 lv :
  Forall user_mapping es → NoDup (mp_vadr <$> es) → kmem_inv k p4 lv →
  Forall (λ e, clear_path (k_mem k) p4 (page_path (mp_vadr e)) = true) es →
  (3 * length es ≤ size (fa_free (k_pmm k)))%nat → has_room (wc_shows (k_vc k)) 2 →
  ∃ k' lv', for_ es (λ e, r ← MemoryMapping_apply e; lift (unwrap_result r)) k = Ok (tt, k') ∧
    kmem_inv k' p4 lv' ∧ Forall (installed k' p4) es ∧
    remaps (3 * length es) p4 (mp_vadr <$> es) k k' ∧ has_room (wc_shows (k_vc k')) 2.
Proof.
  revert k lv. induction es as [|e es IH]; intros k lv Hum Hnd Hinv Hcl Hsz Hroom.
  { exists k, lv. split_and!; try done. by apply remaps_refl. }
  apply Forall_cons in Hum as [He Hum], Hcl as [Hce Hcl]. rewrite fmap_cons in Hnd.
  apply NoDup_cons in Hnd as [Hni Hnd]. cbn [length] in Hsz.
  destruct (mapping_apply_run e k p4 lv He Hinv Hce ltac:(lia) Hroom) as (k1 & lv1 & Hr1 & Hinv1 & Hin1 & Hrm1 & Hroom1).
  pose proof (rm_size _ _ _ _ _ Hrm1).
  destruct (IH k1 lv1) as (k2 & lv2 & Hr2 & Hinv2 & Hin2 & Hrm2 & Hroom2); try done; [|lia|].
  { eapply Forall_impl; [exact Hcl|]. intros e' Hc. apply (rm_clear _ _ _ _ _ Hrm1); [apply page_indices_lt|simpl; lia|done]. }
  exists k2, lv2. split_and!; try done.
  - rewrite for_cons. by run_step Hr1.
  - constructor; [|done]. unfold installed. destruct (um_page _ He) as [Hc Ha].
    by rewrite (rm_other _ _ _ _ _ Hrm2).
  - replace (3 * length (e :: es))%nat with (3 + 3 * length es)%nat by (cbn [length]; lia).
    rewrite fmap_cons. by eapply (remaps_trans 3 (3 * length es) p4 [mp_vadr e] (mp_vadr <$> es)).
Qed.

(** ** The pages of a program *)

(** The pages of a program with segments [l], those of the stack last. *)
Definition program_pages (l : list (ProgramHeader * list Z)) : list Z :=
  (l ≫= λ e, (λ j, seg_page e.1 + j * PAGE_SIZE) <$> range (seg_pages e.1)) ++
  ((λ j, USERSTACK_TOP + j * PAGE_SIZE) <$> range STACK_PAGES).

(** The tables of the user's half have no huge page, and none of the pages of
    the program is there twice. *)
Definition pages_free k (p4 : Z) (l : list (ProgramHeader * list Z)) : Prop :=
  NoDup (program_pages l) ∧
  Forall (λ q, clear_path (k_mem k) p4 (page_path q) = true) (program_pages l).

Lemma elem_of_new_mappings e vadr flags fs :
  e ∈ new_mappings 0 vadr flags fs ↔
    ∃ j f, fs !! j = Some f ∧ e = mkMemoryMapping (vadr + Z.of_nat j * PAGE_SIZE) f 1 flags true.
Proof.
  unfold new_mappings. rewrite list_elem_of_lookup. split.
  - intros [j Hj]. rewrite list_lookup_imap in Hj. destruct (fs !! j) as [f|] eqn:Hf; [|done].
    injection Hj as <-. exists j, f. split; [done|]. f_equal.
  - intros (j & f & Hf & ->). exists j. rewrite list_lookup_imap, Hf. done.
Qed.

Lemma new_mappings_pages vadr flags fs n :
  length fs = Z.to_nat n →
  mp_vadr <$> new_mappings 0 vadr flags fs = (λ j, vadr + j * PAGE_SIZE) <$> range n.
Proof.
  intros Hlen. apply list_eq. intros j. unfold new_mappings, range. rewrite !list_lookup_fmap, list_lookup_imap.
  destruct (Nat.lt_ge_cases j (length fs)) as [Hj|Hj].
  - destruct (lookup_lt_is_Some_2 fs j Hj) as [f ->]. rewrite lookup_seq_lt by lia. done.
  - rewrite (lookup_ge_None_2 fs j) by done. rewrite lookup_seq_ge by lia. done.
Qed.

Lemma seg_mappings_pages l fss (m : Machine P V) :
  Forall2 (seg_in m) l fss →
  mp_vadr <$> seg_mappings l fss = l ≫= λ e, (λ j, seg_page e.1 + j * PAGE_SIZE) <$> range (seg_pages e.1).
Proof.
  unfold seg_mappings. induction 1 as [|e fs l fss (Hlen & _) _ IH]; [done|].
  rewrite bind_cons, <-IH. cbn [zip_with mjoin list_join]. rewrite fmap_app. f_equal. by apply new_mappings_pages.
Qed.

Lemma elem_of_seg_mappings x l fss (m : Machine P V) :
  Forall2 (seg_in m) l fss → x ∈ seg_mappings l fss →
  ∃ e fs, e ∈ l ∧ seg_in m e fs ∧ x ∈ new_mappings 0 (seg_page e.1) (seg_flags e.1) fs.
Proof.
  unfold seg_mappings. induction 1 as [|e fs l fss He _ IH]; cbn [zip_with mjoin list_join]; [by intros ?%elem_of_nil|].
  intros [Hx|Hx]%elem_of_app.
  - exists e, fs. split_and!; [by left|done|done].
  - destruct (IH Hx) as (e' & fs' & ? & ? & ?). exists e', fs'. split_and!; [by right|done|done].
Qed.

Lemma user_flags (e : ProgramHeader) : kernel_flags (seg_flags e) ∧ kernel_flags stack_flags.
Proof.
  destruct kernel_flags_const as (H0 & _ & Hw & Hu & _). unfold seg_flags, stack_flags, memory_flags.
  split; [|auto with helium]. destruct (writable e); auto with helium.
Qed.

Lemma seg_user_mapping elf e fs x :
  seg_ok elf e.1 e.2 → length fs = Z.to_nat (seg_pages e.1) → Forall good_frame fs →
  x ∈ new_mappings 0 (seg_page e.1) (seg_flags e.1) fs → user_mapping x.
Proof.
  intros Hok Hlen Hgf (j & f & Hf & ->)%elem_of_new_mappings.
  destruct (seg_bounds _ _ _ Hok) as (Hn & Hoff & Hfit & Ev & _ & Hgood).
  pose proof (lookup_lt_Some _ _ _ Hf) as Hj. rewrite Hlen in Hj.
  split; cbn [mp_n mp_vadr mp_padr mp_flags]; [done| | | |apply user_flags].
  - apply Hgood. lia.
  - pose proof (so_user _ _ _ Hok). unfold seg_pages, pages_for, seg_page, seg_off, USERSPACE_TOP, PAGE_SIZE in *. zlia.
  - by apply (Forall_lookup_1 _ _ _ _ Hgf Hf).
Qed.

Lemma stack_user_mapping fs x :
  length fs = Z.to_nat STACK_PAGES → Forall good_frame fs →
  x ∈ new_mappings 0 USERSTACK_TOP stack_flags fs → user_mapping x.
Proof.
  intros Hlen Hgf (j & f & Hf & ->)%elem_of_new_mappings.
  pose proof (lookup_lt_Some _ _ _ Hf) as Hj. rewrite Hlen in Hj. change STACK_PAGES with 128 in Hj.
  change USERSTACK_TOP with 0x7FFFFFE80000 in *.
  split; cbn [mp_n mp_vadr mp_padr mp_flags]; [done| | | |].
  - unfold good_page, PAGE_SIZE. rewrite canonical_iff, page_aligned_iff. unfold PAGE_SIZE. split; zlia.
  - unfold PAGE_SIZE. lia.
  - by apply (Forall_lookup_1 _ _ _ _ Hgf Hf).
  - apply (user_flags (mkProgramHeader 0 0 0 0 0 0 0 0)).
Qed.

(** ** The program as the task sees it *)

(** The byte behind a virtual address, in a frame that nobody else is given. *)
Definition user_byte m (va b : Z) : Prop :=
  ∃ f, virt_to_phys (mc_kmem m) va = Some (f + va mod PAGE_SIZE) ∧ page_aligned f = true ∧
    f ∉ fa_free (k_pmm (mc_kmem m)) ∧ mc_ram m !! (f + va mod PAGE_SIZE) = Some b.

Record program_seen m (p4 : Z) (l : list (ProgramHeader * list Z)) : Prop := {
  ps_segment e i : e ∈ l → 0 ≤ i < ph_mem_size e.1 →
    user_byte m (ph_vadr e.1 + i) (default 0 (e.2 !! Z.to_nat i));
  ps_stack i : 0 ≤ i < USERSTACK_SIZE → user_byte m (USERSTACK_TOP + i) 0;
  ps_rights e j : e ∈ l → 0 ≤ j < seg_pages e.1 →
    ∃ f fl, translate (k_mem (mc_kmem m)) p4 (seg_page e.1 + j * PAGE_SIZE) = Some (f, fl) ∧
      fl_contains fl USER_ACCESSIBLE = true ∧ fl_contains fl WRITABLE = writable e.1;
}.

Lemma installed_window k p4 lv page flags fs x :
  kmem_inv k p4 lv → page_aligned page = true → Forall (installed k p4) (new_mappings 0 page flags fs) →
  0 ≤ x < PAGE_SIZE * Z.of_nat (length fs) → virt_to_phys k (page + x) = Some (frame_byte fs x).
Proof.
  intros Hinv Ha Hin Hx. eapply virt_to_phys_window; [exact Hinv|exact Ha| |exact Hx].
  apply Forall2_same_length_lookup_2; [unfold pages_from; by rewrite length_imap|]. intros j q f Hq Hf.
  unfold pages_from in Hq. rewrite list_lookup_imap, Hf in Hq. injection Hq as <-.
  assert (mkMemoryMapping (page + Z.of_nat j * PAGE_SIZE) f 1 flags true ∈ new_mappings 0 page flags fs) as He
    by (apply elem_of_new_mappings; eauto).
  rewrite Forall_forall in Hin. exact (Hin _ He).
Qed.

Lemma window_byte m p4 lv page flags fs x b :
  kmem_inv (mc_kmem m) p4 lv → page_aligned page = true →
  Forall (installed (mc_kmem m) p4) (new_mappings 0 page flags fs) →
  Forall good_frame fs → Forall (λ f, f ∉ fa_free (k_pmm (mc_kmem m))) fs →
  0 ≤ x < PAGE_SIZE * Z.of_nat (length fs) → mc_ram m !! frame_byte fs x = Some b → user_byte m (page + x) b.
Proof.
  intros Hinv Ha Hin Hg Hnf Hx Hb. pose proof (installed_window _ _ _ _ _ _ _ Hinv Ha Hin Hx) as Hv.
  destruct (frame_byte_lookup fs x Hx) as (f & Hf & E). rewrite E in Hv, Hb.
  assert ((page + x) mod PAGE_SIZE = x mod PAGE_SIZE) as Em.
  { apply page_aligned_iff in Ha. unfold PAGE_SIZE in *. zlia. }
  exists f. rewrite Em. rewrite Forall_forall in Hg, Hnf. apply list_elem_of_lookup_2 in Hf.
  split_and!; [done|apply (Hg f Hf)|by apply Hnf|done].
Qed.

Lemma seg_flags_bits page (e : ProgramHeader) :
  page < 2 ^ 47 → fl_contains (leaf_flags page (seg_flags e)) USER_ACCESSIBLE = true ∧
    fl_contains (leaf_flags page (seg_flags e)) WRITABLE = writable e.
Proof.
  intros Hp. destruct (leaf_flags_bits page (seg_flags e)) as (_ & _ & Hu & Hw).
  rewrite Hw, Hu by (unfold KVMSPACE; lia). rewrite contains_user, contains_writable. unfold seg_flags, memory_flags.
  rewrite !fl_union_spec. destruct flags_values as (_ & -> & -> & _). destruct (writable e); split; done.
Qed.

Lemma elem_of_seg_pair e l fss (m : Machine P V) :
  Forall2 (seg_in m) l fss → e ∈ l →
  ∃ fs, seg_in m e fs ∧ (∀ f, f ∈ fs → f ∈ mjoin fss) ∧
    ∀ x, x ∈ new_mappings 0 (seg_page e.1) (seg_flags e.1) fs → x ∈ seg_mappings l fss.
Proof.
  unfold seg_mappings. induction 1 as [|e' fs l fss He _ IH]; [by intros ?%elem_of_nil|].
  cbn [zip_with mjoin list_join]. intros [->|Hin]%elem_of_cons.
  - exists fs. split_and!; [done|..]; intros x Hx; apply elem_of_app; by left.
  - destruct (IH Hin) as (fs' & ? & Hmem & Hsub). exists fs'.
    split_and!; [done|..]; intros x Hx; apply elem_of_app; right; [by apply Hmem|by apply Hsub].
Qed.

(** What an installed program looks like from user space. *)
Lemma install_seen elf l fss stack k' m p4 lv' :
  headers elf 0 l → kmem_inv k' p4 lv' → Forall2 (seg_in m) l fss → length stack = Z.to_nat STACK_PAGES →
  Forall good_frame stack → holds (mc_ram m) 0 USERSTACK_SIZE [] stack →
  Forall (λ f, f ∉ fa_free (k_pmm (mc_kmem m))) (mjoin fss ++ stack) →
  fa_free (k_pmm k') ⊆ fa_free (k_pmm (mc_kmem m)) →
  (∀ x, x ∈ seg_mappings l fss ++ new_mappings 0 USERSTACK_TOP stack_flags stack → installed k' p4 x) →
  program_seen (mkMachine k' (mc_ram m)) p4 l.
Proof.
  intros Hh Hinv' Hseg Hlen Hgs Hst Hnf Hsub' Hin.
  assert (∀ f, f ∈ mjoin fss ++ stack → f ∉ fa_free (k_pmm k')) as Hnf'.
  { rewrite Forall_forall in Hnf. intros f Hf ?%Hsub'. by eapply Hnf. }
  split; cbn [mc_kmem mc_ram].
  - intros e i He Hi. destruct (elem_of_seg_pair e _ _ _ Hseg He) as (fs & (Hlf & Hgf & Hb) & Hmem & Hsub).
    destruct (seg_bounds _ _ _ (headers_seg_ok _ _ _ _ Hh He)) as (Hn & Hoff & Hfit & Ev & _).
    rewrite Ev, <-Z.add_assoc. eapply (window_byte (mkMachine k' (mc_ram m)) p4 lv');
      [done|by destruct (seg_page_good _ _ _ (headers_seg_ok _ _ _ _ Hh He))| |done| | |by apply Hb].
    + apply Forall_forall. intros x Hx. apply Hin, elem_of_app. left. by apply Hsub.
    + apply Forall_forall. intros f Hf. apply Hnf', elem_of_app. left. by apply Hmem.
    + rewrite Hlf. unfold PAGE_SIZE in *. lia.
  - intros i Hi. eapply (window_byte (mkMachine k' (mc_ram m)) p4 lv'); [done|done| |done| | |].
    + apply Forall_forall. intros x Hx. apply Hin, elem_of_app. by right.
    + apply Forall_forall. intros f Hf. apply Hnf', elem_of_app. by right.
    + rewrite Hlen. change (Z.of_nat (Z.to_nat STACK_PAGES)) with 128. unfold USERSTACK_SIZE, PAGE_SIZE in *. lia.
    + cbn [mc_ram]. rewrite <-(Z.add_0_l i). by apply Hst.
  - intros e j He Hj. destruct (elem_of_seg_pair e _ _ _ Hseg He) as (fs & (Hlf & Hgf & Hb) & _ & Hsub).
    destruct (lookup_lt_is_Some_2 fs (Z.to_nat j) ltac:(lia)) as [f Hf].
    assert (mkMemoryMapping (seg_page e.1 + j * PAGE_SIZE) f 1 (seg_flags e.1) true ∈
      new_mappings 0 (seg_page e.1) (seg_flags e.1) fs) as Hx.
    { apply elem_of_new_mappings. exists (Z.to_nat j), f. by rewrite Z2Nat.id by lia. }
    assert (user_mapping (mkMemoryMapping (seg_page e.1 + j * PAGE_SIZE) f 1 (seg_flags e.1) true)) as Hu.
    { eapply seg_user_mapping; try done. by eapply headers_seg_ok. }
    eexists f, _. split; [apply (Hin _ (proj2 (elem_of_app _ _ _) (or_introl (Hsub _ Hx))))|].
    apply seg_flags_bits. exact (um_user _ Hu).
Qed.

Lemma program_install elf l active m mm p4 lv :
  program_in m l mm → headers elf 0 l → kmem_inv (mc_kmem m) p4 lv → pages_free (mc_kmem m) p4 l →
  (3 * length (program_pages l) ≤ size (fa_free (k_pmm (mc_kmem m))))%nat →
  has_room (wc_shows (k_vc (mc_kmem m))) 2 → active ≠ Some (mm_id mm) →
  ∃ k' lv', MemoryMap_apply active mm (mc_kmem m) = Ok (Some (mm_id mm), k') ∧ kmem_inv k' p4 lv' ∧
    program_seen (mkMachine k' (mc_ram m)) p4 l ∧ Forall (λ e, user_mapping e ∧ installed k' p4 e) (mm_mappings mm) ∧
    remaps (3 * length (program_pages l)) p4 (program_pages l) (mc_kmem m) k' ∧
    has_room (wc_shows (k_vc k')) 2.
Proof.
  intros (fss & stack & -> & Hseg & Hlen & Hgs & Hst & _ & Hnf) Hh Hinv [Hnd Hcl] Hsz Hroom Hact.
  set (es := seg_mappings l fss ++ new_mappings 0 USERSTACK_TOP stack_flags stack).
  assert (mp_vadr <$> es = program_pages l) as Epages.
  { unfold es, program_pages. rewrite fmap_app, (seg_mappings_pages _ _ _ Hseg). f_equal. by apply new_mappings_pages. }
  assert (Forall user_mapping es) as Hum.
  { apply Forall_forall. intros x [Hx|Hx]%elem_of_app; [|by eapply stack_user_mapping].
    destruct (elem_of_seg_mappings _ _ _ _ Hseg Hx) as (e & fs & He & (Hlf & Hgf & _) & Hx').
    eapply seg_user_mapping; try done. by eapply headers_seg_ok. }
  assert (length es = length (program_pages l)) as Elen by (by rewrite <-Epages, length_fmap).
  destruct (mappings_apply_run es (mc_kmem m) p4 lv Hum) as (k' & lv' & Hr & Hinv' & Hin & Hrm & Hsw); try done.
  { by rewrite Epages. }
  { rewrite <-Epages in Hcl. by apply Forall_fmap in Hcl. }
  { by rewrite Elen. }
  rewrite Elen, Epages in Hrm. rewrite Forall_forall in Hin.
  exists k', lv'. split_and!; [|done|eapply install_seen; try done; apply Hrm| |done|done].
  2: { rewrite Forall_forall in Hum. apply Forall_forall. intros x Hx. split; [by apply Hum|by apply Hin]. }
  unfold MemoryMap_apply. rewrite bool_decide_eq_false_2 by done.
  change (mm_mappings (extend MemoryMap_new es)) with es. by run_step Hr.
Qed.

(** ** The first interrupt *)

Context (env : Env).
Implicit Types (g : Kernel P V).

(** Jumping to a task whose map is not installed yet. *)
Lemma continue_installs c (s : Sched P V) p r t a k :
  sc_procs s !! c = Some p → pi_current p = Some r → sc_heap s !! r = Some t →
  MemoryMap_apply (pi_active p) (t_memory_map t) (mc_kmem (sc_machine s)) = Ok (a, k) →
  continue_current c s =
    Ok (Some (t_procstate t), set_procs (<[c := set_active a p]> (sc_procs s))
      (set_machine (mkMachine k (mc_ram (sc_machine s))) s)).
Proof.
  intros Hc Hp Hr Ha. unfold continue_current. run_step (pinfo_run _ _ _ Hc). rewrite Hp.
  run_step (task_at_run _ _ _ Hr). unfold on_machine, on_mem.
  rewrite (M_bind_run _ _ s a _ (zoom_run sc_machine _ _ s _ _ (zoom_run mc_kmem _ _ (sc_machine s) _ _ Ha))).
  done.
Qed.

(** A screen the primary core can show its ticks on. *)
Definition beats g : Prop :=
  geometry (v_fb (ks_video g)) ∧ double_buffer (v_fb (ks_video g)) = None ∧
  10 < fb_width (v_fb (ks_video g)) ∧ 50 < fb_height (v_fb (ks_video g)) ∧ 0 ≤ ks_count g.

Lemma heartbeat_run g :
  beats g → ∃ g', heartbeat g = Ok (tt, g') ∧ ks_sched g' = ks_sched g ∧ ks_lapics g' = ks_lapics g.
Proof.
  intros (Hg & Hdb & Hw & Hh & Hc). pose proof (Z.mod_pos_bound (ks_count g) 10 ltac:(lia)) as Hm.
  assert (add64 1 (ks_count g mod 10) = Ok (1 + ks_count g mod 10)) as Ea by (apply chk_in; unfold in_width; lia).
  unfold heartbeat. rewrite (M_bind_run (gets ks_count) _ g _ g eq_refl).
  rewrite (M_bind_run (modify _) _ g tt _ eq_refl). set (g1 := mkKernel _ _ _ _).
  assert (on_screen (v_fb (ks_video g)) (1 + ks_count g mod 10) 50) as Hon by (split; lia).
  run_step (lift_run _ g1 _ Ea). unfold on_video, debug_set_pixel. cbv zeta.
  destruct (ks_count g / 10 mod 2 =? 0);
    (eexists; split; [apply (zoom_run ks_video); rewrite set_pixel_run by (done || by vm_compute);
       cbv zeta; cbn [ks_video g1]; rewrite Hdb; reflexivity|done]).
Qed.

(** The kernel after the interrupt that entered the first task. *)
Record entered (c : Z) (p : ProcInfo) (p4 : Z) (l : list (ProgramHeader * list Z)) g g' (r : nat) (t : Task) : Prop := {
  et_inv : sched_inv (ks_sched g');
  et_idcount : sc_idcount (ks_sched g') = 1;
  et_clock : sc_clock (ks_sched g') = sc_clock (ks_sched g) + 1;
  et_tasks : sc_tasks (ks_sched g') = [r];
  et_proc : sc_procs (ks_sched g') !! c =
    Some (set_active (Some (mm_id (t_memory_map t))) (set_current (Some r) (set_tick_miss 0 p)));
  et_task : sc_heap (ks_sched g') !! r = Some t;
  et_id : t_id t = 1;
  et_pages : (length (program_pages l) ≤ length (mm_mappings (t_memory_map t)))%nat;
  et_seen : program_seen (sc_machine (ks_sched g')) p4 l;
  et_installed : Forall (λ e, user_mapping e ∧ installed (mc_kmem (sc_machine (ks_sched g'))) p4 e) (mm_mappings (t_memory_map t));
  et_mem : ∃ lv, kmem_inv (mc_kmem (sc_machine (ks_sched g'))) p4 lv;
  et_size : (size (fa_free (k_pmm (mc_kmem (sc_machine (ks_sched g))))) ≤
    size (fa_free (k_pmm (mc_kmem (sc_machine (ks_sched g'))))) +
    (frames_for l + 4 * Z.to_nat STACK_PAGES + 3 * length (program_pages l)))%nat;
  et_clear ix : Forall (λ j, j < 512)%nat ix → (length ix ≤ 3)%nat →
    clear_path (k_mem (mc_kmem (sc_machine (ks_sched g)))) p4 ix = true →
    clear_path (k_mem (mc_kmem (sc_machine (ks_sched g')))) p4 ix = true;
  et_room : has_room (wc_shows (k_vc (mc_kmem (sc_machine (ks_sched g'))))) 2;
}.

Lemma timer_enters_run c primary p la regs off len elf l g p4 lv :
  let s := ks_sched g in (primary = true → beats g) →
  sched_start s → sc_procs s !! c = Some p → pi_active p = None → ks_lapics g !! c = Some la →
  sc_clock s + 1 < 2 ^ 64 → in_width 64 (10 * env_numcores env) →
  open_file (env_initrd env) INIT_PATH = Ok (Some (off, len)) →
  ElfFile_parse (sub_bytes (env_image env) (Z.to_nat off) (Z.to_nat len)) (INITRD_START + off) = Ok (Some elf) →
  headers elf 0 l → fits (sc_machine s) c p4 lv l → pages_free (mc_kmem (sc_machine s)) p4 l →
  (frames_for l + 4 * Z.to_nat STACK_PAGES + 3 * length (program_pages l) ≤
    size (fa_free (k_pmm (mc_kmem (sc_machine s)))))%nat →
  ∃ g' la' r t, timer_inter_2 env c primary regs false (λ _, false) g = Ok (Some (start_state env elf), g') ∧
    entered c p p4 l g g' r t ∧
    ks_lapics g' !! c = Some la' ∧ eoireg la' = 0 ∧ initcountreg la' = wrap 32 (pi_quantum p).
Proof.
  intros s Hbeat Hstart Hc Hact Hla Hck Hn Hopen Hparse Hh Hfits [Hnd Hcl] Hsz. unfold timer_inter_2.
  run_step (on_lapic_run c (timer_reset u64_max) la _ g Hla eq_refl).
  set (g1 := mkKernel _ _ _ _). set (la1 := mkLapic _ _ _ _ _ _ _ _) in g1.
  destruct (first_tick_run env c p regs off len elf l s p4 lv) as
    (s2 & r & t & Hr & Hinv & Hidc & Hclk & Ht & Hps & Hlk & Hid & Hst & Hreg & Hprog & (lv' & Hk) & Hkeeps); try done.
  run_step (on_sched_run _ g1 _ _ Hr).
  assert (∃ g2, (if primary then heartbeat else mret tt) (set_sched s2 g1) = Ok (tt, g2) ∧
    ks_sched g2 = s2 ∧ ks_lapics g2 = ks_lapics g1) as (g2 & Hb & Es2 & El2).
  { destruct primary; [|by eexists]. destruct (heartbeat_run (set_sched s2 g1)) as (g2 & ? & ? & ?); [|by exists g2].
    exact (Hbeat eq_refl). }
  run_step Hb. subst s2.
  set (p2 := set_current (Some r) (set_tick_miss 0 p)) in Hps.
  assert (sc_procs (ks_sched g2) !! c = Some p2) as Hc2 by (rewrite Hps; apply lookup_insert_eq).
  destruct (program_install elf l (pi_active p2) (sc_machine (ks_sched g2)) (t_memory_map t) p4 lv')
    as (k' & lv2 & Ha & Hk' & Hseen & Hins & Hrm & Hroom'); try done.
  { split; [done|]. eapply Forall_impl; [exact Hcl|]. intros q Hq.
    apply (kp_path _ _ _ _ _ Hkeeps); [apply page_indices_lt|simpl; lia|done]. }
  { pose proof (kp_size _ _ _ _ _ Hkeeps). change (sc_machine (ks_sched g)) with (sc_machine s) in Hsz. lia. }
  { apply Hkeeps, Hfits. }
  { cbn [pi_active p2 set_current set_tick_miss]. by rewrite Hact. }
  pose proof (continue_installs c (ks_sched g2) p2 r t _ _ Hc2 eq_refl Hlk Ha) as Hcc. rewrite Hreg in Hcc.
  set (s3 := set_procs _ _) in Hcc. run_step (on_sched_run _ g2 _ _ Hcc).
  assert (sc_procs s3 !! c = Some (set_active (Some (mm_id (t_memory_map t))) p2)) as Hc3 by apply lookup_insert_eq.
  run_step (on_sched_run _ (set_sched s3 g2) _ _ (pinfo_run c s3 _ Hc3)).
  assert (ks_lapics (set_sched s3 (set_sched s3 g2)) !! c = Some la1) as Hl1 by (change (ks_lapics g2 !! c = Some la1); rewrite El2; apply lookup_insert_eq).
  run_step (on_lapic_run c (timer_reset (pi_quantum p)) la1 _ _ Hl1 eq_refl).
  rewrite (M_bind_run _ _ _ _ _ (on_lapic_run c eoi _ _ _ (lookup_insert_eq _ _ _) eq_refl)).
  eexists _, _, r, t. split; [reflexivity|]. split_and!; [|apply lookup_insert_eq|done|done].
  split; try done; cbn [ks_sched set_sched].
  - eapply continue_current_inv; [exact Hinv|exact Hcc].
  - destruct Hprog as (fss & stack & -> & Hseg & Hlen & _). cbn [extend mm_mappings MemoryMap_new app].
    unfold program_pages. rewrite <-(seg_mappings_pages _ _ _ Hseg), !length_app, !length_fmap, length_range.
    unfold new_mappings. rewrite length_imap, Hlen. lia.
  - by exists lv2.
  - pose proof (kp_size _ _ _ _ _ Hkeeps). pose proof (rm_size _ _ _ _ _ Hrm).
    change (mc_kmem (sc_machine s3)) with k'. change (sc_machine (ks_sched g)) with (sc_machine s). lia.
  - intros ix H1 H2 H3. apply (rm_clear _ _ _ _ _ Hrm); try done. by apply (kp_path _ _ _ _ _ Hkeeps).
Qed.

(** The first timer interrupt of the kernel ends in [/bin/init]: when the
    ramdisk holds an ELF file under that name whose segments the loader
    accepts and whose pages are all different, and memory is free, the
    interrupt returns to user code at the entry point of the file, with the
    interrupt acknowledged; and what the task reads through the page tables is
    its program: at every address of every segment the byte of the file or
    zero, a stack of zeros, pages accessible to the user and writable exactly
    where the file says so. *)
Theorem timer_enters_init c primary p la regs off len elf l g p4 lv :
  let s := ks_sched g in (primary = true → beats g) →
  sched_start s → sc_procs s !! c = Some p → pi_active p = None → ks_lapics g !! c = Some la →
  sc_clock s + 1 < 2 ^ 64 → in_width 64 (10 * env_numcores env) →
  open_file (env_initrd env) INIT_PATH = Ok (Some (off, len)) →
  ElfFile_parse (sub_bytes (env_image env) (Z.to_nat off) (Z.to_nat len)) (INITRD_START + off) = Ok (Some elf) →
  headers elf 0 l → fits (sc_machine s) c p4 lv l → pages_free (mc_kmem (sc_machine s)) p4 l →
  (frames_for l + 4 * Z.to_nat STACK_PAGES + 3 * length (program_pages l) ≤
    size (fa_free (k_pmm (mc_kmem (sc_machine s)))))%nat →
  ∃ g' la' r t, timer_inter_2 env c primary regs false (λ _, false) g = Ok (Some (start_state env elf), g') ∧
    program_seen (sc_machine (ks_sched g')) p4 l ∧ sc_tasks (ks_sched g') = [r] ∧
    sc_heap (ks_sched g') !! r = Some t ∧ t_id t = 1 ∧
    (length (program_pages l) ≤ length (mm_mappings (t_memory_map t)))%nat ∧
    ks_lapics g' !! c = Some la' ∧ eoireg la' = 0 ∧ initcountreg la' = wrap 32 (pi_quantum p).
Proof.
  intros s Hbeat Hst Hc Hact Hla Hck Hn Hopen Hparse Hh Hfits Hpf Hsz.
  destruct (timer_enters_run c primary p la regs off len elf l g p4 lv) as (g' & la' & r & t & Hr & He & Hl); try done.
  exists g', la', r, t. destruct Hl as (? & ? & ?). split_and!; try done; by destruct He.
Qed.
End install.
