(* ===== verification/Isolation.v ===== *)
(** * User space and the kernel

    The page tables of the kernel in every state it reaches.  Whatever the
    programs are, and whatever they call, the tables stay a tree that the
    kernel can change, no page of kernel space becomes accessible to user
    code, and the frames of a task are never tables.  The mapper is used with
    pages that come from files ([exec], [MemoryMap::apply]); what makes this
    hold are the checks of the loader and the flags of [map].

    The tables are followed as the kernel writes them.  Pages of a task that has
    ended stay mapped ([Stale]), so that user code may still write to frames
    that are used again; such writes are not part of a step of the kernel. *)

From S2P Require Import Prelude X86 FrameAlloc WindowCache VCache Mapper Mem Boot Elf Tar Task Exec Sched.
From S2P Require Import Framebuffer Apic Syscall Trace Owner Install.

(** The pages that are mapped at run time: those of user space and those of the
    windows of the loader, one per core. *)
Definition mappable (q : Z) : Prop :=
  0 ≤ q < 2 ^ 47 ∨ TMP_TASKLDMAP ≤ q < TMP_TASKLDMAP + 257 * TMP_TASK_SIZE_PER_PROC.

(** A page of kernel space outside the virtual cache, whose pages are in
    tables of their own ([VCache]). *)
Definition kspace_page (q : Z) : Prop := good_page q ∧ KVMSPACE < q ∧ ¬ in_cache q.

Section guarded.
Context {X : X86} {XO : X86Ok X} {P : Type} {FA : FrameAllocator P} {FAO : FrameAllocatorOk P}.
Context {V : Type} {WC : WindowCache V} {WCO : WindowCacheOk V}.
(** The root of the tables, and the tables at the beginning. *)
Context (p4 : Z) (mem0 : gmap Z (list Z)).
Implicit Types (k : Kmem P V) (mm : MemoryMap) (T : Z → Prop).

(** The memory of the kernel is in order; the frames [U] are not used for
    tables. *)
Record safe (U : gset Z) k : Prop := {
  sf_pmm : fa_inv (k_pmm k);
  sf_vc : wc_inv (k_vc k);
  sf_root : wc_shows (k_vc k) (k_p4 k) p4;
  sf_room : has_room (wc_shows (k_vc k)) 2;
  sf_free : fa_free (k_pmm k) ⊆ U;
  sf_tables : sealed U k p4;
  sf_clear q : good_page q → mappable q → clear_path (k_mem k) p4 (page_path q) = true;
  sf_kernel q : kspace_page q → ¬ user_page (k_mem k) p4 q;
  sf_same q : good_page q → ¬ mappable q → translate (k_mem k) p4 q = translate mem0 p4 q;
}.
(** And none of the frames [T] is. *)
Definition guarded T k : Prop := ∃ U, safe U k ∧ ∀ f, T f → f ∈ U.

Lemma safe_inv U k : safe U k → ∃ lv, kmem_inv k p4 lv ∧ pt_inv U (k_mem k) p4 lv.
Proof. intros [Hp Hv Hr _ Hf [lv Hpt] _ _ _]. exists lv. split; [|done]. split; try done. by eapply pt_inv_shrink. Qed.

Lemma guarded_weaken T T' k : (∀ f, T' f → T f) → guarded T k → guarded T' k.
Proof. intros H (U & Hs & HT). exists U. split; [done|]. auto. Qed.
Lemma guarded_inv T k : guarded T k → fa_inv (k_pmm k).
Proof. by intros (U & [] & _). Qed.

(** A frame in use is no table. *)
Lemma guarded_no_table T k f : guarded T k → T f → k_mem k !! f = None.
Proof.
  intros (U & Hs & HT) Hf%HT. destruct (safe_inv U k Hs) as (lv & _ & Hpt).
  destruct (k_mem k !! f) as [t|] eqn:E; [|done]. by destruct (pt_table _ _ _ _ Hpt _ _ E) as (_ & _ & ? & _).
Qed.

(** ** Memory services *)

Lemma mappable_unmanaged q : good_page q → mappable q → q < START_ADDR ∨ START_ADDR + VC_SIZE ≤ q.
Proof.
  intros _ [?|?]; [left|right]; unfold START_ADDR, TMP_TASKLDMAP, KVMSPACE, VC_SIZE, P1PAGE_COUNT, PAGE_SIZE in *; lia.
Qed.

Lemma vmap_guarded T k q frame fl r k' :
  guarded T k → (∀ f, T f → f ∉ fa_free (k_pmm k)) → good_page q → mappable q → good_frame frame → kernel_flags fl →
  vmap q frame PAGE_SIZE fl k = Ok (r, k') → guarded T k' ∧ fa_free (k_pmm k') ⊆ fa_free (k_pmm k).
Proof.
  intros (U & Hs & HT) Hnf Hq Hm Hf Hfl Hr. destruct (safe_inv U k Hs) as (lv & Hinv & Hpt).
  destruct (kernel_map_gen k q frame PAGE_SIZE fl p4 lv) as (k2 & lv2 & Hr2 & Hinv2 & Htr & Hrm & Hsw & _).
  - done.
  - done.
  - done.
  - done.
  - by apply mappable_unmanaged.
  - intros i Hi. change (pages_for PAGE_SIZE) with 1 in Hi. assert (i = 0) as -> by lia.
    unfold can_map_page. rewrite Z.mul_0_l, !Z.add_0_r. split_and!; [done|done|by apply Hs].
  - right. by eexists _, _.
  - apply Hs.
  - unfold vmap in Hr. rewrite Hr2 in Hr. injection Hr as <- <-.
    specialize (Htr 0 ltac:(by vm_compute)). rewrite Z.mul_0_l, !Z.add_0_r in Htr.
    change (request_pages q (range (pages_for PAGE_SIZE))) with [q + 0] in Hrm. rewrite Z.add_0_r in Hrm.
    split; [|apply Hrm]. exists (U ∖ (fa_free (k_pmm k) ∖ fa_free (k_pmm k2))).
    split; [|intros f Hf'; pose proof (HT f Hf'); pose proof (Hnf f Hf'); set_solver]. split.
    + apply Hinv2.
    + apply Hinv2.
    + apply Hinv2.
    + eapply same_windows_room; [exact Hsw|apply Hs].
    + pose proof (rm_free _ _ _ _ _ Hrm). pose proof (sf_free _ _ Hs). set_solver.
    + apply (rm_seals _ _ _ _ _ Hrm); apply Hs.
    + intros q' Hq' Hm'. destruct (page_indices_lt q') as [Hix _].
      apply (rm_clear _ _ _ _ _ Hrm); [done|cbn; lia|by apply Hs].
    + intros q' (Hq' & Hk' & Hout) Hu. apply (sf_kernel _ _ Hs q'); [done|].
      apply (rm_user _ _ _ _ _ Hrm); done || apply Hq'.
    + intros q' Hq' Hm'. rewrite (rm_other _ _ _ _ _ Hrm); [by apply Hs|apply Hq'|apply Hq'|].
      intros ->%list_elem_of_singleton. done.
Qed.

Lemma palloc_guarded T k o k' :
  guarded T k → palloc k = Ok (o, k') → guarded (λ f, T f ∨ o = Some f) k'.
Proof.
  intros (U & Hs & HT) Hr. unfold palloc in Hr. apply zoom_Ok in Hr as (p & Hr & ->).
  destruct (fa_alloc_ok (k_pmm k) (sf_pmm _ _ Hs)) as [[E _]|(f & q & E & Hq & Hf & Hfree & _)]; rewrite Hr in E; simplify_eq.
  - exists U. split; [by destruct k|]. intros f [?|?]; [auto|done].
  - exists U. destruct Hs as [A1 A2 A3 A4 A5 A6 A7 A8 A9]. split.
    + split; cbn [k_pmm k_vc k_mem k_p4 set_pmm]; try done. rewrite Hfree. set_solver.
    + intros g [?|[= <-]]; [auto|]. set_solver.
Qed.

Lemma pfree_all_guarded T k fs k' :
  guarded T k → Forall (λ f, T f ∧ fa_managed (k_pmm k) f ∧ good_frame f) fs → pfree_all fs k = Ok (tt, k') → guarded T k'.
Proof.
  intros (U & Hs & HT) Hfs Hr.
  assert (fa_inv (k_pmm k') ∧ fa_free (k_pmm k') = list_to_set fs ∪ fa_free (k_pmm k)) as [Hi Hfree].
  { apply pfree_all_back in Hr as (? & ? & _); [done|apply Hs|]. eapply Forall_impl; [exact Hfs|]. by intros f (_ & ? & ?). }
  assert (set_pmm (k_pmm k') k = k') as <-.
  { clear - Hr. revert k Hr. induction fs as [|f fs IH]; intros k Hr; unfold pfree_all in Hr.
    - simpl in Hr. inv_ok. by destruct k'.
    - rewrite for_cons in Hr. apply M_bind_Ok in Hr as ([] & k1 & (p & _ & ->)%zoom_Ok & Hr). apply (IH (set_pmm p k)) in Hr. by rewrite <-Hr. }
  exists U. split; [|done]. destruct Hs as [A1 A2 A3 A4 A5 A6 A7 A8 A9].
  split; cbn [k_pmm k_vc k_mem k_p4 set_pmm] in *; try done. rewrite Hfree. rewrite Forall_forall in Hfs.
  intros f [Hf%elem_of_list_to_set|Hf]%elem_of_union; [|by apply A5]. apply HT. by apply Hfs.
Qed.
End guarded.

(** ** Loading a program *)

Section loading.
Context {X : X86} {XO : X86Ok X} {P : Type} {FA : FrameAllocator P} {FAO : FrameAllocatorOk P}.
Context {V : Type} {WC : WindowCache V} {WCO : WindowCacheOk V}.
Context (p4 : Z) (mem0 : gmap Z (list Z)).
Implicit Types (k : Kmem P V) (s : Machine P V) (mm : MemoryMap).

(** [p0] is the allocator before, [T] are the frames in use then. *)
Context (p0 : P) (T : Z → Prop).
Hypothesis H0 : fa_inv p0.
Hypothesis HT : ∀ f, T f → f ∉ fa_free p0.

Definition in_use mm (f : Z) : Prop := T f ∨ f ∈ mm_frames mm.

Lemma built_in_use k mm f : built p0 (k_pmm k) mm → in_use mm f → f ∉ fa_free (k_pmm k).
Proof. intros Hb [Hf%HT|Hf] [? ?]%(ho_free _ _ _ Hb); done. Qed.

Lemma in_use_managed k mm fs :
  (∀ f, fa_managed (k_pmm k) f ↔ fa_managed p0 f) → Forall (.∈ fa_free p0) fs → Forall (.∈ mm_frames mm) fs →
  Forall (λ f, in_use mm f ∧ fa_managed (k_pmm k) f ∧ good_frame f) fs.
Proof.
  intros Hm Hfr Hin. pose proof (fresh_managed p0 (k_pmm k) fs H0 Hm Hfr) as Hg. rewrite Forall_forall in *.
  intros f Hf. destruct (Hg f Hf). split_and!; [right; by apply Hin|done|done].
Qed.

(** A map that is built for user pages, with its frames guarded. *)
Record loading k mm : Prop := {
  ld_built : built p0 (k_pmm k) mm;
  ld_guard : guarded p4 mem0 (in_use mm) k;
  ld_user : Forall user_mapping (mm_mappings mm);
}.

Lemma mm_frames_extend mm e :
  mm_frames (extend mm [e]) = mm_frames mm ++ (if mp_allocated e then [mp_padr e] else []).
Proof. destruct mm as [id ms]. unfold extend. cbn [mm_id mm_mappings]. rewrite mm_frames_app. unfold mm_frames at 2. cbn. by destruct (mp_allocated e). Qed.

Lemma loading_add k mm f k' page flags :
  loading k mm → palloc k = Ok (Some f, k') → good_page page → page < 2 ^ 47 → kernel_flags flags →
  loading k' (extend mm [mkMemoryMapping page f 1 flags true]).
Proof.
  intros [Hb Hg Hu] Hr Hp Hlt Hfl. pose proof (palloc_guarded p4 mem0 _ _ _ _ Hg Hr) as Hg'.
  unfold palloc in Hr. apply zoom_Ok in Hr as (p & Hr & ->).
  destruct (fa_alloc_ok (k_pmm k) (ho_inv _ _ _ Hb)) as [[E _]|(f' & q & E & Hq & Hf & Hfree & Hman)]; rewrite Hr in E; simplify_eq.
  split.
  - by eapply built_add.
  - eapply guarded_weaken; [|exact Hg']. intros g [?|Hin]; [left; by left|]. rewrite mm_frames_extend in Hin.
    cbn [mp_allocated mp_padr] in Hin. apply elem_of_app in Hin as [?|Hin]; [left; by right|]. apply list_elem_of_singleton in Hin as ->. by right.
  - apply Forall_app. split; [done|]. apply Forall_singleton.
    destruct (fa_free_managed _ _ (ho_inv _ _ _ Hb) Hf) as [_ ?]. by split.
Qed.

Lemma allocate_loop_loading vadr flags l acc mm k r mm' k' :
  loading k mm → Forall (.∈ mm_frames mm) acc → kernel_flags flags →
  (∀ i page, i ∈ l → page_add vadr i = Some page → good_page page ∧ page < 2 ^ 47) →
  allocate_loop vadr flags l acc mm k = Ok ((r, mm'), k') →
  match r with
  | Some fs => loading k' mm' ∧ Forall (.∈ mm_frames mm') fs ∧ length fs = (length acc + length l)%nat
  | None => guarded p4 mem0 (in_use mm') k'
  end.
Proof.
  intros Hld Hacc Hfl. revert acc mm k Hld Hacc. induction l as [|i l IH]; intros acc mm k Hld Hacc Hpages Hr; cbn [allocate_loop] in Hr.
  { inv_ok. cbn [length]. by rewrite Nat.add_0_r. }
  apply M_bind_Ok in Hr as (o & k1 & H1 & Hr). destruct o as [f|].
  - apply M_bind_Ok in Hr as (page & k2 & [Hpg%of_option_Ok ->]%lift_Ok & Hr). unfold add_raw in Hr. rewrite last_snoc in Hr.
    change (mkMemoryMap (mm_id mm) (mm_mappings mm ++ [mkMemoryMapping page f 1 flags true]))
      with (extend mm [mkMemoryMapping page f 1 flags true]) in Hr.
    destruct (Hpages i page (list_elem_of_here _ _) Hpg) as [Hgp Hlt].
    apply IH in Hr; [|by eapply loading_add|..].
    + destruct r as [fs|]; [|done]. destruct Hr as (? & ? & Hlen). split_and!; [done|done|].
      rewrite Hlen, length_app. cbn [length]. lia.
    + rewrite mm_frames_extend. cbn [mp_allocated mp_padr]. apply Forall_app. split.
      * eapply Forall_impl; [exact Hacc|]. intros g Hg. apply elem_of_app. by left.
      * apply Forall_singleton, elem_of_app. right. by left.
    + intros j page' Hj. apply Hpages. by right.
  - destruct Hld as [Hb Hg _]. pose proof (palloc_guarded p4 mem0 _ _ _ _ Hg H1) as Hg1.
    apply M_bind_Ok in Hr as ([] & k2 & H2 & Hr). inv_ok. eapply pfree_all_guarded; [|..|exact H2].
    { eapply guarded_weaken; [|exact Hg1]. intros f Hf. left. exact Hf. }
    unfold palloc in H1. apply zoom_Ok in H1 as (p & H1 & ->). destruct (alloc_shrinks _ _ _ H1 (ho_inv _ _ _ Hb)) as (_ & _ & Hm).
    apply in_use_managed; [|..|done].
    + intros f. cbn [k_pmm set_pmm]. rewrite Hm. apply Hb.
    + pose proof (ho_fresh _ _ _ Hb) as Hfr. rewrite Forall_forall in *. intros f Hf. by apply Hfr, Hacc.
Qed.

(** Mapping frames page by page. *)
Lemma vmap_many_guarded W frames i page fl k k' :
  guarded p4 mem0 W k → (∀ f, W f → f ∉ fa_free (k_pmm k)) → good_page page → 0 ≤ i →
  (i + Z.of_nat (length frames)) * PAGE_SIZE < 2 ^ 64 →
  (∀ j, i ≤ j < i + Z.of_nat (length frames) → good_page (page + j * PAGE_SIZE) ∧ mappable (page + j * PAGE_SIZE)) →
  Forall good_frame frames → kernel_flags fl → vmap_many_from i page frames fl k = Ok (tt, k') → guarded p4 mem0 W k'.
Proof.
  intros Hg Hnf [Hpc Hpa] Hi Hlen Hpages Hfs Hfl. revert i k Hg Hnf Hi Hlen Hpages.
  induction Hfs as [|f frames Hf _ IH]; intros i k Hg Hnf Hi Hlen Hpages Hr; cbn [vmap_many_from] in Hr; [by inv_ok|].
  cbn [length] in Hlen, Hpages. destruct (Hpages i ltac:(lia)) as [Hgp Hmp].
  apply M_bind_Ok in Hr as (q & ? & [Hq%of_option_Ok ->]%lift_Ok & Hr).
  rewrite page_add_spec, (proj1 Hgp) in Hq by (done || unfold PAGE_SIZE in *; lia). injection Hq as <-.
  apply M_bind_Ok in Hr as (r & k1 & H1 & Hr). apply M_bind_Ok in Hr as ([] & ? & [_ ->]%lift_Ok & Hr).
  eapply vmap_guarded in H1 as [Hg1 Hsub]; try done. eapply IH; [exact Hg1| |..|exact Hr].
  - intros g Hg'. pose proof (Hnf g Hg'). set_solver.
  - lia.
  - lia.
  - intros j Hj. apply Hpages. lia.
Qed.

(** The window of a core is in the part for the loader. *)
Lemma tmp_page_mappable id j :
  0 ≤ id < 256 → 0 ≤ j ≤ 2 ^ 23 →
  good_page (tmp_start id + j * PAGE_SIZE) ∧ mappable (tmp_start id + j * PAGE_SIZE).
Proof.
  intros Hid Hj. unfold good_page, mappable. rewrite canonical_iff, page_aligned_iff.
  unfold tmp_start, TMP_TASKLDMAP, KVMSPACE, TMP_TASK_SIZE_PER_PROC, PAGE_SIZE. split; [split; zlia|right; lia].
Qed.

Lemma tmp_local_reserve_loading id off frames mm s data s' :
  0 ≤ id < 256 → loading (mc_kmem s) mm → Forall (.∈ mm_frames mm) frames → Z.of_nat (length frames) ≤ 2 ^ 23 + 1 →
  tmp_local_reserve id off frames s = Ok (data, s') → loading (mc_kmem s') mm.
Proof.
  intros Hid [Hb Hg Hu] Hfr Hlen Hr. pose proof (built_shrinks _ _ _ _ Hb (tmp_local_reserve_takes _ _ _ _ _ _ Hr)) as Hb'.
  split; [exact Hb'| |done]. unfold tmp_local_reserve in Hr.
  destruct (tmp_page_mappable id 0 Hid ltac:(lia)) as [Hgp _]. rewrite Z.mul_0_l, Z.add_0_r in Hgp.
  apply M_bind_Ok in Hr as (o & ? & [[-> Ho]%chk_Ok ->]%lift_Ok & Hr).
  apply M_bind_Ok in Hr as (a & ? & [Ha%of_option_Ok ->]%lift_Ok & Hr).
  rewrite virt_add_spec in Ha by done. fold (tmp_start id) in Ha. rewrite (proj1 Hgp) in Ha. injection Ha as <-.
  apply M_bind_Ok in Hr as (q & ? & [Hq ->]%lift_Ok & Hr). rewrite page_from_start_spec, (proj2 Hgp) in Hq by apply Hgp.
  injection Hq as <-. apply M_bind_Ok in Hr as ([] & s1 & (k & Hr1 & ->)%zoom_Ok & Hr). apply lift_Ok in Hr as [_ ->].
  eapply vmap_many_guarded in Hr1; try done.
  - intros f. by apply built_in_use.
  - unfold PAGE_SIZE. lia.
  - intros j Hj. apply tmp_page_mappable; lia.
  - pose proof (ho_fresh _ _ _ Hb) as Hff. rewrite Forall_forall in *. intros f Hf.
    by apply (fa_free_managed p0 f H0), Hff, Hfr.
  - apply kernel_flags_const.
Qed.

(** What is left of the state when a part of a program was loaded or refused. *)
Definition load_guarded (r : result MemoryMap (ExecResult * MemoryMap)) s : Prop :=
  match r with ROk mm => loading (mc_kmem s) mm | RErr (_, mm) => guarded p4 mem0 (in_use mm) (mc_kmem s) end.

Lemma load_refused e mm s : loading (mc_kmem s) mm → load_guarded (RErr (e, mm)) s.
Proof. by intros []. Qed.

(** The pages of a segment that passes the checks are in user space. *)
Lemma segment_pages vadr sz j page :
  0 ≤ vadr → 0 ≤ sz → vadr + sz < USERSPACE_TOP → 0 ≤ j < pages_for (sz + vadr - vadr / PAGE_SIZE * PAGE_SIZE) →
  page_add (vadr / PAGE_SIZE * PAGE_SIZE) j = Some page → good_page page ∧ page < 2 ^ 47.
Proof.
  intros Hv Hs Hu Hj Hp. unfold pages_for, USERSPACE_TOP, PAGE_SIZE in *.
  assert (page = vadr / 4096 * 4096 + j * 4096) as ->.
  { rewrite page_add_spec in Hp.
    - by destruct (canonical _); [injection Hp|].
    - rewrite canonical_iff. zlia.
    - rewrite page_aligned_iff. unfold PAGE_SIZE. zlia.
    - lia.
    - unfold PAGE_SIZE. zlia. }
  unfold good_page. rewrite canonical_iff, page_aligned_iff. unfold PAGE_SIZE. split_and!; zlia.
Qed.

Lemma exec_load_loading id elf entry mm s r s' :
  0 ≤ id < 256 → 0 ≤ ph_vadr entry → 0 ≤ ph_mem_size entry → loading (mc_kmem s) mm →
  exec_load id elf entry mm s = Ok (r, s') → load_guarded r s'.
Proof.
  intros Hid Hv Hsz Hld Hr. unfold exec_load in Hr.
  destruct (PAGE_SIZE <? ph_align entry); [inv_ok; by apply load_refused|].
  apply M_bind_Ok in Hr as (e & ? & [[-> He]%chk_Ok ->]%lift_Ok & Hr).
  destruct (Z.leb_spec USERSPACE_TOP (ph_vadr entry + ph_mem_size entry)) as [|Hu]; [inv_ok; by apply load_refused|].
  destruct (Z.ltb_spec TMP_TASK_SIZE_PER_PROC (ph_mem_size entry)) as [|Hlg]; [inv_ok; by apply load_refused|].
  apply M_bind_Ok in Hr as (c & ? & [_ ->]%lift_Ok & Hr). destruct c as [content|]; [|inv_ok; by apply load_refused].
  assert (page_containing (virt_new_truncate (ph_vadr entry)) = seg_page entry) as Epg.
  { assert (canonical (ph_vadr entry) = true) as Hc by (rewrite canonical_iff; unfold USERSPACE_TOP in *; lia).
    rewrite virt_new_truncate_id by (done || unfold in_width, USERSPACE_TOP in *; lia). by apply page_containing_spec. }
  rewrite Epg in Hr.
  apply M_bind_Ok in Hr as (t & ? & [[-> _]%chk_Ok ->]%lift_Ok & Hr).
  apply M_bind_Ok in Hr as (t & ? & [[-> Ht]%chk_Ok ->]%lift_Ok & Hr).
  apply M_bind_Ok in Hr as (a & ? & [Ha%of_option_Ok ->]%lift_Ok & Hr).
  assert (a / PAGE_SIZE = seg_pages entry) as Ea.
  { rewrite align_up_page_spec in Ha by done. cbv zeta in Ha. destruct (_ <? _); [|done]. injection Ha as <-.
    unfold seg_pages, pages_for, PAGE_SIZE. rewrite Z.div_mul by done. f_equal. lia. }
  rewrite Ea in Hr. assert (0 ≤ seg_pages entry ≤ 2 ^ 23 + 1) as Hn.
  { unfold seg_pages, pages_for, seg_page, TMP_TASK_SIZE_PER_PROC, PAGE_SIZE in *. zlia. }
  apply M_bind_Ok in Hr as ([o mm1] & s1 & (k1 & H1 & ->)%zoom_Ok & Hr).
  apply allocate_loop_loading in H1; [|done|constructor|apply user_flags|].
  2: { intros i page Hi%elem_of_range. apply (segment_pages (ph_vadr entry) (ph_mem_size entry)); done. }
  destruct o as [frames|]; [|inv_ok; exact H1]. destruct H1 as (Hld1 & Hfs & Hlen).
  apply M_bind_Ok in Hr as (off & ? & [_ ->]%lift_Ok & Hr).
  apply M_bind_Ok in Hr as (data & s2 & H2 & Hr).
  apply (tmp_local_reserve_loading id off frames mm1) in H2; try done.
  2: { rewrite Hlen, length_range. cbn [length]. lia. }
  apply M_bind_Ok in Hr as ([] & s3 & H3%store_bytes_kmem & Hr). destruct (_ <? _); [done|].
  apply M_bind_Ok in Hr as ([] & s4 & H4%store_bytes_kmem & Hr). inv_ok. cbn [load_guarded]. by rewrite H4, H3.
Qed.

Lemma res_bind_Ok {A B} (m : res A) (f : A → res B) b : (m ≫= f) = Ok b → ∃ a, m = Ok a ∧ f a = Ok b.
Proof. destruct m as [a|]; [|done]. by exists a. Qed.

Lemma read_field_nonneg l off w x : bytes_ok l → read_field l off w = Ok x → 0 ≤ x.
Proof.
  intros Hb. unfold read_field. destruct (_ <=? _)%nat; [|done]. intros [= <-].
  apply le_decode_bound. unfold sub_bytes, bytes_ok. by apply Forall_take, Forall_drop.
Qed.

Lemma progheader_next_nonneg elf index entry index' :
  bytes_ok (ef_bytes elf) → progheader_next elf index = Ok (Some (entry, index')) → 0 ≤ ph_vadr entry ∧ 0 ≤ ph_mem_size entry.
Proof.
  intros Hb. unfold progheader_next. destruct (_ <=? _); [done|].
  destruct (add64 (ef_base elf) _) as [a|]; cbn [mbind res_bind]; [|done].
  destruct (mul64 index _) as [b|]; cbn [mbind res_bind]; [|done].
  destruct (add64 a b) as [p|]; cbn [mbind res_bind]; [|done]. destruct (negb _); [done|].
  destruct (read_program_header _ _) as [h|] eqn:Eh; cbn [mbind res_bind]; [|done].
  destruct (add64 index 1) as [i'|]; cbn [mbind res_bind]; [|done]. intros [= <- <-].
  unfold read_program_header in Eh.
  do 8 apply res_bind_Ok in Eh as (? & ? & Eh). injection Eh as <-.
  cbn [ph_vadr ph_mem_size]. eauto using read_field_nonneg.
Qed.

Lemma exec_headers_loading fuel id elf index mm s r s' :
  0 ≤ id < 256 → bytes_ok (ef_bytes elf) → loading (mc_kmem s) mm →
  exec_headers fuel id elf index mm s = Ok (r, s') → load_guarded r s'.
Proof.
  intros Hid Hb. revert index mm s. induction fuel as [|fuel IH]; intros index mm s Hld Hr; cbn [exec_headers] in Hr;
    (apply M_bind_Ok in Hr as ([[entry index']|] & ? & [He ->]%lift_Ok & Hr); [|by inv_ok]);
    apply progheader_next_nonneg in He as [Hv Hs]; try done;
    apply M_bind_Ok in Hr as (t & ? & [_ ->]%lift_Ok & Hr); apply M_bind_Ok in Hr as (r1 & s1 & H1 & Hr);
    assert (load_guarded r1 s1) as Hl by (case_bool_decide; [by eapply exec_load_loading|by inv_ok]);
    (destruct r1 as [mm1|e1]; [|by inv_ok]); [by inv_ok|]. by eapply IH.
Qed.

Lemma exec_stack_loading id mm s r s' :
  0 ≤ id < 256 → loading (mc_kmem s) mm → exec_stack id mm s = Ok (r, s') → load_guarded r s'.
Proof.
  intros Hid Hld Hr. unfold exec_stack in Hr. apply M_bind_Ok in Hr as (page & ? & [Hp ->]%lift_Ok & Hr).
  rewrite page_from_start_spec in Hp by done. injection Hp as <-.
  apply M_bind_Ok in Hr as ([o mm1] & s1 & (k1 & H1 & ->)%zoom_Ok & Hr).
  apply allocate_loop_loading in H1; [|done|constructor|apply (user_flags (mkProgramHeader 0 0 0 0 0 0 0 0))|].
  2: { intros i page Hi%elem_of_range. change (USERSTACK_SIZE / PAGE_SIZE) with 128 in Hi.
       apply (segment_pages USERSTACK_TOP USERSTACK_SIZE i page); [done..|]. by vm_compute (pages_for _). }
  destruct o as [frames|]; [|inv_ok; exact H1]. destruct H1 as (Hld1 & Hfs & Hlen).
  apply M_bind_Ok in Hr as (data & s2 & H2 & Hr).
  apply (tmp_local_reserve_loading id 0 frames mm1) in H2; try done.
  2: { rewrite Hlen, length_range. cbn [length]. change (USERSTACK_SIZE / PAGE_SIZE) with 128. lia. }
  apply M_bind_Ok in Hr as ([] & s3 & H3%store_bytes_kmem & Hr). inv_ok. cbn [load_guarded]. by rewrite H3.
Qed.
End loading.

(** ** In every state *)

Section isolation.
Context {X : X86} {XO : X86Ok X} {P : Type} {FA : FrameAllocator P} {FAO : FrameAllocatorOk P}.
Context {V : Type} {WC : WindowCache V} {WCO : WindowCacheOk V}.
Context (p4 : Z) (mem0 : gmap Z (list Z)).

(** A program that is loaded has its pages in user space, and its frames are
    guarded with the others; one that is refused leaves the others guarded. *)
Lemma exec_map_guarded T id elf (s s' : Machine P V) r :
  0 ≤ id < 256 → bytes_ok (ef_bytes elf) → (∀ f, T f → f ∉ fa_free (pm s)) → guarded p4 mem0 T (mc_kmem s) →
  exec_map id elf s = Ok (r, s') →
  match r with
  | ROk mm => guarded p4 mem0 (in_use T mm) (mc_kmem s') ∧ Forall user_mapping (mm_mappings mm)
  | RErr _ => guarded p4 mem0 T (mc_kmem s')
  end.
Proof.
  intros Hid Hb HT Hg Hr. pose proof (guarded_inv _ _ _ _ Hg) as H0. unfold exec_map in Hr.
  assert (loading p4 mem0 (pm s) T (mc_kmem s) MemoryMap_new) as Hld.
  { split; [by apply built_new| |constructor]. eapply guarded_weaken; [|exact Hg]. by intros f [?|?%elem_of_nil]. }
  apply M_bind_Ok in Hr as (r1 & s1 & H1 & Hr).
  pose proof (exec_headers_loading p4 mem0 (pm s) T H0 HT _ _ _ _ _ _ _ _ Hid Hb Hld H1) as Hl1.
  apply (exec_headers_loaded (pm s)) in H1; [|done|by apply built_new].
  apply M_bind_Ok in Hr as (r2 & s2 & H2 & Hr).
  assert (load_guarded p4 mem0 (pm s) T r2 s2 ∧ load_outcome (pm s) r2 s2) as [Hl2 Ho2].
  { destruct r1 as [mm1|e1]; [|by inv_ok]. split; [by eapply exec_stack_loading|by eapply exec_stack_loaded]. }
  destruct r2 as [mm2|[e2 mm2]]; [inv_ok; split; apply Hl2|].
  apply M_bind_Ok in Hr as ([] & s3 & (k & H3 & ->)%zoom_Ok & Hr). inv_ok. rewrite MemoryMap_drop_frames in H3.
  eapply guarded_weaken; [|eapply pfree_all_guarded; [exact Hl2| |exact H3]]; [by left|].
  destruct Ho2 as [_ Hfr _ Hm]. apply (in_use_managed (pm s)); [exact H0|exact Hm|exact Hfr|by apply Forall_forall].
Qed.

Implicit Types (s : Sched P V) (g : Kernel P V).

(** The frames of the tasks. *)
Definition task_frame s (f : Z) : Prop := ∃ r mm, maps s !! r = Some mm ∧ f ∈ mm_frames mm.

Record isolated s : Prop := {
  is_own : own s;
  is_guard : guarded p4 mem0 (task_frame s) (mc_kmem (sc_machine s));
  is_user r mm : maps s !! r = Some mm → Forall user_mapping (mm_mappings mm);
}.

Lemma task_frame_used s f : own s → task_frame s f → f ∉ fa_free (k_pmm (mc_kmem (sc_machine s))).
Proof. intros [Ho _] (r & mm & Hr & Hf). by destruct (ow_used _ _ Ho r mm f Hr Hf). Qed.

(** Installing a map. *)
Lemma MemoryMap_apply_guarded W active mm (k : Kmem P V) a k' :
  Forall user_mapping (mm_mappings mm) → guarded p4 mem0 W k → (∀ f, W f → f ∉ fa_free (k_pmm k)) →
  MemoryMap_apply active mm k = Ok (a, k') → guarded p4 mem0 W k'.
Proof.
  intros Hu Hg Hnf Hr. unfold MemoryMap_apply in Hr. case_bool_decide; [by inv_ok|].
  apply M_bind_Ok in Hr as ([] & k1 & H1 & Hr). inv_ok. revert k Hg Hnf H1.
  induction Hu as [|e es [Hn Hp Hlt Hf Hfl] _ IH]; intros k Hg Hnf Hr; [simpl in Hr; by inv_ok|].
  rewrite for_cons in Hr. apply M_bind_Ok in Hr as ([] & k2 & H2 & Hr).
  apply M_bind_Ok in H2 as (r & k3 & H3 & [_ ->]%lift_Ok). unfold MemoryMapping_apply in H3. rewrite Hn in H3.
  apply M_bind_Ok in H3 as (n & ? & [Hm ->]%lift_Ok & H3). injection Hm as <-.
  eapply vmap_guarded in H3 as [Hg2 Hsub]; try done.
  - eapply IH; [exact Hg2| |exact Hr]. intros f Hf'. pose proof (Hnf f Hf'). set_solver.
  - destruct Hp as [[?|?]%canonical_iff _]; [by left|lia].
Qed.

Context (env : Env).
Hypothesis Himg : bytes_ok (env_image env).

Definition isolates s s' : Prop := isolated s → isolated s'.
#[local] Instance isolates_preorder : PreOrder isolates.
Proof. unfold isolates. split; [intros s|intros s1 s2 s3]; auto. Qed.

Lemma isolated_maps s s' :
  own s' → maps s' = maps s → sc_machine s' = sc_machine s → isolated s → isolated s'.
Proof.
  intros Ho Em Ek [_ Hg Hu]. split; [done| |by rewrite Em]. rewrite Ek. eapply guarded_weaken; [|exact Hg].
  intros f (r & mm & Hr & Hf). rewrite Em in Hr. by exists r, mm.
Qed.

Lemma exec_isolates core elf : 0 ≤ core < 256 → file_of env elf → runs isolates (exec env core elf).
Proof.
  intros Hc (off & len & Hf) s r s' Hr [Ho Hg Hu]. pose proof (exec_preserves env core elf s r s' Hr Ho) as Ho'.
  assert (bytes_ok (ef_bytes elf)) as Hb by (rewrite Hf; by apply Forall_take, Forall_drop).
  unfold exec in Hr. apply M_bind_Ok in Hr as (r1 & s1 & (m & H1 & ->)%zoom_Ok & Hr).
  apply (exec_map_guarded (task_frame s)) in H1; [|done|done| |done]; [|by intros f; apply task_frame_used].
  destruct r1 as [mm|e].
  - destruct H1 as [Hg1 Hu1]. apply M_bind_Ok in Hr as (id & s2 & H2 & Hr). inv_ok. unfold new_locked in H2.
    destruct (add64 _ 1) as [i|]; [|done]. cbn [mbind res_bind] in H2. injection H2 as <- <-.
    set (s' := mkSched _ _ _ _ _ _ _) in Ho' |- *.
    assert (∀ r' mm', maps s' !! r' = Some mm' → mm' = mm ∨ maps s !! r' = Some mm') as Hold.
    { intros r' mm'. unfold maps, s'. cbn [sc_heap]. rewrite fmap_insert.
      intros [[_ <-]|[_ ?]]%lookup_insert_Some; [by left|by right]. }
    split; [exact Ho'| |].
    + eapply guarded_weaken; [|exact Hg1]. intros f (r' & mm' & [->|Hr']%Hold & Hin); [by right|left; by exists r', mm'].
    + intros r' mm' [->|Hr']%Hold; [done|by eapply Hu].
  - inv_ok. split; [exact Ho'|exact H1|exact Hu].
Qed.
Lemma drop_ref_isolates r : runs isolates (drop_ref r).
Proof.
  intros s [] s' Hr [Ho Hg Hu]. pose proof (drop_ref_preserves r s tt s' Hr Ho) as Ho'. unfold drop_ref in Hr.
  apply M_bind_Ok in Hr as (? & ? & [= <- <-] & Hr).
  destruct (_ || _); [by inv_ok|]. destruct (sc_heap s !! r) as [t|] eqn:Ht; [|by inv_ok].
  apply M_bind_Ok in Hr as ([] & s1 & (m & (k & H1 & ->)%zoom_Ok & ->)%zoom_Ok & Hr). unfold modify in Hr. injection Hr as <-.
  rewrite MemoryMap_drop_frames in H1. assert (maps s !! r = Some (t_memory_map t)) as Hm by (unfold maps; by rewrite lookup_fmap, Ht).
  assert (∀ s2 r' mm', sc_heap s2 = delete r (sc_heap s) → maps s2 !! r' = Some mm' → maps s !! r' = Some mm') as Hold.
  { intros s2 r' mm' E. unfold maps. rewrite E, fmap_delete. by intros [_ ?]%lookup_delete_Some. }
  split; [exact Ho'| |].
  - cbn [set_heap sc_machine mc_kmem]. eapply guarded_weaken; [|eapply pfree_all_guarded; [exact Hg| |exact H1]].
    + intros f (r' & mm' & Hr'%Hold & Hin); [by exists r', mm'|done].
    + pose proof (owned_managed _ _ _ _ (proj1 Ho) Hm) as Hman. rewrite Forall_forall in *. intros f Hf.
      split; [by exists r, (t_memory_map t)|by apply Hman].
  - intros r' mm' Hr'%Hold; [by eapply Hu|done].
Qed.

Lemma apply_isolates s r t active a s' :
  sc_heap s !! r = Some t → on_machine (on_mem (MemoryMap_apply active (t_memory_map t))) s = Ok (a, s') → isolates s s'.
Proof.
  intros Ht Hr [Ho Hg Hu].
  assert (own s') as Ho' by (eapply on_machine_preserves; [|exact Hr|done]; apply on_mem_takes, MemoryMap_apply_shrinks).
  apply zoom_Ok in Hr as (m & (k & H1 & ->)%zoom_Ok & ->).
  split; [exact Ho'| |exact Hu]. cbn [sc_machine mc_kmem]. eapply MemoryMap_apply_guarded; [|exact Hg| |exact H1].
  - apply (Hu r). unfold maps. by rewrite lookup_fmap, Ht.
  - intros f Hf. exact (task_frame_used s f Ho Hf).
Qed.

#[local] Instance isolates_trace : Trace env isolates.
Proof.
  split.
  - apply _.
  - intros s tasks clock procs [Ho Hg Hu]. by split.
  - intros s r t t' Ht (_ & _ & Hm) His. eapply isolated_maps; [|..|exact His]; [|..|done].
    + eapply put_task_preserves; [exact Ht|done|apply His].
    + unfold maps. cbn [set_heap sc_heap]. rewrite fmap_insert, Hm. apply insert_id. by rewrite lookup_fmap, Ht.
  - intros core elf Hc Hf. by apply exec_isolates.
  - apply drop_ref_isolates.
  - intros s r t active a s'. apply apply_isolates.
Qed.

(** The memory the start-up leaves: the tables in order, the pages mapped at
    run time free or below tables, and no kernel page accessible to users. *)
Record mem_start (k : Kmem P V) (lv : Z → nat) : Prop := {
  ms_inv : kmem_inv k p4 lv;
  ms_room : has_room (wc_shows (k_vc k)) 2;
  ms_clear q : good_page q → mappable q → clear_path (k_mem k) p4 (page_path q) = true;
  ms_kernel q : kspace_page q → ¬ user_page (k_mem k) p4 q;
}.

Lemma reachable_isolated g g' lv :
  sched_start (ks_sched g) → mem_start (mc_kmem (sc_machine (ks_sched g))) lv →
  mem0 = k_mem (mc_kmem (sc_machine (ks_sched g))) → rtc (kernel_step env) g g' → isolated (ks_sched g').
Proof.
  intros Hst [Hinv Hroom Hcl Hk] Em Hsteps. apply (kernel_steps_trace env isolates _ _ Hsteps).
  pose proof (reachable_own env g g Hst (ki_pmm _ _ _ Hinv) (rtc_refl _ _)) as Ho. destruct Hst as (_ & Hheap & _).
  split; [exact Ho| |].
  - exists (fa_free (k_pmm (mc_kmem (sc_machine (ks_sched g))))). split.
    + destruct Hinv as [? ? ? Hpt]. split; try done; [by exists lv|by rewrite Em].
    + intros f (r & mm & Hr & _). unfold maps in Hr. by rewrite Hheap in Hr.
  - intros r mm Hr. unfold maps in Hr. by rewrite Hheap in Hr.
Qed.
End isolation.

(** What holds of a state of the scheduler reached from tables [mem0]. *)
Record separated `{X86} {P V} {FA : FrameAllocator P} {FAO : FrameAllocatorOk P} {WC : WindowCache V}
    {WCO : WindowCacheOk V} (p4 : Z) (mem0 : gmap Z (list Z)) (s : Sched P V) : Prop := {
  (** The tables are a tree of frames in use, reached through the cache. *)
  sp_tables : ∃ lv, kmem_inv (mc_kmem (sc_machine s)) p4 lv;
  (** User code reaches no page of kernel space. *)
  sp_kernel q : kspace_page q → ¬ user_page (k_mem (mc_kmem (sc_machine s))) p4 q;
  (** Outside user space and the loader's windows nothing has moved. *)
  sp_same q : good_page q → ¬ mappable q →
    translate (k_mem (mc_kmem (sc_machine s))) p4 q = translate mem0 p4 q;
  (** The pages of a task are in user space. *)
  sp_user r t e : sc_heap s !! r = Some t → e ∈ mm_mappings (t_memory_map t) → 0 ≤ mp_vadr e < 2 ^ 47;
  (** The frames of a task are not tables. *)
  sp_frames r t f : sc_heap s !! r = Some t → f ∈ mm_frames (t_memory_map t) →
    k_mem (mc_kmem (sc_machine s)) !! f = None;
}.

Section theorem.
Context {X : X86} {XO : X86Ok X} {P : Type} {FA : FrameAllocator P} {FAO : FrameAllocatorOk P}.
Context {V : Type} {WC : WindowCache V} {WCO : WindowCacheOk V}.
Context (env : Env).
Implicit Types (g : Kernel P V).

Lemma reachable_separated g g' p4 lv :
  bytes_ok (env_image env) → sched_start (ks_sched g) →
  let k := mc_kmem (sc_machine (ks_sched g)) in
  mem_start p4 k lv → rtc (kernel_step env) g g' → separated p4 (k_mem k) (ks_sched g').
Proof.
  intros Himg Hst k Hms Hsteps. set (s' := ks_sched g').
  destruct (reachable_isolated p4 (k_mem k) env Himg g g' lv Hst Hms eq_refl Hsteps) as [Ho Hg Hu].
  assert (∀ r t, sc_heap s' !! r = Some t → maps s' !! r = Some (t_memory_map t)) as Hmap.
  { intros r t Ht. unfold maps. by rewrite lookup_fmap, Ht. }
  pose proof Hg as (U & Hs & _). destruct (safe_inv _ _ _ _ Hs) as (lv' & Hinv & _). split.
  - by exists lv'.
  - apply Hs.
  - apply Hs.
  - intros r t e Ht He. specialize (Hu r _ (Hmap r t Ht)). rewrite Forall_forall in Hu.
    destruct (Hu e He) as [_ [[?|?]%canonical_iff _] ? _ _]; lia.
  - intros r t f Ht Hf. eapply guarded_no_table; [exact Hg|]. exists r, (t_memory_map t). auto.
Qed.

(** C11. The kernel stays out of reach, in every state it reaches from its
    start by timer interrupts and system calls on any cores, with any files
    in the ramdisk.  The page tables are still a tree of frames the kernel can
    change; no page of kernel space is accessible to user code; outside user
    space and the loader's windows every page shows what it showed at the
    start; every page of a task is in user space; and no frame of a task is
    used for a page table.  This is about what the kernel writes into the
    tables; see [Stale] for pages that outlive their task. *)
Theorem kernel_space_isolated g g' p4 lv :
  bytes_ok (env_image env) → sched_start (ks_sched g) →
  let k := mc_kmem (sc_machine (ks_sched g)) in
  mem_start p4 k lv → rtc (kernel_step env) g g' → separated p4 (k_mem k) (ks_sched g').
Proof. intros Himg Hst k. by apply reachable_separated. Qed.
End theorem.
