(* ===== verification/User.v ===== *)
(** * User programs

    Models the runtime of user programs ([userspace/runtime/src/syscall.rs])
    and the first program, [userspace/init/src/main.rs], on top of the kernel:
    a system call of a program is the encoding of [Syscall::call], the entry
    of the kernel, and the decoding of what the kernel left in the registers.
    A program whose call does not come back has left its core, which is in the
    event loop then.  The other program of the repository, [dummy], makes no
    call. *)

From S2P Require Import Prelude X86 FrameAlloc WindowCache VCache Mapper Mem Elf Tar Task Exec Sched Init.
From S2P Require Import Framebuffer Apic Syscall Install.

(** The path [init] spawns, and its length in bytes. *)
Definition DUMMY_PATH : list Z := bytes_of_string "/bin/dummy".

Section user.
Context {X : X86} {P : Type} {FA : FrameAllocator P} {V : Type} {WC : WindowCache V}.
Context (env : Env) (ordinal : Syscall → Z) (core : Z).

(** A stretch of user code: the registers of the program and the kernel, and
    an answer unless the program has ended. *)
Definition User (A : Type) : Type := M (TaskProcState * Kernel P V) (option A).
Definition answer {A} (a : A) : User A := λ s, Ok (Some a, s).
Definition and_then {A B} (m : User A) (f : A → User B) : User B :=
  mbind (M := M (TaskProcState * Kernel P V)) (λ o, match o with Some a => f a | None => λ s, Ok (None, s) end) m.
Local Notation "x ⇐ m ; f" := (and_then m (λ x, f)) (at level 20, m at level 100, f at level 200).

(** [Syscall::call]. *)
Definition call (sc : Syscall) : User SyscallResult := λ '(u, g),
  '(o, g') ← syscall_handle_2 env core (syscall_handle_1 (call_begin ordinal sc u)) g;
  mret (match o with
        | Some u' => (Some (call_end u'), (u', g'))
        | None => (None, (u, g'))
        end).

(** [exit]: when the call returns, the panic calls the handler of the program,
    which calls [exit(32)]. *)
Fixpoint exit {A} (fuel : nat) (exitcode : Z) : User A :=
  match fuel with
  | O => fail OutOfFuel
  | S fuel' => _ ⇐ call (Exit exitcode); exit fuel' 32
  end.
(** The [panic_handler] of both programs. *)
Definition user_panic {A} (fuel : nat) : User A := exit fuel 32.

Definition getpid (fuel : nat) : User Z :=
  r ⇐ call GetPid;
  match getpid_result r with Ok pid => answer pid | Panic _ => user_panic fuel end.
Definition debug_draw (x y r g b : Z) : User unit := _ ⇐ call (DebugDraw x y r g b); answer tt.
Definition spawn (path len : Z) : User (option Z) := r ⇐ call (Spawn path len); answer (spawn_result r).

(** [run] of [init], up to its endless loop, with the three answers it throws
    away; [path] is where the linker put the string. *)
Definition init_run (fuel : nat) (path : Z) : User (Z * option Z * Z) :=
  pid ⇐ getpid fuel;
  child ⇐ spawn path (Z.of_nat (length DUMMY_PATH));
  pid' ⇐ getpid fuel;
  answer (pid, child, pid').
End user.

(** What a program does is a run of the kernel. *)
Section steps.
Context {X : X86} {P : Type} {FA : FrameAllocator P} {V : Type} {WC : WindowCache V}.
Context (env : Env) (ordinal : Syscall → Z) (core : Z) (Hcore : 0 ≤ core < 256).

Definition kernel_steps (x y : TaskProcState * Kernel P V) : Prop := rtc (kernel_step env) x.2 y.2.
#[local] Instance kernel_steps_preorder : PreOrder kernel_steps.
Proof. unfold kernel_steps. split; [intros x; reflexivity|intros x y z Hxy Hyz; by etransitivity]. Qed.

Lemma call_steps sc : runs kernel_steps (call env ordinal core sc).
Proof.
  intros [u g] o [u' g'] Hr. unfold call in Hr.
  destruct (syscall_handle_2 _ _ _ _) as [[o1 g1]|] eqn:E; [|done]. cbn [mbind res_bind] in Hr.
  assert (g' = g1) as -> by (by destruct o1; injection Hr). apply rtc_once. by eapply step_syscall.
Qed.
Lemma answer_steps {A} (a : A) : runs kernel_steps (answer a : User A).
Proof. intros x o y Hr. injection Hr as _ <-. reflexivity. Qed.
Lemma and_then_steps {A B} (m : User A) (f : A → User B) :
  runs kernel_steps m → (∀ a, runs kernel_steps (f a)) → runs kernel_steps (and_then m f).
Proof. intros Hm Hf. unfold and_then. runs_auto. intros x o y Hr. injection Hr as _ <-. reflexivity. Qed.

Lemma exit_steps {A} fuel code : runs kernel_steps (exit (A:=A) env ordinal core fuel code).
Proof.
  revert code. induction fuel as [|fuel IH]; intros code; cbn [exit]; [runs_auto|].
  apply and_then_steps; [apply call_steps|]. intros _. apply IH.
Qed.
Lemma getpid_steps fuel : runs kernel_steps (getpid env ordinal core fuel).
Proof.
  unfold getpid. apply and_then_steps; [apply call_steps|]. intros r.
  destruct (getpid_result r); [apply answer_steps|apply exit_steps].
Qed.
Lemma init_run_steps fuel path u g o u' g' :
  init_run env ordinal core fuel path (u, g) = Ok (o, (u', g')) → rtc (kernel_step env) g g'.
Proof.
  intros Hr. assert (runs kernel_steps (init_run env ordinal core fuel path)) as Hs; [|by apply Hs in Hr].
  unfold init_run. apply and_then_steps; [apply getpid_steps|]. intros pid. apply and_then_steps.
  - apply and_then_steps; [apply call_steps|]. intros r. apply answer_steps.
  - intros child. apply and_then_steps; [apply getpid_steps|]. intros pid'. apply answer_steps.
Qed.
End steps.

(** ** Reading and keeping the memory of a program *)

Section memory.
Context {X : X86} {XO : X86Ok X} {P : Type} {FA : FrameAllocator P} {FAO : FrameAllocatorOk P}.
Context {V : Type} {WC : WindowCache V} {WCO : WindowCacheOk V}.
Implicit Types (m : Machine P V).

Lemma load_bytes_run bs va m :
  (∀ i b, bs !! i = Some b → user_byte m (va + Z.of_nat i) b) → load_bytes va (length bs) m = Ok (bs, m).
Proof.
  revert va. induction bs as [|b bs IH]; intros va Hb; [done|]. cbn [length load_bytes].
  destruct (Hb 0%nat b eq_refl) as (f & Hv & _ & _ & Hm). rewrite Z.add_0_r in Hv, Hm.
  rewrite (M_bind_run get _ m m m eq_refl).
  assert (of_option Undefined (virt_to_phys (mc_kmem m) va) = Ok (f + va mod PAGE_SIZE)) as E1 by (by rewrite Hv).
  run_step (lift_run _ m _ E1).
  assert (of_option Undefined (mc_ram m !! (f + va mod PAGE_SIZE)) = Ok b) as E2 by (by rewrite Hm).
  run_step (lift_run _ m _ E2).
  assert (load_bytes (va + 1) (length bs) m = Ok (bs, m)) as E3.
  { apply IH. intros i b' Hi. specialize (Hb (S i) b' Hi). by replace (va + 1 + Z.of_nat i) with (va + Z.of_nat (S i)) by lia. }
  by run_step E3.
Qed.

(** Loading another program leaves what a user address shows. *)
Lemma user_byte_keeps n id p4 lv lv' m m' va b :
  keeps n id p4 m m' → kmem_inv (mc_kmem m) p4 lv → kmem_inv (mc_kmem m') p4 lv' → 0 ≤ id →
  0 ≤ va < 2 ^ 47 → user_byte m va b → user_byte m' va b.
Proof.
  intros Hk Hinv Hinv' Hid Hva (f & Hv & Ha & Hnf & Hb). exists f. unfold virt_to_phys in *.
  rewrite (wc_frame_shows _ _ _ (ki_vc _ _ _ Hinv) (ki_root _ _ _ Hinv)) in Hv.
  rewrite (wc_frame_shows _ _ _ (ki_vc _ _ _ Hinv') (ki_root _ _ _ Hinv')). cbn [mbind option_bind] in *.
  pose proof (Z.mod_pos_bound va PAGE_SIZE ltac:(done)) as Hm.
  rewrite (kp_other _ _ _ _ _ Hk); [split_and!; try done| |left].
  - intros ?%(kp_free _ _ _ _ _ Hk). done.
  - by rewrite (kp_ram _ _ _ _ _ Hk).
  - unfold good_page. rewrite canonical_iff, page_aligned_iff. unfold PAGE_SIZE. split; zlia.
  - unfold tmp_start, TMP_TASKLDMAP, KVMSPACE, TMP_TASK_SIZE_PER_PROC, PAGE_SIZE. zlia.
Qed.

Lemma program_seen_keeps n id p4 lv lv' m m' elf l :
  keeps n id p4 m m' → kmem_inv (mc_kmem m) p4 lv → kmem_inv (mc_kmem m') p4 lv' → 0 ≤ id →
  headers elf 0 l → program_seen m p4 l → program_seen m' p4 l.
Proof.
  intros Hk Hinv Hinv' Hid Hh [H1 H2 H3]. split.
  - intros e i He Hi. eapply user_byte_keeps; try done; [|by apply H1].
    pose proof (headers_seg_ok _ _ _ _ Hh He) as Hok. pose proof (so_user _ _ _ Hok) as Hu.
    destruct (seg_bounds _ _ _ Hok) as (? & ? & ? & Ev & _). unfold seg_page, USERSPACE_TOP, PAGE_SIZE in *. destruct Hok. lia.
  - intros i Hi. eapply user_byte_keeps; try done; [|by apply H2].
    change USERSTACK_TOP with 0x7FFFFFE80000. unfold USERSTACK_SIZE in Hi. lia.
  - intros e j He Hj. destruct (H3 e j He Hj) as (f & fl & Htr & Hfl). exists f, fl. split; [|done].
    pose proof (headers_seg_ok _ _ _ _ Hh He) as Hok. pose proof (so_user _ _ _ Hok) as Hu.
    destruct (seg_bounds _ _ _ Hok) as (? & ? & ? & Ev & _ & Hgood).
    rewrite (kp_other _ _ _ _ _ Hk); [done|by apply Hgood|left].
    unfold seg_pages, pages_for, seg_page, seg_off, USERSPACE_TOP, tmp_start, TMP_TASKLDMAP, KVMSPACE, TMP_TASK_SIZE_PER_PROC, PAGE_SIZE in *. zlia.
Qed.
End memory.

(** ** The calls of a program *)

Section calls.
Context {X : X86} {XO : X86Ok X} {P : Type} {FA : FrameAllocator P} {FAO : FrameAllocatorOk P}.
Context {V : Type} {WC : WindowCache V} {WCO : WindowCacheOk V}.
Context (env : Env) (ordinal : Syscall → Z) (HO : ordinal_ok ordinal) (core : Z).
Implicit Types (g : Kernel P V) (u : TaskProcState) (t : Task).

(** The task [t] behind [r] runs on the core, with its memory map installed. *)
Definition runs (r : nat) t g : Prop :=
  ∃ p, sc_procs (ks_sched g) !! core = Some p ∧ pi_current p = Some r ∧
    pi_active p = Some (mm_id (t_memory_map t)) ∧ sc_heap (ks_sched g) !! r = Some t.

(** The registers with which the kernel is entered. *)
Definition entry (sc : Syscall) u : TaskProcState := syscall_handle_1 (call_begin ordinal sc u).

Lemma stored_runs r u t g : runs r t g → runs r (set_procstate u t) (stored r u t g).
Proof. intros (p & ? & ? & ? & ?). exists p. split_and!; try done. apply lookup_insert_eq. Qed.

Lemma stored_stored r u u' t g : stored r u' (set_procstate u t) (stored r u t g) = stored r u' t g.
Proof. unfold stored. simpl. by rewrite insert_insert_eq. Qed.

Lemma call_run sc u g r t result g1 t1 :
  runs r t g → handle env core sc (stored r (entry sc u) t g) = Ok (result, g1) → runs r t1 g1 →
  let u' := report result (t_procstate t1) in
  call env ordinal core sc (u, g) = Ok (Some (call_end u'), (u', stored r u' t1 g1)).
Proof.
  intros (p & Hc & Hp & Ha & Hr) Hh (p1 & Hc1 & Hp1 & Ha1 & Hr1) u'. unfold call.
  change (syscall_handle_1 (call_begin ordinal sc u)) with (entry sc u).
  by rewrite (syscall_returns_run env core p r t (entry sc u) sc result g g1 p1 t1 Hc Hp Hr
    (call_decodes _ _ _ HO) Hh Hc1 Hp1 Hr1 Ha1).
Qed.

Lemma getpid_run fuel u g r t :
  runs r t g → ∃ u', getpid env ordinal core fuel (u, g) = Ok (Some (t_id t), (u', stored r u' t g)).
Proof.
  intros Hrun. pose proof (stored_runs r (entry GetPid u) t g Hrun) as Hrun1.
  assert (handle env core GetPid (stored r (entry GetPid u) t g) =
    Ok (Success (t_id t) 0 0 0 0 0, stored r (entry GetPid u) t g)) as Hh.
  { destruct Hrun1 as (p & Hc & Hp & _ & Hr). by rewrite (handle_getpid_run env core p r _ _ Hc Hp Hr). }
  pose proof (call_run GetPid u g r t _ _ _ Hrun Hh Hrun1) as Hcall. cbn zeta in Hcall. rewrite stored_stored in Hcall.
  eexists. unfold getpid, and_then. by rewrite (M_bind_run _ _ _ _ _ Hcall).
Qed.

(** The kernel with a new task and another machine. *)
Definition spawned (t' : Task) (m' : Machine P V) g : Kernel P V :=
  set_sched (with_task t' (set_machine m' (ks_sched g))) g.

Lemma runs_ne_next r t g : runs r t g → sched_inv (ks_sched g) → r ≠ sc_next (ks_sched g).
Proof.
  intros (p & _ & _ & _ & Hrt) Hinv. assert (r ∈ sc_tasks (ks_sched g)) as ?%(si_next _ Hinv); [|lia].
  apply (si_dom _ Hinv). exists (task_view t). apply has_view_iff. by exists t.
Qed.

Lemma spawned_runs r t t' m' g : runs r t g → sched_inv (ks_sched g) → runs r t (spawned t' m' g).
Proof.
  intros Hrun Hinv. pose proof (runs_ne_next r t g Hrun Hinv) as Hne. destruct Hrun as (p & ? & ? & ? & ?).
  exists p. split_and!; try done. cbn [spawned set_sched ks_sched with_task sc_heap]. by rewrite lookup_insert_ne.
Qed.

Lemma stored_inv r u t g : runs r t g → sched_inv (ks_sched g) → sched_inv (ks_sched (stored r u t g)).
Proof. intros (p & _ & _ & _ & Hr) Hinv. by apply put_procstate_inv. Qed.

Lemma load_path_run path len name g :
  length name = Z.to_nat len →
  (∀ i b, name !! i = Some b → user_byte (sc_machine (ks_sched g)) (path + Z.of_nat i) b) →
  on_sched (on_machine (load_bytes path (Z.to_nat len))) g = Ok (name, g).
Proof.
  intros Hlen Hname. pose proof (load_bytes_run name path (sc_machine (ks_sched g)) Hname) as Hl.
  rewrite Hlen in Hl. unfold on_sched, on_machine, zoom. rewrite Hl. by destruct g as [[] ? ? ?].
Qed.

Lemma spawn_run path len name u g r t off n elf l p4 lv :
  runs r t g → sched_inv (ks_sched g) → length name = Z.to_nat len →
  (∀ i b, name !! i = Some b → user_byte (sc_machine (ks_sched g)) (path + Z.of_nat i) b) →
  open_file (env_initrd env) name = Ok (Some (off, n)) →
  ElfFile_parse (sub_bytes (env_image env) (Z.to_nat off) (Z.to_nat n)) (INITRD_START + off) = Ok (Some elf) →
  headers elf 0 l → fits (sc_machine (ks_sched g)) core p4 lv l → in_width 64 (sc_idcount (ks_sched g) + 1) →
  let id := sc_idcount (ks_sched g) + 1 in
  ∃ u' mm m', spawn env ordinal core path len (u, g) =
      Ok (Some (Some id), (u', spawned (mkTask id 0 (start_state env elf) mm Pending) m' (stored r u' t g))) ∧
    program_in m' l mm ∧ loaded_from (sc_machine (ks_sched g)) m' core p4 l.
Proof.
  intros Hrun Hinv Hlen Hname Hopen Hparse Hh Hfits Hid id. set (e := entry (Spawn path len) u).
  set (g0 := stored r e t g).
  assert (on_sched (on_machine (load_bytes path (Z.to_nat len))) g0 = Ok (name, g0)) as Hload.
  { by apply load_path_run. }
  destruct (exec_initrd_ok env core name off n elf l (ks_sched g0) p4 lv Hopen Hparse Hh Hfits Hid)
    as (mm & m' & Hr & Hprog & Hfrom). change (sc_idcount (ks_sched g0) + 1) with id in Hr.
  set (t' := mkTask id 0 (start_state env elf) mm Pending) in Hr.
  assert (handle env core (Spawn path len) g0 = Ok (Success id 0 0 0 0 0, spawned t' m' g0)) as Hhd.
  { cbn [handle]. run_step Hload. by run_step (on_sched_run _ g0 _ _ Hr). }
  pose proof (runs_ne_next r t g Hrun Hinv) as Hne.
  assert (runs r (set_procstate e t) (spawned t' m' g0)) as Hrun1.
  { apply spawned_runs; [by apply stored_runs|by apply stored_inv]. }
  pose proof (call_run _ u g r t _ _ _ Hrun Hhd Hrun1) as Hcall. cbn zeta in Hcall. set (u' := report _ _) in Hcall.
  exists u', mm, m'. split_and!; [|done|done]. unfold spawn, and_then. rewrite (M_bind_run _ _ _ _ _ Hcall).
  unfold answer. do 4 f_equal. unfold stored, spawned, set_sched, with_task, set_heap. simpl. f_equal. f_equal.
  rewrite insert_insert_ne by done. by rewrite insert_insert_eq.
Qed.

Lemma and_then_run {A B} (m : User A) (f : A → User B) x a (y : TaskProcState * Kernel P V) :
  m x = Ok (Some a, y) → and_then m f x = f a y.
Proof. intros Hm. unfold and_then. by rewrite (M_bind_run _ _ _ _ _ Hm). Qed.

(** The three calls of [init], made by a running task. *)
Lemma init_run_ok fuel path u g r t off n elf l p4 lv :
  runs r t g → sched_inv (ks_sched g) →
  (∀ i b, DUMMY_PATH !! i = Some b → user_byte (sc_machine (ks_sched g)) (path + Z.of_nat i) b) →
  open_file (env_initrd env) DUMMY_PATH = Ok (Some (off, n)) →
  ElfFile_parse (sub_bytes (env_image env) (Z.to_nat off) (Z.to_nat n)) (INITRD_START + off) = Ok (Some elf) →
  headers elf 0 l → fits (sc_machine (ks_sched g)) core p4 lv l → in_width 64 (sc_idcount (ks_sched g) + 1) →
  let id := sc_idcount (ks_sched g) + 1 in let next := sc_next (ks_sched g) in
  ∃ u' g' mm, init_run env ordinal core fuel path (u, g) = Ok (Some (t_id t, Some id, t_id t), (u', g')) ∧
    sched_inv (ks_sched g') ∧ sc_clock (ks_sched g') = sc_clock (ks_sched g) ∧ ks_lapics g' = ks_lapics g ∧
    sc_tasks (ks_sched g') = sc_tasks (ks_sched g) ++ [next] ∧ runs r (set_procstate u' t) g' ∧
    sc_heap (ks_sched g') !! next = Some (mkTask id 0 (start_state env elf) mm Pending) ∧
    program_in (sc_machine (ks_sched g')) l mm ∧ loaded_from (sc_machine (ks_sched g)) (sc_machine (ks_sched g')) core p4 l.
Proof.
  intros Hrun Hinv Hname Hopen Hparse Hh Hfits Hid id next.
  destruct (getpid_run fuel u g r t Hrun) as (u1 & H1). pose proof (stored_runs r u1 t g Hrun) as Hrun1.
  pose proof (stored_inv r u1 t g Hrun Hinv) as Hinv1.
  destruct (spawn_run path (Z.of_nat (length DUMMY_PATH)) DUMMY_PATH u1 (stored r u1 t g) r (set_procstate u1 t) off n elf l p4 lv)
    as (u2 & mm & m' & H2 & Hprog & Hfrom); try done.
  rewrite stored_stored in H2. change (sc_idcount (ks_sched (stored r u1 t g)) + 1) with id in H2.
  set (t' := mkTask id 0 (start_state env elf) mm Pending) in H2. set (g2 := spawned t' m' (stored r u2 t g)) in H2.
  pose proof (stored_inv r u2 t g Hrun Hinv) as Hinv2s.
  assert (runs r (set_procstate u2 t) g2) as Hrun2 by (apply spawned_runs; [by apply stored_runs|done]).
  assert (sched_inv (ks_sched g2)) as Hinv2.
  { apply with_task_inv; [|done..]. by rewrite set_machine_equiv. }
  destruct (getpid_run fuel u2 g2 r _ Hrun2) as (u3 & H3).
  exists u3, (stored r u3 (set_procstate u2 t) g2), mm.
  pose proof (runs_ne_next r t g Hrun Hinv) as Hne. split_and!; try done.
  - unfold init_run. rewrite (and_then_run _ _ _ _ _ H1), (and_then_run _ _ _ _ _ H2), (and_then_run _ _ _ _ _ H3). done.
  - by apply stored_inv.
  - exact (stored_runs r u3 _ g2 Hrun2).
  - change (<[r := set_procstate u3 (set_procstate u2 t)]> (sc_heap (ks_sched g2)) !! next = Some t').
    rewrite lookup_insert_ne by done. apply lookup_insert_eq.
Qed.

(** A file that is not there: [spawn] answers [None], and only the registers
    of the program change. *)
Theorem spawn_missing path len name u g r t :
  runs r t g → length name = Z.to_nat len →
  (∀ i b, name !! i = Some b → user_byte (sc_machine (ks_sched g)) (path + Z.of_nat i) b) →
  open_file (env_initrd env) name = Ok None →
  ∃ u', spawn env ordinal core path len (u, g) = Ok (Some None, (u', stored r u' t g)).
Proof.
  intros Hrun Hlen Hname Hopen. set (e := entry (Spawn path len) u). set (g0 := stored r e t g).
  assert (on_sched (on_machine (load_bytes path (Z.to_nat len))) g0 = Ok (name, g0)) as Hload.
  { by apply load_path_run. }
  assert (exec_initrd env core name (ks_sched g0) = Ok (FileError, ks_sched g0)) as Hr.
  { unfold exec_initrd. by run_step (lift_run _ (ks_sched g0) _ Hopen). }
  assert (handle env core (Spawn path len) g0 = Ok (Failed, g0)) as Hhd.
  { cbn [handle]. run_step Hload. run_step (on_sched_run _ g0 _ _ Hr). by destruct g0. }
  pose proof (call_run _ u g r t _ _ _ Hrun Hhd (stored_runs r e t g Hrun)) as Hcall.
  cbn zeta in Hcall. unfold g0 in Hcall. rewrite stored_stored in Hcall.
  eexists. unfold spawn. by rewrite (and_then_run _ _ _ _ _ Hcall).
Qed.

(** [exit] does not come back: the task is dropped and the core is idle. *)
Lemma exit_run {A} fuel code u g r t p4 lv :
  runs r t g → sched_inv (ks_sched g) → kmem_inv (mc_kmem (sc_machine (ks_sched g))) p4 lv →
  Forall (λ m, mp_allocated m = true ∧ fa_managed (k_pmm (mc_kmem (sc_machine (ks_sched g)))) (mp_padr m) ∧
    good_frame (mp_padr m)) (mm_mappings (t_memory_map t)) →
  ∃ p q (m := mkMachine (set_pmm q (mc_kmem (sc_machine (ks_sched g)))) (mc_ram (sc_machine (ks_sched g))))
      (g' := set_sched (without_task core p r m (ks_sched g)) g),
    sc_procs (ks_sched g) !! core = Some p ∧ pi_active p = Some (mm_id (t_memory_map t)) ∧
    fa_free q = list_to_set (mp_padr <$> mm_mappings (t_memory_map t)) ∪ fa_free (k_pmm (mc_kmem (sc_machine (ks_sched g)))) ∧
    exit env ordinal core (S fuel) code (u, g) = Ok (@None A, (u, g')) ∧ sched_inv (ks_sched g').
Proof.
  intros Hrun Hinv Hk Hms. set (e := entry (Exit code) u). set (g0 := stored r e t g).
  destruct (stored_runs r e t g Hrun) as (p & Hc & Hp & Ha & Hr). destruct Hrun as (p0 & Hq & Hqr & _ & Hrt).
  pose proof (put_procstate_inv (ks_sched g) r t e Hinv Hrt) as Hinv0. change (set_heap _ _) with (ks_sched g0) in Hinv0.
  destruct (MemoryMap_drop_ok (t_memory_map t) _ p4 lv Hk Hms) as (q & Hdrop & _ & Hfree & _).
  pose proof (exit_current_run core p r (set_procstate e t) code (ks_sched g0) Hinv0 Hc Hp Hr) as Hx.
  unfold on_mem, zoom in Hx. change (t_memory_map (set_procstate e t)) with (t_memory_map t) in Hx.
  change (sc_machine (ks_sched g0)) with (sc_machine (ks_sched g)) in Hx. rewrite Hdrop in Hx.
  set (m := mkMachine (set_pmm q _) _) in Hx.
  assert (without_task core p r m (ks_sched g0) = without_task core p r m (ks_sched g)) as Ew.
  { unfold without_task, g0, stored. cbn [ks_sched set_sched set_heap sc_heap sc_tasks sc_next sc_idcount sc_clock sc_procs].
    by rewrite delete_insert_eq. }
  rewrite Ew in Hx. set (s1 := without_task core p r m (ks_sched g)) in *.
  assert (sc_procs s1 !! core = Some (set_current None p)) as Hc1 by apply lookup_insert_eq.
  assert (syscall_handle_2 env core e g = Ok (None, set_sched s1 g)) as Hh.
  { rewrite (syscall_save_run env core p0 r t) by done. change (stored r e t g) with g0.
    assert (Syscall_try_from e = Some (Exit code)) as -> by apply (call_decodes ordinal (Exit code) u HO). cbn [handle]. rewrite M_bind_assoc.
    run_step (on_sched_run _ g0 _ _ Hx). unfold syscall_resume.
    rewrite (M_bind_run (mret Invalid : M (Kernel P V) SyscallResult) _ (set_sched s1 g0) Invalid (set_sched s1 g0) eq_refl).
    run_step (on_sched_run _ (set_sched s1 g0) _ _ (pinfo_run core s1 _ Hc1)). done. }
  exists p, q. split_and!; [done|done|done| |].
  - cbn [exit]. unfold and_then, mbind, M_bind, call. change (syscall_handle_1 _) with e. by rewrite Hh.
  - eapply exit_current_inv; [exact Hinv0|exact Hx].
Qed.

(** Whatever a program does when it ends, [exit] does not come back: the task
    leaves the list and its core is idle. *)
Theorem exit_ends {A} fuel code u g r t p4 lv :
  runs r t g → sched_inv (ks_sched g) → kmem_inv (mc_kmem (sc_machine (ks_sched g))) p4 lv →
  Forall (λ m, mp_allocated m = true ∧ fa_managed (k_pmm (mc_kmem (sc_machine (ks_sched g)))) (mp_padr m) ∧
    good_frame (mp_padr m)) (mm_mappings (t_memory_map t)) →
  ∃ g', exit env ordinal core (S fuel) code (u, g) = Ok (@None A, (u, g')) ∧ sched_inv (ks_sched g') ∧
    sc_tasks (ks_sched g') = filter (.≠ r) (sc_tasks (ks_sched g)) ∧
    pi_current <$> sc_procs (ks_sched g') !! core = Some None.
Proof.
  intros Hrun Hinv Hk Hms. destruct (@exit_run A fuel code u g r t p4 lv Hrun Hinv Hk Hms) as (p & q & _ & _ & _ & Hx & Hinv').
  eexists. split_and!; [exact Hx|exact Hinv'|done|]. cbn [set_sched ks_sched without_task sc_procs]. by rewrite lookup_insert_eq.
Qed.
End calls.

(** ** From the first interrupt to the second task *)

Section first.
Context {X : X86} {XO : X86Ok X} {P : Type} {FA : FrameAllocator P} {FAO : FrameAllocatorOk P}.
Context {V : Type} {WC : WindowCache V} {WCO : WindowCacheOk V}.
Context (env : Env) (ordinal : Syscall → Z).
Implicit Types (g : Kernel P V).

(** The ramdisk holds a program the loader accepts under a name. *)
Definition program_file (path : list Z) (elf : ElfFile) (l : list (ProgramHeader * list Z)) : Prop :=
  ∃ off len, open_file (env_initrd env) path = Ok (Some (off, len)) ∧
    ElfFile_parse (sub_bytes (env_image env) (Z.to_nat off) (Z.to_nat len)) (INITRD_START + off) = Ok (Some elf) ∧
    headers elf 0 l.

(** A segment of the program holds the string at an address. *)
Definition string_at (l : list (ProgramHeader * list Z)) (path : Z) (name : list Z) : Prop :=
  ∃ e o, e ∈ l ∧ path = ph_vadr e.1 + Z.of_nat o ∧ Z.of_nat (o + length name) ≤ ph_mem_size e.1 ∧
    ∀ i b, name !! i = Some b → e.2 !! (o + i)%nat = Some b.

Lemma string_seen m p4 l path name i b :
  program_seen m p4 l → string_at l path name → name !! i = Some b → user_byte (P := P) (V := V) m (path + Z.of_nat i) b.
Proof.
  intros Hs (e & o & He & -> & Hlen & Hb) Hi. pose proof (lookup_lt_Some _ _ _ Hi) as Hlt.
  pose proof (ps_segment _ _ _ Hs e (Z.of_nat (o + i)) He ltac:(lia)) as Hu.
  rewrite Nat2Z.id, (Hb i b Hi) in Hu. by replace (ph_vadr e.1 + Z.of_nat o + Z.of_nat i) with (ph_vadr e.1 + Z.of_nat (o + i)) by lia.
Qed.

(** After the first task was entered, the memory takes another program. *)
Lemma entered_fits c p p4 l l' g g' r t lv :
  entered c p p4 l g g' r t → fits (sc_machine (ks_sched g)) c p4 lv l →
  (frames_for l + 4 * Z.to_nat STACK_PAGES + 3 * length (program_pages l) +
    (frames_for l' + 4 * Z.to_nat STACK_PAGES) ≤ size (fa_free (k_pmm (mc_kmem (sc_machine (ks_sched g))))))%nat →
  ∃ lv', fits (sc_machine (ks_sched g')) c p4 lv' l'.
Proof.
  intros He [Hinv Hc Hfree Hcl Hroom] Hsz. destruct (et_mem _ _ _ _ _ _ _ _ He) as [lv' Hinv'].
  exists lv'. split; [done|done| | |apply He].
  - pose proof (et_size _ _ _ _ _ _ _ _ He). lia.
  - intros j Hj. apply (et_clear _ _ _ _ _ _ _ _ He); [apply page_indices_lt|simpl; lia|by apply Hcl].
Qed.

(** C5. The two programs of the repository start: when the ramdisk holds both
    and memory is free, the first timer interrupt of the kernel enters [init];
    its calls then answer the identifiers 1, 2 and 1, whatever its registers
    are when it makes the first; at its endless loop the kernel has two tasks,
    [init] current on its core and [dummy] pending at its entry point with its
    program in memory, and what [init] sees of its own memory has not
    changed. *)
Theorem init_spawns_dummy fuel c primary p la regs u path elf l elf' l' g p4 lv :
  let s := ks_sched g in ordinal_ok ordinal → (primary = true → beats g) →
  sched_start s → sc_procs s !! c = Some p → pi_active p = None → ks_lapics g !! c = Some la →
  sc_clock s + 1 < 2 ^ 64 → in_width 64 (10 * env_numcores env) →
  program_file INIT_PATH elf l → program_file DUMMY_PATH elf' l' → string_at l path DUMMY_PATH →
  fits (sc_machine s) c p4 lv l → pages_free (mc_kmem (sc_machine s)) p4 l →
  (frames_for l + 4 * Z.to_nat STACK_PAGES + 3 * length (program_pages l) +
    (frames_for l' + 4 * Z.to_nat STACK_PAGES) ≤ size (fa_free (k_pmm (mc_kmem (sc_machine s)))))%nat →
  ∃ g1 u' g2 r r' t',
    timer_inter_2 env c primary regs false (λ _, false) g = Ok (Some (start_state env elf), g1) ∧
    init_run env ordinal c fuel path (u, g1) = Ok (Some (1, Some 2, 1), (u', g2)) ∧
    sched_inv (ks_sched g2) ∧ sc_tasks (ks_sched g2) = [r; r'] ∧ current_on (ks_sched g2) c r ∧
    sc_heap (ks_sched g2) !! r' = Some t' ∧ t_id t' = 2 ∧ t_state t' = Pending ∧
    t_procstate t' = start_state env elf' ∧ program_in (sc_machine (ks_sched g2)) l' (t_memory_map t') ∧
    program_seen (sc_machine (ks_sched g2)) p4 l.
Proof.
  intros s Ho Hbeat Hst Hc Hact Hla Hck Hn (off & len & Hopen & Hparse & Hh) (off' & len' & Hopen' & Hparse' & Hh')
    Hstr Hfits Hpf Hsz.
  destruct (timer_enters_run env c primary p la regs off len elf l g p4 lv) as (g1 & la' & r & t & Hr & Hen & _); try done.
  { change (ks_sched g) with s. lia. }
  destruct (entered_fits c p p4 l l' g g1 r t lv Hen Hfits Hsz) as [lv1 Hfits1].
  assert (runs c r t g1) as Hrun by (eexists; split_and!; [apply Hen|done|done|apply Hen]).
  pose proof (et_idcount _ _ _ _ _ _ _ _ Hen) as Eid.
  destruct (init_run_ok env ordinal Ho c fuel path u g1 r t off' len' elf' l' p4 lv1)
    as (u' & g2 & mm & Hr2 & Hinv2 & _ & _ & Ht2 & Hrun2 & Hlk & Hprog & (lv2 & Hk2) & Hkeeps); try done; [apply Hen| |by rewrite Eid|].
  { intros i b Hi. eapply string_seen; [apply Hen|done|done]. }
  rewrite Eid, (et_id _ _ _ _ _ _ _ _ Hen) in Hr2. rewrite Eid in Hlk. rewrite (et_tasks _ _ _ _ _ _ _ _ Hen) in Ht2.
  eexists g1, u', g2, r, (sc_next (ks_sched g1)), _. split_and!; try done.
  - destruct Hrun2 as (q & ? & ? & _). apply current_on_iff. eauto.
  - eapply program_seen_keeps; [exact Hkeeps|apply Hfits1|exact Hk2|apply Hfits1|exact Hh|apply Hen].
Qed.
End first.
