(* ===== verification/Stale.v ===== *)
(** * The memory of the next task

    [MemoryMap::apply] skips a map whose identifier is that of the map
    installed last, and all maps have the same identifier ([History]).  Exit
    gives the frames of a task back but does not unmap them ([Sched]).  This
    file puts the two together with the exit of a user program ([User]) and
    the timer interrupt ([Syscall]). *)

From S2P Require Import Prelude X86 FrameAlloc WindowCache VCache Mapper Mem Elf Tar Task Exec Sched Init.
From S2P Require Import Framebuffer Apic Syscall Trace Owner History Install User.

Section stale.
Context {X : X86} {XO : X86Ok X} {P : Type} {FA : FrameAllocator P} {FAO : FrameAllocatorOk P}.
Context {V : Type} {WC : WindowCache V} {WCO : WindowCacheOk V}.
Context (env : Env) (ordinal : Syscall → Z).
Implicit Types (g : Kernel P V).

(** The frames of a task can be given back. *)
Lemma releasable g0 g r t :
  sched_start (ks_sched g0) → fa_inv (k_pmm (mc_kmem (sc_machine (ks_sched g0)))) → rtc (kernel_step env) g0 g →
  let s := ks_sched g in sc_heap s !! r = Some t →
  Forall (λ e, mp_allocated e = true ∧ fa_managed (k_pmm (mc_kmem (sc_machine s))) (mp_padr e) ∧ good_frame (mp_padr e))
    (mm_mappings (t_memory_map t)).
Proof.
  intros Hst Hp Hsteps s Hr. destruct (reachable_own env g0 g Hst Hp Hsteps) as [Ho _].
  destruct (maps_loaded env g0 g r t Hst Hsteps Hr) as [_ Hal]. rewrite Forall_forall in Hal |- *. intros e He.
  destruct (ow_used _ _ Ho r (t_memory_map t) (mp_padr e)) as (_ & ? & ?).
  - unfold maps. change (ks_sched g) with s. by rewrite lookup_fmap, Hr.
  - unfold mm_frames. apply list_elem_of_omap. exists e. by rewrite Hal.
  - split_and!; [by apply Hal|done|done].
Qed.

(** The first task of the list that waits is found first. *)
Lemma next_current_first locked p (s : Sched P V) r t rest :
  pi_current p = None → sc_tasks s = r :: rest → sc_heap s !! r = Some t → t_state t = Pending → locked r = false →
  next_current env locked p s = Some r.
Proof.
  intros Hp Ht Hr Hst Hl. unfold next_current. rewrite Hp, Ht. cbn [mbind option_bind list_find].
  rewrite decide_True; [done|]. split; [done|]. by rewrite Hr, <- Hst.
Qed.

(** C35. A program runs in the memory of another that has ended.  In any state
    the kernel reaches, let a task with its memory map installed exit, and let
    the first of the other tasks be waiting.  The next timer interrupt of the
    core enters that task with its own registers, but in the page tables of
    the task that has ended: none of its own pages is installed, and every
    page of the other still shows the frame it had, with its contents.  All
    these frames are free, so that the allocator may hand them out while the
    task uses them. *)
Theorem next_task_in_freed_memory {A} fuel c la regs u code g0 g r t r' t' rest p4 lv :
  ordinal_ok ordinal → in_width 64 (10 * env_numcores env) → sched_start (ks_sched g0) →
  fa_inv (k_pmm (mc_kmem (sc_machine (ks_sched g0)))) → rtc (kernel_step env) g0 g →
  let s := ks_sched g in let m := sc_machine s in
  runs c r t g → kmem_inv (mc_kmem m) p4 lv → ks_lapics g !! c = Some la → sc_clock s + 1 < 2 ^ 64 →
  Forall (installed (mc_kmem m) p4) (mm_mappings (t_memory_map t)) →
  filter (.≠ r) (sc_tasks s) = r' :: rest → sc_heap s !! r' = Some t' → t_state t' = Pending →
  ∃ g1 g2 (m2 := sc_machine (ks_sched g2)),
    exit env ordinal c (S fuel) code (u, g) = Ok (@None A, (u, g1)) ∧
    timer_inter_2 env c false regs false (λ _, false) g1 = Ok (Some (t_procstate t'), g2) ∧
    current_on (ks_sched g2) c r' ∧
    Forall (λ e, installed (mc_kmem m2) p4 e ∧ mp_padr e ∈ fa_free (k_pmm (mc_kmem m2))) (mm_mappings (t_memory_map t)) ∧
    k_mem (mc_kmem m2) = k_mem (mc_kmem m) ∧ mc_ram m2 = mc_ram m.
Proof.
  intros Ho Hn Hst Hp Hsteps s m Hrun Hk Hla Hck Hin Hrest Hr' Hst'.
  pose proof (start_inv env g0 g Hn Hst Hsteps) as Hinv. pose proof (releasable g0 g r t Hst Hp Hsteps) as Hms.
  assert (sc_heap s !! r = Some t) as Hrt by (by destruct Hrun as (? & _ & _ & _ & ?)). specialize (Hms Hrt).
  destruct (@exit_run _ _ _ _ _ _ _ _ env ordinal Ho c A fuel code u g r t p4 lv Hrun Hinv Hk Hms)
    as (p & q & Hc & Ha & Hfree & Hx & Hinv1). set (g1 := set_sched _ g) in Hx, Hinv1.
  assert (r' ≠ r) as Hne.
  { assert (r' ∈ filter (.≠ r) (sc_tasks s)) as [? _]%list_elem_of_filter by (rewrite Hrest; by left). done. }
  set (p1 := set_current None p).
  assert (sc_procs (ks_sched g1) !! c = Some p1) as Hc1 by apply lookup_insert_eq.
  assert (sc_heap (ks_sched g1) !! r' = Some t') as Hr1 by (by apply lookup_delete_Some).
  destruct (timer_run env c p1 la regs false (λ _, false) g1) as (o & g2 & la2 & Hr2 & _ & Hf & Hnext); try done.
  { change (sc_tasks (ks_sched g1)) with (filter (.≠ r) (sc_tasks s)). by rewrite Hrest. }
  { intros r2 t2 Hr2. change (delete r (sc_heap s) !! r2 = Some t2) in Hr2. apply lookup_delete_Some in Hr2 as [_ Hr2]. change (pi_active p1) with (pi_active p). rewrite Ha.
    destruct (maps_loaded env g0 g r t Hst Hsteps Hrt) as [-> _]. by destruct (maps_loaded env g0 g r2 t2 Hst Hsteps Hr2) as [-> _]. }
  rewrite (next_current_first (λ _, false) p1 (ks_sched g1) r' t' rest) in Hf, Hnext by done.
  destruct Hnext as (-> & _). rewrite (tf_regs _ _ _ _ _ _ Hf) in Hr2 by done. rewrite Hr1 in Hr2.
  exists g1, g2. rewrite (tf_machine _ _ _ _ _ _ Hf). split_and!; try done.
  - apply current_on_iff. eexists. split; [apply (tf_core _ _ _ _ _ _ Hf)|done].
  - apply Forall_forall. intros e He. rewrite Forall_forall in Hin. split; [by apply Hin|].
    cbn [g1 set_sched ks_sched without_task sc_machine mc_kmem set_pmm k_pmm]. rewrite Hfree.
    apply elem_of_union_l, elem_of_list_to_set, list_elem_of_fmap. by exists e.
Qed.
End stale.
