(* ===== verification/Power.v ===== *)
(** * From power-on to the first program

    Puts the parts together: [_start] (Start), the start-up of the cores
    (Startup) and the first timer interrupt (Install).  What each part needs
    of the memory is what the part before it leaves. *)

From S2P Require Import Prelude X86 FrameAlloc WindowCache VCache Bootboot Phys Mapper Mem Heap Boot EarlyHeap Elf Tar.
From S2P Require Import Task Exec Sched Init Framebuffer Apic Acpi Cores Startup Interrupts Debug Syscall Install.
From S2P Require Import Handover Start.

Section power.
Context {X : X86} {XO : X86Ok X} {H : HeapCrate} {G : GdtCrate} {GO : GdtCrateOk G} (bt : Boot).
Notation K := (Kmem PhysicalFrameAllocator VCache).
Notation S := (Startup PhysicalFrameAllocator VCache).
Local Notation cr3 := (hw_cr3 (bt_hw bt)).
Implicit Types (y : Sys) (k : K) (u : S) (env : BootEnv).




(** ** The first program *)












End power.
