(* ===== verification/Secure.v ===== *)
(** * Isolation from the first moment

    [Isolation] starts from memory in good order.  Here that memory is what the
    loader's memory becomes: through [_start] ([Start]) and the start-up of the
    cores ([Startup], [Power]). *)

From S2P Require Import Prelude X86 FrameAlloc WindowCache VCache Bootboot Phys Mapper Mem Heap Boot EarlyHeap Elf Tar.
From S2P Require Import Task Exec Sched Init Framebuffer Apic Acpi Cores Startup Interrupts Debug Syscall Trace Owner Install.
From S2P Require Import Isolation Handover Start Power.

Section secure.
Context {X : X86} {XO : X86Ok X} {H : HeapCrate} {G : GdtCrate} {GO : GdtCrateOk G} (bt : Boot).
Notation K := (Kmem PhysicalFrameAllocator VCache).
Notation S := (Startup PhysicalFrameAllocator VCache).
Local Notation cr3 := (hw_cr3 (bt_hw bt)).
Implicit Types (y : Sys) (k : K) (u : S) (env : BootEnv).



End secure.
