(* ===== verification/TaskDemo.v ===== *)
(** * Concrete tasks

    The theorems on loading, scheduling and system calls applied to concrete
    states: the memory of [MemDemo], a small segment, and two tasks on one
    core. *)

From S2P Require Import Prelude X86 FrameAlloc WindowCache VCache Bootboot Phys Mapper Mem Heap MemDemo.
From S2P Require Import Elf Tar Task Exec Sched Init Framebuffer Apic Syscall.

Definition demo_machine : Machine PhysicalFrameAllocator VCache := mkMachine demo_kmem ∅.

(** ** Loading *)

(** Ten bytes at 0x400FFB, so that the segment crosses a page boundary, of
    which the file has four. *)
Definition demo_elf : ElfFile := mkElfFile [1; 2; 3; 4] 0 demo_header 4.
Definition demo_entry : ProgramHeader := mkProgramHeader 1 5 0 0x400FFB 0 4 10 0x1000.
Definition demo_long : ProgramHeader := mkProgramHeader 1 5 0 0x400FFB 0 4 2 0x1000.

Lemma demo_seg_ok : seg_ok demo_elf demo_entry [1; 2; 3; 4].
Proof. split; by vm_compute. Qed.
Lemma demo_long_ok : seg_ok demo_elf demo_long [1; 2; 3; 4].
Proof. split; by vm_compute. Qed.

Lemma demo_tmp_clear n : tmp_clear demo_kmem 0x5000 0 n.
Proof. intros j _. apply demo_clear. Qed.

Lemma exec_load_correct_witness :
  ∃ fs s', exec_load 0 demo_elf demo_entry MemoryMap_new demo_machine =
      Ok (ROk (extend MemoryMap_new (new_mappings 0 0x400000 (seg_flags demo_entry) fs)), s') ∧
    length fs = 2%nat ∧ mc_ram s' !! frame_byte fs 0xFFE = Some 4 ∧ mc_ram s' !! frame_byte fs 0x1002 = Some 0.
Proof.
  destruct (exec_load_correct 0 demo_elf demo_entry [1; 2; 3; 4] MemoryMap_new demo_machine 0x5000 demo_level)
    as (fs & s' & lv' & Hr & _ & Hs & _).
  - exact demo_kmem_inv.
  - lia.
  - exact demo_seg_ok.
  - by vm_compute.
  - change (k_pmm (mc_kmem demo_machine)) with (k_pmm demo_kmem). rewrite demo_frames.
    change (seg_pages demo_entry) with 2. lia.
  - apply demo_tmp_clear.
  - exact demo_room.
  - exists fs, s'. split_and!; [exact Hr|exact (ld_length _ _ _ _ _ _ _ Hs)| |].
    + exact (ld_bytes _ _ _ _ _ _ _ Hs 3 ltac:(simpl; lia)).
    + exact (ld_bytes _ _ _ _ _ _ _ Hs 7 ltac:(simpl; lia)).
Defined.

Lemma exec_load_overlong_panics_witness :
  exec_load 0 demo_elf demo_long MemoryMap_new demo_machine = Panic Bounds.
Proof.
  apply (exec_load_overlong_panics 0 demo_elf demo_long [1; 2; 3; 4] MemoryMap_new demo_machine 0x5000 demo_level).
  - exact demo_kmem_inv.
  - lia.
  - exact demo_long_ok.
  - by vm_compute.
  - change (k_pmm (mc_kmem demo_machine)) with (k_pmm demo_kmem). rewrite demo_frames.
    change (seg_pages demo_long) with 1. lia.
  - apply demo_tmp_clear.
  - exact demo_room.
Defined.

Lemma exec_load_refuses_witness :
  exec_load 0 demo_elf (mkProgramHeader 1 5 0 0x7ffffffff000 0 4 0x1000 0x1000) MemoryMap_new demo_machine =
    Ok (RErr (InsecureLoad 0x7ffffffff000 0x1000, MemoryMap_new), demo_machine) ∧
  ∃ mm s', exec_load 0 demo_elf (mkProgramHeader 1 5 0 0x400000 0 4 0x300000 0x1000) MemoryMap_new demo_machine =
    Ok (RErr (AllocationError, mm), s') ∧ fa_free (k_pmm (mc_kmem s')) = fa_free (k_pmm (mc_kmem demo_machine)).
Proof.
  split.
  - destruct (exec_load_refuses 0 demo_elf (mkProgramHeader 1 5 0 0x7ffffffff000 0 4 0x1000 0x1000)
      MemoryMap_new demo_machine) as (_ & _ & H & _); [by vm_compute|by vm_compute|]. apply H; by vm_compute.
  - destruct (exec_load_refuses 0 demo_elf (mkProgramHeader 1 5 0 0x400000 0 4 0x300000 0x1000)
      MemoryMap_new demo_machine) as (_ & _ & _ & _ & _ & H); [by vm_compute|by vm_compute|].
    destruct (H [1; 2; 3; 4] 0x5000 demo_level) as (fs & p' & Hr & _ & _ & Hf); [by vm_compute..|exact demo_kmem_inv| |].
    + change (mc_kmem demo_machine) with demo_kmem. rewrite demo_frames.
      change (Z.to_nat (seg_pages (mkProgramHeader 1 5 0 0x400000 0 4 0x300000 0x1000))) with 768%nat. lia.
    + eexists _, _. split; [exact Hr|exact Hf].
Defined.

Lemma allocate_correct_witness :
  ∃ fs p', allocate 0x400000 2 0 MemoryMap_new demo_kmem =
      Ok ((Some fs, extend MemoryMap_new (new_mappings 0 0x400000 0 fs)), set_pmm p' demo_kmem) ∧
    length fs = 2%nat.
Proof.
  destruct (allocate_correct 2 0x400000 0 MemoryMap_new demo_kmem 0x5000 demo_level)
    as (fs & p' & o & Hr & _ & _ & H).
  - lia.
  - unfold PAGE_SIZE. lia.
  - by vm_compute.
  - intros j Hj. assert (j = 0 ∨ j = 1) as [-> | ->] by lia; by vm_compute.
  - exact demo_kmem_inv.
  - rewrite demo_frames in H. rewrite bool_decide_eq_true_2 in H by (simpl; lia).
    destruct H as (-> & Hlen & _). exists fs, p'. split; [exact Hr|exact Hlen].
Defined.

Definition demo_regs : TaskProcState :=
  mkTaskProcState 0x400FFB 0x200 0x23 0x1B USERSTACK_BOTTOM 1 2 3 4 5 6 7 8 9 10 11 12 13 14 15.

Lemma procstate_apply_roundtrip_witness :
  procstate_apply (encode_fields (procstate_fields demo_regs) ++ [0]) = Ok demo_regs.
Proof.
  apply (procstate_apply_roundtrip demo_regs [0]). unfold procstate_fields. simpl.
  repeat apply Forall_cons_2; try done; by vm_compute.
Defined.

(** A file with a note, which is skipped, and a segment whose four bytes follow
    the headers. *)
Definition demo_note : ProgramHeader := mkProgramHeader 4 4 0 0 0 0 0 8.
Definition demo_load : ProgramHeader := mkProgramHeader 1 5 176 0x400FFB 0 4 10 0x1000.
Definition demo_prog_header : FileHeader :=
  mkFileHeader (fh_id demo_header) 2 62 1 0x400FFB 64 0 0 64 56 2 0 0 0.
Definition demo_prog : ElfFile :=
  let bytes := encode_file demo_prog_header [demo_note; demo_load] [1; 2; 3; 4] in
  mkElfFile bytes 0x1000 demo_prog_header (Z.of_nat (length bytes)).

Lemma demo_prog_headers : headers demo_prog 0 [(demo_load, [1; 2; 3; 4])].
Proof.
  eapply (headers_skip _ 0 demo_note 1 Note); [by vm_compute|by vm_compute|done|].
  eapply (headers_load _ 1 demo_load 2); [by vm_compute|by vm_compute|split; by vm_compute|by vm_compute|].
  apply headers_end. by vm_compute.
Qed.

Lemma exec_map_correct_witness :
  ∃ fss stack s', exec_map 0 demo_prog demo_machine =
      Ok (ROk (extend MemoryMap_new (seg_mappings [(demo_load, [1; 2; 3; 4])] fss ++
        new_mappings 0 USERSTACK_TOP stack_flags stack)), s') ∧
    length stack = 128%nat ∧ NoDup (mjoin fss ++ stack).
Proof.
  destruct (exec_map_correct 0 demo_prog [(demo_load, [1; 2; 3; 4])] demo_machine 0x5000 demo_level 128)
    as (fss & stack & s' & lv' & Hr & _ & _ & Hlen & _ & [Hnd _] & _).
  - exact demo_prog_headers.
  - exact demo_kmem_inv.
  - lia.
  - change (k_pmm (mc_kmem demo_machine)) with (k_pmm demo_kmem). rewrite demo_frames.
    change (frames_for [(demo_load, [1; 2; 3; 4])]) with 8%nat. change (Z.to_nat STACK_PAGES) with 128%nat. lia.
  - apply demo_tmp_clear.
  - apply Forall_cons_2; [by vm_compute|done].
  - by vm_compute.
  - exact demo_room.
  - exists fss, stack, s'. split_and!; [exact Hr|exact Hlen|exact Hnd].
Defined.

(** ** Scheduling *)

(** Two tasks; the first runs on core 0 since tick 5, and owns one frame. *)
Definition demo_map : MemoryMap := extend MemoryMap_new (new_mappings 0 0x400000 4 [0x401000]).
Definition demo_task (id : Z) : Task := mkTask id 0 demo_regs demo_map Pending.
Definition demo_proc : ProcInfo := mkProcInfo 0 None 1000 (Some 0).
Definition demo_boot : Sched PhysicalFrameAllocator VCache :=
  mkSched demo_machine [] ∅ 0 0 0 {[ 0 := demo_proc ]}.
Definition demo_sched : Sched PhysicalFrameAllocator VCache :=
  with_state 0 demo_proc (Some 0%nat) 0%nat (demo_task 1) (Running 5)
    (set_clock 7 (with_task (demo_task 2) (with_task (demo_task 1) demo_boot))).
Definition demo_current : ProcInfo := set_current (Some 0%nat) demo_proc.
Definition demo_env : Env := mkEnv 2 None [] 0x23 0x1B 0x200.

Lemma demo_boot_start : sched_start demo_boot.
Proof.
  split_and!; try done. intros c p Hc. simpl in Hc. apply lookup_singleton_Some in Hc as [_ <-]. done.
Qed.

Lemma demo_sched_inv : sched_inv demo_sched.
Proof.
  apply pick_inv; try done. apply set_clock_inv; [simpl; lia|].
  do 2 (apply with_task_inv; try done). apply sched_start_inv, demo_boot_start.
Qed.

Lemma demo_core : sc_procs demo_sched !! 0 = Some demo_current.
Proof. reflexivity. Qed.

Lemma demo_life : in_width 64 (10 * env_numcores demo_env).
Proof. by vm_compute. Qed.

Lemma tick_correct_witness :
  ∃ s', tick demo_env 0 demo_regs false (λ _, false) demo_sched = Ok (tt, s') ∧
    sc_procs s' !! 0 = Some demo_current.
Proof.
  destruct (tick_correct demo_env 0 demo_current demo_regs false (λ _, false) demo_sched) as (s' & Hr & Hf).
  - exact demo_sched_inv.
  - exact demo_core.
  - done.
  - done.
  - exact demo_life.
  - done.
  - exists s'. split; [exact Hr|]. exact (tf_core _ _ _ _ _ _ Hf).
Defined.

Lemma tick_miss_bounded_witness :
  ∃ l1 x s1 s2, for_ l1 (λ '(ps, busy), tick demo_env 0 ps busy (λ _, false)) demo_sched = Ok (tt, s1) ∧
    tick demo_env 0 (fst x) (snd x) (λ _, false) s1 = Ok (tt, s2) ∧ sc_clock s2 = 8.
Proof.
  destruct (tick_miss_bounded demo_env 0 demo_sched (replicate 12 (demo_regs, true)) (λ _, false))
    as (l1 & x & l2 & s1 & s2 & _ & H1 & H2 & H3).
  - exact demo_sched_inv.
  - intros c p Hc. simpl in Hc. rewrite insert_singleton_eq in Hc. apply lookup_singleton_Some in Hc as [_ <-].
    by vm_compute.
  - by eexists.
  - done.
  - done.
  - exact demo_life.
  - done.
  - exists l1, x, s1, s2. split_and!; [exact H1|exact H2|exact H3].
Defined.

(** A hundred ticks, with the list busy at every other one and the second task
    locked. *)
Definition demo_ticks : list (Z * TaskProcState * bool * (nat → bool)) :=
  (λ i, (0, demo_regs, Nat.odd i, λ r, bool_decide (r = 1%nat))) <$> seq 0 100.

Lemma first_task_keeps_core_witness :
  ∃ s', for_ demo_ticks (λ '(c', ps, busy, locked), tick demo_env c' ps busy locked) demo_sched = Ok (tt, s') ∧
    current_on s' 0 0 ∧ sc_heap s' !! 1%nat = sc_heap demo_sched !! 1%nat.
Proof.
  destruct (first_task_keeps_core demo_env 0 0%nat [1%nat] demo_sched demo_ticks)
    as (s' & Hr & Hc & _ & Hrest).
  - exact demo_sched_inv.
  - apply (bool_decide_unpack _). vm_compute. exact I.
  - reflexivity.
  - reflexivity.
  - by vm_compute.
  - exact demo_life.
  - apply Forall_fmap, Forall_forall. intros i _. split; [by eexists|done].
  - exists s'. split_and!; [exact Hr|exact Hc|]. apply Hrest; [|lia].
    apply Forall_fmap, Forall_forall. intros i _. reflexivity.
Defined.

(** Two pending tasks of different priorities on an idle core. *)
Definition demo_ranked : Sched PhysicalFrameAllocator VCache :=
  mkSched demo_machine [0%nat; 1%nat]
    {[ 0%nat := mkTask 1 1 demo_regs demo_map Pending; 1%nat := mkTask 2 7 demo_regs demo_map Pending ]}
    2 2 7 {[ 0 := demo_proc ]}.

Lemma best_task_wrong_index_witness :
  ∃ s', pick_task 0 7 (λ _, false) demo_ranked = Ok (tt, s') ∧
    pi_current <$> sc_procs s' !! 0 = Some (Some 0%nat) ∧ t_state <$> sc_heap s' !! 0%nat = Some Pending.
Proof.
  destruct (best_task_wrong_index 0 demo_proc 7 0%nat 1%nat (mkTask 1 1 demo_regs demo_map Pending)
    (mkTask 2 7 demo_regs demo_map Pending) demo_ranked) as (s' & Hr & Hc & Hs & _); try reflexivity.
  - done.
  - exists s'. split_and!; [exact Hr|exact Hc|exact Hs].
Defined.

Lemma demo_managed : fa_managed demo_pfa 0x401000.
Proof.
  apply (fa_free_managed demo_pfa); [exact demo_pfa_inv|].
  apply (bool_decide_unpack _). vm_compute. done.
Qed.

Lemma exit_current_correct_witness :
  ∃ s', exit_current 0 0 demo_sched = Ok (tt, s') ∧ sc_tasks s' = [1%nat].
Proof.
  destruct (exit_current_correct 0 demo_current 0%nat (set_state (Running 5) (demo_task 1)) 0 demo_sched
    0x5000 demo_level) as (s' & Hr & _ & Ht & _).
  - exact demo_sched_inv.
  - exact demo_core.
  - reflexivity.
  - reflexivity.
  - exact demo_kmem_inv.
  - apply Forall_cons_2; [|done]. split_and!; [reflexivity|exact demo_managed|by vm_compute].
  - exists s'. split; [exact Hr|exact Ht].
Defined.

(** ** Boot *)

(** A ramdisk whose only file is the program above. *)
Definition demo_bytes : list Z := encode_file demo_prog_header [demo_note; demo_load] [1; 2; 3; 4].
Definition demo_init_env : Env :=
  mkEnv 2 (Some {[ INIT_PATH := InitrdFile 0 180 ]}) demo_bytes 0x23 0x1B 0x200.
Definition demo_init_elf : ElfFile := mkElfFile demo_bytes INITRD_START demo_prog_header 180.

Lemma demo_init_headers : headers demo_init_elf 0 [(demo_load, [1; 2; 3; 4])].
Proof.
  eapply (headers_skip _ 0 demo_note 1 Note); [by vm_compute|by vm_compute|done|].
  eapply (headers_load _ 1 demo_load 2); [by vm_compute|by vm_compute|split; by vm_compute|by vm_compute|].
  apply headers_end. by vm_compute.
Qed.

Lemma demo_fits : fits demo_machine 0 0x5000 demo_level [(demo_load, [1; 2; 3; 4])].
Proof.
  split; [exact demo_kmem_inv|lia| |apply demo_tmp_clear|exact demo_room].
  change (k_pmm (mc_kmem demo_machine)) with (k_pmm demo_kmem). rewrite demo_frames.
  change (frames_for [(demo_load, [1; 2; 3; 4])]) with 8%nat. change (Z.to_nat STACK_PAGES) with 128%nat. lia.
Qed.

Lemma first_tick_runs_init_witness :
  ∃ s' r t, tick demo_init_env 0 demo_regs false (λ _, false) demo_boot = Ok (tt, s') ∧
    current_on s' 0 r ∧ sc_heap s' !! r = Some t ∧ rip (t_procstate t) = 0x400FFB.
Proof.
  destruct (first_tick_runs_init demo_init_env 0 demo_proc demo_regs 0 180 demo_init_elf
    [(demo_load, [1; 2; 3; 4])] demo_boot 0x5000 demo_level)
    as (s' & r & t & Hr & _ & _ & Hc & Ht & _ & _ & Hps & _).
  - exact demo_boot_start.
  - reflexivity.
  - done.
  - by vm_compute.
  - vm_compute. reflexivity.
  - vm_compute. reflexivity.
  - exact demo_init_headers.
  - exact demo_fits.
  - exists s', r, t. split_and!; [exact Hr|exact Hc|exact Ht|]. rewrite Hps. vm_compute. reflexivity.
Defined.

(** ** System calls *)

Definition demo_kernel : Kernel PhysicalFrameAllocator VCache :=
  mkKernel demo_sched (mkVideo demo_fb ∅) {[ 0 := demo_lapic ]} 0.
Definition demo_ordinal (sc : Syscall) : Z :=
  match sc with Exit _ => 0 | GetPid => 1 | DebugDraw _ _ _ _ _ => 2 | Spawn _ _ => 3 end.
Lemma demo_ordinal_ok : ordinal_ok demo_ordinal.
Proof. by split. Qed.

Lemma syscall_protocol_witness :
  Syscall_try_from (syscall_handle_1 (call_begin demo_ordinal (Spawn 0x1000 9) demo_regs)) =
    Some (Spawn 0x1000 9).
Proof. apply (syscall_protocol demo_ordinal (Spawn 0x1000 9) demo_regs Invalid demo_ordinal_ok); reflexivity. Defined.

(** The first interrupt finds the task list busy. *)
Definition demo_first : Kernel PhysicalFrameAllocator VCache :=
  mkKernel demo_boot (mkVideo demo_fb ∅) {[ 0 := demo_lapic ]} 0.

Definition demo_second : Kernel PhysicalFrameAllocator VCache :=
  mkKernel (set_procs {[ 0 := set_tick_miss 1 demo_proc ]} demo_boot) (mkVideo demo_fb ∅)
    {[ 0 := mkLapic 0 0 0 0 0 0 (2 ^ 32 - 1) 0 ]} 0.

Lemma kernel_reachable_inv_witness :
  kernel_step demo_env demo_first demo_second ∧ NoDup (sc_tasks (ks_sched demo_second)).
Proof.
  assert (kernel_step demo_env demo_first demo_second) as Hstep.
  { apply (step_timer demo_env 0 false demo_regs true (λ _, false) demo_first None); [lia|done|]. reflexivity. }
  split; [exact Hstep|].
  apply (kernel_reachable_inv demo_env demo_first demo_second).
  - exact demo_life.
  - exact demo_boot_start.
  - apply rtc_once. exact Hstep.
Defined.

Lemma syscall_getpid_correct_witness :
  ∃ u k', syscall_handle_2 demo_env 0 (call_begin demo_ordinal GetPid demo_regs) demo_kernel = Ok (Some u, k') ∧
    getpid_result (call_end u) = Ok 1.
Proof.
  destruct (syscall_getpid_correct demo_env 0 demo_current 0%nat (set_state (Running 5) (demo_task 1))
    (call_begin demo_ordinal GetPid demo_regs) demo_kernel) as (k' & Hr & Hp & _); try reflexivity.
  eexists _, k'. split; [exact Hr|exact Hp].
Defined.

Lemma syscall_draw_panics_witness :
  syscall_handle_2 demo_env 0 (call_begin demo_ordinal (DebugDraw 4 0 1 2 3) demo_regs) demo_kernel = Panic Assert.
Proof.
  apply (syscall_draw_panics demo_env 0 demo_current 0%nat (set_state (Running 5) (demo_task 1))
    (call_begin demo_ordinal (DebugDraw 4 0 1 2 3) demo_regs) demo_kernel 4 0 1 2 3); try reflexivity;
    try (simpl; lia).
  by left.
Defined.

Lemma timer_acknowledges_witness :
  ∃ o k' l', timer_inter_2 demo_env 0 false demo_regs false (λ _, false) demo_kernel = Ok (o, k') ∧
    ks_lapics k' !! 0 = Some l' ∧ initcountreg l' = 1000.
Proof.
  destruct (timer_acknowledges demo_env 0 demo_current demo_lapic demo_regs false (λ _, false) demo_kernel)
    as (o & k' & l' & Hr & Hl & H).
  - exact demo_sched_inv.
  - exact demo_core.
  - reflexivity.
  - done.
  - done.
  - exact demo_life.
  - done.
  - intros r t Hr. simpl in Hr. repeat (apply lookup_insert_Some in Hr as [[_ <-]|[_ Hr]]; [reflexivity|]). done.
  - exists o, k', l'. split_and!; [exact Hr|exact Hl|].
    assert (next_current demo_env (λ _, false) demo_current demo_sched = Some 0%nat) as E by (vm_compute; reflexivity).
    change (ks_sched demo_kernel) with demo_sched in H. rewrite E in H. destruct H as (_ & _ & ->). reflexivity.
Defined.
