(* ===== verification/InstallDemo.v ===== *)
(** * The first interrupt on a concrete machine

    The theorems on entering a task and on the ownership of frames applied to
    the ramdisk of [TaskDemo] and a memory map with a region more, which has
    the frames that loading and installing a program may take. *)

From S2P Require Import Prelude X86 FrameAlloc WindowCache VCache Bootboot Phys Mapper Mem Heap MemDemo.
From S2P Require Import Elf Tar Task Exec Sched Init Framebuffer Apic Syscall Owner Install TaskDemo.

(** The memory map of [demo_bb] and 1023 pages at 8 MiB. *)
Definition large_bb : BootBoot := {|
  bb_magic := [0x42; 0x4F; 0x4F; 0x54];
  bb_size := sizeof_BootBoot + 3 * sizeof_MMapEnt;
  bb_protocol := 2; bb_fb_type := 0; bb_numcores := 2; bb_bspid := 0; bb_timezone := 0;
  bb_datetime := [0x20; 0x24; 0x06; 0x01; 0; 0; 0; 0];
  bb_initrd_ptr := 0x8000; bb_initrd_size := 0x1000;
  bb_fb_ptr := 0xE0000000; bb_fb_size := 1228800;
  bb_fb_width := 640; bb_fb_height := 480; bb_fb_scanline := 2560;
  bb_arch := mkArchx86 0xE0000 0 0 0 0 0 0 0;
  bb_mmap := [mkMMapEnt 0 0x200000; mkMMapEnt 0x200000 0x1FF001; mkMMapEnt 0x400000 0x40001;
    mkMMapEnt 0x800000 0x3FF001];
|}.
Definition large_pfa : PhysicalFrameAllocator :=
  match phys_init large_bb with Ok p => p | Panic _ => mkPFA [] 0 0 end.

Lemma large_bb_wf : bb_wf large_bb.
Proof.
  split_and!; [done|done|vm_compute; split; [discriminate|done]| |].
  - simpl. repeat apply Forall_cons_2; [..|done];
      (split_and!; [split; [vm_compute; discriminate|reflexivity]..|vm_compute; discriminate|]).
    + intros Hu. vm_compute in Hu. discriminate.
    + intros _. split; reflexivity.
    + intros _. split; reflexivity.
    + intros _. split; reflexivity.
  - simpl. split_and!; repeat apply Forall_cons_2; try done;
      intros Hu Hu'; vm_compute in Hu, Hu'; try discriminate; left; vm_compute; discriminate.
Qed.

Lemma large_headers :
  usable_headers large_bb =
    [] ++ mkSegmentHeader MAGIC 0x800000 0x3FF000 ::
    [mkSegmentHeader MAGIC 0x400000 0x40000; mkSegmentHeader MAGIC 0x200000 0x1FF000].
Proof. vm_compute. reflexivity. Qed.

Lemma large_pfa_inv : pfa_inv large_pfa.
Proof.
  destruct (phys_init_run large_bb _ _ _ large_bb_wf large_headers) as (p & Hr & Hp & _).
  - constructor.
  - vm_compute. reflexivity.
  - by apply ident_ok_ref.
  - unfold large_pfa. by rewrite Hr.
Qed.

Lemma large_frames : base.size (fa_free large_pfa) = 1533%nat.
Proof. vm_compute. reflexivity. Qed.

Definition large_kmem : Kmem PhysicalFrameAllocator VCache := mkKmem large_pfa demo_cache1 demo_mem START_ADDR [].
(** A core that has no memory map installed yet. *)
Definition fresh_proc : ProcInfo := mkProcInfo 0 None 1000 None.
Definition large_boot : Sched PhysicalFrameAllocator VCache :=
  mkSched (mkMachine large_kmem ∅) [] ∅ 0 0 0 {[ 0 := fresh_proc ]}.
Definition large_first : Kernel PhysicalFrameAllocator VCache :=
  mkKernel large_boot (mkVideo demo_fb ∅) {[ 0 := demo_lapic ]} 0.

Lemma large_kmem_inv : kmem_inv large_kmem 0x5000 demo_level.
Proof. apply empty_kmem_inv; [exact large_pfa_inv|]. apply (bool_decide_unpack _). vm_compute. done. Qed.

Lemma large_boot_start : sched_start large_boot.
Proof.
  split_and!; try done. intros c p Hc. simpl in Hc. apply lookup_singleton_Some in Hc as [_ <-]. done.
Qed.

Lemma large_fits : fits (mkMachine large_kmem ∅) 0 0x5000 demo_level [(demo_load, [1; 2; 3; 4])].
Proof.
  split; [exact large_kmem_inv|lia| |intros j _; apply demo_clear|exact demo_room].
  change (k_pmm (mc_kmem (mkMachine large_kmem ∅))) with large_pfa. rewrite large_frames.
  change (frames_for [(demo_load, [1; 2; 3; 4])]) with 8%nat. change (Z.to_nat STACK_PAGES) with 128%nat. lia.
Qed.

Lemma large_pages : pages_free large_kmem 0x5000 [(demo_load, [1; 2; 3; 4])].
Proof.
  split; [apply (bool_decide_unpack _); vm_compute; done|].
  apply Forall_forall. intros q _. apply demo_clear.
Qed.

Lemma large_enough :
  (frames_for [(demo_load, [1%Z; 2%Z; 3%Z; 4%Z])] + 4 * Z.to_nat STACK_PAGES +
    3 * length (program_pages [(demo_load, [1%Z; 2%Z; 3%Z; 4%Z])]) ≤ base.size (fa_free large_pfa))%nat.
Proof.
  rewrite large_frames. change (frames_for [(demo_load, [1; 2; 3; 4])]) with 8%nat.
  change (Z.to_nat STACK_PAGES) with 128%nat.
  assert (length (program_pages [(demo_load, [1; 2; 3; 4])]) = 130%nat) as -> by (vm_compute; reflexivity). lia.
Qed.

Lemma large_enters :
  ∃ g' r t, timer_inter_2 demo_init_env 0 false demo_regs false (λ _, false) large_first =
      Ok (Some (start_state demo_init_env demo_init_elf), g') ∧
    sc_heap (ks_sched g') !! r = Some t ∧ (130 ≤ length (mm_mappings (t_memory_map t)))%nat.
Proof.
  destruct (timer_enters_run demo_init_env 0 false fresh_proc demo_lapic demo_regs 0 180 demo_init_elf
    [(demo_load, [1; 2; 3; 4])] large_first 0x5000 demo_level)
    as (g' & la' & r & t & Hr & Hen & _); try reflexivity.
  - done.
  - exact large_boot_start.
  - by vm_compute.
  - exact demo_init_headers.
  - exact large_fits.
  - exact large_pages.
  - exact large_enough.
  - exists g', r, t. split_and!; [exact Hr|apply Hen|]. pose proof (et_pages _ _ _ _ _ _ _ _ Hen) as Hlen.
    assert (length (program_pages [(demo_load, [1; 2; 3; 4])]) = 130%nat) as E by (vm_compute; reflexivity).
    by rewrite E in Hlen.
Qed.

(** The two frames of its segment belong to the task alone. *)
Lemma frames_owned_once_witness :
  ∃ g' r t, kernel_step demo_init_env large_first g' ∧ sc_heap (ks_sched g') !! r = Some t ∧
    (130 ≤ length (mm_mappings (t_memory_map t)))%nat ∧
    ∀ f, f ∈ mm_frames (t_memory_map t) → f ∉ fa_free (k_pmm (mc_kmem (sc_machine (ks_sched g')))).
Proof.
  destruct large_enters as (g' & r & t & Hr & Hlk & Hlen).
  assert (kernel_step demo_init_env large_first g') as Hstep.
  { eapply (step_timer demo_init_env 0 false demo_regs false (λ _, false) large_first); [lia|done|exact Hr]. }
  exists g', r, t. split_and!; [exact Hstep|exact Hlk|exact Hlen|].
  destruct (frames_owned_once demo_init_env large_first g') as [_ H].
  - exact large_boot_start.
  - exact large_pfa_inv.
  - apply rtc_once. exact Hstep.
  - intros f Hf. exact (proj1 (H r t f Hlk Hf)).
Defined.

Lemma timer_enters_init_witness :
  ∃ g' r t, timer_inter_2 demo_init_env 0 false demo_regs false (λ _, false) large_first =
      Ok (Some (start_state demo_init_env demo_init_elf), g') ∧
    user_byte (sc_machine (ks_sched g')) 0x400FFE 4 ∧ user_byte (sc_machine (ks_sched g')) 0x401002 0 ∧
    sc_heap (ks_sched g') !! r = Some t.
Proof.
  destruct (timer_enters_init demo_init_env 0 false fresh_proc demo_lapic demo_regs 0 180 demo_init_elf
    [(demo_load, [1; 2; 3; 4])] large_first 0x5000 demo_level)
    as (g' & la' & r & t & Hr & Hseen & _ & Hlk & _).
  - done.
  - exact large_boot_start.
  - reflexivity.
  - reflexivity.
  - reflexivity.
  - done.
  - by vm_compute.
  - vm_compute. reflexivity.
  - vm_compute. reflexivity.
  - exact demo_init_headers.
  - exact large_fits.
  - exact large_pages.
  - exact large_enough.
  - exists g', r, t. split_and!; [exact Hr| | |].
    + apply (ps_segment _ _ _ Hseen (demo_load, [1; 2; 3; 4]) 3); [by left|simpl; lia].
    + apply (ps_segment _ _ _ Hseen (demo_load, [1; 2; 3; 4]) 7); [by left|simpl; lia].
    + exact Hlk.
Defined.
