(* ===== verification/UserDemo.v ===== *)
(** * The two programs on a concrete machine

    A ramdisk with a program that carries the path of the other, and the
    theorems on user programs applied to it. *)

From S2P Require Import Prelude X86 FrameAlloc WindowCache VCache Bootboot Phys Mapper Mem Heap MemDemo.
From S2P Require Import Elf Tar Task Exec Sched Init Framebuffer Apic Syscall Install User TaskDemo InstallDemo.

(** [init]: one segment, whose bytes are the path. *)
Definition path_load : ProgramHeader := mkProgramHeader 1 5 120 0x400FFB 0 10 10 0x1000.
Definition path_header : FileHeader :=
  mkFileHeader (fh_id demo_header) 2 62 1 0x400FFB 64 0 0 64 56 1 0 0 0.
Definition path_bytes : list Z := encode_file path_header [path_load] DUMMY_PATH.
Definition path_elf : ElfFile := mkElfFile path_bytes INITRD_START path_header 130.

(** [dummy]: the program of [TaskDemo], 512 bytes on. *)
Definition user_env : Env :=
  mkEnv 2 (Some {[ INIT_PATH := InitrdFile 0 130; DUMMY_PATH := InitrdFile 512 180 ]})
    (path_bytes ++ replicate 382 0 ++ demo_bytes) 0x23 0x1B 0x200.
Definition dummy_elf : ElfFile := mkElfFile demo_bytes (INITRD_START + 512) demo_prog_header 180.

Lemma path_file : program_file user_env INIT_PATH path_elf [(path_load, DUMMY_PATH)].
Proof.
  exists 0, 130. split_and!; [by vm_compute|by vm_compute|].
  eapply (headers_load _ 0 path_load 1); [by vm_compute|by vm_compute|split; by vm_compute|by vm_compute|].
  apply headers_end. by vm_compute.
Qed.

Lemma dummy_file : program_file user_env DUMMY_PATH dummy_elf [(demo_load, [1; 2; 3; 4])].
Proof.
  exists 512, 180. split_and!; [by vm_compute|by vm_compute|].
  eapply (headers_skip _ 0 demo_note 1 Note); [by vm_compute|by vm_compute|done|].
  eapply (headers_load _ 1 demo_load 2); [by vm_compute|by vm_compute|split; by vm_compute|by vm_compute|].
  apply headers_end. by vm_compute.
Qed.

Lemma path_string : string_at [(path_load, DUMMY_PATH)] 0x400FFB DUMMY_PATH.
Proof. exists (path_load, DUMMY_PATH), 0%nat. split_and!; [by left|done|by vm_compute|done]. Qed.

Lemma path_fits : fits (mkMachine large_kmem ∅) 0 0x5000 demo_level [(path_load, DUMMY_PATH)].
Proof.
  split; [exact large_kmem_inv|lia| |intros j _; apply demo_clear|exact demo_room].
  change (k_pmm (mc_kmem (mkMachine large_kmem ∅))) with large_pfa. rewrite large_frames.
  change (frames_for [(path_load, DUMMY_PATH)]) with 8%nat. change (Z.to_nat STACK_PAGES) with 128%nat. lia.
Qed.

Lemma path_pages : pages_free large_kmem 0x5000 [(path_load, DUMMY_PATH)].
Proof.
  split; [apply (bool_decide_unpack _); vm_compute; done|].
  apply Forall_forall. intros q _. apply demo_clear.
Qed.

Lemma user_enough :
  (frames_for [(path_load, DUMMY_PATH)] + 4 * Z.to_nat STACK_PAGES + 3 * length (program_pages [(path_load, DUMMY_PATH)]) +
    (frames_for [(demo_load, [1%Z; 2%Z; 3%Z; 4%Z])] + 4 * Z.to_nat STACK_PAGES) ≤ base.size (fa_free large_pfa))%nat.
Proof.
  rewrite large_frames. change (frames_for [(demo_load, [1; 2; 3; 4])]) with 8%nat.
  change (frames_for [(path_load, DUMMY_PATH)]) with 8%nat. change (Z.to_nat STACK_PAGES) with 128%nat.
  assert (length (program_pages [(path_load, DUMMY_PATH)]) = 130%nat) as -> by (vm_compute; reflexivity). lia.
Qed.

Lemma init_spawns_dummy_witness :
  ∃ g1 u' g2, timer_inter_2 user_env 0 false demo_regs false (λ _, false) large_first =
      Ok (Some (start_state user_env path_elf), g1) ∧
    init_run user_env demo_ordinal 0 1 0x400FFB (demo_regs, g1) = Ok (Some (1, Some 2, 1), (u', g2)).
Proof.
  destruct (init_spawns_dummy user_env demo_ordinal 1 0 false fresh_proc demo_lapic demo_regs demo_regs 0x400FFB
    path_elf [(path_load, DUMMY_PATH)] dummy_elf [(demo_load, [1; 2; 3; 4])] large_first 0x5000 demo_level)
    as (g1 & u' & g2 & r & r' & t' & Hr & Hi & _).
  - exact demo_ordinal_ok.
  - done.
  - exact large_boot_start.
  - reflexivity.
  - reflexivity.
  - reflexivity.
  - done.
  - by vm_compute.
  - exact path_file.
  - exact dummy_file.
  - exact path_string.
  - exact path_fits.
  - exact path_pages.
  - exact user_enough.
  - exists g1, u', g2. split; [exact Hr|exact Hi].
Defined.
