(* ===== verification/StaleDemo.v ===== *)
(** * The history of the two programs on a concrete machine

    The theorems of [History], [Isolation] and [Stale] applied to the machine of
    [UserDemo]: the first interrupt enters one program, which starts the
    other. *)

From S2P Require Import Prelude X86 FrameAlloc WindowCache VCache Bootboot Phys Mapper Mem Heap MemDemo.
From S2P Require Import Elf Tar Task Exec Sched Init Framebuffer Apic Syscall Trace Owner History Install Isolation User Stale.
From S2P Require Import TaskDemo InstallDemo UserDemo.

Definition path_segments : list (ProgramHeader * list Z) := [(path_load, DUMMY_PATH)].
Definition dummy_segments : list (ProgramHeader * list Z) := [(demo_load, [1; 2; 3; 4])].

(** The machine after the first interrupt, and when the second task is there. *)
Record two_tasks (g1 g2 : Kernel PhysicalFrameAllocator VCache) (r r' : nat) (t t1 t' : Task) : Prop := {
  tt_steps1 : rtc (kernel_step user_env) large_first g1;
  tt_steps2 : rtc (kernel_step user_env) g1 g2;
  tt_first : sc_heap (ks_sched g1) !! r = Some t;
  tt_only : sc_tasks (ks_sched g1) = [r];
  tt_runs : runs 0 r t1 g2;
  tt_map : t_memory_map t1 = t_memory_map t;
  tt_tasks : sc_tasks (ks_sched g2) = [r; r'];
  tt_second : sc_heap (ks_sched g2) !! r' = Some t';
  tt_pending : t_state t' = Pending;
  tt_start : t_procstate t' = start_state user_env dummy_elf;
  tt_new : r ≠ r' ∧ sc_heap (ks_sched g1) !! r' = None;
  tt_clock : sc_clock (ks_sched g2) = 1;
  tt_lapic : is_Some (ks_lapics g2 !! 0);
  tt_mem : ∃ lv, kmem_inv (mc_kmem (sc_machine (ks_sched g2))) 0x5000 lv;
  tt_installed : Forall (installed (mc_kmem (sc_machine (ks_sched g2))) 0x5000) (mm_mappings (t_memory_map t));
  tt_pages : (130 ≤ length (mm_mappings (t_memory_map t)))%nat;
}.

Lemma two_tasks_reached : ∃ g1 g2 r r' t t1 t', two_tasks g1 g2 r r' t t1 t'.
Proof.
  destruct path_file as (off & len & Hopen & Hparse & Hh). destruct dummy_file as (off' & len' & Hopen' & Hparse' & Hh').
  destruct (timer_enters_run user_env 0 false fresh_proc demo_lapic demo_regs off len path_elf path_segments large_first 0x5000 demo_level)
    as (g1 & la' & r & t & Hr & Hen & Hla & _).
  { done. }
  { exact large_boot_start. }
  { reflexivity. }
  { reflexivity. }
  { reflexivity. }
  { done. }
  { by vm_compute. }
  { exact Hopen. }
  { exact Hparse. }
  { exact Hh. }
  { exact path_fits. }
  { exact path_pages. }
  { eapply Nat.le_trans; [|exact user_enough]. apply Nat.le_add_r. }
  destruct (entered_fits 0 fresh_proc 0x5000 path_segments dummy_segments large_first g1 r t demo_level Hen path_fits user_enough)
    as [lv1 Hfits1].
  assert (runs 0 r t g1) as Hrun by (eexists; split_and!; [apply Hen|done|done|apply Hen]).
  pose proof (et_idcount _ _ _ _ _ _ _ _ Hen) as Eid.
  destruct (init_run_ok user_env demo_ordinal demo_ordinal_ok 0 1 0x400FFB demo_regs g1 r t off' len' dummy_elf dummy_segments 0x5000 lv1)
    as (u' & g2 & mm & Hr2 & Hinv2 & Hclk & Hlap & Ht2 & Hrun2 & Hlk & Hprog & (lv2 & Hk2) & Hkeeps).
  { exact Hrun. }
  { apply Hen. }
  { intros i b Hi. eapply string_seen; [apply Hen|exact path_string|exact Hi]. }
  { exact Hopen'. }
  { exact Hparse'. }
  { exact Hh'. }
  { exact Hfits1. }
  { rewrite Eid. unfold in_width. lia. }
  rewrite (et_tasks _ _ _ _ _ _ _ _ Hen) in Ht2.
  assert (r ≠ sc_next (ks_sched g1)) as Hne by (by eapply runs_ne_next; [exact Hrun|apply Hen]).
  eexists g1, g2, r, (sc_next (ks_sched g1)), t, _, _. split.
  - apply rtc_once. eapply (step_timer user_env 0 false demo_regs false (λ _, false)); [lia|done|exact Hr].
  - eapply init_run_steps; [|exact Hr2]. lia.
  - apply Hen.
  - apply Hen.
  - exact Hrun2.
  - reflexivity.
  - exact Ht2.
  - exact Hlk.
  - reflexivity.
  - reflexivity.
  - split; [done|]. apply eq_None_not_Some. intros [t2 Ht].
    assert (sc_next (ks_sched g1) ∈ sc_tasks (ks_sched g1)) as ?%(si_next _ (et_inv _ _ _ _ _ _ _ _ Hen)); [|lia].
    apply (si_dom _ (et_inv _ _ _ _ _ _ _ _ Hen)). exists (task_view t2). apply has_view_iff. exists t2. split; [exact Ht|reflexivity].
  - rewrite Hclk, (et_clock _ _ _ _ _ _ _ _ Hen). reflexivity.
  - rewrite Hlap. eexists. exact Hla.
  - by exists lv2.
  - eapply Forall_impl; [apply (et_installed _ _ _ _ _ _ _ _ Hen)|]. intros e [Hu Hi]. unfold installed.
    rewrite (kp_other _ _ _ _ _ Hkeeps); [exact Hi|apply Hu|left]. pose proof (um_user _ Hu).
    unfold tmp_start, TMP_TASKLDMAP, KVMSPACE, TMP_TASK_SIZE_PER_PROC. lia.
  - pose proof (et_pages _ _ _ _ _ _ _ _ Hen) as Hlen.
    assert (length (program_pages path_segments) = 130%nat) as E by (vm_compute; reflexivity). by rewrite E in Hlen.
Qed.

(** Between the two moments the first task stays what it was, and the second,
    which is new, has a higher identifier. *)
Lemma task_history_witness :
  ∃ g1 g2 r r' t t1 t', two_tasks g1 g2 r r' t t1 t' ∧ same_task t t1 ∧ sc_idcount (ks_sched g1) < t_id t' ∧
    mm_id (t_memory_map t') = mm_id (t_memory_map t1).
Proof.
  destruct two_tasks_reached as (g1 & g2 & r & r' & t & t1 & t' & H). exists g1, g2, r, r', t, t1, t'. split; [exact H|].
  destruct H as [H1 H2 Ht _ (p & _ & _ & _ & Ht1) _ _ Ht' _ _ [_ Hn] _ _ _ _ _].
  destruct (task_history user_env large_first g1 g2) as (Hsame & _ & Hnew & _ & Hid).
  - by vm_compute.
  - exact large_boot_start.
  - exact H1.
  - exact H2.
  - split_and!; [exact (Hsame r t t1 Ht Ht1)|exact (Hnew r' t' Hn Ht')|].
    by rewrite (Hid r t1 Ht1), (Hid r' t' Ht').
Defined.

(** The first task exits, and the second runs on its 130 pages. *)
Lemma next_task_in_freed_memory_witness :
  ∃ g g1 g2 r t, rtc (kernel_step user_env) large_first g ∧ sc_heap (ks_sched g) !! r = Some t ∧
    exit user_env demo_ordinal 0 1 0 (demo_regs, g) = Ok (@None Z, (demo_regs, g1)) ∧
    timer_inter_2 user_env 0 false demo_regs false (λ _, false) g1 = Ok (Some (start_state user_env dummy_elf), g2) ∧
    (130 ≤ length (mm_mappings (t_memory_map t)))%nat ∧
    Forall (λ e, installed (mc_kmem (sc_machine (ks_sched g2))) 0x5000 e ∧
      mp_padr e ∈ fa_free (k_pmm (mc_kmem (sc_machine (ks_sched g2))))) (mm_mappings (t_memory_map t)).
Proof.
  destruct two_tasks_reached as (g0 & g & r & r' & t0 & t & t' & [H1 H2 _ _ Hrun Hmap Ht Ht' Hpend Hps [Hne _] Hclk [la Hla] [lv Hk] Hin Hlen]).
  assert (rtc (kernel_step user_env) large_first g) as Hsteps by (by etransitivity).
  destruct (next_task_in_freed_memory (A := Z) user_env demo_ordinal 0 0 la demo_regs demo_regs 0 large_first g r t r' t' [] 0x5000 lv)
    as (g1 & g2 & Hx & Htm & _ & Hst & _).
  - exact demo_ordinal_ok.
  - by vm_compute.
  - exact large_boot_start.
  - exact large_pfa_inv.
  - exact Hsteps.
  - exact Hrun.
  - exact Hk.
  - exact Hla.
  - by rewrite Hclk.
  - by rewrite Hmap.
  - rewrite Ht. rewrite filter_cons_False by (intros Hn; by apply Hn). by rewrite filter_cons_True by done.
  - exact Ht'.
  - exact Hpend.
  - rewrite Hps in Htm. destruct Hrun as (p & _ & _ & _ & Hr).
    exists g, g1, g2, r, t. rewrite Hmap in Hst |- *. split_and!; [exact Hsteps|exact Hr|exact Hx|exact Htm|exact Hlen|exact Hst].
Defined.

(** The tables are empty at the start. *)
Lemma large_mem_start : mem_start 0x5000 large_kmem demo_level.
Proof.
  split.
  - exact large_kmem_inv.
  - exact demo_room.
  - intros q _ _. apply demo_clear.
  - intros q _ (f & fl & Htr & _). unfold translate, leaf_entry, page_path in Htr. cbn [walk large_kmem k_mem] in Htr.
    by rewrite demo_next in Htr.
Qed.

(** With both tasks loaded: none of the frames of the first, which has 130
    pages installed, is a table, and no kernel page is open to them. *)
Lemma kernel_space_isolated_witness :
  ∃ g r t, rtc (kernel_step user_env) large_first g ∧ sc_heap (ks_sched g) !! r = Some t ∧
    let k := mc_kmem (sc_machine (ks_sched g)) in
    (130 ≤ length (mm_mappings (t_memory_map t)))%nat ∧ Forall (installed k 0x5000) (mm_mappings (t_memory_map t)) ∧
    (∀ f, f ∈ mm_frames (t_memory_map t) → k_mem k !! f = None) ∧
    (∀ q, kspace_page q → ¬ user_page (k_mem k) 0x5000 q).
Proof.
  destruct two_tasks_reached as (g0 & g & r & r' & t0 & t & t' & [H1 H2 _ _ (p & _ & _ & _ & Hr) Hmap _ _ _ _ _ _ _ _ Hin Hlen]).
  assert (rtc (kernel_step user_env) large_first g) as Hsteps by (by etransitivity).
  destruct (kernel_space_isolated user_env large_first g 0x5000 demo_level) as [_ Hk _ _ Hf].
  - apply (bool_decide_unpack (bytes_ok (env_image user_env))). by vm_compute.
  - exact large_boot_start.
  - exact large_mem_start.
  - exact Hsteps.
  - exists g, r, t. rewrite <-Hmap in Hin, Hlen. cbv zeta. split_and!; [exact Hsteps|exact Hr|exact Hlen|exact Hin| |exact Hk].
    intros f. exact (Hf r t f Hr).
Defined.
