(* ===== verification/PowerDemo.v ===== *)
(** * A machine that boots

    The theorem on booting applied to a concrete machine: the memory map of
    [InstallDemo], page tables with an empty root, the firmware tables of
    [AcpiDemo] and a ramdisk with one program. *)

From S2P Require Import Prelude X86 FrameAlloc WindowCache VCache Bootboot Phys Mapper Mem Heap MemDemo Boot EarlyHeap.
From S2P Require Import Elf Tar Task Exec Sched Init Framebuffer Apic Acpi AcpiDemo Cores Startup Interrupts Debug.
From S2P Require Import CoresDemo Syscall Owner Install Isolation TaskDemo InstallDemo Handover Start Power Secure.

















